(** * GPT-2 forward pass (gpt2_optimized.c): a shallow embedding and its properties

    The C program is embedded as monadic Rocq functions over an explicit
    heap: every [malloc] creates a fresh block, every array access is
    bounds-checked, and a failed check is a [Fault].  Floating-point
    arithmetic is kept abstract (class [FloatOps]): the statements hold
    for every arithmetic, in particular for IEEE binary32/binary64, which
    is given as an instance at the end of the definitions. *)

From Stdlib Require Import ZArith Lia.
From Stdlib Require Import SpecFloat.
From stdpp Require Import base tactics option list.

Local Open Scope Z_scope.

(* ===================================================================== *)
(** * Part 1: the embedding                                               *)
(* ===================================================================== *)

(** ** Architectural constants (the #define lines) *)

Definition EMBEDDING_SIZE : Z := 768.
Definition NUM_BLOCKS : Z := 12.
Definition NUM_HEADS : Z := 12.
Definition HEAD_DIM : Z := EMBEDDING_SIZE / NUM_HEADS.
Definition VOCAB_SIZE : Z := 50257.
Definition MAX_POSITION_EMBEDDINGS : Z := 1024.

(** ** Arithmetic

    [F] stands for C's [float], [D] for [double].  The operations are the
    ones the source uses: float +, -, *, /, the conversion of an [int] to
    [float], the double-precision [sqrt], + and / of math.h and of the
    usual arithmetic conversions, and the two conversions between the
    formats. *)

Class FloatOps (F D : Type) := {
  f_zero : F;                (* 0.0f *)
  f_one : F;                 (* 1.0f *)
  f_half : F;                (* 0.5f *)
  f_add : F -> F -> F;
  f_sub : F -> F -> F;
  f_mul : F -> F -> F;
  f_div : F -> F -> F;
  f_of_int : Z -> F;         (* (float) i *)
  d_eps : D;                 (* EPSILON, the double literal 1e-5 *)
  d_add : D -> D -> D;
  d_div : D -> D -> D;
  d_sqrt : D -> D;
  f2d : F -> D;              (* float promoted to double *)
  d2f : D -> F               (* double stored into a float *)
}.

(** ** Pointers, structs, memory cells *)

(** A pointer is a block identifier and a cell offset inside the block. *)
Record ptr := Ptr { blk : nat; off : Z }.

Definition padd (p : ptr) (i : Z) : ptr := Ptr (blk p) (off p + i).
Infix "+ₚ" := padd (at level 50, left associativity).

Record LinearLayer := {
  weights : ptr;        (* weights[fcOutputSize][fcInputSize] *)
  biases : ptr;         (* biases[fcOutputSize] *)
  fcInputSize : Z;
  fcOutputSize : Z
}.

Record BlockWeights := {
  q_mlp : LinearLayer;
  k_mlp : LinearLayer;
  v_mlp : LinearLayer;
  first_block_MLP : LinearLayer;
  second_block_MLP : LinearLayer
}.

Record GPT2Weights := {
  wpe : ptr;            (* positional embeddings *)
  wte : ptr;            (* token embeddings *)
  blocks : ptr;         (* BlockWeights blocks[NUM_BLOCKS] *)
  logits_mlp : LinearLayer
}.

(** One cell holds one array element, whatever its C type. *)
Inductive val (F : Type) :=
| VUndef                              (* fresh from malloc *)
| VFloat (f : F)
| VInt (z : Z)
| VPtr (p : ptr)
| VBlock (w : BlockWeights).
Arguments VUndef {F}.
Arguments VFloat {F} f.
Arguments VInt {F} z.
Arguments VPtr {F} p.
Arguments VBlock {F} w.

(** The heap: block [b] is the [b]-th entry; [None] is a freed block. *)
Abbreviation heap F := (list (option (list (val F)))).

Inductive error :=
| OutOfBounds        (* access outside the cells of a live block *)
| InvalidPointer     (* block never allocated or already freed, or bad free *)
| Uninitialized      (* a cell read at a type it does not hold *)
| BadAlloc           (* negative allocation size *)
| Misaligned         (* aligned SSE access at an address that is no multiple of 16 *)
| OutOfFuel.         (* loop longer than its trip-count bound *)

Inductive outcome (A : Type) :=
| Ok (a : A)
| Fault (e : error).
Arguments Ok {A} a.
Arguments Fault {A} e.

(** The four float lanes of an SSE register. *)
Record m128 (F : Type) := M128 { lane0 : F; lane1 : F; lane2 : F; lane3 : F }.
Arguments M128 {F} _ _ _ _.
Arguments lane0 {F} _.
Arguments lane1 {F} _.
Arguments lane2 {F} _.
Arguments lane3 {F} _.

Section Embedding.
Context {F D : Type} {FO : FloatOps F D}.

Abbreviation val := (val F).
Abbreviation heap := (heap F).
Abbreviation m128 := (m128 F).

(** ** The state-and-error monad *)

Definition M (A : Type) : Type := heap -> outcome (A * heap).

Definition ret {A} (a : A) : M A := fun h => Ok (a, h).
Definition fail {A} (e : error) : M A := fun _ => Fault e.
Definition bind {A B} (c : M A) (k : A -> M B) : M B :=
  fun h => match c h with
           | Ok (a, h') => k a h'
           | Fault e => Fault e
           end.

#[export] Instance M_ret : MRet M := @ret.
#[export] Instance M_bind : MBind M := fun A B k c => bind c k.

(** ** Memory primitives *)

Definition malloc (n : Z) : M ptr := fun h =>
  if n <? 0 then Fault BadAlloc
  else Ok (Ptr (length h) 0, h ++ [Some (replicate (Z.to_nat n) VUndef)]).

Definition load (p : ptr) : M val := fun h =>
  match h !! blk p with
  | Some (Some c) =>
      if off p <? 0 then Fault OutOfBounds
      else match c !! Z.to_nat (off p) with
           | Some v => Ok (v, h)
           | None => Fault OutOfBounds
           end
  | _ => Fault InvalidPointer
  end.

Definition store (p : ptr) (v : val) : M unit := fun h =>
  match h !! blk p with
  | Some (Some c) =>
      if off p <? 0 then Fault OutOfBounds
      else if (Z.to_nat (off p) <? length c)%nat
           then Ok (tt, <[blk p := Some (<[Z.to_nat (off p) := v]> c)]> h)
           else Fault OutOfBounds
  | _ => Fault InvalidPointer
  end.

Definition free (p : ptr) : M unit := fun h =>
  match h !! blk p with
  | Some (Some _) =>
      if off p =? 0 then Ok (tt, <[blk p := None]> h) else Fault InvalidPointer
  | _ => Fault InvalidPointer
  end.

Definition load_float (p : ptr) : M F :=
  v ← load p; match v with VFloat f => ret f | _ => fail Uninitialized end.
Definition load_int (p : ptr) : M Z :=
  v ← load p; match v with VInt z => ret z | _ => fail Uninitialized end.
Definition load_ptr (p : ptr) : M ptr :=
  v ← load p; match v with VPtr q => ret q | _ => fail Uninitialized end.
Definition load_block (p : ptr) : M BlockWeights :=
  v ← load p; match v with VBlock w => ret w | _ => fail Uninitialized end.

(** [memcpy dst src n] for [n] cells, one cell at a time. *)
Fixpoint memcpy_cells (n : nat) (dst src : ptr) : M unit :=
  match n with
  | O => ret tt
  | S n' => v ← load src; store dst v;; memcpy_cells n' (dst +ₚ 1) (src +ₚ 1)
  end.
Definition memcpy (dst src : ptr) (n : Z) : M unit :=
  memcpy_cells (Z.to_nat n) dst src.

(** ** Loops

    [for (i = i0; cond i; i += d) s = body i s].  [fuel] bounds the trip
    count; every call site passes a bound that is proved sufficient. *)
Fixpoint for_loop {S : Type} (fuel : nat) (cond : Z -> bool) (d : Z)
    (body : Z -> S -> M S) (i : Z) (s : S) : M S :=
  if cond i then
    match fuel with
    | O => fail OutOfFuel
    | Datatypes.S fuel' =>
        s' ← body i s; for_loop fuel' cond d body (i + d) s'
    end
  else ret s.

(** ** SSE intrinsics *)

Definition _mm_setzero_ps : m128 := M128 f_zero f_zero f_zero f_zero.
Definition _mm_set1_ps (a : F) : m128 := M128 a a a a.
Definition _mm_add_ps (a b : m128) : m128 :=
  M128 (f_add (lane0 a) (lane0 b)) (f_add (lane1 a) (lane1 b))
       (f_add (lane2 a) (lane2 b)) (f_add (lane3 a) (lane3 b)).
Definition _mm_mul_ps (a b : m128) : m128 :=
  M128 (f_mul (lane0 a) (lane0 b)) (f_mul (lane1 a) (lane1 b))
       (f_mul (lane2 a) (lane2 b)) (f_mul (lane3 a) (lane3 b)).
Definition _mm_loadu_ps (p : ptr) : M m128 :=
  a ← load_float p; b ← load_float (p +ₚ 1);
  c ← load_float (p +ₚ 2); d ← load_float (p +ₚ 3);
  ret (M128 a b c d).
(** The aligned load: its address must be a multiple of 16 bytes, or the
    instruction raises a general-protection fault.  [malloc] returns
    blocks aligned to 16 bytes (the alignment of max_align_t on x86-64)
    and a float takes 4 bytes, so the address of cell [off] of a block of
    floats is a multiple of 16 exactly when [off] is a multiple of 4. *)
Definition aligned16 (p : ptr) : bool := off p mod 4 =? 0.
Definition _mm_load_ps (p : ptr) : M m128 :=
  if aligned16 p then _mm_loadu_ps p else fail Misaligned.
Definition _mm_storeu_ps (p : ptr) (v : m128) : M unit :=
  store p (VFloat (lane0 v));; store (p +ₚ 1) (VFloat (lane1 v));;
  store (p +ₚ 2) (VFloat (lane2 v));; store (p +ₚ 3) (VFloat (lane3 v)).

(** [float temp[4]; _mm_storeu_ps(temp, r); temp[0]+temp[1]+temp[2]+temp[3]]:
    the stack array is the four lanes, added left to right. *)
Definition hsum (r : m128) : F :=
  f_add (f_add (f_add (lane0 r) (lane1 r)) (lane2 r)) (lane3 r).

(** ** linear (lines 76-99) *)

Definition linear (fcInput weights biases : ptr) (fcInputSize fcOutputSize : Z)
  : M ptr :=
  output ← malloc fcOutputSize;
  for_loop (Z.to_nat fcOutputSize) (fun i => i <? fcOutputSize) 1 (fun i _ =>
    result ← for_loop (Z.to_nat fcInputSize) (fun j => j <? fcInputSize) 4
      (fun j result =>
         input_vals ← _mm_loadu_ps (fcInput +ₚ j);
         wi ← load_ptr (weights +ₚ i);
         weight_vals ← _mm_loadu_ps (wi +ₚ j);
         ret (_mm_add_ps result (_mm_mul_ps input_vals weight_vals)))
      0 _mm_setzero_ps;
    b ← load_float (biases +ₚ i);
    store (output +ₚ i) (VFloat (f_add (hsum result) b))) 0 tt;;
  ret output.

(** ** scaled_dot_product_attention (lines 102-151)

    The OpenMP region is run in program order: every output cell is
    written once, from the inputs only, so the schedule does not matter.
    [sum_scalar] is a local array of 16 bytes, which the x86-64 ABI
    aligns to 16: the aligned store of line 140 leaves the four lanes in
    it, and they are added left to right. *)

Definition scaled_dot_product_attention (Q K V : ptr) (seqLength depth : Z)
  : M ptr :=
  output ← malloc seqLength;
  for_loop (Z.to_nat seqLength) (fun i => i <? seqLength) 1 (fun i _ =>
    row ← malloc seqLength; store (output +ₚ i) (VPtr row)) 0 tt;;
  let scale_factor := d2f (d_div (f2d f_one) (d_sqrt (f2d (f_of_int depth)))) in
  let block_size := 64 in
  for_loop (Z.to_nat seqLength) (fun bi => bi <? seqLength) block_size (fun bi _ =>
    for_loop (Z.to_nat seqLength) (fun bj => bj <? seqLength) block_size (fun bj _ =>
      for_loop (Z.to_nat block_size)
        (fun i => (i <? bi + block_size) && (i <? seqLength)) 1 (fun i _ =>
        for_loop (Z.to_nat block_size)
          (fun j => (j <? bj + block_size) && (j <? seqLength)) 1 (fun j _ =>
            sum ← for_loop (Z.to_nat depth) (fun k_idx => k_idx <? depth) 4
              (fun k_idx sum =>
                 qi ← load_ptr (Q +ₚ i);
                 q_vals ← _mm_load_ps (qi +ₚ k_idx);
                 kj ← load_ptr (K +ₚ j);
                 k_vals ← _mm_load_ps (kj +ₚ k_idx);
                 let mul_res := _mm_mul_ps q_vals k_vals in
                 ret (_mm_add_ps sum mul_res))
              0 _mm_setzero_ps;
            let dot_product := hsum sum in
            let dot_product := f_mul dot_product scale_factor in
            oi ← load_ptr (output +ₚ i);
            store (oi +ₚ j) (VFloat dot_product)) bj tt) bi tt) 0 tt) 0 tt;;
  ret output.

(** ** matrix_add (lines 154-179) *)

Definition matrix_add (x y : ptr) (numRow numCol : Z) : M ptr :=
  result ← malloc numRow;
  for_loop (Z.to_nat numRow) (fun i => i <? numRow) 1 (fun i _ =>
    row ← malloc numCol;
    store (result +ₚ i) (VPtr row);;
    for_loop (Z.to_nat numCol) (fun j => j <? numCol) 4 (fun j _ =>
      xi ← load_ptr (x +ₚ i);
      vec_x ← _mm_loadu_ps (xi +ₚ j);
      yi ← load_ptr (y +ₚ i);
      vec_y ← _mm_loadu_ps (yi +ₚ j);
      let vec_result := _mm_add_ps vec_x vec_y in
      ri ← load_ptr (result +ₚ i);
      _mm_storeu_ps (ri +ₚ j) vec_result) 0 tt;;
    for_loop 4 (fun j => j <? numCol) 1 (fun j _ =>
      xi ← load_ptr (x +ₚ i);
      a ← load_float (xi +ₚ j);
      yi ← load_ptr (y +ₚ i);
      b ← load_float (yi +ₚ j);
      ri ← load_ptr (result +ₚ i);
      store (ri +ₚ j) (VFloat (f_add a b))) (numCol - Z.rem numCol 4) tt) 0 tt;;
  ret result.

(** ** norm (lines 182-210) *)

Definition norm (x : ptr) (seqLength features : Z) : M ptr :=
  normalized ← malloc seqLength;
  for_loop (Z.to_nat seqLength) (fun i => i <? seqLength) 1 (fun i _ =>
    row ← malloc features;
    store (normalized +ₚ i) (VPtr row);;
    mean ← for_loop (Z.to_nat features) (fun j => j <? features) 1
      (fun j mean =>
         xi ← load_ptr (x +ₚ i); v ← load_float (xi +ₚ j);
         ret (f_add mean v)) 0 f_zero;
    let mean := f_div mean (f_of_int features) in
    variance ← for_loop (Z.to_nat features) (fun j => j <? features) 1
      (fun j variance =>
         xi ← load_ptr (x +ₚ i); v ← load_float (xi +ₚ j);
         xi' ← load_ptr (x +ₚ i); v' ← load_float (xi' +ₚ j);
         ret (f_add variance (f_mul (f_sub v mean) (f_sub v' mean)))) 0 f_zero;
    let variance := f_div variance (f_of_int features) in
    for_loop (Z.to_nat features) (fun j => j <? features) 1 (fun j _ =>
      xi ← load_ptr (x +ₚ i); v ← load_float (xi +ₚ j);
      ni ← load_ptr (normalized +ₚ i);
      store (ni +ₚ j)
        (VFloat (d2f (d_div (f2d (f_sub v mean))
                            (d_sqrt (d_add (f2d variance) d_eps)))))) 0 tt) 0 tt;;
  ret normalized.

(** ** gelu (lines 213-227) *)

Definition gelu (x : ptr) (size : Z) : M ptr :=
  output ← malloc size;
  for_loop (Z.to_nat size) (fun i => i <? size) 4 (fun i _ =>
    input_vals ← _mm_loadu_ps (x +ₚ i);
    let result := _mm_mul_ps input_vals (_mm_set1_ps f_half) in
    _mm_storeu_ps (output +ₚ i) result) 0 tt;;
  ret output.

(** ** positions_for (lines 230-238)

    [past_length + i] is an addition of two 32-bit ints: a sum outside
    the range of int wraps around, as the machine's add does. *)

Definition wrap32 (z : Z) : Z := (z + 2147483648) mod 4294967296 - 2147483648.

Definition positions_for (tokens : ptr) (seqLength past_length : Z) : M ptr :=
  positions ← malloc seqLength;
  for_loop (Z.to_nat seqLength) (fun i => i <? seqLength) 1 (fun i _ =>
    store (positions +ₚ i) (VInt (wrap32 (past_length + i)))) 0 tt;;
  ret positions.

(** ** block (lines 241-378), stage by stage *)

(** Lines 253-262: the Q, K, V projections of every position. *)
Definition block_qkv (normalized_x : ptr) (seqLength : Z)
    (q_mlp k_mlp v_mlp : LinearLayer) : M (ptr * ptr * ptr) :=
  Q ← malloc seqLength;
  K ← malloc seqLength;
  V ← malloc seqLength;
  for_loop (Z.to_nat seqLength) (fun i => i <? seqLength) 1 (fun i _ =>
    ni ← load_ptr (normalized_x +ₚ i);
    q ← linear ni (weights q_mlp) (biases q_mlp)
          (fcInputSize q_mlp) (fcOutputSize q_mlp);
    store (Q +ₚ i) (VPtr q);;
    ni ← load_ptr (normalized_x +ₚ i);
    k ← linear ni (weights k_mlp) (biases k_mlp)
          (fcInputSize k_mlp) (fcOutputSize k_mlp);
    store (K +ₚ i) (VPtr k);;
    ni ← load_ptr (normalized_x +ₚ i);
    v ← linear ni (weights v_mlp) (biases v_mlp)
          (fcInputSize v_mlp) (fcOutputSize v_mlp);
    store (V +ₚ i) (VPtr v)) 0 tt;;
  ret (Q, K, V).

(** Lines 264-284: the per-head slices of Q, K, V. *)
Definition block_split_heads (Q K V : ptr) (seqLength : Z)
  : M (ptr * ptr * ptr) :=
  Q_heads ← malloc NUM_HEADS;
  K_heads ← malloc NUM_HEADS;
  V_heads ← malloc NUM_HEADS;
  for_loop (Z.to_nat NUM_HEADS) (fun h => h <? NUM_HEADS) 1 (fun h _ =>
    qh ← malloc seqLength; store (Q_heads +ₚ h) (VPtr qh);;
    kh ← malloc seqLength; store (K_heads +ₚ h) (VPtr kh);;
    vh ← malloc seqLength; store (V_heads +ₚ h) (VPtr vh);;
    for_loop (Z.to_nat seqLength) (fun i => i <? seqLength) 1 (fun i _ =>
      qhi ← malloc HEAD_DIM;
      qh ← load_ptr (Q_heads +ₚ h); store (qh +ₚ i) (VPtr qhi);;
      khi ← malloc HEAD_DIM;
      kh ← load_ptr (K_heads +ₚ h); store (kh +ₚ i) (VPtr khi);;
      vhi ← malloc HEAD_DIM;
      vh ← load_ptr (V_heads +ₚ h); store (vh +ₚ i) (VPtr vhi);;
      qh ← load_ptr (Q_heads +ₚ h); dst ← load_ptr (qh +ₚ i);
      qi ← load_ptr (Q +ₚ i);
      memcpy dst (qi +ₚ h * HEAD_DIM) HEAD_DIM;;
      kh ← load_ptr (K_heads +ₚ h); dst ← load_ptr (kh +ₚ i);
      ki ← load_ptr (K +ₚ i);
      memcpy dst (ki +ₚ h * HEAD_DIM) HEAD_DIM;;
      vh ← load_ptr (V_heads +ₚ h); dst ← load_ptr (vh +ₚ i);
      vi ← load_ptr (V +ₚ i);
      memcpy dst (vi +ₚ h * HEAD_DIM) HEAD_DIM) 0 tt) 0 tt;;
  ret (Q_heads, K_heads, V_heads).

(** Lines 286-295: attention on every head. *)
Definition block_attention (Q_heads K_heads V_heads : ptr) (seqLength : Z)
  : M ptr :=
  head_outputs ← malloc NUM_HEADS;
  for_loop (Z.to_nat NUM_HEADS) (fun h => h <? NUM_HEADS) 1 (fun h _ =>
    qh ← load_ptr (Q_heads +ₚ h);
    kh ← load_ptr (K_heads +ₚ h);
    vh ← load_ptr (V_heads +ₚ h);
    o ← scaled_dot_product_attention qh kh vh seqLength HEAD_DIM;
    store (head_outputs +ₚ h) (VPtr o)) 0 tt;;
  ret head_outputs.

(** Lines 297-306: the head outputs put side by side. *)
Definition block_concat (head_outputs : ptr) (seqLength embeddingSize : Z)
  : M ptr :=
  a ← malloc seqLength;
  for_loop (Z.to_nat seqLength) (fun i => i <? seqLength) 1 (fun i _ =>
    row ← malloc embeddingSize;
    store (a +ₚ i) (VPtr row);;
    for_loop (Z.to_nat NUM_HEADS) (fun h => h <? NUM_HEADS) 1 (fun h _ =>
      ai ← load_ptr (a +ₚ i);
      oh ← load_ptr (head_outputs +ₚ h);
      ohi ← load_ptr (oh +ₚ i);
      memcpy (ai +ₚ h * HEAD_DIM) ohi HEAD_DIM) 0 tt) 0 tt;;
  ret a.

(** Lines 264-306 on their own: the multi-head attention of [block],
    from the projected Q, K, V to the recombined rows. *)
Definition block_heads (Q K V : ptr) (seqLength embeddingSize : Z) : M ptr :=
  '(Q_heads, K_heads, V_heads) ← block_split_heads Q K V seqLength;
  head_outputs ← block_attention Q_heads K_heads V_heads seqLength;
  block_concat head_outputs seqLength embeddingSize.

(** Lines 314-333: the two-layer feed-forward of every position. *)
Definition block_mlp (normalized_x_added : ptr) (seqLength : Z)
    (first_block_MLP second_block_MLP : LinearLayer) : M ptr :=
  m ← malloc seqLength;
  for_loop (Z.to_nat seqLength) (fun i => i <? seqLength) 1 (fun i _ =>
    ni ← load_ptr (normalized_x_added +ₚ i);
    first_mlp_out ← linear ni (weights first_block_MLP) (biases first_block_MLP)
        (fcInputSize first_block_MLP) (fcOutputSize first_block_MLP);
    gelu_out ← gelu first_mlp_out (fcOutputSize first_block_MLP);
    free first_mlp_out;;
    mi ← linear gelu_out (weights second_block_MLP) (biases second_block_MLP)
        (fcInputSize second_block_MLP) (fcOutputSize second_block_MLP);
    store (m +ₚ i) (VPtr mi);;
    free gelu_out) 0 tt;;
  ret m.

(** [free(p[i])]. *)
Definition free_at (p : ptr) (i : Z) : M unit :=
  q ← load_ptr (p +ₚ i); free q.

(** Lines 338-355: the intermediates of the block. *)
Definition block_free_rows
    (normalized_x Q K V normalized_x_added m x_added : ptr) (seqLength : Z)
  : M unit :=
  for_loop (Z.to_nat seqLength) (fun i => i <? seqLength) 1 (fun i _ =>
    free_at normalized_x i;;
    free_at Q i;;
    free_at K i;;
    free_at V i;;
    free_at normalized_x_added i;;
    free_at m i;;
    free_at x_added i) 0 tt;;
  free normalized_x;;
  free Q;;
  free K;;
  free V;;
  free normalized_x_added;;
  free m;;
  free x_added.

(** Lines 357-375: the per-head tensors. *)
Definition block_free_heads (Q_heads K_heads V_heads head_outputs : ptr)
    (seqLength : Z) : M unit :=
  for_loop (Z.to_nat NUM_HEADS) (fun h => h <? NUM_HEADS) 1 (fun h _ =>
    for_loop (Z.to_nat seqLength) (fun i => i <? seqLength) 1 (fun i _ =>
      qh ← load_ptr (Q_heads +ₚ h); free_at qh i;;
      kh ← load_ptr (K_heads +ₚ h); free_at kh i;;
      vh ← load_ptr (V_heads +ₚ h); free_at vh i;;
      oh ← load_ptr (head_outputs +ₚ h); free_at oh i) 0 tt;;
    free_at Q_heads h;;
    free_at K_heads h;;
    free_at V_heads h;;
    free_at head_outputs h) 0 tt;;
  free Q_heads;;
  free K_heads;;
  free V_heads;;
  free head_outputs.

(** The [BlockWeights] argument is called [W] here: [weights] is also the
    name of a field of [LinearLayer]. *)
Definition block (x : ptr) (seqLength embeddingSize : Z) (W : BlockWeights)
  : M ptr :=
  normalized_x ← norm x seqLength embeddingSize;
  '(Q, K, V) ← block_qkv normalized_x seqLength (q_mlp W) (k_mlp W) (v_mlp W);
  '(Q_heads, K_heads, V_heads) ← block_split_heads Q K V seqLength;
  head_outputs ← block_attention Q_heads K_heads V_heads seqLength;
  a ← block_concat head_outputs seqLength embeddingSize;
  x_added ← matrix_add x a seqLength embeddingSize;
  normalized_x_added ← norm x_added seqLength embeddingSize;
  m ← block_mlp normalized_x_added seqLength
        (first_block_MLP W) (second_block_MLP W);
  output ← matrix_add x_added m seqLength embeddingSize;
  block_free_rows normalized_x Q K V normalized_x_added m x_added seqLength;;
  block_free_heads Q_heads K_heads V_heads head_outputs seqLength;;
  ret output.

(** ** model (lines 381-427) *)

(** Lines 387-397: token plus positional embedding. *)
Definition model_embed (tokens positions : ptr) (seqLength : Z)
    (W : GPT2Weights) : M ptr :=
  h ← malloc seqLength;
  for_loop (Z.to_nat seqLength) (fun i => i <? seqLength) 1 (fun i _ =>
    row ← malloc EMBEDDING_SIZE;
    store (h +ₚ i) (VPtr row);;
    for_loop (Z.to_nat EMBEDDING_SIZE) (fun j => j <? EMBEDDING_SIZE) 1 (fun j _ =>
      tok ← load_int (tokens +ₚ i);
      te ← load_ptr (wte W +ₚ tok);
      a ← load_float (te +ₚ j);
      pos ← load_int (positions +ₚ i);
      pe ← load_ptr (wpe W +ₚ pos);
      b ← load_float (pe +ₚ j);
      hi ← load_ptr (h +ₚ i);
      store (hi +ₚ j) (VFloat (f_add a b))) 0 tt) 0 tt;;
  ret h.

(** [for (j...) free(h[j]); free(h);] *)
Definition free_matrix (h : ptr) (seqLength : Z) : M unit :=
  for_loop (Z.to_nat seqLength) (fun j => j <? seqLength) 1 (fun j _ =>
    free_at h j) 0 tt;;
  free h.

(** Lines 402-413: the stack of blocks. *)
Definition model_blocks (h : ptr) (seqLength : Z) (W : GPT2Weights) : M ptr :=
  for_loop (Z.to_nat NUM_BLOCKS) (fun i => i <? NUM_BLOCKS) 1 (fun i h =>
    bw ← load_block (blocks W +ₚ i);
    new_h ← block h seqLength EMBEDDING_SIZE bw;
    free_matrix h seqLength;;
    ret new_h) 0 h.

Definition model (tokens : ptr) (seqLength : Z) (W : GPT2Weights) : M ptr :=
  let past_length := 0 in
  positions ← positions_for tokens seqLength past_length;
  h ← model_embed tokens positions seqLength W;
  free positions;;
  h ← model_blocks h seqLength W;
  let logits_mlp := logits_mlp W in
  last ← load_ptr (h +ₚ (seqLength - 1));
  logits ← linear last (weights logits_mlp) (biases logits_mlp)
             (fcInputSize logits_mlp) (fcOutputSize logits_mlp);
  free_matrix h seqLength;;
  ret logits.

End Embedding.


(* ===================================================================== *)
(** * Part 1b: initialisation, teardown and main (lines 430-585)          *)
(* ===================================================================== *)

(** ** What the rest of the file takes from the C library

    [rand] and [clock] have a hidden state; it is made explicit as the
    number of calls so far: [rand_at k] is the value of the [k]-th call
    of [rand()] after [srand(42)], [clock_at k] the value of the [k]-th
    call of [clock()].  The standard promises 0 <= rand() <= RAND_MAX. *)

Class LibC := {
  RAND_MAX : Z;
  rand_at : nat -> Z;
  rand_range : forall k, 0 <= rand_at k <= RAND_MAX;
  clock_at : nat -> Z;
  CLOCKS_PER_SEC : Z
}.

(** The float operations of lines 430-585 that [FloatOps] does not have. *)
Class InitOps (F D : Type) := {
  f_0_02 : F;                (* 0.02f *)
  f_0_01 : F;                (* 0.01f *)
  f_gt : F -> F -> bool;     (* a > b *)
  d_of_int : Z -> D          (* (double) i *)
}.

(** What [printf] is called with; the text is in the format strings. *)
Inductive event (D : Type) :=
| EvInitDone                 (* "GPT-2 Weights initialization complete.\n" *)
| EvPredicted (i : Z)        (* "Predicted next token ID: %d\n" *)
| EvTime (t : D).            (* "Prediction completed in %.4f seconds.\n" *)
Arguments EvInitDone {D}.
Arguments EvPredicted {D} i.
Arguments EvTime {D} t.

Section InitEmbedding.
Context {F D : Type} {FO : FloatOps F D} {IO : InitOps F D} {LC : LibC}.

#[local] Abbreviation M := (@M F).

(** [((float)rand() / RAND_MAX) * 0.02f - 0.01f] at the [k]-th call. *)
Definition rand_weight (k : nat) : F :=
  f_sub (f_mul (f_div (f_of_int (rand_at k)) (f_of_int RAND_MAX)) f_0_02) f_0_01.

(** ** initialize_linear_layer (lines 430-446)

    The layer is written through the pointer argument; here it is the
    result, together with the number of [rand] calls so far. *)
Definition initialize_linear_layer (inputSize outputSize : Z) (k : nat)
  : M (LinearLayer * nat) :=
  weights ← malloc outputSize;
  biases ← malloc outputSize;
  k ← for_loop (Z.to_nat outputSize) (fun i => i <? outputSize) 1 (fun i k =>
    row ← malloc inputSize;
    store (weights +ₚ i) (VPtr row);;
    store (biases +ₚ i) (VFloat f_zero);;
    for_loop (Z.to_nat inputSize) (fun j => j <? inputSize) 1 (fun j k =>
      wi ← load_ptr (weights +ₚ i);
      store (wi +ₚ j) (VFloat (rand_weight k));;
      ret (S k)) 0 k) 0 k;
  ret ({| weights := weights; biases := biases;
          fcInputSize := inputSize; fcOutputSize := outputSize |}, k).

(** ** initialize_weights (lines 448-494) *)

(** Lines 454-462 and 465-473: one embedding table. *)
Definition initialize_table (rows : Z) (k : nat) : M (ptr * nat) :=
  table ← malloc rows;
  k ← for_loop (Z.to_nat rows) (fun i => i <? rows) 1 (fun i k =>
    row ← malloc EMBEDDING_SIZE;
    store (table +ₚ i) (VPtr row);;
    for_loop (Z.to_nat EMBEDDING_SIZE) (fun j => j <? EMBEDDING_SIZE) 1 (fun j k =>
      ti ← load_ptr (table +ₚ i);
      store (ti +ₚ j) (VFloat (rand_weight k));;
      ret (S k)) 0 k) 0 k;
  ret (table, k).

(** The five layers of [blocks[b]] are written field by field in the
    source; the cell of the array receives them here in one store, after
    the fifth. *)
Definition initialize_weights (k : nat) (out : list (event D))
  : M (GPT2Weights * nat * list (event D)) :=
  '(wte, k) ← initialize_table VOCAB_SIZE k;
  '(wpe, k) ← initialize_table MAX_POSITION_EMBEDDINGS k;
  blocks ← malloc NUM_BLOCKS;
  k ← for_loop (Z.to_nat NUM_BLOCKS) (fun b => b <? NUM_BLOCKS) 1 (fun b k =>
    '(q_mlp, k) ← initialize_linear_layer EMBEDDING_SIZE EMBEDDING_SIZE k;
    '(k_mlp, k) ← initialize_linear_layer EMBEDDING_SIZE EMBEDDING_SIZE k;
    '(v_mlp, k) ← initialize_linear_layer EMBEDDING_SIZE EMBEDDING_SIZE k;
    let mlpHiddenSize := EMBEDDING_SIZE * 4 in
    '(first_block_MLP, k) ← initialize_linear_layer EMBEDDING_SIZE mlpHiddenSize k;
    '(second_block_MLP, k) ← initialize_linear_layer mlpHiddenSize EMBEDDING_SIZE k;
    store (blocks +ₚ b)
      (VBlock {| q_mlp := q_mlp; k_mlp := k_mlp; v_mlp := v_mlp;
                 first_block_MLP := first_block_MLP;
                 second_block_MLP := second_block_MLP |});;
    ret k) 0 k;
  '(logits_mlp, k) ← initialize_linear_layer EMBEDDING_SIZE VOCAB_SIZE k;
  let out := out ++ [EvInitDone] in
  ret ({| wpe := wpe; wte := wte; blocks := blocks; logits_mlp := logits_mlp |},
       k, out).

(** ** free_linear_layer (lines 497-505) and free_weights (lines 508-540) *)

Definition free_linear_layer (layer : LinearLayer) : M unit :=
  for_loop (Z.to_nat (fcOutputSize layer)) (fun i => i <? fcOutputSize layer) 1
    (fun i _ => free_at (weights layer) i) 0 tt;;
  free (weights layer);;
  free (biases layer).

Definition free_weights (W : GPT2Weights) : M unit :=
  for_loop (Z.to_nat VOCAB_SIZE) (fun i => i <? VOCAB_SIZE) 1
    (fun i _ => free_at (wte W) i) 0 tt;;
  free (wte W);;
  for_loop (Z.to_nat MAX_POSITION_EMBEDDINGS)
    (fun i => i <? MAX_POSITION_EMBEDDINGS) 1
    (fun i _ => free_at (wpe W) i) 0 tt;;
  free (wpe W);;
  for_loop (Z.to_nat NUM_BLOCKS) (fun b => b <? NUM_BLOCKS) 1 (fun b _ =>
    bw ← load_block (blocks W +ₚ b); free_linear_layer (q_mlp bw);;
    bw ← load_block (blocks W +ₚ b); free_linear_layer (k_mlp bw);;
    bw ← load_block (blocks W +ₚ b); free_linear_layer (v_mlp bw);;
    bw ← load_block (blocks W +ₚ b); free_linear_layer (first_block_MLP bw);;
    bw ← load_block (blocks W +ₚ b); free_linear_layer (second_block_MLP bw)) 0 tt;;
  free (blocks W);;
  free_linear_layer (logits_mlp W).

(** ** main (lines 543-585) *)

(** Lines 565-574: the index of the largest logit. *)
Definition main_argmax (logits : ptr) : M Z :=
  let max_index := 0 in
  max_value ← load_float (logits +ₚ 0);
  '(max_index, _) ← for_loop (Z.to_nat VOCAB_SIZE) (fun i => i <? VOCAB_SIZE) 1
    (fun i '(max_index, max_value) =>
       li ← load_float (logits +ₚ i);
       if f_gt li max_value
       then max_value ← load_float (logits +ₚ i); ret (i, max_value)
       else ret (max_index, max_value)) 1 (max_index, max_value);
  ret max_index.

(** [tokens] is the array of the stack frame: a block of its own, which
    goes when [main] returns. *)
Definition main : M (Z * list (event D)) :=
  let k := 0%nat in                          (* srand(42) *)
  let seqLength := 16 in
  tokens ← malloc 16;
  k ← for_loop 16 (fun i => i <? 16) 1 (fun i k =>
    store (tokens +ₚ i) (VInt (Z.rem (rand_at k) 10000));;
    ret (S k)) 0 k;
  '(weights, k, out) ← initialize_weights k [];
  let start := clock_at 0 in
  logits ← model tokens seqLength weights;
  max_index ← main_argmax logits;
  let out := out ++ [EvPredicted max_index] in
  let end_ := clock_at 1 in
  let time_taken := d_div (d_of_int (end_ - start)) (d_of_int CLOCKS_PER_SEC) in
  let out := out ++ [EvTime time_taken] in
  free logits;;
  free_weights weights;;
  free tokens;;
  ret (0, out).

End InitEmbedding.
(* ===================================================================== *)
(** * Part 2: specifications                                              *)
(* ===================================================================== *)

Section Specifications.
Context {F D : Type} {FO : FloatOps F D}.

Abbreviation val := (val F).
Abbreviation heap := (heap F).
Abbreviation m128 := (m128 F).

(** ** Reading a heap *)

(** [p] points to the floats [xs]. *)
Definition is_vec (h : heap) (p : ptr) (xs : list F) : Prop :=
  0 <= off p /\
  exists c, h !! blk p = Some (Some c) /\
    forall j x, xs !! j = Some x ->
      c !! (Z.to_nat (off p) + j)%nat = Some (VFloat x).

(** [p] points to row pointers, the [i]-th of which points to [rows !! i]. *)
Definition is_mat (h : heap) (p : ptr) (rows : list (list F)) : Prop :=
  0 <= off p /\
  exists c, h !! blk p = Some (Some c) /\
    forall i r, rows !! i = Some r ->
      exists q, c !! (Z.to_nat (off p) + i)%nat = Some (VPtr q) /\ is_vec h q r.

(** The first [n] row pointers at [p] are 16-byte aligned: they point to
    a cell whose index is a multiple of 4, as the start of a block is. *)
Definition rows_aligned (h : heap) (p : ptr) (n : nat) : Prop :=
  exists c, h !! blk p = Some (Some c) /\
    forall i q, (i < n)%nat ->
      c !! (Z.to_nat (off p) + i)%nat = Some (VPtr q) -> off q mod 4 = 0.

(** Weakest precondition: [c] runs from [h] without fault and ends in [Q]. *)
Definition wp {A} (c : M A) (h : heap) (Q : A -> heap -> Prop) : Prop :=
  match c h with
  | Ok (a, h') => Q a h'
  | Fault _ => False
  end.

(** An output array of which the first [k] cells are written. *)
Definition partial (vs : list val) (k : nat) : list val :=
  take k vs ++ replicate (length vs - k) VUndef.

(** ** The lane-wise dot product of the source and the textbook one *)

Definition at_ (xs : list F) (i : nat) : F := default f_zero (xs !! i).

Definition chunk4 (xs : list F) (k : nat) : m128 :=
  M128 (at_ xs (4 * k)) (at_ xs (4 * k + 1))
       (at_ xs (4 * k + 2)) (at_ xs (4 * k + 3)).

(** The accumulator register after [k] steps of four lanes. *)
Fixpoint lanes4 (x y : list F) (k : nat) : m128 :=
  match k with
  | O => _mm_setzero_ps
  | S k' => _mm_add_ps (lanes4 x y k') (_mm_mul_ps (chunk4 x k') (chunk4 y k'))
  end.

Definition dot4 (x y : list F) : F := hsum (lanes4 x y (length x / 4)).

(** The textbook dot product, summed from the right. *)
Definition dot (x y : list F) : F :=
  foldr (fun p acc => f_add (f_mul p.1 p.2) acc) f_zero (zip x y).

(** Laws of exact arithmetic under which the two agree. *)
Record exact_laws : Prop := {
  add_assoc : forall a b c : F, f_add a (f_add b c) = f_add (f_add a b) c;
  add_comm : forall a b : F, f_add a b = f_add b a;
  add_zero_l : forall a : F, f_add f_zero a = a;
  mul_comm : forall a b : F, f_mul a b = f_mul b a
}.

(** ** linear *)

Definition linear_row (x : list F) (w : list F) (b : F) : F :=
  f_add (dot4 x w) b.

Definition linear_spec (x : list F) (W : list (list F)) (B : list F) : list F :=
  zip_with (linear_row x) W B.


(** ** Matrices as our functions allocate them

    A matrix allocated at heap length [L] is the block [L] of row
    pointers followed by one block per row. *)

Definition row_ptrs (base n : nat) : list ptr :=
  (fun i => Ptr (base + i) 0) <$> seq 0 n.

Definition mat_blocks (L : nat) (R : list (list F)) : list (option (list val)) :=
  Some (@VPtr F <$> row_ptrs (S L) (length R))
  :: ((fun r : list F => Some (VFloat <$> r)) <$> R).

(** ** norm *)

Definition norm_row (x : list F) : list F :=
  let features := Z.of_nat (length x) in
  let mean := f_div (fold_left f_add x f_zero) (f_of_int features) in
  let variance :=
    f_div (fold_left (fun acc v => f_add acc (f_mul (f_sub v mean) (f_sub v mean)))
                     x f_zero)
          (f_of_int features) in
  (fun v => d2f (d_div (f2d (f_sub v mean))
                       (d_sqrt (d_add (f2d variance) d_eps)))) <$> x.

Definition norm_spec (X : list (list F)) : list (list F) := norm_row <$> X.

(** ** gelu, as the source computes it *)

Definition gelu_spec (x : list F) : list F := (fun v => f_mul v f_half) <$> x.

(** ** matrix_add *)

Definition matrix_add_spec (X Y : list (list F)) : list (list F) :=
  zip_with (zip_with f_add) X Y.

(** ** positions_for *)

Definition positions_spec (n : nat) (past_length : Z) : list Z :=
  (fun i => wrap32 (past_length + Z.of_nat i)) <$> seq 0 n.

(** ** scaled_dot_product_attention *)

Definition scale_factor_spec (depth : Z) : F :=
  d2f (d_div (f2d f_one) (d_sqrt (f2d (f_of_int depth)))).

Definition sdpa_entry (depth : Z) (q k : list F) : F :=
  f_mul (dot4 q k) (scale_factor_spec depth).

Definition sdpa_spec (Q K : list (list F)) (depth : Z) : list (list F) :=
  (fun q => sdpa_entry depth q <$> K) <$> Q.

(** The score rows while the tiles are being filled: cell [(i, j)] is
    written when [wr i j] holds. *)
Definition sdpa_row (Q K : list (list F)) (depth : Z) (n : nat)
    (wr : nat -> nat -> bool) (i : nat) : list val :=
  (fun j => if wr i j
            then VFloat (sdpa_entry depth (default [] (Q !! i)) (default [] (K !! j)))
            else VUndef) <$> seq 0 n.

Definition sdpa_blocks (Q K : list (list F)) (depth : Z) (L n : nat)
    (wr : nat -> nat -> bool) : list (option (list val)) :=
  Some (@VPtr F <$> row_ptrs (S L) n)
  :: ((fun i => Some (sdpa_row Q K depth n wr i)) <$> seq 0 n).

(** ** Matrices at known places

    [mat_at h s base stride R]: block [s] holds the row pointers, row [i]
    is the block [base + stride * i] and holds exactly [R !! i]. *)

Definition strided_ptrs (base stride n : nat) : list ptr :=
  (fun i => Ptr (base + stride * i) 0) <$> seq 0 n.

Definition mat_at (h : heap) (s base stride : nat) (R : list (list F)) : Prop :=
  h !! s = Some (Some (VPtr <$> strided_ptrs base stride (length R))) /\
  forall i r, R !! i = Some r ->
    h !! (base + stride * i)%nat = Some (Some (VFloat <$> r)).

(** ** A linear layer and its weights in the heap *)

Record layer_ok (h : heap) (l : LinearLayer) (n4 m : nat)
    (W : list (list F)) (B : list F) : Prop := {
  layer_weights : is_mat h (weights l) W;
  layer_biases : is_vec h (biases l) B;
  layer_in : fcInputSize l = Z.of_nat (4 * n4);
  layer_out : fcOutputSize l = Z.of_nat m;
  layer_rows : length W = m;
  layer_bias_len : length B = m;
  layer_cols : Forall (fun r => length r = (4 * n4)%nat) W
}.

Definition layer_spec (W : list (list F)) (B : list F) (x : list F) : list F :=
  linear_spec x W B.

(** ** block_qkv: the three row-pointer blocks, then the rows of Q, K, V
    of position 0, of position 1, ... *)

Definition qkv_blocks (L : nat) (fq fk fv : list F -> list F)
    (X : list (list F)) : list (option (list val)) :=
  Some (@VPtr F <$> strided_ptrs (L + 3) 3 (length X))
  :: Some (@VPtr F <$> strided_ptrs (L + 4) 3 (length X))
  :: Some (@VPtr F <$> strided_ptrs (L + 5) 3 (length X))
  :: concat ((fun x : list F =>
               [Some (VFloat <$> fq x); Some (VFloat <$> fk x);
                Some (VFloat <$> fv x)]) <$> X).

(** ** block_split_heads *)

Definition num_heads : nat := Z.to_nat NUM_HEADS.
Definition head_dim : nat := Z.to_nat HEAD_DIM.

(** Columns [hd * HEAD_DIM .. (hd + 1) * HEAD_DIM) of a row. *)
Definition hslice (hd : nat) (r : list F) : list F :=
  take head_dim (drop (head_dim * hd) r).

Definition row_at (R : list (list F)) (i : nat) : list F := default [] (R !! i).

(** The blocks of one head, allocated at heap length [B]: three blocks of
    row pointers, then the slices of Q, K, V of position 0, 1, ... *)
Definition head_blocks (B hd : nat) (Qr Kr Vr : list (list F)) (n : nat)
  : list (option (list val)) :=
  Some (@VPtr F <$> strided_ptrs (B + 3) 3 n)
  :: Some (@VPtr F <$> strided_ptrs (B + 4) 3 n)
  :: Some (@VPtr F <$> strided_ptrs (B + 5) 3 n)
  :: concat ((fun i : nat =>
               [Some (VFloat <$> hslice hd (row_at Qr i));
                Some (VFloat <$> hslice hd (row_at Kr i));
                Some (VFloat <$> hslice hd (row_at Vr i))]) <$> seq 0 n).

Definition split_blocks (L : nat) (Qr Kr Vr : list (list F)) (n : nat)
  : list (option (list val)) :=
  Some (@VPtr F <$> strided_ptrs (L + 3) (3 + 3 * n) num_heads)
  :: Some (@VPtr F <$> strided_ptrs (L + 4) (3 + 3 * n) num_heads)
  :: Some (@VPtr F <$> strided_ptrs (L + 5) (3 + 3 * n) num_heads)
  :: concat ((fun hd : nat =>
               head_blocks (L + 3 + (3 + 3 * n) * hd) hd Qr Kr Vr n)
             <$> seq 0 num_heads).

(** Cell [i] of the pointer array [p] holds [q]. *)
Definition ptr_slot (h : heap) (p : ptr) (i : nat) (q : ptr) : Prop :=
  0 <= off p /\
  exists c, h !! blk p = Some (Some c) /\
            c !! (Z.to_nat (off p) + i)%nat = Some (VPtr q).

(** ** block_attention: the array of head outputs, then one score matrix
    per head *)

Definition head_scores (Qr Kr : list (list F)) (hd : nat) : list (list F) :=
  sdpa_spec (hslice hd <$> Qr) (hslice hd <$> Kr) HEAD_DIM.

Definition attn_blocks (L : nat) (Qr Kr : list (list F)) (n : nat)
  : list (option (list val)) :=
  Some (@VPtr F <$> strided_ptrs (L + 1) (1 + n) num_heads)
  :: concat ((fun hd : nat =>
               mat_blocks (L + 1 + (1 + n) * hd) (head_scores Qr Kr hd))
             <$> seq 0 num_heads).

(** ** block_concat: row [i] of [a] is the first HEAD_DIM entries of row
    [i] of every head output, in head order. [R hd] is the output of
    head [hd]. *)

Definition concat_row (R : nat -> list (list F)) (i : nat) : list F :=
  concat ((fun hd : nat => take head_dim (row_at (R hd) i)) <$> seq 0 num_heads).

Definition concat_spec (R : nat -> list (list F)) (n : nat) : list (list F) :=
  concat_row R <$> seq 0 n.

(** ** block_mlp: the row pointers, then per position the two freed
    temporaries and the output row *)

Definition mlp_row (W1 : list (list F)) (B1 : list F)
    (W2 : list (list F)) (B2 : list F) (x : list F) : list F :=
  layer_spec W2 B2 (gelu_spec (layer_spec W1 B1 x)).

Definition mlp_blocks (L : nat) (f : list F -> list F) (X : list (list F))
  : list (option (list val)) :=
  Some (@VPtr F <$> strided_ptrs (L + 3) 3 (length X))
  :: concat ((fun x : list F => [None; None; Some (VFloat <$> f x)]) <$> X).

(** ** Freed blocks

    [kill P h] is [h] with every block [b] such that [P b] freed. *)

Definition kill (P : nat -> bool) (h : heap) : heap :=
  imap (fun b x => if P b then None else x) h.

(** A matrix of which only the liveness of the blocks matters. *)
Definition live_mat (h : heap) (s base stride n : nat) : Prop :=
  h !! s = Some (Some (@VPtr F <$> strided_ptrs base stride n)) /\
  forall i, (i < n)%nat -> exists c, h !! (base + stride * i)%nat = Some (Some c).

(** The blocks freed by [block_free_rows]: the matrices at [a1]
    (normalized_x), [a2] (Q, K, V, interleaved), [a3]
    (normalized_x_added), [a4] (m) and [a5] (x_added). *)
Definition freed_rows (a1 a2 a3 a4 a5 n : nat) (b : nat) : bool :=
  bool_decide ((a1 <= b < a1 + 1 + n) \/ (a2 <= b < a2 + 3 + 3 * n) \/
               (a3 <= b < a3 + 1 + n) \/ (a4 <= b < a4 + 1 + 3 * n) \/
               (a5 <= b < a5 + 1 + n))%nat.

(** The blocks freed by [block_free_heads]: the per-head tensors at [a]
    and the head outputs at [e]. *)
Definition freed_heads (a e n : nat) (b : nat) : bool :=
  bool_decide ((a <= b < a + 3 + (3 + 3 * n) * num_heads) \/
               (e <= b < e + 1 + (1 + n) * num_heads))%nat.

(** ** block as a function of its input rows *)

(** The contents of the five layers of a [BlockWeights]. *)
Record block_params := {
  Wq : list (list F); Bq : list F;
  Wk : list (list F); Bk : list F;
  Wv : list (list F); Bv : list F;
  W1 : list (list F); B1 : list F;
  W2 : list (list F); B2 : list F
}.

Definition emb : nat := Z.to_nat EMBEDDING_SIZE.

(** The weights of a block are in the heap with the shapes of the spec:
    Q, K, V map the embedding to the embedding, the feed-forward pair
    goes through a hidden width [4 * g4]. *)
Record block_ok (h : heap) (W : BlockWeights) (p : block_params) (g4 : nat)
  : Prop := {
  ok_q : layer_ok h (q_mlp W) (emb / 4) emb (Wq p) (Bq p);
  ok_k : layer_ok h (k_mlp W) (emb / 4) emb (Wk p) (Bk p);
  ok_v : layer_ok h (v_mlp W) (emb / 4) emb (Wv p) (Bv p);
  ok_1 : layer_ok h (first_block_MLP W) (emb / 4) (4 * g4) (W1 p) (B1 p);
  ok_2 : layer_ok h (second_block_MLP W) g4 emb (W2 p) (B2 p)
}.

(** Steps 1 to 3 of the block: the attention output. *)
Definition attention_spec (p : block_params) (X : list (list F))
  : list (list F) :=
  let nx := norm_spec X in
  let Q := layer_spec (Wq p) (Bq p) <$> nx in
  let K := layer_spec (Wk p) (Bk p) <$> nx in
  concat_spec (head_scores Q K) (length X).

(** Steps 4 to 7. *)
Definition block_spec (p : block_params) (X : list (list F))
  : list (list F) :=
  let a := attention_spec p X in
  let x1 := matrix_add_spec X a in
  let nx1 := norm_spec x1 in
  let m := mlp_row (W1 p) (B1 p) (W2 p) (B2 p) <$> nx1 in
  matrix_add_spec x1 m.

(** ** model *)

(** [p] points to the ints [zs]. *)
Definition is_ints (h : heap) (p : ptr) (zs : list Z) : Prop :=
  0 <= off p /\
  exists c, h !! blk p = Some (Some c) /\
    forall j z, zs !! j = Some z ->
      c !! (Z.to_nat (off p) + j)%nat = Some (VInt z).

(** [p] points to the block weights [ws]. *)
Definition is_blocks (h : heap) (p : ptr) (ws : list BlockWeights) : Prop :=
  0 <= off p /\
  exists c, h !! blk p = Some (Some c) /\
    forall j w, ws !! j = Some w ->
      c !! (Z.to_nat (off p) + j)%nat = Some (VBlock w).

Definition vocab : nat := Z.to_nat VOCAB_SIZE.
Definition max_pos : nat := Z.to_nat MAX_POSITION_EMBEDDINGS.
Definition num_blocks : nat := Z.to_nat NUM_BLOCKS.

Record model_params := {
  WTE : list (list F);
  WPE : list (list F);
  BPS : list block_params;
  WL : list (list F);
  BL : list F
}.

(** The weight set is in the heap with the shapes of the spec. *)
Record model_ok (h : heap) (W : GPT2Weights) (mp : model_params) (g4 : nat)
    (ws : list BlockWeights) : Prop := {
  ok_wte : is_mat h (wte W) (WTE mp);
  ok_wpe : is_mat h (wpe W) (WPE mp);
  ok_wte_len : length (WTE mp) = vocab;
  ok_wpe_len : length (WPE mp) = max_pos;
  ok_wte_rows : Forall (fun r => length r = emb) (WTE mp);
  ok_wpe_rows : Forall (fun r => length r = emb) (WPE mp);
  ok_blocks : is_blocks h (blocks W) ws;
  ok_nblocks : length ws = num_blocks;
  ok_each : Forall2 (fun w bp => block_ok h w bp g4) ws (BPS mp);
  ok_logits : layer_ok h (logits_mlp W) (emb / 4) vocab (WL mp) (BL mp)
}.

(** Step 1: token row plus position row, position = index. *)
Definition embed_spec (mp : model_params) (toks : list Z) : list (list F) :=
  imap (fun i t => zip_with f_add (row_at (WTE mp) (Z.to_nat t))
                                   (row_at (WPE mp) i)) toks.

(** Step 2: all the blocks, in order. *)
Definition hidden_spec (mp : model_params) (toks : list Z) : list (list F) :=
  foldl (fun H bp => block_spec bp H) (embed_spec mp toks) (BPS mp).

(** The hidden state after the first [k] blocks. *)
Definition hidden_upto (mp : model_params) (toks : list Z) (k : nat)
  : list (list F) :=
  foldl (fun H bp => block_spec bp H) (embed_spec mp toks) (take k (BPS mp)).

(** Step 3: the output projection of the last position. *)
Definition model_spec (mp : model_params) (toks : list Z) : list F :=
  layer_spec (WL mp) (BL mp)
    (row_at (hidden_spec mp toks) (length toks - 1)).

(** ** The weights as initialize_weights lays them out *)

Context {IO : InitOps F D} {LC : LibC}.

Definition zeros (m : nat) : list F := replicate m f_zero.

(** [n] weights drawn from call [k] on, and [m] rows of them. *)
Definition rand_row (k n : nat) : list F :=
  (fun j => rand_weight (k + j)) <$> seq 0 n.

Definition rand_rows (k m n : nat) : list (list F) :=
  (fun i => rand_row (k + n * i) n) <$> seq 0 m.

(** A layer allocated at heap length [L]: block [L] holds the row
    pointers, block [L + 1] the biases, the blocks from [L + 2] on the
    rows. *)
Definition layer_rec (L : nat) (inputSize outputSize : Z) : LinearLayer :=
  {| weights := Ptr L 0; biases := Ptr (L + 1) 0;
     fcInputSize := inputSize; fcOutputSize := outputSize |}.

Definition layer_blocks (L : nat) (W : list (list F))
  : list (option (list val)) :=
  Some (@VPtr F <$> row_ptrs (L + 2) (length W))
  :: Some (VFloat <$> zeros (length W))
  :: ((fun r : list F => Some (VFloat <$> r)) <$> W).

Definition layer_at (h : heap) (L : nat) (W : list (list F)) : Prop :=
  mat_at h L (L + 2) 1 W /\
  h !! (L + 1)%nat = Some (Some (VFloat <$> zeros (length W))).

(** The five layers of one block, allocated from heap length [P] with
    [c] calls of [rand] behind. *)
Definition group_size : nat := 5 * 2 + 3 * emb + 4 * emb + emb.
Definition group_rands : nat := 3 * (emb * emb) + 2 * (emb * (4 * emb)).

Definition block_rec (P : nat) : BlockWeights :=
  {| q_mlp := layer_rec P EMBEDDING_SIZE EMBEDDING_SIZE;
     k_mlp := layer_rec (P + (2 + emb)) EMBEDDING_SIZE EMBEDDING_SIZE;
     v_mlp := layer_rec (P + 2 * (2 + emb)) EMBEDDING_SIZE EMBEDDING_SIZE;
     first_block_MLP :=
       layer_rec (P + 3 * (2 + emb)) EMBEDDING_SIZE (EMBEDDING_SIZE * 4);
     second_block_MLP :=
       layer_rec (P + 3 * (2 + emb) + (2 + 4 * emb))
                 (EMBEDDING_SIZE * 4) EMBEDDING_SIZE |}.

Definition block_par (c : nat) : block_params :=
  {| Wq := rand_rows c emb emb; Bq := zeros emb;
     Wk := rand_rows (c + emb * emb) emb emb; Bk := zeros emb;
     Wv := rand_rows (c + 2 * (emb * emb)) emb emb; Bv := zeros emb;
     W1 := rand_rows (c + 3 * (emb * emb)) (4 * emb) emb; B1 := zeros (4 * emb);
     W2 := rand_rows (c + 3 * (emb * emb) + emb * (4 * emb)) emb (4 * emb);
     B2 := zeros emb |}.

Definition block_at (h : heap) (P c : nat) : Prop :=
  layer_at h P (Wq (block_par c)) /\
  layer_at h (P + (2 + emb)) (Wk (block_par c)) /\
  layer_at h (P + 2 * (2 + emb)) (Wv (block_par c)) /\
  layer_at h (P + 3 * (2 + emb)) (W1 (block_par c)) /\
  layer_at h (P + 3 * (2 + emb) + (2 + 4 * emb)) (W2 (block_par c)).

(** The whole weight set, allocated from heap length [L] with [k] calls
    of [rand] behind: the token table, the position table, the array of
    blocks, the layers of the blocks, the output layer. *)
Definition wpe_at (L : nat) : nat := L + 1 + vocab.
Definition blocks_at (L : nat) : nat := wpe_at L + 1 + max_pos.
Definition group_at (L b : nat) : nat := blocks_at L + 1 + group_size * b.
Definition logits_at (L : nat) : nat := group_at L num_blocks.
Definition init_size : nat :=
  (1 + vocab) + (1 + max_pos) + 1 + group_size * num_blocks + (2 + vocab).

Definition wpe_rands (k : nat) : nat := k + emb * vocab.
Definition blocks_rands (k : nat) : nat := wpe_rands k + emb * max_pos.
Definition group_rands_at (k b : nat) : nat := blocks_rands k + group_rands * b.
Definition logits_rands (k : nat) : nat := group_rands_at k num_blocks.
Definition init_rands (k : nat) : nat := logits_rands k + emb * vocab.

Definition init_rec (L : nat) : GPT2Weights :=
  {| wpe := Ptr (wpe_at L) 0; wte := Ptr L 0; blocks := Ptr (blocks_at L) 0;
     logits_mlp := layer_rec (logits_at L) EMBEDDING_SIZE VOCAB_SIZE |}.

Definition init_blocks (L : nat) : list BlockWeights :=
  (fun b => block_rec (group_at L b)) <$> seq 0 num_blocks.

Definition init_params (k : nat) : model_params :=
  {| WTE := rand_rows k vocab emb;
     WPE := rand_rows (wpe_rands k) max_pos emb;
     BPS := (fun b => block_par (group_rands_at k b)) <$> seq 0 num_blocks;
     WL := rand_rows (logits_rands k) vocab emb;
     BL := zeros vocab |}.

(** Where everything is after [initialize_weights]. *)
Record weights_at (h : heap) (L k : nat) : Prop := {
  at_wte : mat_at h L (S L) 1 (WTE (init_params k));
  at_wpe : mat_at h (wpe_at L) (S (wpe_at L)) 1 (WPE (init_params k));
  at_blocks : h !! blocks_at L = Some (Some (@VBlock F <$> init_blocks L));
  at_groups : forall b, (b < num_blocks)%nat ->
                block_at h (group_at L b) (group_rands_at k b);
  at_logits : layer_at h (logits_at L) (WL (init_params k));
  at_length : length h = (L + init_size)%nat
}.

(** The blocks freed so far by [free_weights]: those from [lo] up to
    [hi], the array of blocks at [a] apart, which goes last but one. *)
Definition freed_range (lo hi : nat) (b : nat) : bool :=
  bool_decide (lo <= b < hi)%nat.
Definition freed_but (lo hi a : nat) (b : nat) : bool :=
  bool_decide (lo <= b < hi /\ b <> a)%nat.

(** ** main_argmax: the first index of a largest element *)

Fixpoint argmax_from (xs : list F) (i : nat) (best : nat) (bv : F) : nat :=
  match xs with
  | [] => best
  | x :: xs' => if f_gt x bv then argmax_from xs' (S i) i x
                else argmax_from xs' (S i) best bv
  end.

Definition argmax_spec (xs : list F) : nat :=
  match xs with
  | [] => 0%nat
  | x :: xs' => argmax_from xs' 1 0 x
  end.
End Specifications.


(* ===================================================================== *)
(** * Part 3: two arithmetics and a sample heap                           *)
(* ===================================================================== *)

(** ** IEEE 754: [float] is binary32, [double] is binary64 *)

Module IEEE.

Definition b32 (m e : Z) : spec_float := binary_normalize 24 128 m e false.
Definition b64 (m e : Z) : spec_float := binary_normalize 53 1024 m e false.

(** A float read as a double: exact. *)
Definition to_double (x : spec_float) : spec_float :=
  match x with
  | S754_finite s m e => binary_normalize 53 1024 (cond_Zopp s (Zpos m)) e s
  | _ => x
  end.

(** A double stored into a float: rounded to nearest, ties to even. *)
Definition to_float (x : spec_float) : spec_float :=
  match x with
  | S754_finite s m e => binary_normalize 24 128 (cond_Zopp s (Zpos m)) e s
  | _ => x
  end.

#[export] Instance ieee_ops : FloatOps spec_float spec_float := {|
  f_zero := S754_zero false;
  f_one := b32 1 0;
  f_half := b32 1 (-1);
  f_add := SFadd 24 128;
  f_sub := SFsub 24 128;
  f_mul := SFmul 24 128;
  f_div := SFdiv 24 128;
  f_of_int := fun i => b32 i 0;
  d_eps := SFdiv 53 1024 (b64 1 0) (b64 100000 0);
  d_add := SFadd 53 1024;
  d_div := SFdiv 53 1024;
  d_sqrt := SFsqrt 53 1024;
  f2d := to_double;
  d2f := to_float
|}.

(** 0.02f and 0.01f are the binary32 numbers nearest to 2/100 and 1/100;
    [a > b] is false when either side is a NaN. *)
#[export] Instance ieee_init : InitOps spec_float spec_float := {|
  f_0_02 := SFdiv 24 128 (b32 2 0) (b32 100 0);
  f_0_01 := SFdiv 24 128 (b32 1 0) (b32 100 0);
  f_gt := fun a b => SFltb b a;
  d_of_int := fun i => b64 i 0
|}.

End IEEE.

(** ** Exact integer arithmetic, in which the laws of [exact_laws] hold

    The integers have +, - and * but neither a half nor real quotients
    and roots: those fields are filled with the nearest integer notions
    and play no part in [exact_laws], which speaks of + and * only. *)

Module Exact.

#[export] Instance int_ops : FloatOps Z Z := {|
  f_zero := 0;
  f_one := 1;
  f_half := 0;
  f_add := Z.add;
  f_sub := Z.sub;
  f_mul := Z.mul;
  f_div := Z.div;
  f_of_int := fun i => i;
  d_eps := 0;
  d_add := Z.add;
  d_div := Z.div;
  d_sqrt := Z.sqrt;
  f2d := fun x => x;
  d2f := fun x => x
|}.

(** The order of the integers; 0.02 and 0.01 have no integer
    counterpart and are both 0. *)
#[export] Instance int_init : InitOps Z Z := {|
  f_0_02 := 0;
  f_0_01 := 0;
  f_gt := Z.gtb;
  d_of_int := fun i => i
|}.

End Exact.

(** ** A sample heap

    Block 0 is a run of ones long enough for every row and bias, block 1
    a run of pointers to it long enough for every matrix, block 2 the
    array of block weights, block 3 the tokens and block 4 an array of
    per-head matrices.  The matrices share their rows: nothing in the
    program writes to a weight. *)

Module Sample.
Import IEEE.

Definition ones (k : nat) : list spec_float := replicate k f_one.

Definition layer (n4 m : nat) : LinearLayer :=
  {| weights := Ptr 1 0; biases := Ptr 0 0;
     fcInputSize := Z.of_nat (4 * n4); fcOutputSize := Z.of_nat m |}.

Definition bw : BlockWeights :=
  {| q_mlp := layer (emb / 4) emb;
     k_mlp := layer (emb / 4) emb;
     v_mlp := layer (emb / 4) emb;
     first_block_MLP := layer (emb / 4) (4 * emb);
     second_block_MLP := layer emb emb |}.

Definition gw : GPT2Weights :=
  {| wpe := Ptr 1 0; wte := Ptr 1 0; blocks := Ptr 2 0;
     logits_mlp := layer (emb / 4) vocab |}.

Definition world (n : nat) : heap spec_float :=
  [ Some (VFloat <$> ones vocab);
    Some (replicate vocab (VPtr (Ptr 0 0)));
    Some (replicate num_blocks (VBlock bw));
    Some (replicate n (VInt 0));
    Some (replicate num_heads (VPtr (Ptr 1 0))) ].

Definition bparams : block_params :=
  {| Wq := replicate emb (ones emb); Bq := ones emb;
     Wk := replicate emb (ones emb); Bk := ones emb;
     Wv := replicate emb (ones emb); Bv := ones emb;
     W1 := replicate (4 * emb) (ones emb); B1 := ones (4 * emb);
     W2 := replicate emb (ones (4 * emb)); B2 := ones emb |}.

Definition mparams : model_params :=
  {| WTE := replicate vocab (ones emb);
     WPE := replicate max_pos (ones emb);
     BPS := replicate num_blocks bparams;
     WL := replicate vocab (ones emb);
     BL := ones vocab |}.

(** [n] rows of [k] ones. *)
Definition rows (n k : nat) : list (list spec_float) := replicate n (ones k).

Definition tokens (n : nat) : list Z := replicate n 0.

(** Five ones in a block of exactly five floats, and one pointer to it:
    a vector and a one-row matrix whose width is no multiple of 4. *)
Definition ragged : heap spec_float :=
  [ Some (VFloat <$> ones 5); Some [VPtr (Ptr 0 0)] ].


(** A C library: the generator of the C standard's example, 31 bits
    wide, and a clock that ticks once per call. *)
Definition lcg (k : nat) : Z := (1103515245 * Z.of_nat k + 12345) mod 2147483648.

#[export] Instance libc : LibC := {|
  RAND_MAX := 2147483647;
  rand_at := lcg;
  rand_range := fun k =>
    let H := Z.mod_pos_bound (1103515245 * Z.of_nat k + 12345) 2147483648 eq_refl in
    conj (proj1 H) (proj1 (Z.lt_succ_r _ 2147483647) (proj2 H));
  clock_at := fun k => Z.of_nat k;
  CLOCKS_PER_SEC := 1000000
|}.

(** A heap that holds [n] tokens, all equal to [t], and nothing else. *)
Definition prompt (n : nat) (t : Z) : heap spec_float :=
  [ Some (replicate n (VInt t)) ].

End Sample.

(** ** Integer logits

    One block of VOCAB_SIZE integers, 0 1 2 3 4 5 6 0 1 2 ..., read with
    the exact arithmetic. *)

Module Logits.
Import Exact.

Definition cycle : list Z := (fun i => Z.of_nat i mod 7) <$> seq 0 vocab.

Definition shelf : heap Z := [ Some (VFloat <$> cycle) ].

End Logits.
(* ===================================================================== *)
(** * Part 4: proofs                                                      *)
(* ===================================================================== *)

Section Proofs.
Context {F D : Type} {FO : FloatOps F D}.

Abbreviation val := (val F).
Abbreviation heap := (heap F).
Abbreviation m128 := (m128 F).

Implicit Types (h : heap) (p q : ptr) (c : list val).

Lemma for_loop_eq {S} fuel cond d (body : Z -> S -> M S) i s :
  for_loop fuel cond d body i s =
  if cond i then
    match fuel return @M F S with
    | O => fail OutOfFuel
    | Datatypes.S fuel' => s' ← body i s; for_loop fuel' cond d body (i + d) s'
    end
  else mret s.
Proof. by destruct fuel. Qed.

Lemma memcpy_cells_eq n dst src :
  memcpy_cells n dst src =
  match n return @M F unit with
  | O => mret tt
  | Datatypes.S n' =>
      v ← load src; store dst v;; memcpy_cells n' (dst +ₚ 1) (src +ₚ 1)
  end.
Proof. by destruct n. Qed.

#[local] Arguments Nat.mul : simpl never.
#[local] Arguments Z.mul : simpl never.
#[local] Arguments Z.add : simpl never.
#[local] Arguments Z.of_nat : simpl never.
#[local] Arguments Z.to_nat : simpl never.
#[local] Arguments Nat.div : simpl never.
#[local] Arguments Nat.modulo : simpl never.
#[local] Arguments for_loop : simpl never.
#[local] Arguments memcpy_cells : simpl never.

(** ** Rules of the weakest precondition *)

Lemma wp_ret {A} (a : A) h (Q : A -> heap -> Prop) : Q a h -> wp (mret a) h Q.
Proof. done. Qed.

Lemma wp_bind {A B} (c : M A) (k : A -> M B) h (Q : B -> heap -> Prop) :
  wp c h (fun a h' => wp (k a) h' Q) -> wp (c ≫= k) h Q.
Proof.
  unfold wp, mbind, M_bind, bind. destruct (c h) as [[a h']|e]; done.
Qed.

Lemma wp_mono {A} (c : M A) h (Q Q' : A -> heap -> Prop) :
  wp c h Q -> (forall a h', Q a h' -> Q' a h') -> wp c h Q'.
Proof.
  unfold wp. destruct (c h) as [[a h']|e]; [|done]. intros HQ HQQ. by apply HQQ.
Qed.

Lemma wp_run {A} (c : M A) h (Q : A -> heap -> Prop) :
  wp c h Q <-> exists a h', c h = Ok (a, h') /\ Q a h'.
Proof.
  unfold wp. split.
  - destruct (c h) as [[a h']|e]; [|done]. eauto.
  - intros (a & h' & -> & HQ). done.
Qed.

Lemma wp_malloc n h (Q : ptr -> heap -> Prop) :
  0 <= n ->
  Q (Ptr (length h) 0) (h ++ [Some (replicate (Z.to_nat n) VUndef)]) ->
  wp (malloc n) h Q.
Proof.
  intros Hn HQ. unfold wp, malloc.
  destruct (Z.ltb_spec n 0); [lia|done].
Qed.

Lemma wp_load p h c v (Q : val -> heap -> Prop) :
  h !! blk p = Some (Some c) -> 0 <= off p ->
  c !! Z.to_nat (off p) = Some v ->
  Q v h -> wp (load p) h Q.
Proof.
  intros Hb Ho Hc HQ. unfold wp, load. rewrite Hb.
  destruct (Z.ltb_spec (off p) 0); [lia|]. by rewrite Hc.
Qed.

Lemma wp_load_float p h c f (Q : F -> heap -> Prop) :
  h !! blk p = Some (Some c) -> 0 <= off p ->
  c !! Z.to_nat (off p) = Some (VFloat f) ->
  Q f h -> wp (load_float p) h Q.
Proof.
  intros. apply wp_bind. eapply wp_load; eauto.
Qed.

Lemma wp_load_ptr p h c q (Q : ptr -> heap -> Prop) :
  h !! blk p = Some (Some c) -> 0 <= off p ->
  c !! Z.to_nat (off p) = Some (VPtr q) ->
  Q q h -> wp (load_ptr p) h Q.
Proof.
  intros. apply wp_bind. eapply wp_load; eauto.
Qed.

Lemma wp_load_int p h c z (Q : Z -> heap -> Prop) :
  h !! blk p = Some (Some c) -> 0 <= off p ->
  c !! Z.to_nat (off p) = Some (VInt z) ->
  Q z h -> wp (load_int p) h Q.
Proof.
  intros. apply wp_bind. eapply wp_load; eauto.
Qed.

Lemma wp_load_block p h c w (Q : BlockWeights -> heap -> Prop) :
  h !! blk p = Some (Some c) -> 0 <= off p ->
  c !! Z.to_nat (off p) = Some (VBlock w) ->
  Q w h -> wp (load_block p) h Q.
Proof.
  intros. apply wp_bind. eapply wp_load; eauto.
Qed.

Lemma wp_store p v h c (Q : unit -> heap -> Prop) :
  h !! blk p = Some (Some c) -> 0 <= off p ->
  (Z.to_nat (off p) < length c)%nat ->
  Q tt (<[blk p := Some (<[Z.to_nat (off p) := v]> c)]> h) ->
  wp (store p v) h Q.
Proof.
  intros Hb Ho Hc HQ. unfold wp, store. rewrite Hb.
  destruct (Z.ltb_spec (off p) 0); [lia|].
  destruct (Nat.ltb_spec (Z.to_nat (off p)) (length c)); [done|lia].
Qed.

Lemma wp_free p h c (Q : unit -> heap -> Prop) :
  h !! blk p = Some (Some c) -> off p = 0 ->
  Q tt (<[blk p := None]> h) ->
  wp (free p) h Q.
Proof.
  intros Hb Ho HQ. unfold wp, free. rewrite Hb, Ho. done.
Qed.

(** The loop rule: [n] is the trip count, [I k] holds before the step
    number [k]. *)
Lemma wp_for {S} (I : nat -> S -> heap -> Prop) (n fuel : nat)
    (cond : Z -> bool) (d : Z) (body : Z -> S -> M S) (i0 : Z) (s0 : S) h0
    (Q : S -> heap -> Prop) :
  (n <= fuel)%nat ->
  (forall k, (k < n)%nat -> cond (i0 + d * Z.of_nat k) = true) ->
  cond (i0 + d * Z.of_nat n) = false ->
  I O s0 h0 ->
  (forall k s h, (k < n)%nat -> I k s h ->
     wp (body (i0 + d * Z.of_nat k) s) h (I (Datatypes.S k))) ->
  (forall s h, I n s h -> Q s h) ->
  wp (for_loop fuel cond d body i0 s0) h0 Q.
Proof.
  revert I fuel i0 s0 h0.
  induction n as [|n IH]; intros I fuel i0 s0 h0 Hfuel Htrue Hfalse H0 Hbody HQ.
  - replace (i0 + d * Z.of_nat 0) with i0 in Hfalse by lia.
    rewrite for_loop_eq, Hfalse. by apply wp_ret, HQ.
  - destruct fuel as [|fuel]; [lia|]. rewrite for_loop_eq.
    specialize (Htrue O ltac:(lia)) as Hc.
    replace (i0 + d * Z.of_nat 0) with i0 in Hc by lia. rewrite Hc.
    apply wp_bind. eapply wp_mono.
    { specialize (Hbody O s0 h0 ltac:(lia) H0).
      replace (i0 + d * Z.of_nat 0) with i0 in Hbody by lia. exact Hbody. }
    intros s1 h1 H1.
    apply (IH (fun k => I (Datatypes.S k))); [lia| | |done| |done].
    + intros k Hk. specialize (Htrue (Datatypes.S k) ltac:(lia)).
      by replace (i0 + d + d * Z.of_nat k)
        with (i0 + d * Z.of_nat (Datatypes.S k)) by lia.
    + by replace (i0 + d + d * Z.of_nat n)
        with (i0 + d * Z.of_nat (Datatypes.S n)) by lia.
    + intros k s h Hk HI.
      replace (i0 + d + d * Z.of_nat k)
        with (i0 + d * Z.of_nat (Datatypes.S k)) by lia.
      apply Hbody; [lia|done].
Qed.


Lemma wp_for_range {S} (I : nat -> S -> heap -> Prop) (n fuel : nat) (hi : Z)
    (body : Z -> S -> M S) (s0 : S) h0 (Q : S -> heap -> Prop) :
  (n <= fuel)%nat -> hi = Z.of_nat n ->
  I O s0 h0 ->
  (forall k s h, (k < n)%nat -> I k s h ->
     wp (body (Z.of_nat k) s) h (I (Datatypes.S k))) ->
  (forall s h, I n s h -> Q s h) ->
  wp (for_loop fuel (fun i => i <? hi) 1 body 0 s0) h0 Q.
Proof.
  intros Hfuel -> H0 Hbody HQ.
  apply (wp_for I n); [done| | |done| |done].
  - intros. apply Z.ltb_lt. lia.
  - apply Z.ltb_ge. lia.
  - intros k s h Hk HI. replace (0 + 1 * Z.of_nat k) with (Z.of_nat k) by lia.
    by apply Hbody.
Qed.

Lemma wp_for_step4 {S} (I : nat -> S -> heap -> Prop) (n fuel : nat) (hi : Z)
    (body : Z -> S -> M S) (s0 : S) h0 (Q : S -> heap -> Prop) :
  (n <= fuel)%nat -> hi = Z.of_nat (4 * n) ->
  I O s0 h0 ->
  (forall k s h, (k < n)%nat -> I k s h ->
     wp (body (4 * Z.of_nat k) s) h (I (Datatypes.S k))) ->
  (forall s h, I n s h -> Q s h) ->
  wp (for_loop fuel (fun i => i <? hi) 4 body 0 s0) h0 Q.
Proof.
  intros Hfuel -> H0 Hbody HQ.
  apply (wp_for I n); [done| | |done| |done].
  - intros. apply Z.ltb_lt. lia.
  - apply Z.ltb_ge. lia.
  - intros k s h Hk HI. replace (0 + 4 * Z.of_nat k) with (4 * Z.of_nat k) by lia.
    by apply Hbody.
Qed.

Lemma to_nat_0_add (k : nat) : Z.to_nat (0 + Z.of_nat k) = k.
Proof. lia. Qed.

(** ** Heap and list facts *)

Lemma lookup_heap_snoc h (x : option (list val)) :
  (h ++ [x]) !! length h = Some x.
Proof. by apply list_lookup_middle. Qed.

Lemma lookup_heap_middle h l (x : option (list val)) :
  (h ++ x :: l) !! length h = Some x.
Proof. by apply list_lookup_middle. Qed.

Lemma insert_heap_middle h l (x y : option (list val)) :
  <[length h := y]> (h ++ x :: l) = h ++ y :: l.
Proof.
  rewrite insert_app_r_alt by lia. by rewrite Nat.sub_diag.
Qed.

Lemma insert_heap_snoc h (x y : option (list val)) :
  <[length h := y]> (h ++ [x]) = h ++ [y].
Proof. apply insert_heap_middle. Qed.

Lemma is_vec_app h l p xs : is_vec h p xs -> is_vec (h ++ l) p xs.
Proof.
  intros (Ho & c & Hc & Hxs). split; [done|].
  exists c. split; [by apply lookup_app_l_Some|done].
Qed.

Lemma is_mat_app h l p rows : is_mat h p rows -> is_mat (h ++ l) p rows.
Proof.
  intros (Ho & c & Hc & Hrows). split; [done|].
  exists c. split; [by apply lookup_app_l_Some|].
  intros i r Hr. destruct (Hrows i r Hr) as (q & Hq & Hv).
  exists q. split; [done|]. by apply is_vec_app.
Qed.

(** A block that holds exactly [xs] is a vector at offset 0. *)
Lemma is_vec_block h b xs :
  h !! b = Some (Some (VFloat <$> xs)) -> is_vec h (Ptr b 0) xs.
Proof.
  intros Hb. split; [done|]. exists (VFloat <$> xs). split; [done|].
  intros j x Hj. simpl. by rewrite list_lookup_fmap, Hj.
Qed.

Lemma wp_load_float_vec h p xs (j : nat) x i (Q : F -> heap -> Prop) :
  is_vec h p xs -> xs !! j = Some x -> i = Z.of_nat j ->
  Q x h -> wp (load_float (p +ₚ i)) h Q.
Proof.
  intros (Ho & c & Hc & Hxs) Hj -> HQ.
  eapply wp_load_float; simpl; [done|lia| |done].
  replace (Z.to_nat (off p + Z.of_nat j)) with (Z.to_nat (off p) + j)%nat by lia.
  by apply Hxs.
Qed.

Lemma wp_load_row h p rows (i : nat) r z (Q : ptr -> heap -> Prop) :
  is_mat h p rows -> rows !! i = Some r -> z = Z.of_nat i ->
  (forall q, is_vec h q r -> Q q h) -> wp (load_ptr (p +ₚ z)) h Q.
Proof.
  intros (Ho & c & Hc & Hrows) Hi -> HQ.
  destruct (Hrows i r Hi) as (q & Hq & Hv).
  eapply wp_load_ptr; simpl; [done|lia| |by apply HQ].
  by replace (Z.to_nat (off p + Z.of_nat i)) with (Z.to_nat (off p) + i)%nat by lia.
Qed.

Lemma rows_aligned_app h l p n : rows_aligned h p n -> rows_aligned (h ++ l) p n.
Proof.
  intros (c & Hc & Hal). exists c. split; [by apply lookup_app_l_Some|done].
Qed.

Lemma rows_aligned_prefix h h' p n :
  rows_aligned h p n -> h `prefix_of` h' -> rows_aligned h' p n.
Proof. intros Hal [l ->]. by apply rows_aligned_app. Qed.

(** A row of an aligned matrix is loaded with its alignment. *)
Lemma wp_load_row_al h p rows (n i : nat) r z (Q : ptr -> heap -> Prop) :
  is_mat h p rows -> rows_aligned h p n -> (i < n)%nat ->
  rows !! i = Some r -> z = Z.of_nat i ->
  (forall q, is_vec h q r -> off q mod 4 = 0 -> Q q h) ->
  wp (load_ptr (p +ₚ z)) h Q.
Proof.
  intros (Ho & c & Hc & Hrows) (c' & Hc' & Hal) Hn Hi -> HQ.
  rewrite Hc in Hc'. injection Hc' as <-.
  destruct (Hrows i r Hi) as (q & Hq & Hv).
  eapply wp_load_ptr; simpl; [done|lia| |apply HQ; [done|by eapply Hal]].
  by replace (Z.to_nat (off p + Z.of_nat i)) with (Z.to_nat (off p) + i)%nat by lia.
Qed.

Lemma at_lookup (xs : list F) i x : xs !! i = Some x -> at_ xs i = x.
Proof. unfold at_. by intros ->. Qed.

Lemma lookup_at (xs : list F) i : (i < length xs)%nat -> xs !! i = Some (at_ xs i).
Proof.
  intros Hi. destruct (lookup_lt_is_Some_2 xs i Hi) as [x Hx].
  by rewrite (at_lookup _ _ _ Hx).
Qed.

Lemma wp_loadu_ps_vec h p xs (k : nat) i (Q : m128 -> heap -> Prop) :
  is_vec h p xs -> (4 * k + 4 <= length xs)%nat -> i = 4 * Z.of_nat k ->
  Q (chunk4 xs k) h -> wp (_mm_loadu_ps (p +ₚ i)) h Q.
Proof.
  intros Hv Hk -> HQ. unfold _mm_loadu_ps.
  apply wp_bind. eapply (wp_load_float_vec _ _ _ (4 * k));
    [done|apply lookup_at; lia|lia|].
  apply wp_bind.
  replace (p +ₚ 4 * Z.of_nat k +ₚ 1) with (p +ₚ Z.of_nat (4 * k + 1))
    by (unfold padd; simpl; f_equal; lia).
  eapply (wp_load_float_vec _ _ _ (4 * k + 1)); [done|apply lookup_at; lia|done|].
  apply wp_bind.
  replace (p +ₚ 4 * Z.of_nat k +ₚ 2) with (p +ₚ Z.of_nat (4 * k + 2))
    by (unfold padd; simpl; f_equal; lia).
  eapply (wp_load_float_vec _ _ _ (4 * k + 2)); [done|apply lookup_at; lia|done|].
  apply wp_bind.
  replace (p +ₚ 4 * Z.of_nat k +ₚ 3) with (p +ₚ Z.of_nat (4 * k + 3))
    by (unfold padd; simpl; f_equal; lia).
  eapply (wp_load_float_vec _ _ _ (4 * k + 3)); [done|apply lookup_at; lia|done|].
  by apply wp_ret.
Qed.

Lemma wp_load_ps_vec h p xs (k : nat) i (Q : m128 -> heap -> Prop) :
  is_vec h p xs -> off p mod 4 = 0 ->
  (4 * k + 4 <= length xs)%nat -> i = 4 * Z.of_nat k ->
  Q (chunk4 xs k) h -> wp (_mm_load_ps (p +ₚ i)) h Q.
Proof.
  intros Hv Hal Hk -> HQ. unfold _mm_load_ps, aligned16. cbn [off padd].
  replace (off p + 4 * Z.of_nat k) with (off p + Z.of_nat k * 4) by lia.
  rewrite Z.mod_add, Hal by lia. cbn [Z.eqb].
  replace (Z.of_nat k * 4) with (4 * Z.of_nat k) by lia.
  by eapply wp_loadu_ps_vec.
Qed.

(** ** Partially written arrays *)

Lemma partial_O (vs : list val) : partial vs 0 = replicate (length vs) VUndef.
Proof. unfold partial. by rewrite take_0, Nat.sub_0_r. Qed.

Lemma partial_all (vs : list val) : partial vs (length vs) = vs.
Proof.
  unfold partial. rewrite firstn_all, Nat.sub_diag. apply app_nil_r.
Qed.

Lemma length_partial (vs : list val) k :
  (k <= length vs)%nat -> length (partial vs k) = length vs.
Proof.
  intros Hk. unfold partial.
  rewrite length_app, length_take, length_replicate. lia.
Qed.

Lemma partial_step (vs : list val) k v :
  vs !! k = Some v -> <[k := v]> (partial vs k) = partial vs (S k).
Proof.
  intros Hk. pose proof (lookup_lt_Some _ _ _ Hk) as Hlt. unfold partial.
  rewrite insert_app_r_alt by (rewrite length_take; lia).
  rewrite length_take, Nat.min_l, Nat.sub_diag by lia.
  rewrite (take_S_r _ _ _ Hk), <- app_assoc. f_equal.
  destruct (length vs - k)%nat as [|m] eqn:Hm; [lia|].
  replace (length vs - S k)%nat with m by lia. done.
Qed.

Lemma lookup_partial_lt (vs : list val) k j :
  (j < k)%nat -> (k <= length vs)%nat -> partial vs k !! j = vs !! j.
Proof.
  intros Hj Hk. unfold partial.
  rewrite lookup_app_l by (rewrite length_take; lia).
  by apply lookup_take_lt.
Qed.

(** ** linear *)

Lemma length_linear_spec (X : list F) W B :
  length W = length B -> length (linear_spec X W B) = length W.
Proof. intros HWB. unfold linear_spec. rewrite length_zip_with. lia. Qed.

Lemma lookup_linear_spec (X : list F) W B i w b :
  W !! i = Some w -> B !! i = Some b ->
  linear_spec X W B !! i = Some (linear_row X w b).
Proof.
  intros HW HB. unfold linear_spec. by rewrite lookup_zip_with, HW; simpl; rewrite HB.
Qed.

Ltac ltb_true := apply Z.ltb_lt; lia.
Ltac ltb_false := apply Z.ltb_ge; lia.

Lemma linear_wp h inp w b (X : list F) (W : list (list F)) (B : list F)
    (n4 m : nat) (Q : ptr -> heap -> Prop) :
  is_vec h inp X -> is_mat h w W -> is_vec h b B ->
  length X = (4 * n4)%nat ->
  Forall (fun r => length r = (4 * n4)%nat) W ->
  length W = m -> length B = m ->
  Q (Ptr (length h) 0) (h ++ [Some (VFloat <$> linear_spec X W B)]) ->
  wp (linear inp w b (Z.of_nat (4 * n4)) (Z.of_nat m)) h Q.
Proof.
  intros HX HW HB HlX HlW HlenW HlenB HQ. unfold linear.
  set (Y := VFloat <$> linear_spec X W B).
  assert (length Y = m) as HlY.
  { unfold Y. rewrite length_fmap, length_linear_spec; lia. }
  apply wp_bind, wp_malloc; [lia|]. rewrite Nat2Z.id.
  apply wp_bind.
  apply (wp_for_range (fun k _ h' => h' = h ++ [Some (partial Y k)]) m);
    [lia|done|by rewrite partial_O, HlY| |].
  - intros k [] h' Hk ->.
    destruct (lookup_lt_is_Some_2 W k ltac:(lia)) as [wk Hwk].
    destruct (lookup_lt_is_Some_2 B k ltac:(lia)) as [bk Hbk].
    pose proof (Forall_lookup_1 _ _ _ _ HlW Hwk) as Hlwk. simpl in Hlwk.
    apply wp_bind.
    apply (wp_for_step4 (fun j acc h'' => h'' = h ++ [Some (partial Y k)] /\
                     acc = lanes4 X wk j) n4);
      [lia|done|done| |].
    + intros j acc h'' Hj [-> ->].
      apply wp_bind.
      eapply (wp_loadu_ps_vec _ _ X j); [by apply is_vec_app|lia|lia|].
      apply wp_bind.
      eapply (wp_load_row _ _ W k); [by apply is_mat_app|done|lia|].
      intros q Hq. apply wp_bind.
      eapply (wp_loadu_ps_vec _ _ wk j); [done|lia|lia|].
      by apply wp_ret.
    + intros acc h'' [-> ->].
      apply wp_bind.
      eapply (wp_load_float_vec _ _ B k); [by apply is_vec_app|done|lia|].
      eapply wp_store; simpl; [apply lookup_heap_snoc|lia| |].
      { rewrite length_partial; lia. }
      rewrite to_nat_0_add.
      rewrite insert_heap_snoc. f_equal. f_equal. f_equal.
      apply partial_step. unfold Y.
      rewrite list_lookup_fmap, (lookup_linear_spec _ _ _ _ _ _ Hwk Hbk).
      simpl. unfold linear_row, dot4. rewrite HlX.
      replace (4 * n4 / 4)%nat with n4; [done|].
      symmetry. rewrite Nat.mul_comm. apply Nat.div_mul. lia.
  - intros [] h' ->. apply wp_ret. by rewrite <- HlY, partial_all.
Qed.

(** ** Building a matrix row by row *)

Lemma is_vec_prefix h h' p xs : is_vec h p xs -> h `prefix_of` h' -> is_vec h' p xs.
Proof. intros Hv [l ->]. by apply is_vec_app. Qed.

Lemma is_mat_prefix h h' p rows :
  is_mat h p rows -> h `prefix_of` h' -> is_mat h' p rows.
Proof. intros Hv [l ->]. by apply is_mat_app. Qed.

Lemma length_row_ptrs base n : length (row_ptrs base n) = n.
Proof. unfold row_ptrs. by rewrite length_fmap, length_seq. Qed.

Lemma lookup_row_ptrs base n i :
  (i < n)%nat -> row_ptrs base n !! i = Some (Ptr (base + i) 0).
Proof.
  intros Hi. unfold row_ptrs. rewrite list_lookup_fmap, lookup_seq_lt by done.
  done.
Qed.

Lemma length_mat_blocks L (R : list (list F)) : length (mat_blocks L R) = S (length R).
Proof. unfold mat_blocks. simpl. by rewrite length_fmap. Qed.

Lemma is_mat_mat_blocks h (R : list (list F)) l :
  is_mat (h ++ mat_blocks (length h) R ++ l) (Ptr (length h) 0) R.
Proof.
  split; [done|]. eexists. split; [apply lookup_heap_middle|].
  intros i r Hr. pose proof (lookup_lt_Some _ _ _ Hr) as Hi.
  exists (Ptr (S (length h) + i) 0). split.
  - simpl. by rewrite list_lookup_fmap, lookup_row_ptrs.
  - apply is_vec_block. simpl.
    rewrite lookup_app_r by lia.
    replace (S (length h + i) - length h)%nat with (S i) by lia. simpl.
    rewrite lookup_app_l by (rewrite length_fmap; lia).
    by rewrite list_lookup_fmap, Hr.
Qed.

Lemma wp_build_matrix h (R : list (list F)) (n cols fuel : nat)
    (fill : Z -> M unit) (Q : unit -> heap -> Prop) :
  length R = n -> (n <= fuel)%nat ->
  (forall k r hpre, R !! k = Some r -> h `prefix_of` hpre ->
     (exists c, hpre !! length h = Some (Some c) /\
                c !! k = Some (VPtr (Ptr (length hpre) 0))) ->
     wp (fill (Z.of_nat k)) (hpre ++ [Some (replicate cols VUndef)])
        (fun _ h'' => h'' = hpre ++ [Some (VFloat <$> r)])) ->
  Q tt (h ++ mat_blocks (length h) R) ->
  wp (for_loop fuel (fun i => i <? Z.of_nat n) 1
        (fun i _ => row ← malloc (Z.of_nat cols);
                    store (Ptr (length h) 0 +ₚ i) (VPtr row);; fill i) 0 tt)
     (h ++ [Some (replicate n VUndef)]) Q.
Proof.
  intros HlR Hfuel Hfill HQ.
  set (spine := VPtr <$> row_ptrs (S (length h)) n : list val).
  assert (length spine = n) as Hls.
  { unfold spine. by rewrite length_fmap, length_row_ptrs. }
  apply (wp_for_range (fun k _ h' =>
           h' = h ++ Some (partial spine k)
                  :: ((fun r : list F => Some (VFloat <$> r)) <$> take k R)) n);
    [done|done|by rewrite partial_O, Hls| |].
  - intros k [] h' Hk ->.
    destruct (lookup_lt_is_Some_2 R k ltac:(lia)) as [r Hr].
    set (rows := (fun r : list F => Some (VFloat <$> r)) <$> take k R).
    assert (length rows = k) as Hlrows.
    { unfold rows. rewrite length_fmap, length_take. lia. }
    apply wp_bind, wp_malloc; [lia|]. rewrite Nat2Z.id.
    apply wp_bind.
    eapply wp_store; simpl.
    { rewrite <- app_assoc. simpl. apply lookup_heap_middle. }
    { lia. }
    { rewrite length_partial; lia. }
    rewrite to_nat_0_add.
    rewrite <- app_assoc. simpl. rewrite insert_heap_middle.
    rewrite partial_step
      with (v := VPtr (Ptr (length (h ++ Some (partial spine k) :: rows)) 0)).
    2:{ unfold spine. rewrite list_lookup_fmap, lookup_row_ptrs by lia.
        simpl. rewrite length_app. simpl. do 3 f_equal. lia. }
    eapply wp_mono.
    { replace (h ++ Some (partial spine (S k)) :: rows ++ [Some (replicate cols VUndef)])
        with ((h ++ Some (partial spine (S k)) :: rows) ++ [Some (replicate cols VUndef)])
        by (by rewrite <- app_assoc).
      apply (Hfill k r); [done|by eexists|].
      eexists. split; [apply lookup_heap_middle|].
      rewrite lookup_partial_lt by lia. unfold spine.
      rewrite list_lookup_fmap, lookup_row_ptrs by lia. simpl.
      rewrite length_app. simpl. do 3 f_equal. lia. }
    intros [] h'' ->. simpl.
    rewrite <- app_assoc. simpl. do 2 f_equal.
    rewrite (take_S_r _ _ _ Hr), fmap_app. done.
  - intros [] h' ->.
    replace (partial spine n) with spine by (by rewrite <- Hls, partial_all).
    rewrite <- HlR, firstn_all. unfold spine, mat_blocks in *. by rewrite <- HlR.
Qed.

(** ** norm *)

Lemma fold_left_take_S {A B} (f : A -> B -> A) (l : list B) (k : nat) (x : B) a :
  l !! k = Some x ->
  fold_left f (take (S k) l) a = f (fold_left f (take k l) a) x.
Proof.
  intros Hk. by rewrite (take_S_r _ _ _ Hk), fold_left_app.
Qed.

Lemma norm_wp h x (X : list (list F)) (n features : nat) (Q : ptr -> heap -> Prop) :
  is_mat h x X -> length X = n ->
  Forall (fun r => length r = features) X ->
  Q (Ptr (length h) 0) (h ++ mat_blocks (length h) (norm_spec X)) ->
  wp (norm x (Z.of_nat n) (Z.of_nat features)) h Q.
Proof.
  intros Hx HlX Hrows HQ. unfold norm.
  apply wp_bind, wp_malloc; [lia|]. rewrite !Nat2Z.id.
  apply wp_bind.
  eapply (wp_build_matrix h (norm_spec X) n features);
    [unfold norm_spec; by rewrite length_fmap|done| |].
  2:{ by apply wp_ret. }
  intros k r hpre Hr Hpre (spine & Hspine & Hsk).
  unfold norm_spec in Hr. rewrite list_lookup_fmap in Hr.
  destruct (X !! k) as [xk|] eqn:Hxk; [|done]. simplify_eq/=.
  pose proof (Forall_lookup_1 _ _ _ _ Hrows Hxk) as Hlxk. simpl in Hlxk.
  assert (is_mat (hpre ++ [Some (replicate features VUndef)]) x X) as Hx'.
  { apply is_mat_app. by apply (is_mat_prefix h). }
  set (mean := f_div (fold_left f_add xk f_zero) (f_of_int (Z.of_nat features))).
  set (variance := f_div
         (fold_left (fun acc v => f_add acc (f_mul (f_sub v mean) (f_sub v mean)))
                    xk f_zero) (f_of_int (Z.of_nat features))).
  (* the mean *)
  apply wp_bind.
  apply (wp_for_range (fun j acc h'' =>
           h'' = hpre ++ [Some (replicate features VUndef)] /\
           acc = fold_left f_add (take j xk) f_zero) features);
    [lia|done|done| |].
  { intros j acc h'' Hj [-> ->].
    destruct (lookup_lt_is_Some_2 xk j ltac:(lia)) as [v Hv].
    apply wp_bind. eapply (wp_load_row _ _ X k); [done|done|lia|].
    intros q Hq. apply wp_bind.
    eapply (wp_load_float_vec _ _ xk j); [done|done|lia|].
    apply wp_ret. split; [done|]. by rewrite (fold_left_take_S _ _ _ _ _ Hv). }
  intros acc h'' [-> ->]. rewrite <- Hlxk, firstn_all, Hlxk. fold mean.
  (* the variance *)
  apply wp_bind.
  apply (wp_for_range (fun j acc h'' =>
           h'' = hpre ++ [Some (replicate features VUndef)] /\
           acc = fold_left (fun acc v => f_add acc (f_mul (f_sub v mean) (f_sub v mean)))
                   (take j xk) f_zero) features);
    [lia|done|done| |].
  { intros j acc h'' Hj [-> ->].
    destruct (lookup_lt_is_Some_2 xk j ltac:(lia)) as [v Hv].
    apply wp_bind. eapply (wp_load_row _ _ X k); [done|done|lia|].
    intros q Hq. apply wp_bind.
    eapply (wp_load_float_vec _ _ xk j); [done|done|lia|].
    apply wp_bind. eapply (wp_load_row _ _ X k); [done|done|lia|].
    intros q' Hq'. apply wp_bind.
    eapply (wp_load_float_vec _ _ xk j); [done|done|lia|].
    apply wp_ret. split; [done|]. by rewrite (fold_left_take_S _ _ _ _ _ Hv). }
  intros acc h'' [-> ->]. rewrite <- Hlxk, firstn_all, Hlxk. fold variance.
  (* the normalized row *)
  set (out := VFloat <$> norm_row xk : list val).
  assert (length out = features) as Hlout.
  { unfold out, norm_row. by rewrite !length_fmap. }
  apply (wp_for_range (fun j _ h'' => h'' = hpre ++ [Some (partial out j)]) features);
    [lia|done|by rewrite partial_O, Hlout| |].
  { intros j [] h'' Hj ->.
    destruct (lookup_lt_is_Some_2 xk j ltac:(lia)) as [v Hv].
    assert (is_mat (hpre ++ [Some (partial out j)]) x X) as Hx''.
    { apply is_mat_app. by apply (is_mat_prefix h). }
    apply wp_bind. eapply (wp_load_row _ _ X k); [done|done|lia|].
    intros q Hq. apply wp_bind.
    eapply (wp_load_float_vec _ _ xk j); [done|done|lia|].
    apply wp_bind.
    eapply wp_load_ptr; simpl;
      [apply lookup_app_l_Some, Hspine|lia| |].
    { rewrite to_nat_0_add. exact Hsk. }
    eapply wp_store; simpl; [apply lookup_heap_snoc|lia| |].
    { rewrite length_partial; lia. }
    rewrite to_nat_0_add.
    rewrite insert_heap_snoc. do 3 f_equal. apply partial_step.
    unfold out, norm_row. rewrite !list_lookup_fmap, Hv. simpl.
    rewrite Hlxk. done. }
  intros [] h'' ->. by rewrite <- Hlout, partial_all.
Qed.

(** ** Four-lane stores *)

Lemma wp_storeu_ps_partial hpre (vs : list val) (k : nat) (v : m128) i p
    (Q : unit -> heap -> Prop) :
  (4 * k + 4 <= length vs)%nat ->
  vs !! (4 * k)%nat = Some (VFloat (lane0 v)) ->
  vs !! (4 * k + 1)%nat = Some (VFloat (lane1 v)) ->
  vs !! (4 * k + 2)%nat = Some (VFloat (lane2 v)) ->
  vs !! (4 * k + 3)%nat = Some (VFloat (lane3 v)) ->
  i = 4 * Z.of_nat k -> p = Ptr (length hpre) 0 ->
  Q tt (hpre ++ [Some (partial vs (4 * S k))]) ->
  wp (_mm_storeu_ps (p +ₚ i) v) (hpre ++ [Some (partial vs (4 * k))]) Q.
Proof.
  intros Hk H0 H1 H2 H3 -> -> HQ. unfold _mm_storeu_ps.
  apply wp_bind. eapply wp_store; cbn [blk off padd]; [apply lookup_heap_snoc|lia| |].
  { rewrite length_partial; lia. }
  rewrite insert_heap_snoc.
  replace (Z.to_nat (0 + 4 * Z.of_nat k)) with (4 * k)%nat by lia.
  rewrite (partial_step _ _ _ H0).
  apply wp_bind. eapply wp_store; cbn [blk off padd]; [apply lookup_heap_snoc|lia| |].
  { rewrite length_partial; lia. }
  rewrite insert_heap_snoc.
  replace (Z.to_nat (0 + 4 * Z.of_nat k + 1)) with (S (4 * k))%nat by lia.
  rewrite (partial_step _ (S (4 * k)) (VFloat (lane1 v)))
    by (by replace (S (4 * k)) with (4 * k + 1)%nat by lia).
  apply wp_bind. eapply wp_store; cbn [blk off padd]; [apply lookup_heap_snoc|lia| |].
  { rewrite length_partial; lia. }
  rewrite insert_heap_snoc.
  replace (Z.to_nat (0 + 4 * Z.of_nat k + 2)) with (S (S (4 * k)))%nat by lia.
  rewrite (partial_step _ (S (S (4 * k))) (VFloat (lane2 v)))
    by (by replace (S (S (4 * k))) with (4 * k + 2)%nat by lia).
  eapply wp_store; cbn [blk off padd]; [apply lookup_heap_snoc|lia| |].
  { rewrite length_partial; lia. }
  rewrite insert_heap_snoc.
  replace (Z.to_nat (0 + 4 * Z.of_nat k + 3)) with (S (S (S (4 * k))))%nat by lia.
  rewrite (partial_step _ (S (S (S (4 * k)))) (VFloat (lane3 v)))
    by (by replace (S (S (S (4 * k)))) with (4 * k + 3)%nat by lia).
  by replace (S (S (S (S (4 * k))))) with (4 * S k)%nat by lia.
Qed.

(** ** gelu *)

Lemma gelu_wp h x (X : list F) (n4 : nat) (Q : ptr -> heap -> Prop) :
  is_vec h x X -> length X = (4 * n4)%nat ->
  Q (Ptr (length h) 0) (h ++ [Some (VFloat <$> gelu_spec X)]) ->
  wp (gelu x (Z.of_nat (4 * n4))) h Q.
Proof.
  intros Hx HlX HQ. unfold gelu.
  set (Y := VFloat <$> gelu_spec X : list val).
  assert (length Y = (4 * n4)%nat) as HlY.
  { unfold Y, gelu_spec. by rewrite !length_fmap. }
  assert (forall i, (i < 4 * n4)%nat ->
            Y !! i = Some (VFloat (f_mul (at_ X i) f_half))) as HY.
  { intros i Hi. unfold Y, gelu_spec.
    rewrite !list_lookup_fmap, lookup_at by lia. done. }
  apply wp_bind, wp_malloc; [lia|]. rewrite Nat2Z.id.
  apply wp_bind.
  apply (wp_for_step4 (fun k _ h' => h' = h ++ [Some (partial Y (4 * k))]) n4);
    [lia|done|by rewrite partial_O, HlY| |].
  - intros k [] h' Hk ->.
    apply wp_bind.
    eapply (wp_loadu_ps_vec _ _ X k); [by apply is_vec_app|lia|done|].
    eapply wp_storeu_ps_partial; [lia| | | | |done|done|done];
      simpl; apply HY; lia.
  - intros [] h' ->. apply wp_ret. by rewrite <- HlY, partial_all.
Qed.

(** ** positions_for *)

Lemma positions_for_wp h tokens (n : nat) past_length (Q : ptr -> heap -> Prop) :
  Q (Ptr (length h) 0) (h ++ [Some (VInt <$> positions_spec n past_length)]) ->
  wp (positions_for tokens (Z.of_nat n) past_length) h Q.
Proof.
  intros HQ. unfold positions_for.
  set (Y := VInt <$> positions_spec n past_length : list val).
  assert (length Y = n) as HlY.
  { unfold Y, positions_spec. by rewrite !length_fmap, length_seq. }
  apply wp_bind, wp_malloc; [lia|]. rewrite Nat2Z.id.
  apply wp_bind.
  apply (wp_for_range (fun k _ h' => h' = h ++ [Some (partial Y k)]) n);
    [lia|done|by rewrite partial_O, HlY| |].
  - intros k [] h' Hk ->.
    eapply wp_store; simpl; [apply lookup_heap_snoc|lia| |].
    { rewrite length_partial; lia. }
    rewrite to_nat_0_add, insert_heap_snoc. do 3 f_equal.
    apply partial_step. unfold Y, positions_spec.
    by rewrite !list_lookup_fmap, lookup_seq_lt.
  - intros [] h' ->. apply wp_ret. by rewrite <- HlY, partial_all.
Qed.

(** ** matrix_add *)

Lemma length_matrix_add_spec (X Y : list (list F)) :
  length X = length Y -> length (matrix_add_spec X Y) = length X.
Proof. intros Hl. unfold matrix_add_spec. rewrite length_zip_with. lia. Qed.

Lemma matrix_add_wp h x y (X Y : list (list F)) (n c4 : nat)
    (Q : ptr -> heap -> Prop) :
  is_mat h x X -> is_mat h y Y -> length X = n -> length Y = n ->
  Forall (fun r => length r = (4 * c4)%nat) X ->
  Forall (fun r => length r = (4 * c4)%nat) Y ->
  Q (Ptr (length h) 0) (h ++ mat_blocks (length h) (matrix_add_spec X Y)) ->
  wp (matrix_add x y (Z.of_nat n) (Z.of_nat (4 * c4))) h Q.
Proof.
  intros Hx Hy HlX HlY HrX HrY HQ. unfold matrix_add.
  apply wp_bind, wp_malloc; [lia|]. rewrite !Nat2Z.id.
  apply wp_bind.
  eapply (wp_build_matrix h (matrix_add_spec X Y) n (4 * c4));
    [rewrite length_matrix_add_spec; lia|done| |by apply wp_ret].
  intros k r hpre Hr Hpre (spine & Hspine & Hsk).
  unfold matrix_add_spec in Hr. rewrite lookup_zip_with in Hr.
  destruct (X !! k) as [xk|] eqn:Hxk; [|done]. simpl in Hr.
  destruct (Y !! k) as [yk|] eqn:Hyk; [|done]. simplify_eq/=.
  pose proof (Forall_lookup_1 _ _ _ _ HrX Hxk) as Hlxk. simpl in Hlxk.
  pose proof (Forall_lookup_1 _ _ _ _ HrY Hyk) as Hlyk. simpl in Hlyk.
  set (out := VFloat <$> zip_with f_add xk yk : list val).
  assert (length out = (4 * c4)%nat) as Hlout.
  { unfold out. rewrite length_fmap, length_zip_with. lia. }
  assert (forall i, (i < 4 * c4)%nat ->
            out !! i = Some (VFloat (f_add (at_ xk i) (at_ yk i)))) as Hout.
  { intros i Hi. unfold out.
    rewrite list_lookup_fmap, lookup_zip_with, !lookup_at by lia. done. }
  apply wp_bind.
  apply (wp_for_step4 (fun j _ h' => h' = hpre ++ [Some (partial out (4 * j))]) c4);
    [lia|done|by rewrite partial_O, Hlout| |].
  - intros j [] h' Hj ->.
    assert (is_mat (hpre ++ [Some (partial out (4 * j))]) x X) as Hx'.
    { apply is_mat_app. by apply (is_mat_prefix h). }
    assert (is_mat (hpre ++ [Some (partial out (4 * j))]) y Y) as Hy'.
    { apply is_mat_app. by apply (is_mat_prefix h). }
    apply wp_bind. eapply (wp_load_row _ _ X k); [done|done|done|].
    intros q Hq. apply wp_bind.
    eapply (wp_loadu_ps_vec _ _ xk j); [done|lia|done|].
    apply wp_bind. eapply (wp_load_row _ _ Y k); [done|done|done|].
    intros q' Hq'. apply wp_bind.
    eapply (wp_loadu_ps_vec _ _ yk j); [done|lia|done|].
    apply wp_bind.
    eapply wp_load_ptr; simpl; [apply lookup_app_l_Some, Hspine|lia| |].
    { rewrite to_nat_0_add. exact Hsk. }
    eapply wp_storeu_ps_partial; [lia| | | | |done|done|done];
      simpl; apply Hout; lia.
  - intros [] h' ->.
    replace (Z.of_nat (4 * c4) - Z.rem (Z.of_nat (4 * c4)) 4)
      with (Z.of_nat (4 * c4)).
    2:{ rewrite Z.rem_mod_nonneg by lia.
        replace (Z.of_nat (4 * c4)) with (Z.of_nat c4 * 4) by lia.
        rewrite Z_mod_mult. lia. }
    apply (wp_for (fun _ _ h' => h' = hpre ++ [Some (partial out (4 * c4))]) 0);
      [lia|intros; lia|ltb_false|done|intros; lia|].
    intros [] h' ->. by rewrite <- Hlout, partial_all.
Qed.

(** ** scaled_dot_product_attention *)

Lemma sdpa_blocks_ext (Q K : list (list F)) depth L n wr wr' :
  (forall i j, (i < n)%nat -> (j < n)%nat -> wr i j = wr' i j) ->
  sdpa_blocks Q K depth L n wr = sdpa_blocks Q K depth L n wr'.
Proof.
  intros Hext. unfold sdpa_blocks. f_equal.
  apply list_eq. intros i. rewrite !list_lookup_fmap.
  destruct (decide (i < n)%nat) as [Hi|Hi].
  2:{ by rewrite lookup_seq_ge by lia. }
  rewrite lookup_seq_lt by done. simpl. do 2 f_equal.
  unfold sdpa_row. apply list_eq. intros j. rewrite !list_lookup_fmap.
  destruct (decide (j < n)%nat) as [Hj|Hj].
  2:{ by rewrite lookup_seq_ge by lia. }
  rewrite lookup_seq_lt by done. simpl. by rewrite Hext.
Qed.

Lemma sdpa_blocks_none (Q K : list (list F)) depth L n :
  sdpa_blocks Q K depth L n (fun _ _ => false) =
  Some (@VPtr F <$> row_ptrs (S L) n) :: replicate n (Some (replicate n VUndef)).
Proof.
  unfold sdpa_blocks. f_equal. apply list_eq. intros i.
  rewrite list_lookup_fmap.
  destruct (decide (i < n)%nat) as [Hi|Hi].
  2:{ rewrite lookup_seq_ge by lia. symmetry. apply lookup_replicate_None. lia. }
  rewrite lookup_seq_lt, lookup_replicate_2 by done. simpl. do 2 f_equal.
  unfold sdpa_row. apply list_eq. intros j. rewrite list_lookup_fmap.
  destruct (decide (j < n)%nat) as [Hj|Hj].
  2:{ rewrite lookup_seq_ge by lia. symmetry. apply lookup_replicate_None. lia. }
  by rewrite lookup_seq_lt, lookup_replicate_2 by done.
Qed.

Lemma sdpa_blocks_all (Q K : list (list F)) depth L n :
  length Q = n -> length K = n ->
  sdpa_blocks Q K depth L n (fun _ _ => true) = mat_blocks L (sdpa_spec Q K depth).
Proof.
  intros HQ HK. unfold sdpa_blocks, mat_blocks, sdpa_spec.
  rewrite length_fmap, HQ. f_equal.
  apply list_eq. intros i. rewrite !list_lookup_fmap.
  destruct (decide (i < n)%nat) as [Hi|Hi].
  2:{ rewrite lookup_seq_ge by lia. by rewrite lookup_ge_None_2 by lia. }
  rewrite lookup_seq_lt by done.
  destruct (lookup_lt_is_Some_2 Q i ltac:(lia)) as [q Hq]. rewrite Hq. simpl.
  do 2 f_equal. unfold sdpa_row. apply list_eq. intros j.
  rewrite !list_lookup_fmap.
  destruct (decide (j < n)%nat) as [Hj|Hj].
  2:{ rewrite lookup_seq_ge by lia. by rewrite (lookup_ge_None_2 K) by lia. }
  rewrite lookup_seq_lt by done.
  destruct (lookup_lt_is_Some_2 K j ltac:(lia)) as [k Hk]. rewrite Hk. simpl.
  by rewrite Hq, Hk.
Qed.

Lemma lookup_sdpa_blocks_row (Q K : list (list F)) depth n wr h i :
  (i < n)%nat ->
  (h ++ sdpa_blocks Q K depth (length h) n wr) !! (S (length h) + i)%nat
  = Some (Some (sdpa_row Q K depth n wr i)).
Proof.
  intros Hi. rewrite lookup_app_r by lia.
  replace (S (length h) + i - length h)%nat with (S i) by lia.
  unfold sdpa_blocks. simpl. by rewrite list_lookup_fmap, lookup_seq_lt.
Qed.

Lemma length_sdpa_row (Q K : list (list F)) depth n wr i :
  length (sdpa_row Q K depth n wr i) = n.
Proof. unfold sdpa_row. by rewrite length_fmap, length_seq. Qed.

Lemma sdpa_blocks_store (Q K : list (list F)) depth n wr wr' h i j :
  (i < n)%nat -> (j < n)%nat ->
  (forall i' j', (i' < n)%nat -> (j' < n)%nat ->
     wr' i' j' = wr i' j' || bool_decide (i' = i /\ j' = j)) ->
  <[(S (length h) + i)%nat :=
      Some (<[j := VFloat (sdpa_entry depth (default [] (Q !! i)) (default [] (K !! j)))]>
              (sdpa_row Q K depth n wr i))]>
    (h ++ sdpa_blocks Q K depth (length h) n wr)
  = h ++ sdpa_blocks Q K depth (length h) n wr'.
Proof.
  intros Hi Hj Hwr. rewrite insert_app_r_alt by lia.
  replace (S (length h) + i - length h)%nat with (S i) by lia.
  f_equal. unfold sdpa_blocks. simpl. f_equal.
  apply list_eq. intros i'.
  rewrite list_lookup_insert, !list_lookup_fmap, length_fmap, length_seq.
  destruct (decide (i' < n)%nat) as [Hi'|Hi'].
  2:{ rewrite lookup_seq_ge by lia. simpl. case_decide; [lia|done]. }
  rewrite lookup_seq_lt by done. simpl.
  case_decide as Hii.
  - destruct Hii as [-> _]. do 2 f_equal. unfold sdpa_row.
    apply list_eq. intros j'.
    rewrite list_lookup_insert, !list_lookup_fmap, length_fmap, length_seq.
    destruct (decide (j' < n)%nat) as [Hj'|Hj'].
    2:{ rewrite lookup_seq_ge by lia. simpl. case_decide; [lia|done]. }
    rewrite lookup_seq_lt by done. simpl. rewrite Hwr by done.
    case_decide as Hjj.
    + destruct Hjj as [-> _]. rewrite bool_decide_true by done.
      by rewrite orb_true_r.
    + rewrite bool_decide_false by lia. by rewrite orb_false_r.
  - do 2 f_equal. unfold sdpa_row. apply list_eq. intros j'.
    rewrite !list_lookup_fmap.
    destruct (decide (j' < n)%nat) as [Hj'|Hj'].
    2:{ by rewrite lookup_seq_ge by lia. }
    rewrite lookup_seq_lt by done. simpl. rewrite Hwr by done.
    rewrite bool_decide_false by lia. by rewrite orb_false_r.
Qed.

Lemma dot4_length (q k : list F) (d4 : nat) :
  length q = (4 * d4)%nat -> dot4 q k = hsum (lanes4 q k d4).
Proof.
  intros Hq. unfold dot4. rewrite Hq.
  replace (4 * d4 / 4)%nat with d4; [done|].
  symmetry. rewrite Nat.mul_comm. apply Nat.div_mul. lia.
Qed.

Lemma sdpa_wp h Qp Kp Vp (Qr Kr : list (list F)) (n d4 : nat)
    (Q : ptr -> heap -> Prop) :
  is_mat h Qp Qr -> is_mat h Kp Kr ->
  rows_aligned h Qp n -> rows_aligned h Kp n ->
  length Qr = n -> length Kr = n ->
  Forall (fun r => length r = (4 * d4)%nat) Qr ->
  Forall (fun r => length r = (4 * d4)%nat) Kr ->
  Q (Ptr (length h) 0)
    (h ++ mat_blocks (length h) (sdpa_spec Qr Kr (Z.of_nat (4 * d4)))) ->
  wp (scaled_dot_product_attention Qp Kp Vp (Z.of_nat n) (Z.of_nat (4 * d4))) h Q.
Proof.
  intros HQp HKp HQal HKal HlQ HlK HrQ HrK HQ. unfold scaled_dot_product_attention.
  set (L := length h).
  set (spine := VPtr <$> row_ptrs (S L) n : list val).
  assert (length spine = n) as Hls.
  { unfold spine. by rewrite length_fmap, length_row_ptrs. }
  apply wp_bind, wp_malloc; [lia|]. rewrite !Nat2Z.id.
  (* the rows are allocated *)
  apply wp_bind.
  apply (wp_for_range (fun k _ h' =>
           h' = h ++ Some (partial spine k)
                  :: replicate k (Some (replicate n VUndef))) n);
    [lia|done|by rewrite partial_O, Hls| |].
  { intros k [] h' Hk ->.
    apply wp_bind, wp_malloc; [lia|]. rewrite Nat2Z.id.
    eapply wp_store; cbn [blk off padd].
    { rewrite <- app_assoc. simpl. apply lookup_heap_middle. }
    { lia. }
    { rewrite length_partial; lia. }
    rewrite to_nat_0_add, <- app_assoc. simpl. rewrite insert_heap_middle.
    rewrite partial_step
      with (v := VPtr (Ptr (length (h ++ Some (partial spine k)
                                      :: replicate k (Some (replicate n VUndef)))) 0)).
    2:{ unfold spine. rewrite list_lookup_fmap, lookup_row_ptrs by lia.
        simpl. rewrite length_app. simpl. rewrite length_replicate.
        do 3 f_equal. unfold L. lia. }
    do 2 f_equal. by rewrite <- replicate_S_end. }
  intros [] h' ->.
  replace (partial spine n) with spine by (by rewrite <- Hls, partial_all).
  set (Dz := Z.of_nat (4 * d4)).
  set (HH := fun wr => h ++ sdpa_blocks Qr Kr Dz L n wr).
  replace (h ++ Some spine :: replicate n (Some (replicate n VUndef)))
    with (HH (fun _ _ => false))
    by (unfold HH; by rewrite sdpa_blocks_none).
  set (T := ((n + 63) / 64)%nat).
  assert (64 * T < n + 64 /\ n <= 64 * T)%nat as HT.
  { unfold T. pose proof (Nat.div_mod_eq (n + 63) 64).
    pose proof (Nat.mod_upper_bound (n + 63) 64). lia. }
  apply wp_bind.
  (* tile rows *)
  apply (wp_for (fun tb _ h' =>
           h' = HH (fun i j => bool_decide (i < 64 * tb)%nat)) T);
    [lia|intros; ltb_true|ltb_false| | |].
  { unfold HH. apply f_equal, sdpa_blocks_ext. intros i j _ _.
    by rewrite bool_decide_false by lia. }
  2:{ intros [] h' ->. apply wp_ret.
      replace (HH (fun i j => bool_decide (i < 64 * T)%nat))
        with (h ++ mat_blocks L (sdpa_spec Qr Kr Dz)); [done|].
      unfold HH. f_equal. rewrite <- (sdpa_blocks_all _ _ _ _ n) by done.
      apply sdpa_blocks_ext. intros i j Hi Hj.
      by rewrite bool_decide_true by lia. }
  intros tb [] h' Htb ->.
  (* tile columns *)
  apply (wp_for (fun tc _ h' =>
           h' = HH (fun i j => bool_decide
                     (i < 64 * tb \/ (i < 64 * S tb /\ j < 64 * tc))%nat)) T);
    [lia|intros; ltb_true|ltb_false| | |].
  { unfold HH. apply f_equal, sdpa_blocks_ext. intros i j _ _.
    apply bool_decide_ext. lia. }
  2:{ intros [] h' ->. unfold HH. apply f_equal, sdpa_blocks_ext.
      intros i j Hi Hj. apply bool_decide_ext. lia. }
  intros tc [] h' Htc ->.
  (* rows of the tile *)
  set (ri := Nat.min 64 (n - 64 * tb)).
  apply (wp_for (fun r _ h' =>
           h' = HH (fun i j => bool_decide
                     (i < 64 * tb \/ (i < 64 * S tb /\ j < 64 * tc) \/
                      (64 * tb <= i < 64 * tb + r /\
                       64 * tc <= j < 64 * S tc))%nat)) ri);
    [unfold ri; lia| | | | |].
  { intros r Hr. apply andb_true_iff. split; apply Z.ltb_lt; unfold ri in Hr; lia. }
  { apply andb_false_iff. unfold ri.
    destruct (decide (64 <= n - 64 * tb)%nat).
    - left. apply Z.ltb_ge. lia.
    - right. apply Z.ltb_ge. lia. }
  { unfold HH. apply f_equal, sdpa_blocks_ext. intros i j _ _.
    apply bool_decide_ext. lia. }
  2:{ intros [] h' ->. unfold HH. apply f_equal, sdpa_blocks_ext.
      intros i j Hi Hj. apply bool_decide_ext. unfold ri. lia. }
  intros r [] h' Hr ->.
  (* columns of the tile *)
  set (cj := Nat.min 64 (n - 64 * tc)).
  apply (wp_for (fun cl _ h' =>
           h' = HH (fun i j => bool_decide
                     (i < 64 * tb \/ (i < 64 * S tb /\ j < 64 * tc) \/
                      (64 * tb <= i < 64 * tb + r /\
                       64 * tc <= j < 64 * S tc) \/
                      (i = 64 * tb + r /\ 64 * tc <= j < 64 * tc + cl))%nat)) cj);
    [unfold cj; lia| | | | |].
  { intros cl Hc. apply andb_true_iff. split; apply Z.ltb_lt; unfold cj in Hc; lia. }
  { apply andb_false_iff. unfold cj.
    destruct (decide (64 <= n - 64 * tc)%nat).
    - left. apply Z.ltb_ge. lia.
    - right. apply Z.ltb_ge. lia. }
  { unfold HH. apply f_equal, sdpa_blocks_ext. intros i j _ _.
    apply bool_decide_ext. lia. }
  2:{ intros [] h' ->. unfold HH. apply f_equal, sdpa_blocks_ext.
      intros i j Hi Hj. apply bool_decide_ext. unfold cj. lia. }
  intros cl [] h' Hc ->.
  set (i := (64 * tb + r)%nat). set (j := (64 * tc + cl)%nat).
  assert (i < n)%nat as Hi by (unfold i, ri in *; lia).
  assert (j < n)%nat as Hj by (unfold j, cj in *; lia).
  replace (0 + 64 * Z.of_nat tb + 1 * Z.of_nat r) with (Z.of_nat i)
    by (unfold i; lia).
  replace (0 + 64 * Z.of_nat tc + 1 * Z.of_nat cl) with (Z.of_nat j)
    by (unfold j; lia).
  destruct (lookup_lt_is_Some_2 Qr i ltac:(lia)) as [qi Hqi].
  destruct (lookup_lt_is_Some_2 Kr j ltac:(lia)) as [kj Hkj].
  pose proof (Forall_lookup_1 _ _ _ _ HrQ Hqi) as Hlqi. simpl in Hlqi.
  pose proof (Forall_lookup_1 _ _ _ _ HrK Hkj) as Hlkj. simpl in Hlkj.
  set (wr := fun i0 j0 => bool_decide _).
  (* the dot product *)
  apply wp_bind.
  apply (wp_for_step4 (fun k acc h' => h' = HH wr /\ acc = lanes4 qi kj k) d4);
    [lia|done|done| |].
  { intros k acc h' Hk [-> ->].
    apply wp_bind.
    eapply (wp_load_row_al _ _ Qr n i);
      [by apply is_mat_app|by apply rows_aligned_app|done|done|done|].
    intros q Hq Halq. apply wp_bind.
    eapply (wp_load_ps_vec _ _ qi k); [done|done|lia|done|].
    apply wp_bind.
    eapply (wp_load_row_al _ _ Kr n j);
      [by apply is_mat_app|by apply rows_aligned_app|done|done|done|].
    intros q' Hq' Halq'. apply wp_bind.
    eapply (wp_load_ps_vec _ _ kj k); [done|done|lia|done|].
    by apply wp_ret. }
  intros acc h' [-> ->].
  apply wp_bind.
  eapply wp_load_ptr; cbn [blk off padd]; [apply lookup_heap_middle|lia| |].
  { rewrite to_nat_0_add. unfold spine.
    rewrite list_lookup_fmap, lookup_row_ptrs by lia. done. }
  eapply wp_store; cbn [blk off padd].
  { apply lookup_sdpa_blocks_row. done. }
  { lia. }
  { rewrite length_sdpa_row. lia. }
  rewrite to_nat_0_add.
  replace (f_mul (hsum (lanes4 qi kj d4)) (d2f (d_div (f2d f_one) (d_sqrt (f2d (f_of_int Dz))))))
    with (sdpa_entry Dz (default [] (Qr !! i)) (default [] (Kr !! j))).
  2:{ rewrite Hqi, Hkj. simpl. unfold sdpa_entry. by rewrite (dot4_length _ _ d4). }
  unfold HH. apply sdpa_blocks_store; [done|done|].
  intros i' j' Hi' Hj'. unfold wr.
  destruct (decide (i' = i /\ j' = j)) as [[-> ->]|Hne].
  - rewrite (bool_decide_true (i = i /\ j = j)) by done. rewrite orb_true_r.
    apply bool_decide_true. unfold i, j. lia.
  - rewrite (bool_decide_false (i' = i /\ j' = j)) by done. rewrite orb_false_r.
    apply bool_decide_ext. unfold i, j in *. lia.
Qed.

(** ** Facts about heaps built by appending *)

Lemma prefix_insert_ge h h' (b : nat) (x : option (list val)) :
  h `prefix_of` h' -> (length h <= b)%nat -> h `prefix_of` <[b := x]> h'.
Proof.
  intros [l ->] Hb. rewrite insert_app_r_alt by done. by eexists.
Qed.

Lemma prefix_of_lookup h h' :
  (length h <= length h')%nat ->
  (forall b, (b < length h)%nat -> h' !! b = h !! b) ->
  h `prefix_of` h'.
Proof.
  intros Hlen Hlook. exists (drop (length h) h').
  rewrite <- (take_drop (length h) h') at 1. f_equal.
  apply list_eq. intros b.
  destruct (decide (b < length h)%nat) as [Hb|Hb].
  - by rewrite lookup_take_lt, Hlook.
  - rewrite lookup_take_ge by lia. symmetry. apply lookup_ge_None_2. lia.
Qed.

Lemma length_strided_ptrs base stride n : length (strided_ptrs base stride n) = n.
Proof. unfold strided_ptrs. by rewrite length_fmap, length_seq. Qed.

Lemma lookup_strided_ptrs base stride n i :
  (i < n)%nat ->
  strided_ptrs base stride n !! i = Some (Ptr (base + stride * i) 0).
Proof.
  intros Hi. unfold strided_ptrs. by rewrite list_lookup_fmap, lookup_seq_lt.
Qed.

Lemma row_ptrs_strided base n : row_ptrs base n = strided_ptrs base 1 n.
Proof.
  unfold row_ptrs, strided_ptrs. apply list_fmap_ext. intros _ i _.
  f_equal. lia.
Qed.

(** The rows of a matrix laid out by [malloc] start their blocks. *)
Lemma mat_at_rows_aligned h s base stride (R : list (list F)) (n : nat) :
  mat_at h s base stride R -> rows_aligned h (Ptr s 0) n.
Proof.
  intros [Hs _]. eexists. split; [exact Hs|].
  intros i q _ Hq. cbn [off Z.to_nat Nat.add] in Hq.
  apply list_lookup_fmap_Some in Hq as (q0 & Hq & Hq0).
  injection Hq as ->. unfold strided_ptrs in Hq0.
  apply list_lookup_fmap_Some in Hq0 as (i0 & -> & _). done.
Qed.

Lemma mat_at_is_mat h s base stride (R : list (list F)) :
  mat_at h s base stride R -> is_mat h (Ptr s 0) R.
Proof.
  intros [Hs Hrows]. split; [done|]. eexists. split; [exact Hs|].
  intros i r Hr. pose proof (lookup_lt_Some _ _ _ Hr) as Hi.
  exists (Ptr (base + stride * i) 0). split.
  - simpl. by rewrite list_lookup_fmap, lookup_strided_ptrs.
  - apply is_vec_block. by apply Hrows.
Qed.

Lemma mat_at_prefix h h' s base stride (R : list (list F)) :
  mat_at h s base stride R -> h `prefix_of` h' -> mat_at h' s base stride R.
Proof.
  intros [Hs Hrows] Hpre. split.
  - by eapply prefix_lookup_Some.
  - intros i r Hr. eapply prefix_lookup_Some; [|done]. by apply Hrows.
Qed.

Lemma mat_at_mat_blocks h (R : list (list F)) :
  mat_at (h ++ mat_blocks (length h) R) (length h) (S (length h)) 1 R.
Proof.
  split.
  - unfold mat_blocks. rewrite row_ptrs_strided. apply lookup_heap_middle.
  - intros i r Hr. pose proof (lookup_lt_Some _ _ _ Hr) as Hi.
    rewrite lookup_app_r by lia.
    replace (S (length h) + 1 * i - length h)%nat with (S i) by lia.
    unfold mat_blocks. simpl. by rewrite list_lookup_fmap, Hr.
Qed.

(** The [j]-th entry of the [i]-th chunk of a list of chunks of size [c]. *)
Lemma lookup_concat_chunks {A B} (f : A -> list B) (l : list A) (c i j : nat) x :
  (forall y, length (f y) = c) -> l !! i = Some x -> (j < c)%nat ->
  concat (f <$> l) !! (c * i + j)%nat = f x !! j.
Proof.
  intros Hc. revert i. induction l as [|y l IH]; intros i Hi Hj; [done|].
  destruct i as [|i]; simpl in *.
  - simplify_eq. rewrite lookup_app_l by (rewrite Hc; lia).
    f_equal. lia.
  - rewrite lookup_app_r by (rewrite Hc; lia). rewrite Hc.
    replace (c * S i + j - c)%nat with (c * i + j)%nat by lia.
    by apply IH.
Qed.

Lemma length_concat_chunks {A B} (f : A -> list B) (l : list A) (c : nat) :
  (forall y, length (f y) = c) -> length (concat (f <$> l)) = (c * length l)%nat.
Proof.
  intros Hc. induction l as [|y l IH]; [simpl; lia|].
  rewrite fmap_cons. simpl. rewrite length_app, Hc, IH. lia.
Qed.

Lemma concat_fmap_take_S {A B} (f : A -> list B) (l : list A) (k : nat) x :
  l !! k = Some x ->
  concat (f <$> take (S k) l) = concat (f <$> take k l) ++ f x.
Proof.
  intros Hk. rewrite (take_S_r _ _ _ Hk), fmap_app, concat_app. simpl.
  by rewrite app_nil_r.
Qed.

(** Inserting at the second and third block after a prefix. *)
Lemma insert_heap_middle1 h l (a x y : option (list val)) (b : nat) :
  b = S (length h) ->
  <[b := y]> (h ++ a :: x :: l) = h ++ a :: y :: l.
Proof.
  intros ->. rewrite insert_app_r_alt by lia.
  by replace (S (length h) - length h)%nat with 1%nat by lia.
Qed.

Lemma insert_heap_middle2 h l (a a' x y : option (list val)) (b : nat) :
  b = S (S (length h)) ->
  <[b := y]> (h ++ a :: a' :: x :: l) = h ++ a :: a' :: y :: l.
Proof.
  intros ->. rewrite insert_app_r_alt by lia.
  by replace (S (S (length h)) - length h)%nat with 2%nat by lia.
Qed.

Lemma lookup_heap_middle1 h l (a x : option (list val)) (b : nat) :
  b = S (length h) -> (h ++ a :: x :: l) !! b = Some x.
Proof.
  intros ->. rewrite lookup_app_r by lia.
  by replace (S (length h) - length h)%nat with 1%nat by lia.
Qed.

Lemma lookup_heap_middle2 h l (a a' x : option (list val)) (b : nat) :
  b = S (S (length h)) -> (h ++ a :: a' :: x :: l) !! b = Some x.
Proof.
  intros ->. rewrite lookup_app_r by lia.
  by replace (S (S (length h)) - length h)%nat with 2%nat by lia.
Qed.

(** ** block_qkv *)

Lemma layer_ok_app h l ll n4 m W B :
  layer_ok h ll n4 m W B -> layer_ok (h ++ l) ll n4 m W B.
Proof.
  intros []. split; try done; [by apply is_mat_app|by apply is_vec_app].
Qed.

Lemma layer_ok_prefix h h' ll n4 m W B :
  layer_ok h ll n4 m W B -> h `prefix_of` h' -> layer_ok h' ll n4 m W B.
Proof. intros Hl [l ->]. by apply layer_ok_app. Qed.

(** A call of [linear] on a layer. *)
Lemma linear_layer_wp h inp ll (X : list F) n4 m W B (Q : ptr -> heap -> Prop) :
  is_vec h inp X -> layer_ok h ll n4 m W B -> length X = (4 * n4)%nat ->
  Q (Ptr (length h) 0) (h ++ [Some (VFloat <$> layer_spec W B X)]) ->
  wp (linear inp (weights ll) (biases ll) (fcInputSize ll) (fcOutputSize ll)) h Q.
Proof.
  intros HX [] HlX HQ. rewrite layer_in0, layer_out0.
  by eapply linear_wp.
Qed.

Lemma block_qkv_wp h nx (X : list (list F)) (n e4 : nat) ql kl vl
    mq mk mv Wq Bq Wk Bk Wv Bv (Q : ptr * ptr * ptr -> heap -> Prop) :
  is_mat h nx X -> length X = n ->
  Forall (fun r => length r = (4 * e4)%nat) X ->
  layer_ok h ql e4 mq Wq Bq -> layer_ok h kl e4 mk Wk Bk ->
  layer_ok h vl e4 mv Wv Bv ->
  Q (Ptr (length h) 0, Ptr (length h + 1) 0, Ptr (length h + 2) 0)
    (h ++ qkv_blocks (length h) (layer_spec Wq Bq) (layer_spec Wk Bk)
            (layer_spec Wv Bv) X) ->
  wp (block_qkv nx (Z.of_nat n) ql kl vl) h Q.
Proof.
  intros Hnx HlX HrX Hql Hkl Hvl HQ. unfold block_qkv.
  set (SQ := VPtr <$> strided_ptrs (length h + 3) 3 n : list val).
  set (SK := VPtr <$> strided_ptrs (length h + 4) 3 n : list val).
  set (SV := VPtr <$> strided_ptrs (length h + 5) 3 n : list val).
  assert (length SQ = n /\ length SK = n /\ length SV = n) as (HlSQ & HlSK & HlSV).
  { unfold SQ, SK, SV. by rewrite !length_fmap, !length_strided_ptrs. }
  set (f3 := fun x : list F =>
               [Some (VFloat <$> layer_spec Wq Bq x);
                Some (VFloat <$> layer_spec Wk Bk x);
                Some (VFloat <$> layer_spec Wv Bv x)] : heap).
  apply wp_bind, wp_malloc; [lia|].
  apply wp_bind, wp_malloc; [lia|].
  apply wp_bind, wp_malloc; [lia|].
  rewrite !Nat2Z.id, !length_app. simpl length.
  rewrite <- !app_assoc. simpl app.
  apply wp_bind.
  apply (wp_for_range (fun k _ h' =>
           h' = h ++ Some (partial SQ k) :: Some (partial SK k)
                  :: Some (partial SV k) :: concat (f3 <$> take k X)) n);
    [lia|done| | |].
  { rewrite !partial_O, HlSQ, HlSK, HlSV. done. }
  2:{ intros [] h' ->. apply wp_ret.
      replace (partial SQ n) with SQ by (by rewrite <- HlSQ, partial_all).
      replace (partial SK n) with SK by (by rewrite <- HlSK, partial_all).
      replace (partial SV n) with SV by (by rewrite <- HlSV, partial_all).
      rewrite <- HlX, firstn_all. unfold qkv_blocks in HQ. rewrite HlX in HQ.
      replace (length h + 1 + 1)%nat with (length h + 2)%nat by lia. exact HQ. }
  intros k [] h' Hk ->.
  destruct (lookup_lt_is_Some_2 X k ltac:(lia)) as [x Hx].
  pose proof (Forall_lookup_1 _ _ _ _ HrX Hx) as Hlx. simpl in Hlx.
  set (rows := concat (f3 <$> take k X)).
  assert (length rows = (3 * k)%nat) as Hlrows.
  { unfold rows. rewrite (length_concat_chunks _ _ 3) by done.
    rewrite length_take. lia. }
  (* Q[i] *)
  apply wp_bind. eapply (wp_load_row _ _ X k); [by apply is_mat_app|done|done|].
  intros q Hq. apply wp_bind.
  eapply linear_layer_wp; [done|by apply layer_ok_app|done|].
  rewrite length_app. simpl length. rewrite Hlrows.
  rewrite <- app_assoc, <- !app_comm_cons.
  apply wp_bind. eapply wp_store; cbn [blk off padd];
    [apply lookup_heap_middle|lia|rewrite length_partial; lia|].
  rewrite to_nat_0_add, insert_heap_middle.
  erewrite (partial_step SQ k)
    by (unfold SQ; rewrite list_lookup_fmap, lookup_strided_ptrs by lia;
        simpl; do 3 f_equal; lia).
  (* K[i] *)
  apply wp_bind. eapply (wp_load_row _ _ X k); [by apply is_mat_app|done|done|].
  intros q' Hq'. apply wp_bind.
  eapply linear_layer_wp; [done|by apply layer_ok_app|done|].
  rewrite length_app. simpl length. rewrite length_app, Hlrows. simpl length.
  rewrite <- app_assoc, <- !app_comm_cons, <- app_assoc.
  apply wp_bind. eapply wp_store; cbn [blk off padd];
    [apply lookup_heap_middle1; lia|lia|rewrite length_partial; lia|].
  rewrite to_nat_0_add, insert_heap_middle1 by lia.
  erewrite (partial_step SK k)
    by (unfold SK; rewrite list_lookup_fmap, lookup_strided_ptrs by lia;
        simpl; do 3 f_equal; lia).
  (* V[i] *)
  apply wp_bind. eapply (wp_load_row _ _ X k); [by apply is_mat_app|done|done|].
  intros q'' Hq''. apply wp_bind.
  eapply linear_layer_wp; [done|by apply layer_ok_app|done|].
  rewrite length_app. simpl length. rewrite !length_app, Hlrows. simpl length.
  rewrite <- app_assoc, <- !app_comm_cons, <- !app_assoc.
  eapply wp_store; cbn [blk off padd];
    [apply lookup_heap_middle2; lia|lia|rewrite length_partial; lia|].
  rewrite to_nat_0_add, insert_heap_middle2 by lia.
  erewrite (partial_step SV k)
    by (unfold SV; rewrite list_lookup_fmap, lookup_strided_ptrs by lia;
        simpl; do 3 f_equal; lia).
  do 4 f_equal. by rewrite (concat_fmap_take_S _ _ _ _ Hx).
Qed.

(** ** memcpy *)

Lemma wp_memcpy_cells (n : nat) (xs : list F) h dst src c
    (Q : unit -> heap -> Prop) :
  length xs = n -> is_vec h src xs -> blk src <> blk dst ->
  h !! blk dst = Some (Some c) -> 0 <= off dst ->
  (Z.to_nat (off dst) + n <= length c)%nat ->
  Q tt (<[blk dst := Some (take (Z.to_nat (off dst)) c ++ (VFloat <$> xs)
                           ++ drop (Z.to_nat (off dst) + n) c)]> h) ->
  wp (memcpy_cells n dst src) h Q.
Proof.
  revert xs h dst src c.
  induction n as [|n IH]; intros xs h dst src c Hlen Hsrc Hne Hdst Ho Hfit HQ;
    rewrite memcpy_cells_eq.
  - apply wp_ret. destruct xs; [|done]. simpl in HQ.
    rewrite Nat.add_0_r, take_drop, list_insert_id in HQ; done.
  - destruct xs as [|x xs]; [done|]. simpl in Hlen.
    destruct Hsrc as (Hos & cs & Hcs & Hxs).
    apply wp_bind. eapply wp_load; [done|done| |].
    { specialize (Hxs O x eq_refl). by rewrite Nat.add_0_r in Hxs. }
    apply wp_bind. eapply wp_store; [done|done|lia|].
    set (o := Z.to_nat (off dst)) in *.
    eapply (IH xs _ _ _ (<[o := VFloat x]> c)); cbn [blk off padd].
    + lia.
    + split; [simpl; lia|]. exists cs. split.
      { simpl. by rewrite list_lookup_insert_ne. }
      intros j y Hj. specialize (Hxs (S j) y Hj). simpl.
      by replace (Z.to_nat (off src + 1) + j)%nat
        with (Z.to_nat (off src) + S j)%nat by lia.
    + done.
    + simpl. apply list_lookup_insert_eq. by eapply lookup_lt_Some.
    + simpl. lia.
    + simpl. rewrite length_insert. lia.
    + simpl. rewrite list_insert_insert_eq.
      replace (Z.to_nat (off dst + 1)) with (S o) by lia.
      rewrite (take_S_r _ _ (VFloat x))
        by (apply list_lookup_insert_eq; lia).
      rewrite take_insert_ge by lia.
      rewrite drop_insert_lt by lia.
      rewrite <- app_assoc. simpl.
      by replace (S (o + n)) with (o + S n)%nat by lia.
Qed.

(** Copying a whole vector over a fresh block. *)
Lemma wp_memcpy_fresh (n : nat) (xs : list F) h (dst : nat) src
    (Q : unit -> heap -> Prop) :
  length xs = n -> (0 < n)%nat -> is_vec h src xs ->
  h !! dst = Some (Some (replicate n VUndef)) ->
  Q tt (<[dst := Some (VFloat <$> xs)]> h) ->
  wp (memcpy (Ptr dst 0) src (Z.of_nat n)) h Q.
Proof.
  intros Hlen Hn Hsrc Hdst HQ. unfold memcpy. rewrite Nat2Z.id.
  eapply wp_memcpy_cells; cbn [blk off]; [done|done| |done|done| |].
  - intros Heq. destruct Hsrc as (Hos & cs & Hcs & Hxs).
    rewrite Heq, Hdst in Hcs. simplify_eq.
    destruct xs as [|x xs]; [simpl in *; lia|].
    specialize (Hxs O x eq_refl).
    apply lookup_replicate in Hxs. by destruct Hxs.
  - rewrite length_replicate. lia.
  - replace (Z.to_nat 0) with O by lia.
    rewrite take_0, drop_ge by (rewrite length_replicate; lia).
    by rewrite app_nil_r.
Qed.

Lemma is_vec_slice h p (xs : list F) (o n : nat) :
  is_vec h p xs -> is_vec h (p +ₚ Z.of_nat o) (take n (drop o xs)).
Proof.
  intros (Ho & c & Hc & Hxs). split; [simpl; lia|].
  exists c. split; [done|]. intros j x Hj.
  apply lookup_take_Some in Hj as [Hj _]. rewrite lookup_drop in Hj.
  simpl. replace (Z.to_nat (off p + Z.of_nat o) + j)%nat
    with (Z.to_nat (off p) + (o + j))%nat by lia.
  by apply Hxs.
Qed.

(** ** Finding and updating a block in a heap written as a list *)

Lemma look_app_l {A} (l1 l2 : list A) b x :
  (b < length l1)%nat -> l1 !! b = Some x -> (l1 ++ l2) !! b = Some x.
Proof. intros _. apply lookup_app_l_Some. Qed.

Lemma look_app_r {A} (l1 l2 : list A) b x :
  (length l1 <= b)%nat -> l2 !! (b - length l1)%nat = Some x ->
  (l1 ++ l2) !! b = Some x.
Proof. intros Hb Hx. by rewrite lookup_app_r. Qed.

Lemma look_cons_0 {A} (y : A) l b : b = O -> (y :: l) !! b = Some y.
Proof. by intros ->. Qed.

Lemma look_cons_S {A} (y : A) l b x :
  (0 < b)%nat -> l !! (b - 1)%nat = Some x -> (y :: l) !! b = Some x.
Proof.
  intros Hb Hx. destruct b as [|b]; [lia|]. simpl.
  by replace (S b - 1)%nat with b in Hx by lia.
Qed.

Lemma ins_app_r {A} (l1 l2 : list A) b x :
  (length l1 <= b)%nat -> <[b := x]> (l1 ++ l2) = l1 ++ <[(b - length l1)%nat := x]> l2.
Proof. apply insert_app_r_alt. Qed.

Lemma ins_cons_0 {A} (y x : A) l b : b = O -> <[b := x]> (y :: l) = x :: l.
Proof. by intros ->. Qed.

Lemma ins_cons_S {A} (y x : A) l b :
  (0 < b)%nat -> <[b := x]> (y :: l) = y :: <[(b - 1)%nat := x]> l.
Proof.
  intros Hb. destruct b as [|b]; [lia|]. simpl.
  by replace (b - 0)%nat with b by lia.
Qed.

Ltac hlen :=
  repeat first [rewrite length_app | rewrite length_insert
               | rewrite length_replicate | progress cbn [length]];
  lia.

Ltac hlook :=
  repeat first
    [ apply look_cons_0; hlen
    | apply look_cons_S; [hlen|]
    | apply look_app_r; [hlen|]
    | apply look_app_l; [hlen|] ].

Ltac hins :=
  repeat first
    [ rewrite ins_app_r by hlen
    | rewrite ins_cons_0 by hlen
    | rewrite ins_cons_S by hlen ].

Ltac hnorm :=
  repeat first [rewrite <- app_assoc | rewrite <- app_comm_cons
               | rewrite app_nil_l].

(** ** block_split_heads *)

Lemma NUM_HEADS_nat : NUM_HEADS = Z.of_nat num_heads.
Proof. done. Qed.
Lemma HEAD_DIM_nat : HEAD_DIM = Z.of_nat head_dim.
Proof. done. Qed.
Lemma num_heads_val : num_heads = 12%nat.
Proof. done. Qed.
Lemma head_dim_val : head_dim = 64%nat.
Proof. done. Qed.

#[local] Opaque num_heads head_dim.

Lemma length_hslice (hd : nat) (r : list F) :
  (head_dim * S hd <= length r)%nat -> length (hslice hd r) = head_dim.
Proof.
  intros Hr. unfold hslice. rewrite length_take, length_drop. lia.
Qed.

Lemma length_head_blocks B hd (Qr Kr Vr : list (list F)) n :
  length (head_blocks B hd Qr Kr Vr n) = (3 + 3 * n)%nat.
Proof.
  unfold head_blocks. cbn [length].
  rewrite (length_concat_chunks _ _ 3) by done. rewrite length_seq. lia.
Qed.

Lemma block_split_heads_wp h Qp Kp Vp (Qr Kr Vr : list (list F)) (n : nat)
    (Q0 : ptr * ptr * ptr -> heap -> Prop) :
  is_mat h Qp Qr -> is_mat h Kp Kr -> is_mat h Vp Vr ->
  length Qr = n -> length Kr = n -> length Vr = n ->
  Forall (fun r => length r = (head_dim * num_heads)%nat) Qr ->
  Forall (fun r => length r = (head_dim * num_heads)%nat) Kr ->
  Forall (fun r => length r = (head_dim * num_heads)%nat) Vr ->
  Q0 (Ptr (length h) 0, Ptr (length h + 1) 0, Ptr (length h + 2) 0)
     (h ++ split_blocks (length h) Qr Kr Vr n) ->
  wp (block_split_heads Qp Kp Vp (Z.of_nat n)) h Q0.
Proof.
  intros HQp HKp HVp HlQ HlK HlV HrQ HrK HrV HQ0. unfold block_split_heads.
  rewrite NUM_HEADS_nat, HEAD_DIM_nat.
  set (c := (3 + 3 * n)%nat).
  set (QH := VPtr <$> strided_ptrs (length h + 3) c num_heads : list val).
  set (KH := VPtr <$> strided_ptrs (length h + 4) c num_heads : list val).
  set (VH := VPtr <$> strided_ptrs (length h + 5) c num_heads : list val).
  assert (length QH = num_heads /\ length KH = num_heads /\ length VH = num_heads)
    as (HlQH & HlKH & HlVH).
  { unfold QH, KH, VH. by rewrite !length_fmap, !length_strided_ptrs. }
  set (hb := fun hd : nat =>
               head_blocks (length h + 3 + c * hd) hd Qr Kr Vr n).
  apply wp_bind, wp_malloc; [lia|].
  apply wp_bind, wp_malloc; [lia|].
  apply wp_bind, wp_malloc; [lia|].
  rewrite !Nat2Z.id, !length_app. cbn [length].
  rewrite <- !app_assoc. cbn [app].
  apply wp_bind.
  apply (wp_for_range (fun k _ h' =>
           h' = h ++ Some (partial QH k) :: Some (partial KH k)
                  :: Some (partial VH k)
                  :: concat (hb <$> take k (seq 0 num_heads))) num_heads);
    [lia|done| | |].
  { rewrite !partial_O, HlQH, HlKH, HlVH. done. }
  2:{ intros [] h' ->. apply wp_ret.
      replace (partial QH num_heads) with QH by (by rewrite <- HlQH, partial_all).
      replace (partial KH num_heads) with KH by (by rewrite <- HlKH, partial_all).
      replace (partial VH num_heads) with VH by (by rewrite <- HlVH, partial_all).
      rewrite take_ge by (by rewrite length_seq).
      replace (length h + 1 + 1)%nat with (length h + 2)%nat by lia. exact HQ0. }
  intros k [] h' Hk ->.
  set (heads := concat (hb <$> take k (seq 0 num_heads))).
  assert (length heads = (c * k)%nat) as Hlheads.
  { unfold heads. rewrite (length_concat_chunks _ _ c).
    - rewrite length_take, length_seq. lia.
    - intros y. apply length_head_blocks. }
  set (B := (length h + 3 + c * k)%nat).
  (* the three row-pointer blocks of the head *)
  apply wp_bind, wp_malloc; [lia|]. rewrite Nat2Z.id.
  apply wp_bind. eapply wp_store; cbn [blk off padd]; [hlook|lia| |].
  { rewrite length_partial; lia. }
  rewrite to_nat_0_add. hnorm. hins.
  erewrite (partial_step QH k)
    by (unfold QH; rewrite list_lookup_fmap, lookup_strided_ptrs by lia;
        simpl; do 3 f_equal; hlen).
  apply wp_bind, wp_malloc; [lia|]. rewrite Nat2Z.id.
  apply wp_bind. eapply wp_store; cbn [blk off padd]; [hlook|lia| |].
  { rewrite length_partial; lia. }
  rewrite to_nat_0_add. hnorm. hins.
  erewrite (partial_step KH k)
    by (unfold KH; rewrite list_lookup_fmap, lookup_strided_ptrs by lia;
        simpl; do 3 f_equal; hlen).
  apply wp_bind, wp_malloc; [lia|]. rewrite Nat2Z.id.
  apply wp_bind. eapply wp_store; cbn [blk off padd]; [hlook|lia| |].
  { rewrite length_partial; lia. }
  rewrite to_nat_0_add. hnorm. hins.
  erewrite (partial_step VH k)
    by (unfold VH; rewrite list_lookup_fmap, lookup_strided_ptrs by lia;
        simpl; do 3 f_equal; hlen).
  set (sq := VPtr <$> strided_ptrs (B + 3) 3 n : list val).
  set (sk := VPtr <$> strided_ptrs (B + 4) 3 n : list val).
  set (sv := VPtr <$> strided_ptrs (B + 5) 3 n : list val).
  assert (length sq = n /\ length sk = n /\ length sv = n) as (Hlsq & Hlsk & Hlsv).
  { unfold sq, sk, sv. by rewrite !length_fmap, !length_strided_ptrs. }
  set (r3 := fun i : nat =>
               [Some (VFloat <$> hslice k (row_at Qr i));
                Some (VFloat <$> hslice k (row_at Kr i));
                Some (VFloat <$> hslice k (row_at Vr i))] : heap).
  apply (wp_for_range (fun i _ h' =>
           h' = h ++ Some (partial QH (S k)) :: Some (partial KH (S k))
                  :: Some (partial VH (S k))
                  :: heads ++ Some (partial sq i) :: Some (partial sk i)
                  :: Some (partial sv i)
                  :: concat (r3 <$> take i (seq 0 n))) n);
    [lia|done| | |].
  { rewrite !partial_O, Hlsq, Hlsk, Hlsv. done. }
  2:{ intros [] h' ->.
      replace (partial sq n) with sq by (by rewrite <- Hlsq, partial_all).
      replace (partial sk n) with sk by (by rewrite <- Hlsk, partial_all).
      replace (partial sv n) with sv by (by rewrite <- Hlsv, partial_all).
      rewrite take_ge by (by rewrite length_seq).
      do 4 f_equal. unfold heads.
      rewrite (concat_fmap_take_S hb _ k k) by (by apply lookup_seq_lt).
      done. }
  intros i [] h' Hi ->.
  set (rows := concat (r3 <$> take i (seq 0 n))).
  assert (length rows = (3 * i)%nat) as Hlrows.
  { unfold rows. rewrite (length_concat_chunks _ _ 3) by done.
    rewrite length_take, length_seq. lia. }
  destruct (lookup_lt_is_Some_2 Qr i ltac:(lia)) as [qr Hqr].
  destruct (lookup_lt_is_Some_2 Kr i ltac:(lia)) as [kr Hkr].
  destruct (lookup_lt_is_Some_2 Vr i ltac:(lia)) as [vr Hvr].
  pose proof (Forall_lookup_1 _ _ _ _ HrQ Hqr) as Hlqr. simpl in Hlqr.
  pose proof (Forall_lookup_1 _ _ _ _ HrK Hkr) as Hlkr. simpl in Hlkr.
  pose proof (Forall_lookup_1 _ _ _ _ HrV Hvr) as Hlvr. simpl in Hlvr.
  (* Q_heads[h][i] *)
  apply wp_bind, wp_malloc; [lia|]. rewrite Nat2Z.id. hnorm.
  apply wp_bind. eapply wp_load_ptr; cbn [blk off padd]; [hlook|lia| |].
  { rewrite to_nat_0_add, lookup_partial_lt by lia. unfold QH.
    rewrite list_lookup_fmap, lookup_strided_ptrs by lia. done. }
  apply wp_bind. eapply wp_store; cbn [blk off padd]; [hlook|lia| |].
  { rewrite length_partial; lia. }
  rewrite to_nat_0_add. hins.
  erewrite (partial_step sq i)
    by (unfold sq; rewrite list_lookup_fmap, lookup_strided_ptrs by lia;
        simpl; do 3 f_equal; unfold B; hlen).
  (* K_heads[h][i], V_heads[h][i] *)
  apply wp_bind, wp_malloc; [lia|]. rewrite Nat2Z.id. hnorm.
  apply wp_bind. eapply wp_load_ptr; cbn [blk off padd]; [hlook|lia| |].
  { rewrite to_nat_0_add, lookup_partial_lt by lia. unfold KH.
    rewrite list_lookup_fmap, lookup_strided_ptrs by lia. done. }
  apply wp_bind. eapply wp_store; cbn [blk off padd]; [hlook|lia| |].
  { rewrite length_partial; lia. }
  rewrite to_nat_0_add. hins.
  erewrite (partial_step sk i)
    by (unfold sk; rewrite list_lookup_fmap, lookup_strided_ptrs by lia;
        simpl; do 3 f_equal; unfold B; hlen).
  apply wp_bind, wp_malloc; [lia|]. rewrite Nat2Z.id. hnorm.
  apply wp_bind. eapply wp_load_ptr; cbn [blk off padd]; [hlook|lia| |].
  { rewrite to_nat_0_add, lookup_partial_lt by lia. unfold VH.
    rewrite list_lookup_fmap, lookup_strided_ptrs by lia. done. }
  apply wp_bind. eapply wp_store; cbn [blk off padd]; [hlook|lia| |].
  { rewrite length_partial; lia. }
  rewrite to_nat_0_add. hins.
  erewrite (partial_step sv i)
    by (unfold sv; rewrite list_lookup_fmap, lookup_strided_ptrs by lia;
        simpl; do 3 f_equal; unfold B; hlen).
  (* the three copies *)
  apply wp_bind. eapply wp_load_ptr; cbn [blk off padd]; [hlook|lia| |].
  { rewrite to_nat_0_add, lookup_partial_lt by lia. unfold QH.
    rewrite list_lookup_fmap, lookup_strided_ptrs by lia. done. }
  apply wp_bind. eapply wp_load_ptr; cbn [blk off padd]; [hlook|lia| |].
  { rewrite to_nat_0_add, lookup_partial_lt by lia. unfold sq.
    rewrite list_lookup_fmap, lookup_strided_ptrs by lia. done. }
  apply wp_bind. eapply (wp_load_row _ _ Qr i); [by apply is_mat_app|done|done|].
  intros ? ?.
  replace (Z.of_nat k * Z.of_nat head_dim) with (Z.of_nat (head_dim * k)) by lia.
  apply wp_bind. eapply (wp_memcpy_fresh head_dim (hslice k qr));
    [apply length_hslice; rewrite Hlqr; apply Nat.mul_le_mono_l; lia|rewrite head_dim_val; lia
    |by apply is_vec_slice|hlook|].
  hins.
  apply wp_bind. eapply wp_load_ptr; cbn [blk off padd]; [hlook|lia| |].
  { rewrite to_nat_0_add, lookup_partial_lt by lia. unfold KH.
    rewrite list_lookup_fmap, lookup_strided_ptrs by lia. done. }
  apply wp_bind. eapply wp_load_ptr; cbn [blk off padd]; [hlook|lia| |].
  { rewrite to_nat_0_add, lookup_partial_lt by lia. unfold sk.
    rewrite list_lookup_fmap, lookup_strided_ptrs by lia. done. }
  apply wp_bind. eapply (wp_load_row _ _ Kr i); [by apply is_mat_app|done|done|].
  intros ? ?.
  replace (Z.of_nat k * Z.of_nat head_dim) with (Z.of_nat (head_dim * k)) by lia.
  apply wp_bind. eapply (wp_memcpy_fresh head_dim (hslice k kr));
    [apply length_hslice; rewrite Hlkr; apply Nat.mul_le_mono_l; lia|rewrite head_dim_val; lia
    |by apply is_vec_slice|hlook|].
  hins.
  apply wp_bind. eapply wp_load_ptr; cbn [blk off padd]; [hlook|lia| |].
  { rewrite to_nat_0_add, lookup_partial_lt by lia. unfold VH.
    rewrite list_lookup_fmap, lookup_strided_ptrs by lia. done. }
  apply wp_bind. eapply wp_load_ptr; cbn [blk off padd]; [hlook|lia| |].
  { rewrite to_nat_0_add, lookup_partial_lt by lia. unfold sv.
    rewrite list_lookup_fmap, lookup_strided_ptrs by lia. done. }
  apply wp_bind. eapply (wp_load_row _ _ Vr i); [by apply is_mat_app|done|done|].
  intros ? ?.
  replace (Z.of_nat k * Z.of_nat head_dim) with (Z.of_nat (head_dim * k)) by lia.
  eapply (wp_memcpy_fresh head_dim (hslice k vr));
    [apply length_hslice; rewrite Hlvr; apply Nat.mul_le_mono_l; lia|rewrite head_dim_val; lia
    |by apply is_vec_slice|hlook|].
  hins.
  do 8 f_equal. unfold rows.
  rewrite (concat_fmap_take_S r3 _ i i) by (by apply lookup_seq_lt).
  unfold r3, row_at. by rewrite Hqr, Hkr, Hvr.
Qed.

(** ** block_attention *)

Lemma ptr_slot_app h l p i q : ptr_slot h p i q -> ptr_slot (h ++ l) p i q.
Proof.
  intros (Ho & c & Hc & Hq). split; [done|]. exists c.
  split; [by apply lookup_app_l_Some|done].
Qed.

Lemma ptr_slot_prefix h h' p i q :
  ptr_slot h p i q -> h `prefix_of` h' -> ptr_slot h' p i q.
Proof. intros Hs [l ->]. by apply ptr_slot_app. Qed.

Lemma wp_load_slot h p (i : nat) q z (Q : ptr -> heap -> Prop) :
  ptr_slot h p i q -> z = Z.of_nat i -> Q q h -> wp (load_ptr (p +ₚ z)) h Q.
Proof.
  intros (Ho & c & Hc & Hq) -> HQ.
  eapply wp_load_ptr; simpl; [done|lia| |done].
  by replace (Z.to_nat (off p + Z.of_nat i)) with (Z.to_nat (off p) + i)%nat by lia.
Qed.

Lemma length_head_scores (Qr Kr : list (list F)) hd :
  length (head_scores Qr Kr hd) = length Qr.
Proof. unfold head_scores, sdpa_spec. by rewrite !length_fmap. Qed.

Lemma Forall_hslice (R : list (list F)) hd :
  (hd < num_heads)%nat ->
  Forall (fun r => length r = (head_dim * num_heads)%nat) R ->
  Forall (fun r => length r = head_dim) (hslice hd <$> R).
Proof.
  intros Hhd HR. apply Forall_fmap. eapply Forall_impl; [exact HR|].
  intros r Hr. simpl. apply length_hslice. rewrite Hr.
  apply Nat.mul_le_mono_l. lia.
Qed.

Lemma block_attention_wp h QHp KHp VHp (Qr Kr : list (list F)) (n : nat)
    (Q0 : ptr -> heap -> Prop) :
  length Qr = n -> length Kr = n ->
  Forall (fun r => length r = (head_dim * num_heads)%nat) Qr ->
  Forall (fun r => length r = (head_dim * num_heads)%nat) Kr ->
  (forall hd, (hd < num_heads)%nat ->
     exists q, ptr_slot h QHp hd q /\ is_mat h q (hslice hd <$> Qr) /\
               rows_aligned h q n) ->
  (forall hd, (hd < num_heads)%nat ->
     exists q, ptr_slot h KHp hd q /\ is_mat h q (hslice hd <$> Kr) /\
               rows_aligned h q n) ->
  (forall hd, (hd < num_heads)%nat -> exists q, ptr_slot h VHp hd q) ->
  Q0 (Ptr (length h) 0) (h ++ attn_blocks (length h) Qr Kr n) ->
  wp (block_attention QHp KHp VHp (Z.of_nat n)) h Q0.
Proof.
  intros HlQ HlK HrQ HrK HQH HKH HVH HQ0. unfold block_attention.
  rewrite NUM_HEADS_nat.
  set (HO := VPtr <$> strided_ptrs (length h + 1) (1 + n) num_heads : list val).
  assert (length HO = num_heads) as HlHO.
  { unfold HO. by rewrite length_fmap, length_strided_ptrs. }
  set (ab := fun hd : nat =>
               mat_blocks (length h + 1 + (1 + n) * hd) (head_scores Qr Kr hd)).
  assert (forall y, length (ab y) = (1 + n)%nat) as Hlab.
  { intros y. unfold ab. rewrite length_mat_blocks, length_head_scores. lia. }
  apply wp_bind, wp_malloc; [lia|]. rewrite Nat2Z.id.
  apply wp_bind.
  apply (wp_for_range (fun k _ h' =>
           h' = h ++ Some (partial HO k)
                  :: concat (ab <$> take k (seq 0 num_heads))) num_heads);
    [lia|done|by rewrite partial_O, HlHO| |].
  2:{ intros [] h' ->. apply wp_ret.
      replace (partial HO num_heads) with HO by (by rewrite <- HlHO, partial_all).
      by rewrite take_ge by (by rewrite length_seq). }
  intros k [] h' Hk ->.
  set (heads := concat (ab <$> take k (seq 0 num_heads))).
  assert (length heads = ((1 + n) * k)%nat) as Hlheads.
  { unfold heads. rewrite (length_concat_chunks _ _ (1 + n)) by done.
    rewrite length_take, length_seq. lia. }
  destruct (HQH k Hk) as (q & Hq & HqM & HqA).
  destruct (HKH k Hk) as (q' & Hq' & Hq'M & Hq'A).
  destruct (HVH k Hk) as (q'' & Hq'').
  apply wp_bind. eapply (wp_load_slot _ _ k); [by apply ptr_slot_app|done|].
  apply wp_bind. eapply (wp_load_slot _ _ k); [by apply ptr_slot_app|done|].
  apply wp_bind. eapply (wp_load_slot _ _ k); [by apply ptr_slot_app|done|].
  apply wp_bind.
  replace HEAD_DIM with (Z.of_nat (4 * 16)) by done.
  eapply (sdpa_wp _ _ _ _ (hslice k <$> Qr) (hslice k <$> Kr));
    [by apply is_mat_app|by apply is_mat_app
    |by apply rows_aligned_app|by apply rows_aligned_app
    |by rewrite length_fmap|by rewrite length_fmap| | |].
  { eapply Forall_impl; [by apply Forall_hslice|].
    intros r Hr. simpl in *. by rewrite Hr, head_dim_val. }
  { eapply Forall_impl; [by apply Forall_hslice|].
    intros r Hr. simpl in *. by rewrite Hr, head_dim_val. }
  replace (length (h ++ Some (partial HO k) :: heads))
    with (length h + 1 + (1 + n) * k)%nat by hlen.
  eapply wp_store; cbn [blk off padd]; [hlook|lia| |].
  { rewrite length_partial; lia. }
  rewrite to_nat_0_add. hnorm. hins.
  erewrite (partial_step HO k)
    by (unfold HO; rewrite list_lookup_fmap, lookup_strided_ptrs by lia; done).
  do 3 f_equal. unfold heads.
  rewrite (concat_fmap_take_S ab _ k k) by (by apply lookup_seq_lt).
  done.
Qed.

(** ** Faults *)

Lemma fault_after {A B} (c : M A) (k : A -> M B) h e :
  wp c h (fun a h' => k a h' = Fault e) -> (c ≫= k) h = Fault e.
Proof.
  unfold wp, mbind, M_bind, bind. destruct (c h) as [[a h']|e']; done.
Qed.

Lemma fault_bind {A B} (c : M A) (k : A -> M B) h e :
  c h = Fault e -> (c ≫= k) h = Fault e.
Proof. unfold mbind, M_bind, bind. by intros ->. Qed.

Lemma fault_for_first {S} fuel cond d (body : Z -> S -> M S) i s h e :
  cond i = true -> (0 < fuel)%nat -> body i s h = Fault e ->
  for_loop fuel cond d body i s h = Fault e.
Proof.
  intros Hc Hf Hb. rewrite for_loop_eq, Hc. destruct fuel; [lia|].
  by apply fault_bind.
Qed.

(** [memcpy] of more cells than the source block has left. *)
Lemma memcpy_cells_oob (avail : nat) : forall (m : nat) dst src h csrc cdst,
  h !! blk src = Some (Some csrc) -> 0 <= off src ->
  length csrc = (Z.to_nat (off src) + avail)%nat -> (avail < m)%nat ->
  blk dst <> blk src ->
  h !! blk dst = Some (Some cdst) -> 0 <= off dst ->
  (Z.to_nat (off dst) + avail <= length cdst)%nat ->
  memcpy_cells m dst src h = Fault OutOfBounds.
Proof.
  induction avail as [|avail IH];
    intros m dst src h csrc cdst Hsrc Hos Hlen Hm Hne Hdst Hod Hroom;
    rewrite memcpy_cells_eq; (destruct m as [|m]; [lia|]).
  - apply fault_bind. unfold load. rewrite Hsrc.
    destruct (Z.ltb_spec (off src) 0); [lia|].
    by rewrite lookup_ge_None_2 by lia.
  - destruct (lookup_lt_is_Some_2 csrc (Z.to_nat (off src)) ltac:(lia)) as [v Hv].
    apply fault_after. eapply wp_load; [done|done|done|].
    apply fault_after. eapply wp_store; [done|done|lia|].
    eapply (IH m _ _ _ csrc); cbn [blk off padd].
    + by rewrite list_lookup_insert_ne.
    + lia.
    + lia.
    + lia.
    + done.
    + apply list_lookup_insert_eq. by eapply lookup_lt_Some.
    + lia.
    + rewrite length_insert. lia.
Qed.

(** ** block_concat *)

Lemma is_vec_blk_lt h p (xs : list F) : is_vec h p xs -> (blk p < length h)%nat.
Proof. intros (_ & c & Hc & _). by eapply lookup_lt_Some. Qed.

Lemma is_vec_take h p (xs : list F) n : is_vec h p xs -> is_vec h p (take n xs).
Proof.
  intros (Ho & c & Hc & Hxs). split; [done|]. exists c. split; [done|].
  intros j x Hj. apply lookup_take_Some in Hj as [Hj _]. by apply Hxs.
Qed.

Lemma wp_load_row_in h h' p rows (i : nat) r z (Q : ptr -> heap -> Prop) :
  is_mat h p rows -> h `prefix_of` h' -> rows !! i = Some r -> z = Z.of_nat i ->
  (forall q, is_vec h q r -> Q q h') -> wp (load_ptr (p +ₚ z)) h' Q.
Proof.
  intros (Ho & c & Hc & Hrows) Hpre Hi -> HQ.
  destruct (Hrows i r Hi) as (q & Hq & Hv).
  eapply wp_load_ptr; simpl; [by eapply prefix_lookup_Some|lia| |by apply HQ].
  by replace (Z.to_nat (off p + Z.of_nat i)) with (Z.to_nat (off p) + i)%nat by lia.
Qed.

Lemma length_concat_chunks_in {A B} (f : A -> list B) (l : list A) (c : nat) :
  Forall (fun y => length (f y) = c) l ->
  length (concat (f <$> l)) = (c * length l)%nat.
Proof.
  induction 1 as [|y l Hy Hl IH]; [simpl; lia|].
  rewrite fmap_cons. simpl. rewrite length_app, Hy, IH. lia.
Qed.

Lemma block_concat_wp h HOp (R : nat -> list (list F)) (n : nat)
    (Q0 : ptr -> heap -> Prop) :
  (n = 0 \/ head_dim <= n)%nat ->
  (forall hd, (hd < num_heads)%nat ->
     exists q, ptr_slot h HOp hd q /\ is_mat h q (R hd)) ->
  (forall hd, (hd < num_heads)%nat -> length (R hd) = n) ->
  (forall hd, (hd < num_heads)%nat -> Forall (fun r => length r = n) (R hd)) ->
  Q0 (Ptr (length h) 0) (h ++ mat_blocks (length h) (concat_spec R n)) ->
  wp (block_concat HOp (Z.of_nat n) (Z.of_nat (head_dim * num_heads))) h Q0.
Proof.
  intros Hn0 HHO HlR HrR HQ0. unfold block_concat.
  rewrite NUM_HEADS_nat, HEAD_DIM_nat.
  apply wp_bind, wp_malloc; [lia|]. rewrite !Nat2Z.id.
  apply wp_bind.
  eapply (wp_build_matrix h (concat_spec R n) n (head_dim * num_heads));
    [unfold concat_spec; by rewrite length_fmap, length_seq|done|
    |by apply wp_ret].
  intros i r hpre Hr Hpre (spine & Hspine & Hsi).
  unfold concat_spec in Hr. rewrite list_lookup_fmap in Hr.
  destruct (seq 0 n !! i) as [i'|] eqn:Hi; [|done].
  apply lookup_seq in Hi as [-> Hi]. simpl in Hr. simplify_eq.
  assert (head_dim <= n)%nat as Hn by lia.
  set (sl := fun hd : nat => take head_dim (row_at (R hd) i)).
  assert (forall k, (k <= num_heads)%nat ->
            length (concat (sl <$> take k (seq 0 num_heads))) = (head_dim * k)%nat)
    as Hlsl.
  { intros k Hk. rewrite (length_concat_chunks_in _ _ head_dim).
    - rewrite length_take, length_seq, Nat.min_l by lia. done.
    - apply Forall_forall. intros hd Hhd. apply list_elem_of_lookup in Hhd as [j Hj].
      apply lookup_take_Some in Hj as [Hj _]. apply lookup_seq in Hj as [-> Hj].
      change (0 + j)%nat with j. unfold sl, row_at.
      destruct (lookup_lt_is_Some_2 (R j) i ltac:(rewrite HlR; lia)) as [row Hrow].
      rewrite Hrow. simpl. rewrite length_take.
      pose proof (Forall_lookup_1 _ _ _ _ (HrR j Hj) Hrow) as Hlrow.
      simpl in Hlrow. lia. }
  apply (wp_for_range (fun k _ h' =>
           h' = hpre ++ [Some ((VFloat <$> concat (sl <$> take k (seq 0 num_heads)))
                               ++ replicate (head_dim * num_heads - head_dim * k) VUndef)])
           num_heads);
    [lia|done| | |].
  { simpl. by rewrite Nat.mul_0_r, Nat.sub_0_r. }
  2:{ intros [] h' ->. rewrite Nat.sub_diag. simpl. rewrite app_nil_r.
      by rewrite take_ge by (by rewrite length_seq). }
  intros k [] h' Hk ->.
  destruct (HHO k Hk) as (q & Hq & HqM).
  destruct (lookup_lt_is_Some_2 (R k) i ltac:(rewrite HlR; lia)) as [row Hrow].
  pose proof (Forall_lookup_1 _ _ _ _ (HrR k Hk) Hrow) as Hlrow. simpl in Hlrow.
  set (done_ := VFloat <$> concat (sl <$> take k (seq 0 num_heads)) : list val).
  assert (length done_ = (head_dim * k)%nat) as Hldone.
  { unfold done_. rewrite length_fmap. apply Hlsl. lia. }
  assert (head_dim * S k <= head_dim * num_heads)%nat as Hfit
    by (apply Nat.mul_le_mono_l; lia).
  apply wp_bind. eapply wp_load_ptr; cbn [blk off padd];
    [apply lookup_app_l_Some, Hspine|lia| |].
  { rewrite to_nat_0_add. exact Hsi. }
  apply wp_bind. eapply (wp_load_slot _ _ k);
    [apply ptr_slot_app; by eapply ptr_slot_prefix|done|].
  apply wp_bind.
  eapply (wp_load_row_in h _ _ (R k) i);
    [done|by apply prefix_app_r|done|done|].
  intros src Hsrc. unfold memcpy. rewrite Nat2Z.id.
  pose proof (is_vec_blk_lt _ _ _ Hsrc) as Hsrclt.
  pose proof (prefix_length _ _ Hpre) as Hprelen.
  eapply (wp_memcpy_cells head_dim (take head_dim row)); cbn [blk off padd].
  - rewrite length_take. lia.
  - apply is_vec_take, is_vec_app. by eapply is_vec_prefix.
  - lia.
  - apply lookup_heap_snoc.
  - lia.
  - rewrite length_app, length_replicate, Hldone. lia.
  - rewrite insert_heap_snoc. do 3 f_equal.
    replace (Z.to_nat (0 + Z.of_nat k * Z.of_nat head_dim))
      with (length done_) by lia.
    rewrite take_app_length, drop_app_add', drop_replicate by done.
    rewrite (concat_fmap_take_S sl _ k k) by (by apply lookup_seq_lt).
    rewrite fmap_app, <- app_assoc. unfold sl at 2, row_at. rewrite Hrow. simpl.
    do 3 f_equal. lia.
Qed.

(** With fewer than HEAD_DIM positions the first copy of the first row
    already reads past the end of the score row. *)
Lemma block_concat_oob h HOp (R0 : list (list F)) (n s base stride : nat) :
  (0 < n)%nat -> (n < head_dim)%nat ->
  ptr_slot h HOp 0 (Ptr s 0) -> mat_at h s base stride R0 ->
  length R0 = n -> Forall (fun r => length r = n) R0 ->
  block_concat HOp (Z.of_nat n) (Z.of_nat (head_dim * num_heads)) h
  = Fault OutOfBounds.
Proof.
  intros Hn0 Hn Hslot [Hs Hrows] HlR HrR. unfold block_concat.
  rewrite NUM_HEADS_nat, HEAD_DIM_nat.
  destruct (lookup_lt_is_Some_2 R0 0 ltac:(lia)) as [r0 Hr0].
  pose proof (Forall_lookup_1 _ _ _ _ HrR Hr0) as Hlr0. simpl in Hlr0.
  pose proof (lookup_lt_Some _ _ _ (Hrows 0%nat r0 Hr0)) as Hsrclt.
  apply fault_after, wp_malloc; [lia|]. rewrite !Nat2Z.id.
  apply fault_bind, fault_for_first; [ltb_true|lia|].
  apply fault_after, wp_malloc; [lia|]. rewrite Nat2Z.id.
  apply fault_after. eapply wp_store; cbn [blk off padd]; [hlook|lia| |].
  { rewrite length_replicate. lia. }
  hnorm. hins.
  apply fault_for_first;
    [rewrite num_heads_val; ltb_true|rewrite num_heads_val; lia|].
  apply fault_after. eapply wp_load_ptr; cbn [blk off padd]; [hlook|lia| |].
  { apply list_lookup_insert_eq. rewrite length_replicate. lia. }
  apply fault_after. eapply (wp_load_slot _ _ 0);
    [by apply ptr_slot_app|done|].
  apply fault_after. eapply wp_load_ptr; cbn [blk off padd];
    [apply lookup_app_l_Some, Hs|lia| |].
  { rewrite list_lookup_fmap, lookup_strided_ptrs by lia. done. }
  unfold memcpy. rewrite Nat2Z.id.
  eapply (memcpy_cells_oob n head_dim _ _ _ (VFloat <$> r0)
            (replicate (head_dim * num_heads) VUndef)); cbn [blk off padd].
  - apply lookup_app_l_Some. by apply Hrows.
  - lia.
  - rewrite length_fmap. lia.
  - done.
  - rewrite length_app. cbn [length]. lia.
  - hlook.
  - lia.
  - rewrite length_replicate, num_heads_val. lia.
Qed.

(** ** block_mlp *)

Lemma length_layer_spec (W : list (list F)) B x :
  length W = length B -> length (layer_spec W B x) = length W.
Proof. apply length_linear_spec. Qed.

Lemma block_mlp_wp h nxa (X : list (list F)) (n e4 g4 m2 : nat) l1 l2
    W1 B1 W2 B2 (Q0 : ptr -> heap -> Prop) :
  is_mat h nxa X -> length X = n ->
  Forall (fun r => length r = (4 * e4)%nat) X ->
  layer_ok h l1 e4 (4 * g4) W1 B1 -> layer_ok h l2 g4 m2 W2 B2 ->
  Q0 (Ptr (length h) 0) (h ++ mlp_blocks (length h) (mlp_row W1 B1 W2 B2) X) ->
  wp (block_mlp nxa (Z.of_nat n) l1 l2) h Q0.
Proof.
  intros Hnxa HlX HrX Hl1 Hl2 HQ0. unfold block_mlp.
  set (MS := VPtr <$> strided_ptrs (length h + 3) 3 n : list val).
  assert (length MS = n) as HlMS.
  { unfold MS. by rewrite length_fmap, length_strided_ptrs. }
  set (f3 := fun x : list F =>
               [None; None; Some (VFloat <$> mlp_row W1 B1 W2 B2 x)] : heap).
  apply wp_bind, wp_malloc; [lia|]. rewrite Nat2Z.id.
  apply wp_bind.
  apply (wp_for_range (fun k _ h' =>
           h' = h ++ Some (partial MS k) :: concat (f3 <$> take k X)) n);
    [lia|done|by rewrite partial_O, HlMS| |].
  2:{ intros [] h' ->. apply wp_ret.
      replace (partial MS n) with MS by (by rewrite <- HlMS, partial_all).
      rewrite <- HlX, firstn_all. unfold mlp_blocks in HQ0.
      by rewrite HlX in HQ0. }
  intros k [] h' Hk ->.
  destruct (lookup_lt_is_Some_2 X k ltac:(lia)) as [x Hx].
  pose proof (Forall_lookup_1 _ _ _ _ HrX Hx) as Hlx. simpl in Hlx.
  set (rows := concat (f3 <$> take k X)).
  assert (length rows = (3 * k)%nat) as Hlrows.
  { unfold rows. rewrite (length_concat_chunks _ _ 3) by done.
    rewrite length_take. lia. }
  set (y1 := layer_spec W1 B1 x).
  assert (length y1 = (4 * g4)%nat) as Hly1.
  { unfold y1. rewrite length_layer_spec; destruct Hl1; lia. }
  apply wp_bind. eapply (wp_load_row _ _ X k); [by apply is_mat_app|done|done|].
  intros q Hq. apply wp_bind.
  eapply linear_layer_wp; [done|by apply layer_ok_app|done|]. fold y1.
  apply wp_bind.
  replace (fcOutputSize l1) with (Z.of_nat (4 * g4)) by (by destruct Hl1).
  eapply (gelu_wp _ _ y1); [apply is_vec_block, lookup_heap_snoc|done|].
  apply wp_bind. eapply wp_free; cbn [blk off]; [hlook|done|].
  hnorm. hins.
  apply wp_bind.
  eapply (linear_layer_wp _ _ _ (gelu_spec y1));
    [apply is_vec_block; hlook|by apply layer_ok_app
    |unfold gelu_spec; by rewrite length_fmap|].
  apply wp_bind. eapply wp_store; cbn [blk off padd]; [hlook|lia| |].
  { rewrite length_partial; lia. }
  rewrite to_nat_0_add. hnorm. hins.
  erewrite (partial_step MS k)
    by (unfold MS; rewrite list_lookup_fmap, lookup_strided_ptrs by lia;
        simpl; do 3 f_equal; hlen).
  eapply wp_free; cbn [blk off]; [hlook|done|].
  hins. do 3 f_equal. unfold rows.
  by rewrite (concat_fmap_take_S f3 _ _ _ Hx).
Qed.

(** ** Freeing *)

Lemma lookup_kill P h b :
  kill P h !! b = (fun x => if P b then None else x) <$> h !! b.
Proof. unfold kill. apply list_lookup_imap. Qed.

Lemma length_kill P h : length (kill P h) = length h.
Proof. unfold kill. apply length_imap. Qed.

Lemma lookup_kill_false P h b : P b = false -> kill P h !! b = h !! b.
Proof. intros HP. rewrite lookup_kill, HP. by destruct (h !! b). Qed.

Lemma kill_none h : kill (fun _ => false) h = h.
Proof.
  apply list_eq. intros b. rewrite lookup_kill. by destruct (h !! b).
Qed.

Lemma kill_ext P P' h :
  (forall b c, h !! b = Some (Some c) -> P b = P' b) -> kill P h = kill P' h.
Proof.
  intros Hext. apply list_eq. intros b. rewrite !lookup_kill.
  destruct (h !! b) as [[c|]|] eqn:Hb; simpl; [|by destruct (P b), (P' b)|done].
  by rewrite (Hext b c).
Qed.

Lemma insert_kill P h b :
  <[b := None]> (kill P h) = kill (fun b' => P b' || bool_decide (b' = b)) h.
Proof.
  apply list_eq. intros b'.
  rewrite list_lookup_insert, !lookup_kill, length_kill.
  destruct (decide (b = b')) as [->|Hne].
  - rewrite (bool_decide_true (b' = b')), orb_true_r by done.
    destruct (h !! b') eqn:Hb'; simpl.
    + apply lookup_lt_Some in Hb'. by rewrite decide_True.
    + apply lookup_ge_None in Hb'. rewrite decide_False by lia. done.
  - rewrite decide_False by (intros [? _]; done).
    rewrite (bool_decide_false (b' = b)), orb_false_r by done. done.
Qed.

Lemma wp_free_kill h P b c (Q : unit -> heap -> Prop) :
  h !! b = Some (Some c) -> P b = false ->
  Q tt (kill (fun b' => P b' || bool_decide (b' = b)) h) ->
  wp (free (Ptr b 0)) (kill P h) Q.
Proof.
  intros Hb HP HQ. eapply wp_free; cbn [blk off];
    [by rewrite lookup_kill_false|done|].
  by rewrite insert_kill.
Qed.

Lemma wp_free_at_kill h P s base stride n (i : nat) z (Q : unit -> heap -> Prop) :
  live_mat h s base stride n -> (i < n)%nat -> z = Z.of_nat i ->
  P s = false -> P (base + stride * i)%nat = false ->
  Q tt (kill (fun b' => P b' || bool_decide (b' = base + stride * i)%nat) h) ->
  wp (free_at (Ptr s 0) z) (kill P h) Q.
Proof.
  intros [Hs Hrows] Hi -> HPs HPb HQ. unfold free_at.
  destruct (Hrows i Hi) as [c Hc].
  apply wp_bind. eapply wp_load_ptr; cbn [blk off padd];
    [by rewrite lookup_kill_false|lia| |].
  { rewrite to_nat_0_add, list_lookup_fmap, lookup_strided_ptrs by done. done. }
  by eapply wp_free_kill.
Qed.

Lemma mat_at_live h s base stride (R : list (list F)) :
  mat_at h s base stride R -> live_mat h s base stride (length R).
Proof.
  intros [Hs Hrows]. split; [done|]. intros i Hi.
  destruct (lookup_lt_is_Some_2 R i Hi) as [r Hr]. eauto.
Qed.

Ltac pfalse :=
  cbn beta; unfold freed_rows;
  repeat (apply orb_false_intro); apply bool_decide_eq_false_2; lia.

Lemma block_free_rows_wp h (n a1 a2 a3 a4 a5 : nat) (Q : unit -> heap -> Prop) :
  live_mat h a1 (a1 + 1) 1 n ->
  live_mat h a2 (a2 + 3) 3 n -> live_mat h (a2 + 1) (a2 + 4) 3 n ->
  live_mat h (a2 + 2) (a2 + 5) 3 n ->
  live_mat h a3 (a3 + 1) 1 n -> live_mat h a4 (a4 + 3) 3 n ->
  live_mat h a5 (a5 + 1) 1 n ->
  (forall i, (i < n)%nat -> h !! (a4 + 1 + 3 * i)%nat = Some None /\
                            h !! (a4 + 2 + 3 * i)%nat = Some None) ->
  (a1 + 1 + n <= a2)%nat -> (a2 + 3 + 3 * n <= a5)%nat ->
  (a5 + 1 + n <= a3)%nat -> (a3 + 1 + n <= a4)%nat ->
  Q tt (kill (freed_rows a1 a2 a3 a4 a5 n) h) ->
  wp (block_free_rows (Ptr a1 0) (Ptr a2 0) (Ptr (a2 + 1) 0) (Ptr (a2 + 2) 0)
        (Ptr a3 0) (Ptr a4 0) (Ptr a5 0) (Z.of_nat n)) h Q.
Proof.
  intros H1 H2 H2' H2'' H3 H4 H5 Hdead Ho1 Ho2 Ho3 Ho4 HQ.
  unfold block_free_rows. rewrite Nat2Z.id.
  set (P := fun i b => bool_decide
         ((a1 + 1 <= b < a1 + 1 + i) \/ (a2 + 3 <= b < a2 + 3 + 3 * i) \/
          (a3 + 1 <= b < a3 + 1 + i) \/ (a4 + 1 <= b < a4 + 1 + 3 * i) \/
          (a5 + 1 <= b < a5 + 1 + i))%nat).
  apply wp_bind.
  apply (wp_for_range (fun i _ h' => h' = kill (P i) h) n); [lia|done| | |].
  { rewrite <- (kill_none h) at 1. apply kill_ext. intros b c _.
    unfold P. symmetry. apply bool_decide_eq_false_2. lia. }
  { intros i [] h' Hi ->.
    apply wp_bind. eapply wp_free_at_kill; [exact H1|done|done| | |];
      [unfold P; pfalse..|].
    apply wp_bind. eapply wp_free_at_kill; [exact H2|done|done| | |];
      [unfold P; pfalse..|].
    apply wp_bind. eapply wp_free_at_kill; [exact H2'|done|done| | |];
      [unfold P; pfalse..|].
    apply wp_bind. eapply wp_free_at_kill; [exact H2''|done|done| | |];
      [unfold P; pfalse..|].
    apply wp_bind. eapply wp_free_at_kill; [exact H3|done|done| | |];
      [unfold P; pfalse..|].
    apply wp_bind. eapply wp_free_at_kill; [exact H4|done|done| | |];
      [unfold P; pfalse..|].
    eapply wp_free_at_kill; [exact H5|done|done| | |];
      [unfold P; pfalse..|].
    apply kill_ext. intros b c Hb. unfold P.
    destruct (Hdead i Hi) as [Hd1 Hd2].
    destruct (decide (b = a4 + 1 + 3 * i)%nat) as [->|]; [congruence|].
    destruct (decide (b = a4 + 2 + 3 * i)%nat) as [->|]; [congruence|].
    rewrite <- !bool_decide_or. apply bool_decide_ext. lia. }
  intros [] h' ->.
  destruct H1 as [Hs1 _], H2 as [Hs2 _], H2' as [Hs2' _], H2'' as [Hs2'' _],
    H3 as [Hs3 _], H4 as [Hs4 _], H5 as [Hs5 _].
  apply wp_bind. eapply wp_free_kill; [exact Hs1|unfold P; pfalse|].
  apply wp_bind. eapply wp_free_kill; [exact Hs2|unfold P; pfalse|].
  apply wp_bind. eapply wp_free_kill; [exact Hs2'|unfold P; pfalse|].
  apply wp_bind. eapply wp_free_kill; [exact Hs2''|unfold P; pfalse|].
  apply wp_bind. eapply wp_free_kill; [exact Hs3|unfold P; pfalse|].
  apply wp_bind. eapply wp_free_kill; [exact Hs4|unfold P; pfalse|].
  eapply wp_free_kill; [exact Hs5|unfold P; pfalse|].
  replace (kill _ h) with (kill (freed_rows a1 a2 a3 a4 a5 n) h); [done|].
  apply kill_ext. intros b c Hb. unfold P, freed_rows.
  rewrite <- !bool_decide_or. apply bool_decide_ext. lia.
Qed.

Lemma wp_load_ptr_kill h P s (ps : list ptr) (i : nat) q z
    (Q : ptr -> heap -> Prop) :
  h !! s = Some (Some (VPtr <$> ps)) -> P s = false -> ps !! i = Some q ->
  z = Z.of_nat i -> Q q (kill P h) ->
  wp (load_ptr (Ptr s 0 +ₚ z)) (kill P h) Q.
Proof.
  intros Hs HP Hq -> HQ.
  eapply wp_load_ptr; cbn [blk off padd];
    [by rewrite lookup_kill_false|lia| |done].
  by rewrite to_nat_0_add, list_lookup_fmap, Hq.
Qed.

Ltac pf HPP :=
  first [ apply HPP; lia
        | apply bool_decide_eq_false_2; lia
        | apply orb_false_intro; [pf HPP|pf HPP] ].

Lemma block_free_heads_wp h P0 (n a e : nat) (Q : unit -> heap -> Prop) :
  live_mat h a (a + 3) (3 + 3 * n) num_heads ->
  live_mat h (a + 1) (a + 4) (3 + 3 * n) num_heads ->
  live_mat h (a + 2) (a + 5) (3 + 3 * n) num_heads ->
  live_mat h e (e + 1) (1 + n) num_heads ->
  (forall hd, (hd < num_heads)%nat ->
     live_mat h (a + 3 + (3 + 3 * n) * hd) (a + 3 + (3 + 3 * n) * hd + 3) 3 n /\
     live_mat h (a + 3 + (3 + 3 * n) * hd + 1) (a + 3 + (3 + 3 * n) * hd + 4) 3 n /\
     live_mat h (a + 3 + (3 + 3 * n) * hd + 2) (a + 3 + (3 + 3 * n) * hd + 5) 3 n /\
     live_mat h (e + 1 + (1 + n) * hd) (e + 1 + (1 + n) * hd + 1) 1 n) ->
  (a + 3 + (3 + 3 * n) * num_heads <= e)%nat ->
  (forall b, freed_heads a e n b = true -> P0 b = false) ->
  Q tt (kill (fun b => P0 b || freed_heads a e n b) h) ->
  wp (block_free_heads (Ptr a 0) (Ptr (a + 1) 0) (Ptr (a + 2) 0) (Ptr e 0)
        (Z.of_nat n)) (kill P0 h) Q.
Proof.
  intros HQH HKH HVH HHO Hheads Hord HP0 HQ.
  unfold block_free_heads. rewrite NUM_HEADS_nat, Nat2Z.id.
  unfold freed_heads in *. rewrite num_heads_val in *.
  assert (forall b, (a <= b < a + 3 + (3 + 3 * n) * 12 \/
                     e <= b < e + 1 + (1 + n) * 12)%nat -> P0 b = false) as HP0'.
  { intros b Hb. apply HP0. by apply bool_decide_eq_true_2. }
  clear HP0.
  set (P := fun hd b => P0 b || bool_decide
         ((a + 3 <= b < a + 3 + (3 + 3 * n) * hd) \/
          (e + 1 <= b < e + 1 + (1 + n) * hd))%nat).
  apply wp_bind.
  apply (wp_for_range (fun hd _ h' => h' = kill (P hd) h) 12); [lia|done| | |].
  { apply kill_ext. intros b c _. unfold P.
    rewrite bool_decide_eq_false_2 by lia. by rewrite orb_false_r. }
  { intros hd [] h' Hhd ->.
    destruct (Hheads hd Hhd) as (Hq & Hk & Hv & Ho).
    set (B := (a + 3 + (3 + 3 * n) * hd)%nat) in *.
    set (C := (e + 1 + (1 + n) * hd)%nat) in *.
    assert (B = a + 3 + (3 + 3 * n) * hd)%nat as HB by done.
    assert (C = e + 1 + (1 + n) * hd)%nat as HC by done.
    assert ((3 + 3 * n) * hd + (3 + 3 * n) <= (3 + 3 * n) * 12)%nat as Hb1 by nia.
    assert ((1 + n) * hd + (1 + n) <= (1 + n) * 12)%nat as Hb2 by nia.
    set (PP := fun i b => P0 b || bool_decide
         ((a + 3 <= b < a + 3 + (3 + 3 * n) * hd) \/
          (e + 1 <= b < e + 1 + (1 + n) * hd) \/
          (B + 3 <= b < B + 3 + 3 * i) \/ (C + 1 <= b < C + 1 + i))%nat).
    assert (forall i x, (i <= n)%nat ->
              (x = a \/ x = a + 1 \/ x = a + 2 \/ x = e \/
               B <= x < B + 3 + 3 * n \/ C <= x < C + 1 + n)%nat ->
              ~ ((B + 3 <= x < B + 3 + 3 * i) \/ (C + 1 <= x < C + 1 + i))%nat ->
              PP i x = false) as HPP.
    { intros i x Hi Hx Hnx. unfold PP. apply orb_false_intro.
      - apply HP0'. lia.
      - apply bool_decide_eq_false_2. lia. }
    apply wp_bind.
    apply (wp_for_range (fun i _ h' => h' = kill (PP i) h) n); [lia|done| | |].
    { apply kill_ext. intros b c _. unfold P, PP. f_equal.
      apply bool_decide_ext. lia. }
    { intros i [] h' Hi ->.
      apply wp_bind.
      eapply wp_load_ptr_kill;
        [apply HQH|pf HPP|by apply lookup_strided_ptrs|done|].
      apply wp_bind. eapply wp_free_at_kill; [exact Hq|done|done| | |].
      { pf HPP. }
      { pf HPP. }
      apply wp_bind.
      eapply wp_load_ptr_kill;
        [apply HKH| |by apply lookup_strided_ptrs|done|].
      { pf HPP. }
      replace (a + 4 + (3 + 3 * n) * hd)%nat with (B + 1)%nat by lia.
      apply wp_bind. eapply wp_free_at_kill; [exact Hk|done|done| | |].
      { pf HPP. }
      { pf HPP. }
      apply wp_bind.
      eapply wp_load_ptr_kill;
        [apply HVH| |by apply lookup_strided_ptrs|done|].
      { pf HPP. }
      replace (a + 5 + (3 + 3 * n) * hd)%nat with (B + 2)%nat by lia.
      apply wp_bind. eapply wp_free_at_kill; [exact Hv|done|done| | |].
      { pf HPP. }
      { pf HPP. }
      apply wp_bind.
      eapply wp_load_ptr_kill;
        [apply HHO| |by apply lookup_strided_ptrs|done|].
      { pf HPP. }
      fold C.
      eapply wp_free_at_kill; [exact Ho|done|done| | |].
      { pf HPP. }
      { pf HPP. }
      apply kill_ext. intros b c Hb. unfold PP.
      rewrite <- !orb_assoc. f_equal.
      rewrite <- !bool_decide_or. apply bool_decide_ext. lia. }
    intros [] h' ->.
    apply wp_bind. eapply wp_free_at_kill; [exact HQH|done|done| | |].
    { pf HPP. }
    { pf HPP. }
    fold B.
    apply wp_bind. eapply wp_free_at_kill; [exact HKH|done|done| | |].
    { pf HPP. }
    { pf HPP. }
    apply wp_bind. eapply wp_free_at_kill; [exact HVH|done|done| | |].
    { pf HPP. }
    { pf HPP. }
    eapply wp_free_at_kill; [exact HHO|done|done| | |].
    { pf HPP. }
    { pf HPP. }
    apply kill_ext. intros b c Hb. unfold PP, P.
    rewrite <- !orb_assoc. f_equal.
    rewrite <- !bool_decide_or. apply bool_decide_ext. lia. }
  intros [] h' ->.
  destruct HQH as [HsQ _], HKH as [HsK _], HVH as [HsV _], HHO as [HsO _].
  assert (forall x, (x = a \/ x = a + 1 \/ x = a + 2 \/ x = e)%nat ->
            P 12%nat x = false) as HP.
  { intros x Hx. unfold P. apply orb_false_intro.
    - apply HP0'. lia.
    - apply bool_decide_eq_false_2. lia. }
  apply wp_bind. eapply wp_free_kill; [exact HsQ|pf HP|].
  apply wp_bind. eapply wp_free_kill; [exact HsK| |].
  { pf HP. }
  apply wp_bind. eapply wp_free_kill; [exact HsV| |].
  { pf HP. }
  eapply wp_free_kill; [exact HsO| |].
  { pf HP. }
  replace (kill _ h)
    with (kill (fun b => P0 b || bool_decide
            ((a <= b < a + 3 + (3 + 3 * n) * 12) \/
             (e <= b < e + 1 + (1 + n) * 12))%nat) h); [done|].
  apply kill_ext. intros b c Hb. unfold P.
  rewrite <- !orb_assoc. f_equal.
  rewrite <- !bool_decide_or. apply bool_decide_ext. lia.
Qed.

(** ** Where the blocks of each stage are *)

Lemma qkv_blocks_facts h fq fk fv (X : list (list F)) :
  let L := length h in
  let h' := h ++ qkv_blocks L fq fk fv X in
  mat_at h' L (L + 3) 3 (fq <$> X) /\
  mat_at h' (L + 1) (L + 4) 3 (fk <$> X) /\
  mat_at h' (L + 2) (L + 5) 3 (fv <$> X).
Proof.
  intros L h'. unfold h', qkv_blocks, mat_at, L. rewrite !length_fmap.
  repeat split; try (by hlook).
  - intros i r Hr. rewrite list_lookup_fmap in Hr.
    destruct (X !! i) as [x|] eqn:Hx; [|done]. simplify_eq/=. hlook.
    replace (length h + 3 + 3 * i - length h - 1 - 1 - 1)%nat
      with (3 * i + 0)%nat by lia.
    by rewrite (lookup_concat_chunks _ X 3 i 0 x) by (done || lia).
  - intros i r Hr. rewrite list_lookup_fmap in Hr.
    destruct (X !! i) as [x|] eqn:Hx; [|done]. simplify_eq/=. hlook.
    replace (length h + 4 + 3 * i - length h - 1 - 1 - 1)%nat
      with (3 * i + 1)%nat by lia.
    by rewrite (lookup_concat_chunks _ X 3 i 1 x) by (done || lia).
  - intros i r Hr. rewrite list_lookup_fmap in Hr.
    destruct (X !! i) as [x|] eqn:Hx; [|done]. simplify_eq/=. hlook.
    replace (length h + 5 + 3 * i - length h - 1 - 1 - 1)%nat
      with (3 * i + 2)%nat by lia.
    by rewrite (lookup_concat_chunks _ X 3 i 2 x) by (done || lia).
Qed.

Lemma length_qkv_blocks L fq fk fv (X : list (list F)) :
  length (qkv_blocks L fq fk fv X) = (3 + 3 * length X)%nat.
Proof.
  unfold qkv_blocks. cbn [length].
  rewrite (length_concat_chunks _ _ 3) by done. lia.
Qed.

Lemma mlp_blocks_facts h f (X : list (list F)) :
  let L := length h in
  let h' := h ++ mlp_blocks L f X in
  mat_at h' L (L + 3) 3 (f <$> X) /\
  forall i, (i < length X)%nat ->
    h' !! (L + 1 + 3 * i)%nat = Some None /\ h' !! (L + 2 + 3 * i)%nat = Some None.
Proof.
  intros L h'. unfold h', mlp_blocks, mat_at, L. rewrite !length_fmap.
  repeat split; try (by hlook).
  - intros i r Hr. rewrite list_lookup_fmap in Hr.
    destruct (X !! i) as [x|] eqn:Hx; [|done]. simplify_eq/=. hlook.
    replace (length h + 3 + 3 * i - length h - 1)%nat
      with (3 * i + 2)%nat by lia.
    by rewrite (lookup_concat_chunks _ X 3 i 2 x) by (done || lia).
  - destruct (lookup_lt_is_Some_2 X i ltac:(done)) as [x Hx]. hlook.
    replace (length h + 1 + 3 * i - length h - 1)%nat
      with (3 * i + 0)%nat by lia.
    by rewrite (lookup_concat_chunks _ X 3 i 0 x) by (done || lia).
  - destruct (lookup_lt_is_Some_2 X i ltac:(done)) as [x Hx]. hlook.
    replace (length h + 2 + 3 * i - length h - 1)%nat
      with (3 * i + 1)%nat by lia.
    by rewrite (lookup_concat_chunks _ X 3 i 1 x) by (done || lia).
Qed.

Lemma length_mlp_blocks L f (X : list (list F)) :
  length (mlp_blocks L f X) = (1 + 3 * length X)%nat.
Proof.
  unfold mlp_blocks. cbn [length].
  rewrite (length_concat_chunks _ _ 3) by done. lia.
Qed.

Lemma lookup_cons_S1 {A} (a : A) l (k : nat) : (a :: l) !! S k = l !! k.
Proof. done. Qed.

Lemma lookup_head_blocks_spine B hd (Qr Kr Vr : list (list F)) n (t : nat) :
  (t < 3)%nat ->
  head_blocks B hd Qr Kr Vr n !! t
  = Some (Some (VPtr <$> strided_ptrs (B + 3 + t) 3 n)).
Proof.
  intros Ht. unfold head_blocks.
  destruct t as [|[|[|t]]]; [| | |lia]; simpl; do 4 f_equal; lia.
Qed.

Lemma lookup_head_blocks_row B hd (Qr Kr Vr : list (list F)) n (i t : nat) :
  (i < n)%nat -> (t < 3)%nat ->
  head_blocks B hd Qr Kr Vr n !! (3 + 3 * i + t)%nat
  = [Some (VFloat <$> hslice hd (row_at Qr i));
     Some (VFloat <$> hslice hd (row_at Kr i));
     Some (VFloat <$> hslice hd (row_at Vr i))] !! t.
Proof.
  intros Hi Ht. unfold head_blocks.
  replace (3 + 3 * i + t)%nat with (S (S (S (3 * i + t)))) by lia.
  rewrite !lookup_cons_S1.
  by rewrite (lookup_concat_chunks _ (seq 0 n) 3 i t i)
    by (done || lia || by apply lookup_seq_lt).
Qed.

Lemma lookup_split_blocks h (Qr Kr Vr : list (list F)) n hd (j : nat) :
  (hd < num_heads)%nat -> (j < 3 + 3 * n)%nat ->
  (h ++ split_blocks (length h) Qr Kr Vr n)
    !! (length h + 3 + (3 + 3 * n) * hd + j)%nat
  = head_blocks (length h + 3 + (3 + 3 * n) * hd) hd Qr Kr Vr n !! j.
Proof.
  intros Hhd Hj. unfold split_blocks.
  rewrite lookup_app_r by lia.
  replace (length h + 3 + (3 + 3 * n) * hd + j - length h)%nat
    with (S (S (S ((3 + 3 * n) * hd + j)))) by lia.
  rewrite !lookup_cons_S1.
  rewrite (lookup_concat_chunks _ (seq 0 num_heads) (3 + 3 * n) hd j hd);
    [done| |by apply lookup_seq_lt|done].
  intros y. apply length_head_blocks.
Qed.

Lemma length_split_blocks L (Qr Kr Vr : list (list F)) n :
  length (split_blocks L Qr Kr Vr n) = (3 + (3 + 3 * n) * num_heads)%nat.
Proof.
  unfold split_blocks. cbn [length].
  rewrite (length_concat_chunks _ _ (3 + 3 * n)).
  - rewrite length_seq. lia.
  - intros y. apply length_head_blocks.
Qed.

Lemma split_blocks_head h (Qr Kr Vr : list (list F)) n hd :
  length Qr = n -> length Kr = n -> length Vr = n -> (hd < num_heads)%nat ->
  let h' := h ++ split_blocks (length h) Qr Kr Vr n in
  let B := (length h + 3 + (3 + 3 * n) * hd)%nat in
  mat_at h' B (B + 3) 3 (hslice hd <$> Qr) /\
  mat_at h' (B + 1) (B + 4) 3 (hslice hd <$> Kr) /\
  mat_at h' (B + 2) (B + 5) 3 (hslice hd <$> Vr).
Proof.
  intros HlQ HlK HlV Hhd h' B. unfold mat_at. rewrite !length_fmap.
  assert (forall t, (t < 3)%nat ->
            h' !! (B + t)%nat = Some (Some (VPtr <$> strided_ptrs (B + 3 + t) 3 n)))
    as Hspine.
  { intros t Ht. unfold h', B. rewrite lookup_split_blocks by lia.
    by apply lookup_head_blocks_spine. }
  assert (forall (R : list (list F)) i r, length R = n ->
            (hslice hd <$> R) !! i = Some r ->
            (i < n)%nat /\ r = hslice hd (row_at R i)) as Hrow.
  { intros R i r HlR Hr. rewrite list_lookup_fmap in Hr.
    destruct (R !! i) as [x|] eqn:Hx; [|done]. simpl in Hr.
    injection Hr as <-. apply lookup_lt_Some in Hx as Hi.
    split; [lia|]. unfold row_at. by rewrite Hx. }
  assert (forall i t, (i < n)%nat -> (t < 3)%nat ->
            h' !! (B + 3 + t + 3 * i)%nat =
            [Some (VFloat <$> hslice hd (row_at Qr i));
             Some (VFloat <$> hslice hd (row_at Kr i));
             Some (VFloat <$> hslice hd (row_at Vr i))] !! t) as Hrows.
  { intros i t Hi Ht. unfold h', B.
    replace (length h + 3 + (3 + 3 * n) * hd + 3 + t + 3 * i)%nat
      with (length h + 3 + (3 + 3 * n) * hd + (3 + 3 * i + t))%nat by lia.
    rewrite lookup_split_blocks by lia. by apply lookup_head_blocks_row. }
  rewrite HlQ, HlK, HlV. repeat split.
  - specialize (Hspine 0%nat ltac:(lia)).
    by rewrite !Nat.add_0_r in Hspine.
  - intros i r Hr. destruct (Hrow Qr i r HlQ Hr) as [Hi ->].
    specialize (Hrows i 0%nat Hi ltac:(lia)).
    by rewrite Nat.add_0_r in Hrows.
  - specialize (Hspine 1%nat ltac:(lia)).
    by replace (B + 3 + 1)%nat with (B + 4)%nat in Hspine by lia.
  - intros i r Hr. destruct (Hrow Kr i r HlK Hr) as [Hi ->].
    specialize (Hrows i 1%nat Hi ltac:(lia)).
    by replace (B + 3 + 1)%nat with (B + 4)%nat in Hrows by lia.
  - specialize (Hspine 2%nat ltac:(lia)).
    by replace (B + 3 + 2)%nat with (B + 5)%nat in Hspine by lia.
  - intros i r Hr. destruct (Hrow Vr i r HlV Hr) as [Hi ->].
    specialize (Hrows i 2%nat Hi ltac:(lia)).
    by replace (B + 3 + 2)%nat with (B + 5)%nat in Hrows by lia.
Qed.

Lemma split_blocks_spines h (Qr Kr Vr : list (list F)) n :
  let h' := h ++ split_blocks (length h) Qr Kr Vr n in
  let L := length h in
  h' !! L = Some (Some (VPtr <$> strided_ptrs (L + 3) (3 + 3 * n) num_heads)) /\
  h' !! (L + 1)%nat
    = Some (Some (VPtr <$> strided_ptrs (L + 4) (3 + 3 * n) num_heads)) /\
  h' !! (L + 2)%nat
    = Some (Some (VPtr <$> strided_ptrs (L + 5) (3 + 3 * n) num_heads)).
Proof.
  intros h' L. unfold h', L, split_blocks. repeat split; by hlook.
Qed.

Lemma length_attn_blocks L (Qr Kr : list (list F)) n :
  length Qr = n ->
  length (attn_blocks L Qr Kr n) = (1 + (1 + n) * num_heads)%nat.
Proof.
  intros HlQ. unfold attn_blocks. cbn [length].
  rewrite (length_concat_chunks _ _ (1 + n)).
  - rewrite length_seq. lia.
  - intros y. rewrite length_mat_blocks, length_head_scores. lia.
Qed.

Lemma attn_blocks_facts h (Qr Kr : list (list F)) n :
  length Qr = n ->
  let h' := h ++ attn_blocks (length h) Qr Kr n in
  let L := length h in
  h' !! L = Some (Some (VPtr <$> strided_ptrs (L + 1) (1 + n) num_heads)) /\
  forall hd, (hd < num_heads)%nat ->
    mat_at h' (L + 1 + (1 + n) * hd) (L + 1 + (1 + n) * hd + 1) 1
      (head_scores Qr Kr hd).
Proof.
  intros HlQ h' L. split; [unfold h', L, attn_blocks; by hlook|].
  intros hd Hhd.
  assert (forall j, (j < 1 + n)%nat ->
            h' !! (L + 1 + (1 + n) * hd + j)%nat
            = mat_blocks (L + 1 + (1 + n) * hd) (head_scores Qr Kr hd) !! j)
    as Hlook.
  { intros j Hj. unfold h', attn_blocks. rewrite lookup_app_r by (unfold L; lia).
    replace (L + 1 + (1 + n) * hd + j - length h)%nat
      with (S ((1 + n) * hd + j)) by (unfold L; lia).
    rewrite lookup_cons_S1.
    rewrite (lookup_concat_chunks _ (seq 0 num_heads) (1 + n) hd j hd);
      [done| |by apply lookup_seq_lt|done].
    intros y. rewrite length_mat_blocks, length_head_scores. lia. }
  split.
  - specialize (Hlook 0%nat ltac:(lia)). rewrite Nat.add_0_r in Hlook.
    rewrite Hlook. unfold mat_blocks. simpl. rewrite row_ptrs_strided.
    do 4 f_equal. lia.
  - intros i r Hr. pose proof (lookup_lt_Some _ _ _ Hr) as Hi.
    rewrite length_head_scores in Hi.
    replace (L + 1 + (1 + n) * hd + 1 + 1 * i)%nat
      with (L + 1 + (1 + n) * hd + S i)%nat by lia.
    rewrite Hlook by lia. unfold mat_blocks. simpl.
    by rewrite list_lookup_fmap, Hr.
Qed.

Lemma ptr_slot_strided h s base stride m (i : nat) :
  h !! s = Some (Some (VPtr <$> strided_ptrs base stride m)) -> (i < m)%nat ->
  ptr_slot h (Ptr s 0) i (Ptr (base + stride * i) 0).
Proof.
  intros Hs Hi. split; [done|]. eexists. split; [exact Hs|].
  simpl. by rewrite list_lookup_fmap, lookup_strided_ptrs.
Qed.

Lemma mat_at_live_prefix h h' s base base' stride (R : list (list F)) n :
  mat_at h s base stride R -> h `prefix_of` h' -> length R = n -> base = base' ->
  live_mat h' s base' stride n.
Proof.
  intros HM Hpre <- <-. by eapply mat_at_live, mat_at_prefix.
Qed.

Lemma mat_at_kill P h s base stride (R : list (list F)) :
  mat_at h s base stride R -> (forall b, (s <= b)%nat -> P b = false) ->
  (s <= base)%nat -> mat_at (kill P h) s base stride R.
Proof.
  intros [Hs Hrows] HP Hbase. split.
  - rewrite lookup_kill_false by (apply HP; lia). done.
  - intros i r Hr. rewrite lookup_kill_false by (apply HP; lia). by apply Hrows.
Qed.

Lemma prefix_kill P h0 h :
  h0 `prefix_of` h -> (forall b, (b < length h0)%nat -> P b = false) ->
  h0 `prefix_of` kill P h.
Proof.
  intros Hpre HP. apply prefix_of_lookup.
  - rewrite length_kill. by apply prefix_length.
  - intros b Hb. rewrite lookup_kill_false by by apply HP.
    symmetry. by apply prefix_lookup_lt.
Qed.

(** ** Shapes of the pure results *)

Lemma emb_val : emb = 768%nat.
Proof. done. Qed.
Lemma EMBEDDING_SIZE_nat : EMBEDDING_SIZE = Z.of_nat emb.
Proof. done. Qed.
Lemma emb_heads : emb = (head_dim * num_heads)%nat.
Proof. by rewrite emb_val, head_dim_val, num_heads_val. Qed.
Lemma emb_quarters : emb = (4 * (emb / 4))%nat.
Proof. done. Qed.

#[local] Opaque emb.

Lemma length_norm_row (x : list F) : length (norm_row x) = length x.
Proof. unfold norm_row. by rewrite length_fmap. Qed.

Lemma Forall_norm_spec (X : list (list F)) (m : nat) :
  Forall (fun r => length r = m) X -> Forall (fun r => length r = m) (norm_spec X).
Proof.
  intros HX. unfold norm_spec. apply Forall_fmap.
  eapply Forall_impl; [exact HX|]. intros r Hr. simpl. by rewrite length_norm_row.
Qed.

Lemma Forall_layer_spec (W : list (list F)) B (X : list (list F)) m :
  length W = m -> length B = m ->
  Forall (fun r => length r = m) (layer_spec W B <$> X).
Proof.
  intros HW HB. apply Forall_fmap, Forall_forall. intros x _. simpl.
  rewrite length_layer_spec; lia.
Qed.

Lemma Forall_head_scores (Qr Kr : list (list F)) hd :
  Forall (fun r => length r = length Kr) (head_scores Qr Kr hd).
Proof.
  unfold head_scores, sdpa_spec. apply Forall_fmap, Forall_forall.
  intros x _. simpl. by rewrite !length_fmap.
Qed.

Lemma length_concat_row (R : nat -> list (list F)) (n i : nat) :
  (i < n)%nat -> (head_dim <= n)%nat ->
  (forall hd, (hd < num_heads)%nat -> length (R hd) = n) ->
  (forall hd, (hd < num_heads)%nat -> Forall (fun r => length r = n) (R hd)) ->
  length (concat_row R i) = (head_dim * num_heads)%nat.
Proof.
  intros Hi Hn HlR HrR. unfold concat_row.
  rewrite (length_concat_chunks_in _ _ head_dim); [by rewrite length_seq|].
  apply Forall_forall. intros hd Hhd. apply list_elem_of_lookup in Hhd as [j Hj].
  apply lookup_seq in Hj as [-> Hj]. change (0 + j)%nat with j. unfold row_at.
  destruct (lookup_lt_is_Some_2 (R j) i ltac:(rewrite HlR; lia)) as [row Hrow].
  rewrite Hrow. simpl. rewrite length_take.
  pose proof (Forall_lookup_1 _ _ _ _ (HrR j Hj) Hrow) as Hlrow.
  simpl in Hlrow. lia.
Qed.

Lemma Forall_concat_spec (R : nat -> list (list F)) (n : nat) :
  (n = 0 \/ head_dim <= n)%nat ->
  (forall hd, (hd < num_heads)%nat -> length (R hd) = n) ->
  (forall hd, (hd < num_heads)%nat -> Forall (fun r => length r = n) (R hd)) ->
  Forall (fun r => length r = (head_dim * num_heads)%nat) (concat_spec R n).
Proof.
  intros Hn HlR HrR. unfold concat_spec. apply Forall_fmap, Forall_forall.
  intros i Hi. apply list_elem_of_lookup in Hi as [j Hj].
  apply lookup_seq in Hj as [-> Hj]. simpl.
  apply (length_concat_row _ n); [done|lia|done|done].
Qed.

Lemma length_concat_spec (R : nat -> list (list F)) n : length (concat_spec R n) = n.
Proof. unfold concat_spec. by rewrite length_fmap, length_seq. Qed.

Lemma Forall_matrix_add_spec (X Y : list (list F)) (m : nat) :
  Forall (fun r => length r = m) X -> Forall (fun r => length r = m) Y ->
  Forall (fun r => length r = m) (matrix_add_spec X Y).
Proof.
  intros HX HY. unfold matrix_add_spec. apply Forall_forall.
  intros r Hr. apply list_elem_of_lookup in Hr as [i Hi].
  rewrite lookup_zip_with in Hi.
  destruct (X !! i) as [x|] eqn:Hx; [|done]. simpl in Hi.
  destruct (Y !! i) as [y|] eqn:Hy; [|done]. simpl in Hi. injection Hi as <-.
  rewrite length_zip_with.
  pose proof (Forall_lookup_1 _ _ _ _ HX Hx) as Hlx.
  pose proof (Forall_lookup_1 _ _ _ _ HY Hy) as Hly. simpl in *. lia.
Qed.

Lemma Forall_mlp_row (W1 : list (list F)) B1 W2 B2 (X : list (list F)) m :
  length W2 = m -> length B2 = m ->
  Forall (fun r => length r = m) (mlp_row W1 B1 W2 B2 <$> X).
Proof.
  intros HW HB. apply Forall_fmap, Forall_forall. intros x _. simpl.
  unfold mlp_row. rewrite length_layer_spec; lia.
Qed.

(** ** block *)

Lemma run_bind {A B} (c : M A) (k : A -> M B) h
    (Phi : outcome (B * heap) -> Prop) :
  wp c h (fun a h' => Phi (k a h')) -> Phi ((c ≫= k) h).
Proof.
  unfold wp, mbind, M_bind, bind. destruct (c h) as [[a h']|e]; done.
Qed.

(** Lines 250-295: whatever follows them, and whatever is asked of the
    outcome, the first four stages leave the heap [h4] below. *)
Lemma block_stages_1_4 {B} h x (X : list (list F)) (n g4 : nat) W
    (bp : block_params)
    (rest : ptr -> ptr -> ptr -> ptr -> ptr -> ptr -> ptr -> ptr -> M B)
    (Phi : outcome (B * heap) -> Prop) :
  is_mat h x X -> length X = n ->
  Forall (fun r => length r = emb) X ->
  block_ok h W bp g4 ->
  let X1 := norm_spec X in
  let Qr := layer_spec (Wq bp) (Bq bp) <$> X1 in
  let Kr := layer_spec (Wk bp) (Bk bp) <$> X1 in
  let Vr := layer_spec (Wv bp) (Bv bp) <$> X1 in
  let h1 := h ++ mat_blocks (length h) X1 in
  let h2 := h1 ++ qkv_blocks (length h1) (layer_spec (Wq bp) (Bq bp))
                    (layer_spec (Wk bp) (Bk bp)) (layer_spec (Wv bp) (Bv bp)) X1 in
  let h3 := h2 ++ split_blocks (length h2) Qr Kr Vr n in
  let h4 := h3 ++ attn_blocks (length h3) Qr Kr n in
  Phi (rest (Ptr (length h) 0)
         (Ptr (length h1) 0) (Ptr (length h1 + 1) 0) (Ptr (length h1 + 2) 0)
         (Ptr (length h2) 0) (Ptr (length h2 + 1) 0) (Ptr (length h2 + 2) 0)
         (Ptr (length h3) 0) h4) ->
  Phi ((normalized_x ← norm x (Z.of_nat n) (Z.of_nat emb);
        '(Q, K, V) ← block_qkv normalized_x (Z.of_nat n)
                        (q_mlp W) (k_mlp W) (v_mlp W);
        '(Q_heads, K_heads, V_heads) ← block_split_heads Q K V (Z.of_nat n);
        head_outputs ← block_attention Q_heads K_heads V_heads (Z.of_nat n);
        rest normalized_x Q K V Q_heads K_heads V_heads head_outputs) h).
Proof.
  intros Hx HlX HrX [Hq Hk Hv H1 H2]. intros X1 Qr Kr Vr h1 h2 h3 h4 HPhi.
  set (e4 := (emb / 4)%nat) in *.
  assert (emb = 4 * e4)%nat as He4 by apply emb_quarters.
  (* 1: normalized_x *)
  apply run_bind. eapply norm_wp; [done|done|done|]. fold X1 h1.
  assert (length X1 = n) as HlX1 by (unfold X1, norm_spec; by rewrite length_fmap).
  assert (Forall (fun r => length r = emb) X1) as HrX1 by by apply Forall_norm_spec.
  pose proof (mat_at_mat_blocks h X1) as M1. fold h1 in M1.
  assert (h `prefix_of` h1) as Hp1 by (by apply prefix_app_r).
  (* 2: Q, K, V *)
  apply run_bind.
  eapply (block_qkv_wp _ _ X1 n e4);
    [by eapply mat_at_is_mat|done|by rewrite <- He4
    |by eapply layer_ok_prefix|by eapply layer_ok_prefix
    |by eapply layer_ok_prefix|].
  fold h2.
  assert (length Qr = n /\ length Kr = n /\ length Vr = n) as (HlQr & HlKr & HlVr).
  { unfold Qr, Kr, Vr. by rewrite !length_fmap. }
  assert (Forall (fun r => length r = emb) Qr) as HrQr.
  { destruct Hq. by apply Forall_layer_spec. }
  assert (Forall (fun r => length r = emb) Kr) as HrKr.
  { destruct Hk. by apply Forall_layer_spec. }
  assert (Forall (fun r => length r = emb) Vr) as HrVr.
  { destruct Hv. by apply Forall_layer_spec. }
  destruct (qkv_blocks_facts h1 (layer_spec (Wq bp) (Bq bp))
              (layer_spec (Wk bp) (Bk bp)) (layer_spec (Wv bp) (Bv bp)) X1)
    as (MQ & MK & MV).
  fold Qr Kr Vr h2 in MQ, MK, MV.
  (* 3: the heads *)
  apply run_bind.
  eapply (block_split_heads_wp _ _ _ _ Qr Kr Vr n);
    [by eapply mat_at_is_mat|by eapply mat_at_is_mat|by eapply mat_at_is_mat
    |done|done|done
    |by rewrite <- emb_heads|by rewrite <- emb_heads|by rewrite <- emb_heads|].
  fold h3.
  destruct (split_blocks_spines h2 Qr Kr Vr n) as (SQ & SK & SV).
  fold h3 in SQ, SK, SV.
  pose proof (fun hd Hhd => split_blocks_head h2 Qr Kr Vr n hd HlQr HlKr HlVr Hhd)
    as Hheads.
  cbn zeta in Hheads. fold h3 in Hheads.
  (* 4: attention per head *)
  apply run_bind.
  eapply (block_attention_wp _ _ _ _ Qr Kr n);
    [done|done|by rewrite <- emb_heads|by rewrite <- emb_heads| | | |].
  { intros hd Hhd. eexists. split; [by eapply ptr_slot_strided|].
    split; [eapply mat_at_is_mat|eapply mat_at_rows_aligned]; apply (Hheads hd Hhd). }
  { intros hd Hhd. eexists. split; [by eapply ptr_slot_strided|].
    replace (length h2 + 4 + (3 + 3 * n) * hd)%nat
      with (length h2 + 3 + (3 + 3 * n) * hd + 1)%nat by lia.
    split; [eapply mat_at_is_mat|eapply mat_at_rows_aligned]; apply (Hheads hd Hhd). }
  { intros hd Hhd. eexists. by eapply ptr_slot_strided. }
  exact HPhi.
Qed.

Lemma mat_at_kill_rows P h s base stride (R : list (list F)) :
  mat_at h s base stride R -> P s = false ->
  (forall i, (i < length R)%nat -> P (base + stride * i)%nat = false) ->
  mat_at (kill P h) s base stride R.
Proof.
  intros [Hs Hrows] HPs HP. split.
  - by rewrite lookup_kill_false.
  - intros i r Hr. rewrite lookup_kill_false.
    + by apply Hrows.
    + apply HP. by eapply lookup_lt_Some.
Qed.

(** [block] with the whole account of its memory: of the blocks it
    allocates, the output (at [s]) and the attention matrix (at [a]) are
    left; every other one is freed. *)
Lemma block_wp_strong h x (X : list (list F)) (n g4 : nat) W (bp : block_params)
    (Q0 : ptr -> heap -> Prop) :
  is_mat h x X -> length X = n ->
  Forall (fun r => length r = emb) X ->
  block_ok h W bp g4 ->
  (n = 0 \/ head_dim <= n)%nat ->
  (forall s a h', h `prefix_of` h' -> (length h <= a)%nat ->
     (a + 1 + n <= s)%nat -> length h' = (s + 1 + n)%nat ->
     mat_at h' s (S s) 1 (block_spec bp X) ->
     mat_at h' a (S a) 1 (attention_spec bp X) ->
     (forall b, (length h <= b < s)%nat -> ~ (a <= b < a + 1 + n)%nat ->
        h' !! b = Some None) ->
     length (block_spec bp X) = n ->
     Forall (fun r => length r = emb) (block_spec bp X) ->
     Q0 (Ptr s 0) h') ->
  wp (block x (Z.of_nat n) (Z.of_nat emb) W) h Q0.
Proof.
  intros Hx HlX HrX Hok Hn HQ0. unfold block.
  assert (attention_spec bp X =
          concat_spec (head_scores (layer_spec (Wq bp) (Bq bp) <$> norm_spec X)
                                   (layer_spec (Wk bp) (Bk bp) <$> norm_spec X)) n)
    as Hatt.
  { unfold attention_spec. by rewrite HlX. }
  assert (block_spec bp X =
          matrix_add_spec
            (matrix_add_spec X
               (concat_spec (head_scores (layer_spec (Wq bp) (Bq bp) <$> norm_spec X)
                                         (layer_spec (Wk bp) (Bk bp) <$> norm_spec X)) n))
            (mlp_row (W1 bp) (B1 bp) (W2 bp) (B2 bp) <$>
               norm_spec (matrix_add_spec X
                 (concat_spec (head_scores (layer_spec (Wq bp) (Bq bp) <$> norm_spec X)
                                           (layer_spec (Wk bp) (Bk bp) <$> norm_spec X)) n))))
    as Hspec.
  { unfold block_spec, attention_spec. by rewrite HlX. }
  unfold wp.
  eapply (block_stages_1_4 h x X n g4 W bp _
            (fun o => match o with Ok (a, h') => Q0 a h' | Fault _ => False end));
    [done..|].
  match goal with |- match ?c ?hh with _ => _ end => change (wp c hh Q0) end.
  destruct Hok as [Hq Hk Hv H1 H2].
  set (e4 := (emb / 4)%nat) in *.
  assert (emb = 4 * e4)%nat as He4 by apply emb_quarters.
  set (X1 := norm_spec X).
  assert (length X1 = n) as HlX1 by (unfold X1, norm_spec; by rewrite length_fmap).
  set (h1 := h ++ mat_blocks (length h) X1).
  assert (length h1 = length h + 1 + n)%nat as Hlh1.
  { unfold h1. rewrite length_app, length_mat_blocks. lia. }
  pose proof (mat_at_mat_blocks h X1) as M1. fold h1 in M1.
  assert (h `prefix_of` h1) as Hp1 by (by apply prefix_app_r).
  set (Qr := layer_spec (Wq bp) (Bq bp) <$> X1).
  set (Kr := layer_spec (Wk bp) (Bk bp) <$> X1).
  set (Vr := layer_spec (Wv bp) (Bv bp) <$> X1).
  assert (length Qr = n /\ length Kr = n /\ length Vr = n) as (HlQr & HlKr & HlVr).
  { unfold Qr, Kr, Vr. by rewrite !length_fmap. }
  destruct (qkv_blocks_facts h1 (layer_spec (Wq bp) (Bq bp))
              (layer_spec (Wk bp) (Bk bp)) (layer_spec (Wv bp) (Bv bp)) X1)
    as (MQ & MK & MV).
  fold Qr Kr Vr in MQ, MK, MV.
  set (h2 := h1 ++ qkv_blocks (length h1) _ _ _ X1) in *.
  assert (length h2 = length h1 + 3 + 3 * n)%nat as Hlh2.
  { unfold h2. rewrite length_app, length_qkv_blocks. lia. }
  assert (h1 `prefix_of` h2) as Hp2 by (by apply prefix_app_r).
  set (h3 := h2 ++ split_blocks (length h2) Qr Kr Vr n).
  assert (length h3 = length h2 + 3 + (3 + 3 * n) * num_heads)%nat as Hlh3.
  { unfold h3. rewrite length_app, length_split_blocks. lia. }
  assert (h2 `prefix_of` h3) as Hp3 by (by apply prefix_app_r).
  destruct (split_blocks_spines h2 Qr Kr Vr n) as (SQ & SK & SV).
  fold h3 in SQ, SK, SV.
  pose proof (fun hd Hhd => split_blocks_head h2 Qr Kr Vr n hd HlQr HlKr HlVr Hhd)
    as Hheads.
  cbn zeta in Hheads. fold h3 in Hheads.
  set (h4 := h3 ++ attn_blocks (length h3) Qr Kr n).
  assert (length h4 = length h3 + 1 + (1 + n) * num_heads)%nat as Hlh4.
  { unfold h4. rewrite length_app, length_attn_blocks by done. lia. }
  assert (h3 `prefix_of` h4) as Hp4 by (by apply prefix_app_r).
  destruct (attn_blocks_facts h3 Qr Kr n HlQr) as (SO & Hscores).
  fold h4 in SO, Hscores.
  set (R := head_scores Qr Kr) in *.
  assert (forall hd, (hd < num_heads)%nat -> length (R hd) = n) as HlR.
  { intros hd _. unfold R. by rewrite length_head_scores. }
  assert (forall hd, (hd < num_heads)%nat -> Forall (fun r => length r = n) (R hd))
    as HrR.
  { intros hd _. unfold R. rewrite <- HlKr. apply Forall_head_scores. }
  (* 5: a *)
  apply wp_bind. rewrite emb_heads.
  eapply (block_concat_wp _ _ R n); [done| |done|done|].
  { intros hd Hhd. eexists. split; [by eapply ptr_slot_strided|].
    eapply mat_at_is_mat. apply (Hscores hd Hhd). }
  rewrite <- emb_heads.
  set (A := concat_spec R n).
  assert (length A = n) as HlA by apply length_concat_spec.
  assert (Forall (fun r => length r = emb) A) as HrA.
  { rewrite emb_heads. by apply Forall_concat_spec. }
  set (h5 := h4 ++ mat_blocks (length h4) A).
  assert (length h5 = length h4 + 1 + n)%nat as Hlh5.
  { unfold h5. rewrite length_app, length_mat_blocks. lia. }
  pose proof (mat_at_mat_blocks h4 A) as M5. fold h5 in M5.
  assert (h4 `prefix_of` h5) as Hp5 by (by apply prefix_app_r).
  assert (h `prefix_of` h5) as Hp05 by (by repeat (etrans; [|eassumption])).
  (* 6: x_added *)
  apply wp_bind. rewrite He4.
  eapply (matrix_add_wp _ _ _ X A n e4);
    [by eapply is_mat_prefix|by eapply mat_at_is_mat|done|done
    |by rewrite <- He4|by rewrite <- He4|].
  set (XA := matrix_add_spec X A).
  assert (length XA = n) as HlXA.
  { unfold XA. rewrite length_matrix_add_spec; lia. }
  assert (Forall (fun r => length r = emb) XA) as HrXA
    by by apply Forall_matrix_add_spec.
  set (h6 := h5 ++ mat_blocks (length h5) XA).
  assert (length h6 = length h5 + 1 + n)%nat as Hlh6.
  { unfold h6. rewrite length_app, length_mat_blocks. lia. }
  pose proof (mat_at_mat_blocks h5 XA) as M6. fold h6 in M6.
  assert (h5 `prefix_of` h6) as Hp6 by (by apply prefix_app_r).
  (* 7: normalized_x_added *)
  apply wp_bind. rewrite <- He4.
  eapply (norm_wp _ _ XA); [by eapply mat_at_is_mat|done|done|].
  set (X2 := norm_spec XA).
  assert (length X2 = n) as HlX2 by (unfold X2, norm_spec; by rewrite length_fmap).
  assert (Forall (fun r => length r = emb) X2) as HrX2 by by apply Forall_norm_spec.
  set (h7 := h6 ++ mat_blocks (length h6) X2).
  assert (length h7 = length h6 + 1 + n)%nat as Hlh7.
  { unfold h7. rewrite length_app, length_mat_blocks. lia. }
  pose proof (mat_at_mat_blocks h6 X2) as M7. fold h7 in M7.
  assert (h6 `prefix_of` h7) as Hp7 by (by apply prefix_app_r).
  assert (h `prefix_of` h7) as Hp07 by (by repeat (etrans; [|eassumption])).
  (* 8: m *)
  apply wp_bind.
  eapply (block_mlp_wp _ _ X2 n e4 g4);
    [by eapply mat_at_is_mat|done|by rewrite <- He4
    |by eapply layer_ok_prefix|by eapply layer_ok_prefix|].
  set (fm := mlp_row (W1 bp) (B1 bp) (W2 bp) (B2 bp)).
  set (Mr := fm <$> X2).
  assert (length Mr = n) as HlMr by (unfold Mr; by rewrite length_fmap).
  assert (Forall (fun r => length r = emb) Mr) as HrMr.
  { destruct H2. by apply Forall_mlp_row. }
  destruct (mlp_blocks_facts h7 fm X2) as (MM & Hdead). fold Mr in MM.
  set (h8 := h7 ++ mlp_blocks (length h7) fm X2) in *.
  assert (length h8 = length h7 + 1 + 3 * n)%nat as Hlh8.
  { unfold h8. rewrite length_app, length_mlp_blocks. lia. }
  assert (h7 `prefix_of` h8) as Hp8 by (by apply prefix_app_r).
  (* 9: output *)
  apply wp_bind. rewrite He4.
  eapply (matrix_add_wp _ _ _ XA Mr n e4);
    [eapply mat_at_is_mat, mat_at_prefix; [exact M6|by etrans]
    |by eapply mat_at_is_mat|done|done
    |by rewrite <- He4|by rewrite <- He4|].
  set (OUT := matrix_add_spec XA Mr).
  assert (length OUT = n) as HlOUT.
  { unfold OUT. rewrite length_matrix_add_spec; lia. }
  set (h9 := h8 ++ mat_blocks (length h8) OUT).
  assert (length h9 = length h8 + 1 + n)%nat as Hlh9.
  { unfold h9. rewrite length_app, length_mat_blocks. lia. }
  pose proof (mat_at_mat_blocks h8 OUT) as M9. fold h9 in M9.
  assert (h8 `prefix_of` h9) as Hp9 by (by apply prefix_app_r).
  assert (h7 `prefix_of` h9) as Hp79 by (by etrans).
  assert (h6 `prefix_of` h9) as Hp69 by (by etrans).
  assert (h5 `prefix_of` h9) as Hp59 by (by etrans).
  assert (h4 `prefix_of` h9) as Hp49 by (by etrans).
  assert (h3 `prefix_of` h9) as Hp39 by (by etrans).
  assert (h2 `prefix_of` h9) as Hp29 by (by etrans).
  assert (h1 `prefix_of` h9) as Hp19 by (by etrans).
  assert (h `prefix_of` h9) as Hp09 by (by etrans).
  (* the intermediates are freed *)
  apply wp_bind.
  eapply block_free_rows_wp.
  { eapply mat_at_live_prefix; [exact M1|done|done|lia]. }
  { eapply mat_at_live_prefix; [exact MQ|done|done|lia]. }
  { eapply mat_at_live_prefix; [exact MK|done|done|lia]. }
  { eapply mat_at_live_prefix; [exact MV|done|done|lia]. }
  { eapply mat_at_live_prefix; [exact M7|done|done|lia]. }
  { eapply mat_at_live_prefix; [exact MM|by etrans|done|lia]. }
  { eapply mat_at_live_prefix; [exact M6|done|done|lia]. }
  { intros i Hi. destruct (Hdead i ltac:(lia)) as [Hd1 Hd2].
    split; by eapply prefix_lookup_Some. }
  { lia. } { lia. } { lia. } { lia. }
  set (P0 := freed_rows (length h) (length h1) (length h6) (length h7)
               (length h5) n).
  apply wp_bind. eapply block_free_heads_wp.
  { split; [by eapply prefix_lookup_Some|]. intros hd Hhd.
    destruct (Hheads hd Hhd) as ([Hs _] & _). eexists.
    by eapply prefix_lookup_Some. }
  { split; [by eapply prefix_lookup_Some|]. intros hd Hhd.
    destruct (Hheads hd Hhd) as (_ & [Hs _] & _). eexists.
    replace (length h2 + 4 + (3 + 3 * n) * hd)%nat
      with (length h2 + 3 + (3 + 3 * n) * hd + 1)%nat by lia.
    by eapply prefix_lookup_Some. }
  { split; [by eapply prefix_lookup_Some|]. intros hd Hhd.
    destruct (Hheads hd Hhd) as (_ & _ & [Hs _]). eexists.
    replace (length h2 + 5 + (3 + 3 * n) * hd)%nat
      with (length h2 + 3 + (3 + 3 * n) * hd + 2)%nat by lia.
    by eapply prefix_lookup_Some. }
  { split; [by eapply prefix_lookup_Some|]. intros hd Hhd.
    destruct (Hscores hd Hhd) as [Hs _]. eexists.
    by eapply prefix_lookup_Some. }
  { intros hd Hhd. destruct (Hheads hd Hhd) as (HMq & HMk & HMv).
    repeat split.
    - eapply mat_at_live_prefix; [exact HMq|done|by rewrite length_fmap|lia].
    - intros i Hi. eapply mat_at_live_prefix in HMq as [_ Hr];
        [|done|by rewrite length_fmap|reflexivity]. by apply Hr.
    - eapply mat_at_live_prefix; [exact HMk|done|by rewrite length_fmap|lia].
    - intros i Hi. eapply mat_at_live_prefix in HMk as [_ Hr];
        [|done|by rewrite length_fmap|reflexivity]. by apply Hr.
    - eapply mat_at_live_prefix; [exact HMv|done|by rewrite length_fmap|lia].
    - intros i Hi. eapply mat_at_live_prefix in HMv as [_ Hr];
        [|done|by rewrite length_fmap|reflexivity]. by apply Hr.
    - eapply mat_at_live_prefix; [apply (Hscores hd Hhd)|done|by apply HlR|lia].
    - intros i Hi. pose proof (Hscores hd Hhd) as HMs.
      eapply mat_at_live_prefix in HMs as [_ Hr];
        [|done|by apply HlR|reflexivity]. by apply Hr. }
  { lia. }
  { intros b Hb. unfold freed_heads in Hb. apply bool_decide_eq_true_1 in Hb.
    unfold P0, freed_rows. apply bool_decide_eq_false_2. lia. }
  apply wp_ret. apply (HQ0 (length h8) (length h4)).
  - apply prefix_kill; [done|]. intros b Hb. apply orb_false_intro.
    + unfold P0, freed_rows. apply bool_decide_eq_false_2. lia.
    + unfold freed_heads. apply bool_decide_eq_false_2. lia.
  - lia.
  - lia.
  - rewrite length_kill. lia.
  - rewrite Hspec. apply mat_at_kill; [exact M9| |lia].
    intros b Hb. apply orb_false_intro.
    + unfold P0, freed_rows. apply bool_decide_eq_false_2. lia.
    + unfold freed_heads. apply bool_decide_eq_false_2. lia.
  - rewrite Hatt. fold X1 Qr Kr R A.
    apply mat_at_kill_rows; [eapply mat_at_prefix; [exact M5|done]| |].
    + apply orb_false_intro.
      * unfold P0, freed_rows. apply bool_decide_eq_false_2. lia.
      * unfold freed_heads. apply bool_decide_eq_false_2. lia.
    + intros i Hi. rewrite HlA in Hi. apply orb_false_intro.
      * unfold P0, freed_rows. apply bool_decide_eq_false_2. lia.
      * unfold freed_heads. apply bool_decide_eq_false_2. lia.
  - intros b Hb Hna. rewrite lookup_kill.
    destruct (lookup_lt_is_Some_2 h9 b ltac:(lia)) as [cell ->].
    cbn [fmap option_fmap option_map].
    assert ((P0 b || freed_heads (length h2) (length h3) n b) = true) as ->; [|done].
    destruct (decide (b < length h2)%nat) as [Hlo|Hhi].
    + apply orb_true_intro. left. unfold P0, freed_rows.
      apply bool_decide_eq_true_2. lia.
    + destruct (decide (b < length h4)%nat) as [Hlo|Hhi'].
      * apply orb_true_intro. right. unfold freed_heads.
        apply bool_decide_eq_true_2. lia.
      * apply orb_true_intro. left. unfold P0, freed_rows.
        apply bool_decide_eq_true_2. lia.
  - by rewrite Hspec.
  - rewrite Hspec. by apply Forall_matrix_add_spec.
Qed.

Lemma block_wp h x (X : list (list F)) (n g4 : nat) W (bp : block_params)
    (Q0 : ptr -> heap -> Prop) :
  is_mat h x X -> length X = n ->
  Forall (fun r => length r = emb) X ->
  block_ok h W bp g4 ->
  (n = 0 \/ head_dim <= n)%nat ->
  (forall s h', h `prefix_of` h' -> (length h <= s)%nat ->
     mat_at h' s (S s) 1 (block_spec bp X) ->
     length (block_spec bp X) = n ->
     Forall (fun r => length r = emb) (block_spec bp X) ->
     Q0 (Ptr s 0) h') ->
  wp (block x (Z.of_nat n) (Z.of_nat emb) W) h Q0.
Proof.
  intros Hx HlX HrX Hok Hn HQ0.
  apply (block_wp_strong h x X n g4 W bp); [done..|].
  intros s a h' Hp Ha Has Hl Hs HA Hfreed Hlen Hr.
  apply HQ0; [done|lia|done|done|done].
Qed.

(** With fewer than HEAD_DIM positions the block faults in the head
    recombination, after four stages that succeed. *)
Lemma block_oob h x (X : list (list F)) (n g4 : nat) W (bp : block_params) :
  is_mat h x X -> length X = n ->
  Forall (fun r => length r = emb) X ->
  block_ok h W bp g4 ->
  (0 < n)%nat -> (n < head_dim)%nat ->
  block x (Z.of_nat n) (Z.of_nat emb) W h = Fault OutOfBounds.
Proof.
  intros Hx HlX HrX Hok Hn0 Hn. unfold block.
  eapply (block_stages_1_4 h x X n g4 W bp _ (fun o => o = Fault OutOfBounds));
    [done..|].
  set (X1 := norm_spec X).
  set (Qr := layer_spec (Wq bp) (Bq bp) <$> X1).
  set (Kr := layer_spec (Wk bp) (Bk bp) <$> X1).
  assert (length Qr = n /\ length Kr = n) as (HlQr & HlKr).
  { unfold Qr, Kr, X1, norm_spec. by rewrite !length_fmap. }
  set (h3 := _ ++ split_blocks _ _ _ _ n).
  destruct (attn_blocks_facts h3 Qr Kr n HlQr) as (SO & Hscores).
  apply fault_bind. rewrite emb_heads.
  eapply (block_concat_oob _ _ (head_scores Qr Kr 0) n);
    [done|done| | | |].
  - eapply ptr_slot_strided; [exact SO|]. rewrite num_heads_val. lia.
  - apply Hscores. rewrite num_heads_val. lia.
  - by rewrite length_head_scores.
  - rewrite <- HlKr. apply Forall_head_scores.
Qed.

(** ** model *)

Lemma is_ints_app h l p zs : is_ints h p zs -> is_ints (h ++ l) p zs.
Proof.
  intros (Ho & c & Hc & Hzs). split; [done|]. exists c.
  split; [by apply lookup_app_l_Some|done].
Qed.

Lemma is_ints_prefix h h' p zs : is_ints h p zs -> h `prefix_of` h' -> is_ints h' p zs.
Proof. intros Hi [l ->]. by apply is_ints_app. Qed.

Lemma is_ints_block h b zs :
  h !! b = Some (Some (VInt <$> zs)) -> is_ints h (Ptr b 0) zs.
Proof.
  intros Hb. split; [done|]. exists (VInt <$> zs). split; [done|].
  intros j z Hj. simpl. by rewrite list_lookup_fmap, Hj.
Qed.

Lemma wp_load_int_vec h p zs (j : nat) z i (Q : Z -> heap -> Prop) :
  is_ints h p zs -> zs !! j = Some z -> i = Z.of_nat j ->
  Q z h -> wp (load_int (p +ₚ i)) h Q.
Proof.
  intros (Ho & c & Hc & Hzs) Hj -> HQ.
  eapply wp_load_int; simpl; [done|lia| |done].
  replace (Z.to_nat (off p + Z.of_nat j)) with (Z.to_nat (off p) + j)%nat by lia.
  by apply Hzs.
Qed.

Lemma length_embed_spec mp toks : length (embed_spec mp toks) = length toks.
Proof. unfold embed_spec. by rewrite length_imap. Qed.

Lemma wrap32_small z : -2147483648 <= z < 2147483648 -> wrap32 z = z.
Proof. intros Hz. unfold wrap32. rewrite Z.mod_small; lia. Qed.

Lemma lookup_positions_spec n z i :
  (i < n)%nat -> positions_spec n z !! i = Some (wrap32 (z + Z.of_nat i)).
Proof.
  intros Hi. unfold positions_spec. by rewrite list_lookup_fmap, lookup_seq_lt.
Qed.

(** With past_length = 0 nothing wraps. *)
Lemma lookup_positions_spec_0 n i :
  (i < n)%nat -> Z.of_nat i < 2147483648 ->
  positions_spec n 0 !! i = Some (0 + Z.of_nat i).
Proof.
  intros Hi Hb. rewrite lookup_positions_spec by done.
  by rewrite wrap32_small by lia.
Qed.

Lemma model_embed_wp h tokens positions (toks : list Z) (n : nat) W
    (mp : model_params) (Q : ptr -> heap -> Prop) :
  is_ints h tokens toks -> length toks = n ->
  is_ints h positions (positions_spec n 0) ->
  is_mat h (wte W) (WTE mp) -> is_mat h (wpe W) (WPE mp) ->
  Forall (fun r => length r = emb) (WTE mp) ->
  Forall (fun r => length r = emb) (WPE mp) ->
  Forall (fun t => 0 <= t < Z.of_nat (length (WTE mp))) toks ->
  (n <= length (WPE mp))%nat -> Z.of_nat n <= 2147483648 ->
  Q (Ptr (length h) 0) (h ++ mat_blocks (length h) (embed_spec mp toks)) ->
  wp (model_embed tokens positions (Z.of_nat n) W) h Q.
Proof.
  intros Htok Hltok Hpos Hwte Hwpe Hrte Hrpe Hrange Hn Hint HQ. unfold model_embed.
  rewrite EMBEDDING_SIZE_nat.
  apply wp_bind, wp_malloc; [lia|]. rewrite !Nat2Z.id.
  apply wp_bind.
  eapply (wp_build_matrix h (embed_spec mp toks) n emb);
    [by rewrite length_embed_spec|done| |by apply wp_ret].
  intros i r hpre Hr Hpre (spine & Hspine & Hsi).
  unfold embed_spec in Hr. rewrite list_lookup_imap in Hr.
  destruct (toks !! i) as [t|] eqn:Ht; [|done]. simpl in Hr. injection Hr as <-.
  pose proof (lookup_lt_Some _ _ _ Ht) as Hi.
  pose proof (Forall_lookup_1 _ _ _ _ Hrange Ht) as Htr. simpl in Htr.
  destruct (lookup_lt_is_Some_2 (WTE mp) (Z.to_nat t) ltac:(lia)) as [te Hte].
  destruct (lookup_lt_is_Some_2 (WPE mp) i ltac:(lia)) as [pe Hpe].
  pose proof (Forall_lookup_1 _ _ _ _ Hrte Hte) as Hlte. simpl in Hlte.
  pose proof (Forall_lookup_1 _ _ _ _ Hrpe Hpe) as Hlpe. simpl in Hlpe.
  unfold row_at. rewrite Hte, Hpe. simpl.
  set (out := VFloat <$> zip_with f_add te pe : list val).
  assert (length out = emb) as Hlout.
  { unfold out. rewrite length_fmap, length_zip_with. lia. }
  apply (wp_for_range (fun j _ h' => h' = hpre ++ [Some (partial out j)]) emb);
    [lia|done|by rewrite partial_O, Hlout| |].
  2:{ intros [] h' ->. by rewrite <- Hlout, partial_all. }
  intros j [] h' Hj ->.
  destruct (lookup_lt_is_Some_2 te j ltac:(lia)) as [a Ha].
  destruct (lookup_lt_is_Some_2 pe j ltac:(lia)) as [b Hb].
  assert (h `prefix_of` hpre ++ [Some (partial out j)]) as Hpre'
    by (by apply prefix_app_r).
  apply wp_bind. eapply (wp_load_int_vec _ _ toks i);
    [by eapply is_ints_prefix|done|done|].
  apply wp_bind. eapply (wp_load_row _ _ (WTE mp) (Z.to_nat t));
    [by eapply is_mat_prefix|done|lia|].
  intros q Hq. apply wp_bind.
  eapply (wp_load_float_vec _ _ te j); [done|done|done|].
  apply wp_bind. eapply (wp_load_int_vec _ _ (positions_spec n 0) i);
    [by eapply is_ints_prefix|apply lookup_positions_spec_0; lia|done|].
  apply wp_bind. eapply (wp_load_row _ _ (WPE mp) i);
    [by eapply is_mat_prefix|done|lia|].
  intros q' Hq'. apply wp_bind.
  eapply (wp_load_float_vec _ _ pe j); [done|done|done|].
  apply wp_bind. eapply wp_load_ptr; cbn [blk off padd];
    [apply lookup_app_l_Some, Hspine|lia| |].
  { rewrite to_nat_0_add. exact Hsi. }
  eapply wp_store; cbn [blk off padd]; [apply lookup_heap_snoc|lia| |].
  { rewrite length_partial; lia. }
  rewrite to_nat_0_add, insert_heap_snoc. do 3 f_equal.
  apply partial_step. unfold out.
  by rewrite list_lookup_fmap, lookup_zip_with, Ha; simpl; rewrite Hb.
Qed.

Lemma mat_at_bound h s (R : list (list F)) :
  mat_at h s (S s) 1 R -> (S s + length R <= length h)%nat.
Proof.
  intros [Hs Hrows]. apply lookup_lt_Some in Hs.
  destruct R as [|r R] using rev_ind; [simpl; lia|].
  rewrite length_app. simpl.
  specialize (Hrows (length R) r (list_lookup_middle _ _ _ _ eq_refl)).
  apply lookup_lt_Some in Hrows. lia.
Qed.

Lemma mat_at_insert_other h s base stride (R : list (list F)) (b : nat) x :
  mat_at h s base stride R -> (b < s)%nat -> (s <= base)%nat ->
  mat_at (<[b := x]> h) s base stride R.
Proof.
  intros [Hs Hrows] Hb Hbase. split.
  - by rewrite list_lookup_insert_ne by lia.
  - intros i r Hr. rewrite list_lookup_insert_ne by lia. by apply Hrows.
Qed.

Lemma free_matrix_wp h (s n : nat) (Q : unit -> heap -> Prop) :
  live_mat h s (s + 1) 1 n ->
  Q tt (kill (fun b => bool_decide (s <= b < s + 1 + n)%nat) h) ->
  wp (free_matrix (Ptr s 0) (Z.of_nat n)) h Q.
Proof.
  intros Hlive HQ. unfold free_matrix. rewrite Nat2Z.id.
  set (P := fun i b => bool_decide (s + 1 <= b < s + 1 + i)%nat).
  apply wp_bind.
  apply (wp_for_range (fun i _ h' => h' = kill (P i) h) n); [lia|done| | |].
  { rewrite <- (kill_none h) at 1. apply kill_ext. intros b c _.
    unfold P. symmetry. apply bool_decide_eq_false_2. lia. }
  { intros i [] h' Hi ->.
    eapply wp_free_at_kill; [exact Hlive|done|done| | |].
    - unfold P. apply bool_decide_eq_false_2. lia.
    - unfold P. apply bool_decide_eq_false_2. lia.
    - apply kill_ext. intros b c _. unfold P.
      rewrite <- bool_decide_or. apply bool_decide_ext. lia. }
  intros [] h' ->. destruct Hlive as [Hs _].
  eapply wp_free_kill; [exact Hs| |].
  { unfold P. apply bool_decide_eq_false_2. lia. }
  replace (kill _ h)
    with (kill (fun b => bool_decide (s <= b < s + 1 + n)%nat) h); [done|].
  apply kill_ext. intros b c _. unfold P.
  rewrite <- bool_decide_or. apply bool_decide_ext. lia.
Qed.

Lemma wp_load_block_vec h p ws (j : nat) w i (Q : BlockWeights -> heap -> Prop) :
  is_blocks h p ws -> ws !! j = Some w -> i = Z.of_nat j ->
  Q w h -> wp (load_block (p +ₚ i)) h Q.
Proof.
  intros (Ho & c & Hc & Hws) Hj -> HQ.
  eapply wp_load_block; simpl; [done|lia| |done].
  replace (Z.to_nat (off p + Z.of_nat j)) with (Z.to_nat (off p) + j)%nat by lia.
  by apply Hws.
Qed.

Lemma is_blocks_prefix h h' p ws :
  is_blocks h p ws -> h `prefix_of` h' -> is_blocks h' p ws.
Proof.
  intros (Ho & c & Hc & Hws) Hpre. split; [done|]. exists c.
  split; [by eapply prefix_lookup_Some|done].
Qed.

Lemma block_ok_prefix h h' W (bp : block_params) g4 :
  block_ok h W bp g4 -> h `prefix_of` h' -> block_ok h' W bp g4.
Proof. intros [] Hpre. split; by eapply layer_ok_prefix. Qed.

Lemma NUM_BLOCKS_nat : NUM_BLOCKS = Z.of_nat num_blocks.
Proof. done. Qed.
Lemma num_blocks_val : num_blocks = 12%nat.
Proof. done. Qed.
Lemma vocab_val : vocab = 50257%nat.
Proof. done. Qed.
Lemma max_pos_val : max_pos = 1024%nat.
Proof. done. Qed.

#[local] Opaque num_blocks vocab max_pos.

(** Lines 383-400: positions, embedding, and the positions freed. *)
Lemma model_start {B} h tokens (toks : list Z) (n g4 : nat) W
    (mp : model_params) ws (rest : ptr -> M B)
    (Phi : outcome (B * heap) -> Prop) :
  is_ints h tokens toks -> length toks = n ->
  model_ok h W mp g4 ws ->
  Forall (fun t => 0 <= t < VOCAB_SIZE) toks ->
  (n <= max_pos)%nat ->
  (forall s hc, h `prefix_of` hc -> (length h <= s)%nat ->
     mat_at hc s (S s) 1 (embed_spec mp toks) -> Phi (rest (Ptr s 0) hc)) ->
  Phi ((positions ← positions_for tokens (Z.of_nat n) 0;
        hid ← model_embed tokens positions (Z.of_nat n) W;
        free positions;; rest hid) h).
Proof.
  intros Htok Hltok Hok Hrange Hn HPhi. destruct Hok.
  apply run_bind. apply positions_for_wp.
  set (hp := h ++ [Some (VInt <$> positions_spec n 0)]).
  assert (length hp = S (length h)) as Hlhp by (unfold hp; hlen).
  apply run_bind.
  eapply (model_embed_wp _ _ _ toks n W mp);
    [by apply is_ints_app|done|apply is_ints_block, lookup_heap_snoc
    |by apply is_mat_app|by apply is_mat_app|done|done| |lia| |].
  2:{ pose proof max_pos_val. lia. }
  { eapply Forall_impl; [exact Hrange|]. intros t Ht. simpl in *.
    rewrite ok_wte_len0. by replace (Z.of_nat vocab) with VOCAB_SIZE. }
  pose proof (mat_at_mat_blocks hp (embed_spec mp toks)) as ME.
  set (he := hp ++ mat_blocks (length hp) (embed_spec mp toks)) in *.
  apply run_bind. eapply wp_free; cbn [blk off]; [unfold he, hp; hlook|done|].
  apply HPhi.
  - apply prefix_insert_ge; [|lia]. unfold he, hp.
    by apply prefix_app_r, prefix_app_r.
  - lia.
  - apply mat_at_insert_other; [exact ME|lia|lia].
Qed.

Lemma Forall_embed_spec mp toks :
  Forall (fun r => length r = emb) (WTE mp) ->
  Forall (fun r => length r = emb) (WPE mp) ->
  Forall (fun t => 0 <= t < Z.of_nat (length (WTE mp))) toks ->
  (length toks <= length (WPE mp))%nat ->
  Forall (fun r => length r = emb) (embed_spec mp toks).
Proof.
  intros Hte Hpe Hrange Hn. apply Forall_forall. intros r Hr.
  apply list_elem_of_lookup in Hr as [i Hi]. unfold embed_spec in Hi.
  rewrite list_lookup_imap in Hi.
  destruct (toks !! i) as [t|] eqn:Ht; [|done]. simpl in Hi. injection Hi as <-.
  pose proof (lookup_lt_Some _ _ _ Ht) as Hilt.
  pose proof (Forall_lookup_1 _ _ _ _ Hrange Ht) as Htr. simpl in Htr.
  destruct (lookup_lt_is_Some_2 (WTE mp) (Z.to_nat t) ltac:(lia)) as [te Hte'].
  destruct (lookup_lt_is_Some_2 (WPE mp) i ltac:(lia)) as [pe Hpe'].
  pose proof (Forall_lookup_1 _ _ _ _ Hte Hte') as Hlte.
  pose proof (Forall_lookup_1 _ _ _ _ Hpe Hpe') as Hlpe. simpl in *.
  unfold row_at. rewrite Hte', Hpe'. simpl. rewrite length_zip_with. lia.
Qed.

Lemma model_blocks_wp hw hc (s n g4 : nat) W (mp : model_params) ws
    (toks : list Z) (Q : ptr -> heap -> Prop) :
  model_ok hw W mp g4 ws ->
  hw `prefix_of` hc -> (length hw <= s)%nat ->
  mat_at hc s (S s) 1 (embed_spec mp toks) ->
  length (embed_spec mp toks) = n ->
  Forall (fun r => length r = emb) (embed_spec mp toks) ->
  (n = 0 \/ head_dim <= n)%nat ->
  (forall s' h', hw `prefix_of` h' -> (length hw <= s')%nat ->
     mat_at h' s' (S s') 1 (hidden_spec mp toks) ->
     length (hidden_spec mp toks) = n ->
     Forall (fun r => length r = emb) (hidden_spec mp toks) ->
     Q (Ptr s' 0) h') ->
  wp (model_blocks (Ptr s 0) (Z.of_nat n) W) hc Q.
Proof.
  intros Hok Hpre Hs HM HlE HrE Hn HQ. destruct Hok.
  pose proof (Forall2_length _ _ _ ok_each0) as Hlbps.
  unfold model_blocks. rewrite NUM_BLOCKS_nat, Nat2Z.id, EMBEDDING_SIZE_nat.
  apply (wp_for_range (fun k hid h' =>
           exists s', hid = Ptr s' 0 /\ (length hw <= s')%nat /\
             hw `prefix_of` h' /\
             mat_at h' s' (S s') 1 (hidden_upto mp toks k) /\
             length (hidden_upto mp toks k) = n /\
             Forall (fun r => length r = emb) (hidden_upto mp toks k))
         num_blocks); [lia|done| | |].
  { exists s. unfold hidden_upto. rewrite take_0. simpl.
    split; [done|]. split; [done|]. split; [done|]. by split. }
  2:{ intros hid h' (s' & -> & Hs' & Hpre' & HM' & Hl' & Hr').
      unfold hidden_upto in *. rewrite take_ge in * by lia.
      by apply HQ. }
  intros k hid h' Hk (s' & -> & Hs' & Hpre' & HM' & Hl' & Hr').
  destruct (lookup_lt_is_Some_2 ws k ltac:(lia)) as [w Hw].
  destruct (Forall2_lookup_l _ _ _ _ _ ok_each0 Hw) as (bp & Hbp & Hwok).
  apply wp_bind. eapply (wp_load_block_vec _ _ ws k);
    [by eapply is_blocks_prefix|done|done|].
  apply wp_bind.
  eapply (block_wp _ _ (hidden_upto mp toks k) n g4 w bp);
    [by eapply mat_at_is_mat|done|done|by eapply block_ok_prefix|done|].
  intros s'' h'' Hpre'' Hs'' HM'' Hl'' Hr''.
  pose proof (mat_at_bound _ _ _ HM') as Hb'.
  pose proof (prefix_length _ _ Hpre') as Hlen'.
  apply wp_bind. eapply free_matrix_wp.
  { eapply mat_at_live_prefix; [exact HM'|done|done|lia]. }
  apply wp_ret. exists s''.
  assert (hidden_upto mp toks (S k) = block_spec bp (hidden_upto mp toks k)) as ->.
  { unfold hidden_upto. by rewrite (take_S_r _ _ _ Hbp), foldl_snoc. }
  split; [done|]. split; [lia|]. split; [|split; [|by split]].
  - apply prefix_kill; [by etrans|].
    intros b Hb. apply bool_decide_eq_false_2. lia.
  - apply mat_at_kill; [done| |lia].
    intros b Hb. apply bool_decide_eq_false_2. lia.
Qed.

Lemma model_wp h tokens (toks : list Z) (n g4 : nat) W (mp : model_params) ws
    (Q : ptr -> heap -> Prop) :
  is_ints h tokens toks -> length toks = n ->
  model_ok h W mp g4 ws ->
  Forall (fun t => 0 <= t < VOCAB_SIZE) toks ->
  (head_dim <= n)%nat -> (n <= max_pos)%nat ->
  (forall lg h', h `prefix_of` h' -> (length h <= lg)%nat ->
     h' !! lg = Some (Some (VFloat <$> model_spec mp toks)) ->
     Q (Ptr lg 0) h') ->
  wp (model tokens (Z.of_nat n) W) h Q.
Proof.
  intros Htok Hltok Hok Hrange Hn Hmax HQ. unfold model.
  unfold wp.
  eapply (model_start h tokens toks n g4 W mp ws _
            (fun o => match o with Ok (a, h') => Q a h' | Fault _ => False end));
    [done..|].
  intros s hc Hpre Hs HM.
  match goal with |- match ?c ?hh with _ => _ end => change (wp c hh Q) end.
  pose proof Hok as Hok'. destruct Hok'.
  assert (Forall (fun t => 0 <= t < Z.of_nat (length (WTE mp))) toks) as Hrange'.
  { eapply Forall_impl; [exact Hrange|]. intros t Ht. simpl in *.
    rewrite ok_wte_len0. by replace (Z.of_nat vocab) with VOCAB_SIZE. }
  apply wp_bind.
  eapply (model_blocks_wp h hc s n g4 W mp ws toks);
    [done|done|done|done|by rewrite length_embed_spec
    |apply Forall_embed_spec; [done|done|done|lia]|lia|].
  intros s' h' Hpre' Hs' HM' Hl' Hr'.
  pose proof (mat_at_bound _ _ _ HM') as Hb'.
  pose proof (mat_at_live _ _ _ _ _ HM') as Hlive.
  assert (0 < n)%nat as Hn0 by (rewrite head_dim_val in Hn; lia).
  destruct (lookup_lt_is_Some_2 (hidden_spec mp toks) (n - 1) ltac:(lia))
    as [last Hlast].
  destruct HM' as [Hsp Hrows].
  apply wp_bind. eapply wp_load_ptr; cbn [blk off padd]; [exact Hsp|lia| |].
  { replace (Z.to_nat (0 + (Z.of_nat n - 1))) with (n - 1)%nat by lia.
    rewrite list_lookup_fmap, lookup_strided_ptrs by lia. done. }
  pose proof (Forall_lookup_1 _ _ _ _ Hr' Hlast) as Hllast. simpl in Hllast.
  apply wp_bind.
  eapply (linear_layer_wp _ _ _ last);
    [apply is_vec_block; by apply Hrows|by eapply layer_ok_prefix
    |by rewrite <- emb_quarters|].
  apply wp_bind. eapply free_matrix_wp.
  { destruct Hlive as [Hls Hlr]. rewrite Hl' in *. split.
    - apply lookup_app_l_Some.
      by replace (s' + 1)%nat with (S s') by lia.
    - intros i Hi. destruct (Hlr i Hi) as [c Hc]. exists c.
      apply lookup_app_l_Some.
      by replace (s' + 1 + 1 * i)%nat with (S s' + 1 * i)%nat by lia. }
  apply wp_ret. apply HQ.
  - apply prefix_kill; [by apply prefix_app_r|].
    intros b Hb. apply bool_decide_eq_false_2. lia.
  - apply prefix_length in Hpre'. lia.
  - rewrite lookup_kill_false by (apply bool_decide_eq_false_2; lia).
    rewrite lookup_heap_snoc. do 3 f_equal.
    unfold model_spec, row_at. by rewrite Hltok, Hlast.
Qed.

(** With fewer than HEAD_DIM tokens the first block faults. *)
Lemma model_oob h tokens (toks : list Z) (n g4 : nat) W (mp : model_params) ws :
  is_ints h tokens toks -> length toks = n ->
  model_ok h W mp g4 ws ->
  Forall (fun t => 0 <= t < VOCAB_SIZE) toks ->
  (0 < n)%nat -> (n < head_dim)%nat ->
  model tokens (Z.of_nat n) W h = Fault OutOfBounds.
Proof.
  intros Htok Hltok Hok Hrange Hn0 Hn. unfold model.
  assert (n <= max_pos)%nat as Hmax.
  { rewrite max_pos_val. rewrite head_dim_val in Hn. lia. }
  eapply (model_start h tokens toks n g4 W mp ws _
            (fun o => o = Fault OutOfBounds)); [done..|].
  intros s hc Hpre Hs HM.
  pose proof Hok as Hok'. destruct Hok'.
  assert (Forall (fun t => 0 <= t < Z.of_nat (length (WTE mp))) toks) as Hrange'.
  { eapply Forall_impl; [exact Hrange|]. intros t Ht. simpl in *.
    rewrite ok_wte_len0. by replace (Z.of_nat vocab) with VOCAB_SIZE. }
  destruct (lookup_lt_is_Some_2 ws 0 ltac:(rewrite ok_nblocks0, num_blocks_val; lia))
    as [w Hw].
  destruct (Forall2_lookup_l _ _ _ _ _ ok_each0 Hw) as (bp & Hbp & Hwok).
  apply fault_bind. unfold model_blocks.
  rewrite NUM_BLOCKS_nat, Nat2Z.id, EMBEDDING_SIZE_nat.
  apply fault_for_first;
    [rewrite num_blocks_val; ltb_true|rewrite num_blocks_val; lia|].
  apply fault_after. eapply (wp_load_block_vec _ _ ws 0);
    [by eapply is_blocks_prefix|done|done|].
  apply fault_bind.
  eapply (block_oob _ _ (embed_spec mp toks) n g4 w bp);
    [by eapply mat_at_is_mat|by rewrite length_embed_spec
    |apply Forall_embed_spec; [done|done|done|lia]
    |by eapply block_ok_prefix|done|done].
Qed.

(** ** The lane-wise dot product is the textbook one in exact arithmetic *)

Lemma take_4S (x : list F) (k : nat) :
  (4 * k + 4 <= length x)%nat ->
  take (4 * S k) x =
  take (4 * k) x ++ [at_ x (4 * k); at_ x (4 * k + 1);
                     at_ x (4 * k + 2); at_ x (4 * k + 3)].
Proof.
  intros Hl. unfold at_.
  destruct (lookup_lt_is_Some_2 x (4 * k) ltac:(lia)) as [a0 H0].
  destruct (lookup_lt_is_Some_2 x (4 * k + 1) ltac:(lia)) as [a1 H1].
  destruct (lookup_lt_is_Some_2 x (4 * k + 2) ltac:(lia)) as [a2 H2].
  destruct (lookup_lt_is_Some_2 x (4 * k + 3) ltac:(lia)) as [a3 H3].
  rewrite H0, H1, H2, H3. cbn [default].
  replace (4 * S k)%nat with (S (S (S (S (4 * k))))) by lia.
  replace (4 * k + 1)%nat with (S (4 * k)) in H1 by lia.
  replace (4 * k + 2)%nat with (S (S (4 * k))) in H2 by lia.
  replace (4 * k + 3)%nat with (S (S (S (4 * k)))) in H3 by lia.
  rewrite (take_S_r _ _ _ H3), (take_S_r _ _ _ H2), (take_S_r _ _ _ H1),
    (take_S_r _ _ _ H0).
  by rewrite <- !app_assoc.
Qed.

Section Exact.
Hypothesis laws : exact_laws.

Lemma add_zero_r (a : F) : f_add a f_zero = a.
Proof. rewrite (add_comm laws). apply (add_zero_l laws). Qed.

Lemma add_swap (a b p q : F) :
  f_add (f_add a p) (f_add b q) = f_add (f_add a b) (f_add p q).
Proof.
  rewrite <- (add_assoc laws a p), (add_assoc laws p b q), (add_comm laws p b).
  by rewrite <- (add_assoc laws b p q), (add_assoc laws a b).
Qed.

Lemma dot_app (x1 x2 y1 y2 : list F) :
  length x1 = length y1 ->
  dot (x1 ++ x2) (y1 ++ y2) = f_add (dot x1 y1) (dot x2 y2).
Proof.
  revert y1. induction x1 as [|a x1 IH]; intros [|b y1] Hl; try done.
  - unfold dot at 2. simpl. by rewrite (add_zero_l laws).
  - unfold dot in *. simpl in *. rewrite IH by lia.
    by rewrite (add_assoc laws).
Qed.

Lemma hsum_add (a p : m128) :
  hsum (_mm_add_ps a p) = f_add (hsum a) (hsum p).
Proof.
  destruct a as [a0 a1 a2 a3], p as [p0 p1 p2 p3]. unfold hsum, _mm_add_ps.
  cbn [lane0 lane1 lane2 lane3].
  by rewrite (add_swap a0 a1 p0 p1),
    (add_swap (f_add a0 a1) a2 (f_add p0 p1) p2),
    (add_swap (f_add (f_add a0 a1) a2) a3 (f_add (f_add p0 p1) p2) p3).
Qed.

Lemma hsum_zero : hsum _mm_setzero_ps = f_zero.
Proof.
  unfold hsum, _mm_setzero_ps. cbn [lane0 lane1 lane2 lane3].
  by rewrite !(add_zero_l laws).
Qed.

Lemma lanes4_take (x y : list F) (k : nat) :
  (4 * k <= length x)%nat -> (4 * k <= length y)%nat ->
  hsum (lanes4 x y k) = dot (take (4 * k) x) (take (4 * k) y).
Proof.
  induction k as [|k IH]; intros Hx Hy.
  - replace (4 * 0)%nat with 0%nat by lia. rewrite !take_0.
    cbn [lanes4]. apply hsum_zero.
  - cbn [lanes4]. rewrite hsum_add, IH by lia.
    rewrite !take_4S by lia.
    rewrite dot_app by (rewrite !length_take; lia).
    f_equal. unfold dot, chunk4, _mm_mul_ps, hsum.
    cbn [zip zip_with foldr lane0 lane1 lane2 lane3 fst snd].
    rewrite add_zero_r. by rewrite <- !(add_assoc laws).
Qed.

(** The sum over four lanes is the dot product. *)
Lemma dot4_dot (x y : list F) (k : nat) :
  length x = (4 * k)%nat -> length y = (4 * k)%nat -> dot4 x y = dot x y.
Proof.
  intros Hx Hy. unfold dot4. rewrite Hx.
  replace (4 * k / 4)%nat with k by (apply Nat.div_unique_exact; lia).
  rewrite lanes4_take by lia.
  by rewrite !take_ge by lia.
Qed.

Lemma dot_comm (x y : list F) : dot x y = dot y x.
Proof.
  revert y. induction x as [|a x IH]; intros [|b y]; try done.
  unfold dot in *. simpl. by rewrite IH, (mul_comm laws).
Qed.

End Exact.

(** ** The multi-head attention of block on its own *)

(** Lines 264-295 from any Q, K, V of the right shape: the heads are split
    and scored, leaving the heap [h4] below. *)
Lemma heads_stages {B} h Qp Kp Vp (Qr Kr Vr : list (list F)) (n : nat)
    (rest : ptr -> M B) (Phi : outcome (B * heap) -> Prop) :
  is_mat h Qp Qr -> is_mat h Kp Kr -> is_mat h Vp Vr ->
  length Qr = n -> length Kr = n -> length Vr = n ->
  Forall (fun r => length r = emb) Qr ->
  Forall (fun r => length r = emb) Kr ->
  Forall (fun r => length r = emb) Vr ->
  let h3 := h ++ split_blocks (length h) Qr Kr Vr n in
  let h4 := h3 ++ attn_blocks (length h3) Qr Kr n in
  Phi (rest (Ptr (length h3) 0) h4) ->
  Phi (('(Q_heads, K_heads, V_heads) ← block_split_heads Qp Kp Vp (Z.of_nat n);
        head_outputs ← block_attention Q_heads K_heads V_heads (Z.of_nat n);
        rest head_outputs) h).
Proof.
  intros HQ HK HV HlQ HlK HlV HrQ HrK HrV h3 h4 HPhi.
  apply run_bind.
  eapply (block_split_heads_wp _ _ _ _ Qr Kr Vr n);
    [done|done|done|done|done|done
    |by rewrite <- emb_heads|by rewrite <- emb_heads|by rewrite <- emb_heads|].
  fold h3.
  destruct (split_blocks_spines h Qr Kr Vr n) as (SQ & SK & SV).
  fold h3 in SQ, SK, SV.
  pose proof (fun hd Hhd => split_blocks_head h Qr Kr Vr n hd HlQ HlK HlV Hhd)
    as Hheads.
  cbn zeta in Hheads. fold h3 in Hheads.
  apply run_bind.
  eapply (block_attention_wp _ _ _ _ Qr Kr n);
    [done|done|by rewrite <- emb_heads|by rewrite <- emb_heads| | | |].
  { intros hd Hhd. eexists. split; [by eapply ptr_slot_strided|].
    split; [eapply mat_at_is_mat|eapply mat_at_rows_aligned]; apply (Hheads hd Hhd). }
  { intros hd Hhd. eexists. split; [by eapply ptr_slot_strided|].
    replace (length h + 4 + (3 + 3 * n) * hd)%nat
      with (length h + 3 + (3 + 3 * n) * hd + 1)%nat by lia.
    split; [eapply mat_at_is_mat|eapply mat_at_rows_aligned]; apply (Hheads hd Hhd). }
  { intros hd Hhd. eexists. by eapply ptr_slot_strided. }
  exact HPhi.
Qed.

Lemma block_heads_wp h Qp Kp Vp (Qr Kr Vr : list (list F)) (n : nat)
    (Q0 : ptr -> heap -> Prop) :
  is_mat h Qp Qr -> is_mat h Kp Kr -> is_mat h Vp Vr ->
  length Qr = n -> length Kr = n -> length Vr = n ->
  Forall (fun r => length r = emb) Qr ->
  Forall (fun r => length r = emb) Kr ->
  Forall (fun r => length r = emb) Vr ->
  (n = 0 \/ head_dim <= n)%nat ->
  (forall a h', h `prefix_of` h' ->
     is_mat h' a (concat_spec (head_scores Qr Kr) n) -> Q0 a h') ->
  wp (block_heads Qp Kp Vp (Z.of_nat n) (Z.of_nat emb)) h Q0.
Proof.
  intros HQ HK HV HlQ HlK HlV HrQ HrK HrV Hn HQ0. unfold block_heads, wp.
  eapply (heads_stages h Qp Kp Vp Qr Kr Vr n _
            (fun o => match o with Ok (a, h') => Q0 a h' | Fault _ => False end));
    [done..|].
  match goal with |- match ?c ?hh with _ => _ end => change (wp c hh Q0) end.
  set (h3 := h ++ split_blocks (length h) Qr Kr Vr n).
  destruct (attn_blocks_facts h3 Qr Kr n HlQ) as (SO & Hscores).
  set (h4 := h3 ++ attn_blocks (length h3) Qr Kr n) in *.
  rewrite emb_heads.
  eapply (block_concat_wp _ _ (head_scores Qr Kr) n); [done| | | |].
  - intros hd Hhd. eexists. split; [by eapply ptr_slot_strided|].
    eapply mat_at_is_mat. apply (Hscores hd Hhd).
  - intros hd _. by rewrite length_head_scores.
  - intros hd _. rewrite <- HlK. apply Forall_head_scores.
  - apply HQ0.
    + etrans; [|apply prefix_app_r; reflexivity].
      etrans; [|apply prefix_app_r; reflexivity]. by apply prefix_app_r.
    + eapply mat_at_is_mat. apply mat_at_mat_blocks.
Qed.

Lemma block_heads_oob h Qp Kp Vp (Qr Kr Vr : list (list F)) (n : nat) :
  is_mat h Qp Qr -> is_mat h Kp Kr -> is_mat h Vp Vr ->
  length Qr = n -> length Kr = n -> length Vr = n ->
  Forall (fun r => length r = emb) Qr ->
  Forall (fun r => length r = emb) Kr ->
  Forall (fun r => length r = emb) Vr ->
  (0 < n)%nat -> (n < head_dim)%nat ->
  block_heads Qp Kp Vp (Z.of_nat n) (Z.of_nat emb) h = Fault OutOfBounds.
Proof.
  intros HQ HK HV HlQ HlK HlV HrQ HrK HrV Hn0 Hn. unfold block_heads.
  eapply (heads_stages h Qp Kp Vp Qr Kr Vr n _ (fun o => o = Fault OutOfBounds));
    [done..|].
  set (h3 := h ++ split_blocks (length h) Qr Kr Vr n).
  destruct (attn_blocks_facts h3 Qr Kr n HlQ) as (SO & Hscores).
  rewrite emb_heads.
  eapply (block_concat_oob _ _ (head_scores Qr Kr 0) n); [done|done| | | |].
  - eapply ptr_slot_strided; [exact SO|]. rewrite num_heads_val. lia.
  - apply Hscores. rewrite num_heads_val. lia.
  - by rewrite length_head_scores.
  - rewrite <- HlK. apply Forall_head_scores.
Qed.

(** ** Columns of a recombined row *)

Lemma slice_concat_chunks {A B} (f : A -> list B) (l : list A) (c : nat) :
  Forall (fun y => length (f y) = c) l ->
  forall k x, l !! k = Some x ->
  take c (drop (c * k) (concat (f <$> l))) = f x.
Proof.
  induction 1 as [|y l Hy Hl IH]; intros k x Hk; [done|].
  rewrite fmap_cons. cbn [concat]. destruct k as [|k].
  - injection Hk as <-. replace (c * 0)%nat with 0%nat by lia.
    rewrite drop_0. by rewrite take_app_length'.
  - replace (c * S k)%nat with (c + c * k)%nat by lia.
    rewrite drop_app_add' by done. by apply IH.
Qed.

(** Columns [hd * HEAD_DIM, (hd + 1) * HEAD_DIM) of row [i] of the
    recombined matrix are the first HEAD_DIM entries of row [i] of the
    output of head [hd]. *)
Lemma hslice_concat_row (R : nat -> list (list F)) (n i hd : nat) :
  (i < n)%nat -> (head_dim <= n)%nat -> (hd < num_heads)%nat ->
  (forall hd, (hd < num_heads)%nat -> length (R hd) = n) ->
  (forall hd, (hd < num_heads)%nat -> Forall (fun r => length r = n) (R hd)) ->
  hslice hd (concat_row R i) = take head_dim (row_at (R hd) i).
Proof.
  intros Hi Hn Hhd HlR HrR. unfold hslice, concat_row.
  apply (slice_concat_chunks (fun hd => take head_dim (row_at (R hd) i))
           (seq 0 num_heads) head_dim).
  - apply Forall_forall. intros j Hj. apply list_elem_of_lookup in Hj as [k Hk].
    apply lookup_seq in Hk as [-> Hk]. change (0 + k)%nat with k. unfold row_at.
    destruct (lookup_lt_is_Some_2 (R k) i ltac:(rewrite HlR; lia)) as [row Hrow].
    rewrite Hrow. simpl. rewrite length_take.
    pose proof (Forall_lookup_1 _ _ _ _ (HrR k Hk) Hrow) as Hlrow.
    simpl in Hlrow. lia.
  - by apply lookup_seq_lt.
Qed.

(* ===================================================================== *)
(** * Part 5: the properties of the specification                         *)
(* ===================================================================== *)

(** ** The leaf functions *)

(** C6: for an input vector of length n = 4 * n4, an (m, n) weight matrix
    and a bias vector of length m, [linear] returns a fresh vector of
    exactly m floats and leaves the rest of the heap alone; entry i is the
    four-lane dot product of the input with row i of the weights, plus
    bias i.  In exact arithmetic the four-lane sum is the textbook dot
    product, so that output[i] = bias[i] + dot(weights[i], input). *)
Theorem linear_correct h inp w b (X : list F) (W : list (list F)) (B : list F)
    (n4 m : nat) :
  is_vec h inp X -> is_mat h w W -> is_vec h b B ->
  length X = (4 * n4)%nat ->
  Forall (fun r => length r = (4 * n4)%nat) W ->
  length W = m -> length B = m ->
  linear inp w b (Z.of_nat (4 * n4)) (Z.of_nat m) h
    = Ok (Ptr (length h) 0, h ++ [Some (VFloat <$> linear_spec X W B)]) /\
  length (linear_spec X W B) = m /\
  (forall i wi bi, W !! i = Some wi -> B !! i = Some bi ->
     linear_spec X W B !! i = Some (f_add (dot4 X wi) bi)) /\
  (exact_laws -> forall i wi bi, W !! i = Some wi -> B !! i = Some bi ->
     linear_spec X W B !! i = Some (f_add bi (dot wi X))).
Proof.
  intros HX HW HB HlX HrW HlW HlB. split; [|split; [|split]].
  - pose proof (linear_wp h inp w b X W B n4 m
                  (fun out h' => out = Ptr (length h) 0 /\
                     h' = h ++ [Some (VFloat <$> linear_spec X W B)])
                  HX HW HB HlX HrW HlW HlB (conj eq_refl eq_refl)) as Hwp.
    apply wp_run in Hwp as (out & h' & Hrun & -> & ->). exact Hrun.
  - rewrite length_linear_spec; lia.
  - intros i wi bi Hwi Hbi. by rewrite (lookup_linear_spec X W B i wi bi).
  - intros laws i wi bi Hwi Hbi. rewrite (lookup_linear_spec X W B i wi bi) by done.
    unfold linear_row. f_equal.
    pose proof (Forall_lookup_1 _ _ _ _ HrW Hwi) as Hlwi. simpl in Hlwi.
    rewrite (dot4_dot laws X wi n4) by done.
    by rewrite (add_comm laws), (dot_comm laws).
Qed.

(** C4: for an input vector of length size = 4 * n4, [gelu] returns a
    fresh vector of the same length whose i-th entry is x[i] times 0.5:
    nothing of the tanh term of the GELU is computed. *)
Theorem gelu_halves h x (X : list F) (n4 : nat) :
  is_vec h x X -> length X = (4 * n4)%nat ->
  gelu x (Z.of_nat (4 * n4)) h
    = Ok (Ptr (length h) 0, h ++ [Some (VFloat <$> gelu_spec X)]) /\
  length (gelu_spec X) = (4 * n4)%nat /\
  (forall i v, X !! i = Some v -> gelu_spec X !! i = Some (f_mul v f_half)).
Proof.
  intros HX HlX. split; [|split].
  - pose proof (gelu_wp h x X n4
                  (fun out h' => out = Ptr (length h) 0 /\
                     h' = h ++ [Some (VFloat <$> gelu_spec X)])
                  HX HlX (conj eq_refl eq_refl)) as Hwp.
    apply wp_run in Hwp as (out & h' & Hrun & -> & ->). exact Hrun.
  - unfold gelu_spec. by rewrite length_fmap.
  - intros i v Hv. unfold gelu_spec. by rewrite list_lookup_fmap, Hv.
Qed.

(** C7: [norm] returns a fresh matrix with one row per position; row i
    depends on row i of the input only: with mean the sum of the row
    divided by [features] and variance the sum of the squared deviations
    divided by [features] (the biased variance), entry j is
    (x[i][j] - mean) / sqrt(variance + EPSILON), the division and the
    square root taken in double precision, and no scale or shift
    follows. *)
Theorem norm_correct h x (X : list (list F)) (n features : nat) :
  is_mat h x X -> length X = n ->
  Forall (fun r => length r = features) X ->
  norm x (Z.of_nat n) (Z.of_nat features) h
    = Ok (Ptr (length h) 0, h ++ mat_blocks (length h) (norm_spec X)) /\
  is_mat (h ++ mat_blocks (length h) (norm_spec X)) (Ptr (length h) 0)
         (norm_spec X) /\
  length (norm_spec X) = n /\
  (forall i r, X !! i = Some r ->
     let mean := f_div (fold_left f_add r f_zero) (f_of_int (Z.of_nat features)) in
     let variance :=
       f_div (fold_left (fun acc v =>
                           f_add acc (f_mul (f_sub v mean) (f_sub v mean)))
                        r f_zero)
             (f_of_int (Z.of_nat features)) in
     norm_spec X !! i =
     Some ((fun v => d2f (d_div (f2d (f_sub v mean))
                                (d_sqrt (d_add (f2d variance) d_eps)))) <$> r)).
Proof.
  intros HX HlX HrX. split; [|split; [|split]].
  - pose proof (norm_wp h x X n features
                  (fun out h' => out = Ptr (length h) 0 /\
                     h' = h ++ mat_blocks (length h) (norm_spec X))
                  HX HlX HrX (conj eq_refl eq_refl)) as Hwp.
    apply wp_run in Hwp as (out & h' & Hrun & -> & ->). exact Hrun.
  - eapply mat_at_is_mat. apply mat_at_mat_blocks.
  - unfold norm_spec. by rewrite length_fmap.
  - intros i r Hr. cbn zeta. unfold norm_spec. rewrite list_lookup_fmap, Hr.
    cbn [fmap option_fmap option_map]. unfold norm_row.
    pose proof (Forall_lookup_1 _ _ _ _ HrX Hr) as Hlr. simpl in Hlr.
    by rewrite Hlr.
Qed.


(** ** The head recombination *)

Lemma row_at_concat_spec (R : nat -> list (list F)) (n i : nat) :
  (i < n)%nat -> row_at (concat_spec R n) i = concat_row R i.
Proof.
  intros Hi. unfold row_at, concat_spec.
  by rewrite list_lookup_fmap, lookup_seq_lt by done.
Qed.

Lemma run_det {A} (c : M A) h a1 h1 e : c h = Ok (a1, h1) -> c h = Fault e -> False.
Proof. by intros ->. Qed.

(** C10: from per-head Q and K whose rows are 16-byte aligned, as the
    rows that [block] allocates for them are, the per-head score matrices
    are what [block_attention] leaves in the heap: row i of head hd is a
    block of exactly seqLength floats.
    The recombination copies HEAD_DIM floats out of each of them: for a
    sequence of at least one position it runs to its end exactly when
    HEAD_DIM <= seqLength, and faults on a read past the end of a score
    row otherwise.  When it runs, columns [hd * HEAD_DIM, (hd + 1) *
    HEAD_DIM) of row i are the first HEAD_DIM entries of score row i of
    head hd, whatever its length. *)
Theorem recombination_in_bounds_iff h QHp KHp VHp (Qr Kr : list (list F))
    (n : nat) :
  length Qr = n -> length Kr = n ->
  Forall (fun r => length r = emb) Qr ->
  Forall (fun r => length r = emb) Kr ->
  (forall hd, (hd < num_heads)%nat ->
     exists q, ptr_slot h QHp hd q /\ is_mat h q (hslice hd <$> Qr) /\
               rows_aligned h q n) ->
  (forall hd, (hd < num_heads)%nat ->
     exists q, ptr_slot h KHp hd q /\ is_mat h q (hslice hd <$> Kr) /\
               rows_aligned h q n) ->
  (forall hd, (hd < num_heads)%nat -> exists q, ptr_slot h VHp hd q) ->
  (0 < n)%nat ->
  exists ho h4,
    block_attention QHp KHp VHp (Z.of_nat n) h = Ok (ho, h4) /\
    (forall hd i, (hd < num_heads)%nat -> (i < n)%nat ->
       exists s b,
         ptr_slot h4 ho hd (Ptr s 0) /\ ptr_slot h4 (Ptr s 0) i (Ptr b 0) /\
         h4 !! b = Some (Some (VFloat <$> row_at (head_scores Qr Kr hd) i)) /\
         length (row_at (head_scores Qr Kr hd) i) = n) /\
    ((exists a h5, block_concat ho (Z.of_nat n) (Z.of_nat emb) h4 = Ok (a, h5))
     <-> (head_dim <= n)%nat) /\
    ((n < head_dim)%nat ->
     block_concat ho (Z.of_nat n) (Z.of_nat emb) h4 = Fault OutOfBounds) /\
    ((head_dim <= n)%nat ->
     exists a h5,
       block_concat ho (Z.of_nat n) (Z.of_nat emb) h4 = Ok (a, h5) /\
       is_mat h5 a (concat_spec (head_scores Qr Kr) n) /\
       forall i hd, (i < n)%nat -> (hd < num_heads)%nat ->
         hslice hd (row_at (concat_spec (head_scores Qr Kr) n) i)
         = take head_dim (row_at (head_scores Qr Kr hd) i)).
Proof.
  intros HlQ HlK HrQ HrK HQH HKH HVH Hn0.
  rewrite emb_heads in HrQ, HrK.
  pose proof (block_attention_wp h QHp KHp VHp Qr Kr n
                (fun ho h4 => ho = Ptr (length h) 0 /\
                   h4 = h ++ attn_blocks (length h) Qr Kr n)
                HlQ HlK HrQ HrK HQH HKH HVH (conj eq_refl eq_refl)) as Hwp.
  apply wp_run in Hwp as (ho & h4 & Hrun & -> & ->).
  exists (Ptr (length h) 0), (h ++ attn_blocks (length h) Qr Kr n).
  destruct (attn_blocks_facts h Qr Kr n HlQ) as (SO & Hscores).
  set (h4 := h ++ attn_blocks (length h) Qr Kr n) in *.
  set (R := head_scores Qr Kr).
  assert (forall hd, (hd < num_heads)%nat -> length (R hd) = n) as HlR.
  { intros hd _. unfold R. by rewrite length_head_scores. }
  assert (forall hd, (hd < num_heads)%nat -> Forall (fun r => length r = n) (R hd))
    as HrR.
  { intros hd _. unfold R. rewrite <- HlK. apply Forall_head_scores. }
  assert ((head_dim <= n)%nat ->
          exists a h5,
            block_concat (Ptr (length h) 0) (Z.of_nat n) (Z.of_nat emb) h4
              = Ok (a, h5) /\
            is_mat h5 a (concat_spec R n)) as Hgood.
  { intros Hn.
    pose proof (block_concat_wp h4 (Ptr (length h) 0) R n
                  (fun a h5 => is_mat h5 a (concat_spec R n))) as Hc.
    rewrite <- emb_heads in Hc. apply wp_run in Hc; [done|lia| |done|done|].
    - intros hd Hhd. eexists. split; [by eapply ptr_slot_strided|].
      eapply mat_at_is_mat. apply (Hscores hd Hhd).
    - eapply mat_at_is_mat. apply mat_at_mat_blocks. }
  assert ((n < head_dim)%nat ->
          block_concat (Ptr (length h) 0) (Z.of_nat n) (Z.of_nat emb) h4
            = Fault OutOfBounds) as Hbad.
  { intros Hn. rewrite emb_heads.
    eapply (block_concat_oob _ _ (R 0%nat) n); [done|done| | | |].
    - eapply ptr_slot_strided; [exact SO|]. rewrite num_heads_val. lia.
    - apply Hscores. rewrite num_heads_val. lia.
    - apply HlR. rewrite num_heads_val. lia.
    - apply HrR. rewrite num_heads_val. lia. }
  split; [exact Hrun|]. split; [|split; [|split]].
  - intros hd i Hhd Hi. destruct (Hscores hd Hhd) as [Hsp Hrows].
    fold (R hd) in Hsp, Hrows |- *.
    destruct (lookup_lt_is_Some_2 (R hd) i ltac:(rewrite HlR; lia)) as [r Hr].
    eexists _, _. split; [by eapply ptr_slot_strided|].
    split; [eapply ptr_slot_strided; [exact Hsp|rewrite HlR; lia]|].
    unfold row_at. rewrite Hr. cbn [default]. split; [by apply Hrows|].
    by apply (Forall_lookup_1 _ _ _ _ (HrR hd Hhd) Hr).
  - split.
    + intros (a & h5 & Hok). destruct (decide (head_dim <= n)%nat); [done|].
      exfalso. eapply run_det; [exact Hok|]. apply Hbad. lia.
    + intros Hn. destruct (Hgood Hn) as (a & h5 & Hok & _). by exists a, h5.
  - exact Hbad.
  - intros Hn. destruct (Hgood Hn) as (a & h5 & Hok & Hmat).
    exists a, h5. split; [done|]. split; [done|].
    intros i hd Hi Hhd. rewrite row_at_concat_spec by done.
    by apply (hslice_concat_row R n).
Qed.

(** C2: from Q, K, V of seqLength rows of EMBEDDING_SIZE floats, the
    multi-head attention of [block] gives head hd the columns
    [hd * HEAD_DIM, (hd + 1) * HEAD_DIM) of Q and K, scores every head on
    its own and puts the head outputs side by side in head order.  With
    HEAD_DIM <= seqLength the result has seqLength rows of EMBEDDING_SIZE
    columns, columns [hd * HEAD_DIM, (hd + 1) * HEAD_DIM) of row i being
    the first HEAD_DIM entries of row i of the output of head hd, and the
    old heap is untouched.  With 0 < seqLength < HEAD_DIM there is no
    result: the recombination reads past the end of a head output row. *)
Theorem multi_head_attention_shape h Qp Kp Vp (Qr Kr Vr : list (list F))
    (n : nat) :
  is_mat h Qp Qr -> is_mat h Kp Kr -> is_mat h Vp Vr ->
  length Qr = n -> length Kr = n -> length Vr = n ->
  Forall (fun r => length r = emb) Qr ->
  Forall (fun r => length r = emb) Kr ->
  Forall (fun r => length r = emb) Vr ->
  (0 < n)%nat ->
  ((head_dim <= n)%nat ->
   exists a h',
     block_heads Qp Kp Vp (Z.of_nat n) (Z.of_nat emb) h = Ok (a, h') /\
     h `prefix_of` h' /\
     is_mat h' a (concat_spec (head_scores Qr Kr) n) /\
     length (concat_spec (head_scores Qr Kr) n) = n /\
     Forall (fun r => length r = emb) (concat_spec (head_scores Qr Kr) n) /\
     forall i hd, (i < n)%nat -> (hd < num_heads)%nat ->
       hslice hd (row_at (concat_spec (head_scores Qr Kr) n) i)
       = take head_dim
           (row_at (sdpa_spec (hslice hd <$> Qr) (hslice hd <$> Kr) HEAD_DIM) i)) /\
  ((n < head_dim)%nat ->
   block_heads Qp Kp Vp (Z.of_nat n) (Z.of_nat emb) h = Fault OutOfBounds).
Proof.
  intros HQ HK HV HlQ HlK HlV HrQ HrK HrV Hn0.
  assert (forall hd, (hd < num_heads)%nat -> length (head_scores Qr Kr hd) = n)
    as HlR.
  { intros hd _. by rewrite length_head_scores. }
  assert (forall hd, (hd < num_heads)%nat ->
            Forall (fun r => length r = n) (head_scores Qr Kr hd)) as HrR.
  { intros hd _. rewrite <- HlK. apply Forall_head_scores. }
  split.
  - intros Hn.
    pose proof (block_heads_wp h Qp Kp Vp Qr Kr Vr n
                  (fun a h' => h `prefix_of` h' /\
                     is_mat h' a (concat_spec (head_scores Qr Kr) n))
                  HQ HK HV HlQ HlK HlV HrQ HrK HrV (or_intror Hn)
                  (fun a h' Hp Hm => conj Hp Hm)) as Hwp.
    apply wp_run in Hwp as (a & h' & Hrun & Hp & Hm).
    exists a, h'. split; [done|]. split; [done|]. split; [done|].
    split; [apply length_concat_spec|].
    split; [rewrite emb_heads; apply Forall_concat_spec; [lia|done|done]|].
    intros i hd Hi Hhd. rewrite row_at_concat_spec by done.
    by apply (hslice_concat_row (head_scores Qr Kr) n).
  - intros Hn. by eapply block_heads_oob.
Qed.

(** ** block *)

(** C5: on seqLength rows of EMBEDDING_SIZE floats and weights of the
    right shapes, [block] computes the seven steps in order: norm; the Q,
    K, V projections of every normalized row; the multi-head attention a
    (which uses Q and K; V is projected and then ignored); x1 = x + a;
    norm of x1; per row linear, gelu, linear; x1 + that.  It does so when
    seqLength is 0 or at least HEAD_DIM.  For 0 < seqLength < HEAD_DIM it
    has no result: step 3 reads past the end of a head output row. *)
Theorem block_pipeline h x (X : list (list F)) (n g4 : nat) W
    (bp : block_params) :
  is_mat h x X -> length X = n ->
  Forall (fun r => length r = emb) X ->
  block_ok h W bp g4 ->
  ((n = 0 \/ head_dim <= n)%nat ->
   exists out h',
     block x (Z.of_nat n) (Z.of_nat emb) W h = Ok (out, h') /\
     is_mat h' out (block_spec bp X) /\
     length (block_spec bp X) = n /\
     Forall (fun r => length r = emb) (block_spec bp X)) /\
  ((0 < n)%nat -> (n < head_dim)%nat ->
   block x (Z.of_nat n) (Z.of_nat emb) W h = Fault OutOfBounds) /\
  block_spec bp X =
    (let nx := norm_spec X in
     let Qr := (fun r => linear_spec r (Wq bp) (Bq bp)) <$> nx in
     let Kr := (fun r => linear_spec r (Wk bp) (Bk bp)) <$> nx in
     let a := concat_spec
                (fun hd => sdpa_spec (hslice hd <$> Qr) (hslice hd <$> Kr) HEAD_DIM)
                n in
     let x1 := zip_with (zip_with f_add) X a in
     let nx1 := norm_spec x1 in
     let ff := (fun r => linear_spec
                           (gelu_spec (linear_spec r (W1 bp) (B1 bp)))
                           (W2 bp) (B2 bp)) <$> nx1 in
     zip_with (zip_with f_add) x1 ff).
Proof.
  intros Hx HlX HrX Hok. split; [|split].
  - intros Hn.
    pose proof (block_wp h x X n g4 W bp
                  (fun out h' => is_mat h' out (block_spec bp X) /\
                     length (block_spec bp X) = n /\
                     Forall (fun r => length r = emb) (block_spec bp X))
                  Hx HlX HrX Hok Hn) as Hwp.
    apply wp_run in Hwp as (out & h' & Hrun & Hm); [by exists out, h'|].
    intros s h' _ _ HM Hl Hr. split; [by eapply mat_at_is_mat|done].
  - intros Hn0 Hn. by eapply block_oob.
  - cbn zeta. unfold block_spec, attention_spec. by rewrite HlX.
Qed.

(** C9: [block] leaves the heap it was given as it found it: whenever it
    returns, every block that existed before the call has its old
    contents, so that x still points to the rows it pointed to; and it
    does return when seqLength is 0 or at least HEAD_DIM. *)
Theorem block_preserves_input h x (X : list (list F)) (n g4 : nat) W
    (bp : block_params) :
  is_mat h x X -> length X = n ->
  Forall (fun r => length r = emb) X ->
  block_ok h W bp g4 ->
  (forall out h', block x (Z.of_nat n) (Z.of_nat emb) W h = Ok (out, h') ->
     h `prefix_of` h' /\ is_mat h' x X) /\
  ((n = 0 \/ head_dim <= n)%nat ->
   exists out h', block x (Z.of_nat n) (Z.of_nat emb) W h = Ok (out, h') /\
     h `prefix_of` h' /\ is_mat h' x X).
Proof.
  intros Hx HlX HrX Hok.
  assert ((n = 0 \/ head_dim <= n)%nat ->
          exists out h', block x (Z.of_nat n) (Z.of_nat emb) W h = Ok (out, h') /\
            h `prefix_of` h' /\ is_mat h' x X) as Hgood.
  { intros Hn.
    pose proof (block_wp h x X n g4 W bp
                  (fun out h' => h `prefix_of` h' /\ is_mat h' x X)
                  Hx HlX HrX Hok Hn) as Hwp.
    apply wp_run in Hwp as (out & h' & Hrun & Hm); [by exists out, h'|].
    intros s h' Hp _ _ _ _. split; [done|by apply (is_mat_prefix h)]. }
  split; [|exact Hgood].
  intros out h' Hrun.
  destruct (decide (n = 0 \/ head_dim <= n)%nat) as [Hn|Hn].
  - destruct (Hgood Hn) as (out' & h'' & Hrun' & Hp & Hm).
    rewrite Hrun in Hrun'. by injection Hrun' as <- <-.
  - exfalso. eapply run_det; [exact Hrun|]. eapply block_oob; [done..|lia|lia].
Qed.

(** ** model *)

Lemma length_model_spec h W mp g4 ws toks :
  model_ok h W mp g4 ws -> length (model_spec mp toks) = vocab.
Proof.
  intros [_ _ _ _ _ _ _ _ _ [_ _ _ _ Hr Hb _]]. unfold model_spec, layer_spec.
  rewrite length_linear_spec; lia.
Qed.

(** C1: for 1 <= L <= 1024 tokens below VOCAB_SIZE and weights of the
    right shapes: the initial hidden state is h[i] = wte[tokens[i]] +
    wpe[i]; it goes through the NUM_BLOCKS = 12 blocks in order; the
    logits are the output projection of row L - 1.  For L >= HEAD_DIM
    [model] returns exactly that, a fresh vector of VOCAB_SIZE floats,
    leaving the heap it was given untouched.  For L < HEAD_DIM it returns
    nothing: the first block reads past the end of a head output row. *)
Theorem model_logits_or_fault h tokens (toks : list Z) (n g4 : nat) W
    (mp : model_params) ws :
  is_ints h tokens toks -> length toks = n ->
  model_ok h W mp g4 ws ->
  Forall (fun t => 0 <= t < VOCAB_SIZE) toks ->
  (1 <= n)%nat -> (n <= max_pos)%nat ->
  ((head_dim <= n)%nat ->
   exists lg h',
     model tokens (Z.of_nat n) W h = Ok (Ptr lg 0, h') /\
     h `prefix_of` h' /\
     h' !! lg = Some (Some (VFloat <$> model_spec mp toks)) /\
     length (model_spec mp toks) = vocab) /\
  ((n < head_dim)%nat -> model tokens (Z.of_nat n) W h = Fault OutOfBounds) /\
  (forall i t, toks !! i = Some t ->
     embed_spec mp toks !! i
     = Some (zip_with f_add (row_at (WTE mp) (Z.to_nat t)) (row_at (WPE mp) i))) /\
  length (BPS mp) = num_blocks /\
  model_spec mp toks
  = linear_spec
      (row_at (foldl (fun H bp => block_spec bp H) (embed_spec mp toks) (BPS mp))
              (n - 1))
      (WL mp) (BL mp).
Proof.
  intros Htok Hltok Hok Hrange Hn1 Hmax. split; [|split; [|split; [|split]]].
  - intros Hn.
    pose proof (model_wp h tokens toks n g4 W mp ws
                  (fun p h' => exists lg, p = Ptr lg 0 /\ h `prefix_of` h' /\
                     h' !! lg = Some (Some (VFloat <$> model_spec mp toks)))
                  Htok Hltok Hok Hrange Hn Hmax) as Hwp.
    apply wp_run in Hwp as (p & h' & Hrun & lg & -> & Hp & Hlg).
    + exists lg, h'. split; [done|]. split; [done|]. split; [done|].
      by eapply length_model_spec.
    + intros lg h' Hp _ Hlg. by exists lg.
  - intros Hn. eapply model_oob; [done..|lia|done].
  - intros i t Ht. unfold embed_spec. by rewrite list_lookup_imap, Ht.
  - destruct Hok. rewrite <- ok_nblocks0. symmetry. by eapply Forall2_length.
  - unfold model_spec, hidden_spec, layer_spec. by rewrite Hltok.
Qed.

(** C8: a forward pass over one token does not get through the first
    block: whatever the token and the weights, [model] stops with an
    out-of-bounds read, the one of the head recombination, which copies
    HEAD_DIM floats out of a score row that has one. *)
Theorem model_single_token_faults h tokens (t : Z) (g4 : nat) W
    (mp : model_params) ws :
  is_ints h tokens [t] ->
  model_ok h W mp g4 ws ->
  0 <= t < VOCAB_SIZE ->
  model tokens 1 W h = Fault OutOfBounds.
Proof.
  intros Htok Hok Ht.
  apply (model_oob h tokens [t] 1 g4 W mp ws); [done|done|done| | |].
  - by apply Forall_singleton.
  - lia.
  - rewrite head_dim_val. lia.
Qed.

(* ===================================================================== *)
(** * Part 5b: further properties of the code                             *)
(* ===================================================================== *)

(** ** Loops that fault *)

(** [k] steps keep [I], step [k] faults. *)
Lemma fault_for {S} (I : nat -> S -> heap -> Prop) (k fuel : nat)
    (cond : Z -> bool) (d : Z) (body : Z -> S -> M S) (i0 : Z) (s0 : S) h0 e :
  (k < fuel)%nat ->
  (forall j, (j <= k)%nat -> cond (i0 + d * Z.of_nat j) = true) ->
  I O s0 h0 ->
  (forall j s h, (j < k)%nat -> I j s h ->
     wp (body (i0 + d * Z.of_nat j) s) h (I (Datatypes.S j))) ->
  (forall s h, I k s h -> body (i0 + d * Z.of_nat k) s h = Fault e) ->
  for_loop fuel cond d body i0 s0 h0 = Fault e.
Proof.
  revert I fuel i0 s0 h0.
  induction k as [|k IH]; intros I fuel i0 s0 h0 Hfuel Htrue H0 Hbody Hlast.
  - apply fault_for_first; [|lia|].
    + specialize (Htrue O ltac:(lia)).
      by replace (i0 + d * Z.of_nat 0) with i0 in Htrue by lia.
    + specialize (Hlast s0 h0 H0).
      by replace (i0 + d * Z.of_nat 0) with i0 in Hlast by lia.
  - destruct fuel as [|fuel]; [lia|]. rewrite for_loop_eq.
    specialize (Htrue O ltac:(lia)) as Hc.
    replace (i0 + d * Z.of_nat 0) with i0 in Hc by lia. rewrite Hc.
    apply fault_after. eapply wp_mono.
    { specialize (Hbody O s0 h0 ltac:(lia) H0).
      replace (i0 + d * Z.of_nat 0) with i0 in Hbody by lia. exact Hbody. }
    intros s1 h1 H1.
    apply (IH (fun j => I (Datatypes.S j))); [lia| |done| |].
    + intros j Hj. specialize (Htrue (Datatypes.S j) ltac:(lia)).
      by replace (i0 + d + d * Z.of_nat j)
        with (i0 + d * Z.of_nat (Datatypes.S j)) by lia.
    + intros j s h Hj HI.
      replace (i0 + d + d * Z.of_nat j)
        with (i0 + d * Z.of_nat (Datatypes.S j)) by lia.
      apply Hbody; [lia|done].
    + intros s h HI.
      replace (i0 + d + d * Z.of_nat k)
        with (i0 + d * Z.of_nat (Datatypes.S k)) by lia.
      by apply Hlast.
Qed.

(** ** Reads at the end of a row *)

Lemma load_float_floats h p (xs : list F) :
  h !! blk p = Some (Some (VFloat <$> xs)) -> 0 <= off p ->
  load_float p h = match xs !! Z.to_nat (off p) with
                   | Some x => Ok (x, h)
                   | None => Fault OutOfBounds
                   end.
Proof.
  intros Hb Ho. unfold load_float, load, mbind, M_bind, bind. rewrite Hb.
  destruct (Z.ltb_spec (off p) 0); [lia|]. rewrite list_lookup_fmap.
  by destruct (xs !! Z.to_nat (off p)).
Qed.

(** A four-lane load with fewer than four floats left in the block. *)
Lemma loadu_ps_oob h p (xs : list F) :
  h !! blk p = Some (Some (VFloat <$> xs)) -> 0 <= off p ->
  (length xs < Z.to_nat (off p) + 4)%nat ->
  _mm_loadu_ps p h = Fault OutOfBounds.
Proof.
  intros Hb Ho Hl. unfold _mm_loadu_ps, mbind, M_bind, bind.
  rewrite (load_float_floats h p xs) by done.
  destruct (xs !! Z.to_nat (off p)) as [x0|] eqn:H0; [|done].
  rewrite (load_float_floats h (p +ₚ 1) xs) by (cbn [blk off padd]; done || lia).
  destruct (xs !! Z.to_nat (off (p +ₚ 1))) as [x1|] eqn:H1; [|done].
  rewrite (load_float_floats h (p +ₚ 2) xs) by (cbn [blk off padd]; done || lia).
  destruct (xs !! Z.to_nat (off (p +ₚ 2))) as [x2|] eqn:H2; [|done].
  rewrite (load_float_floats h (p +ₚ 3) xs) by (cbn [blk off padd]; done || lia).
  destruct (xs !! Z.to_nat (off (p +ₚ 3))) as [x3|] eqn:H3; [|done].
  apply lookup_lt_Some in H3. cbn [blk off padd] in H3. lia.
Qed.

(** ** linear, gelu and matrix_add on a width that is no multiple of 4 *)

(** With fcInputSize = 4 * c + r, 0 < r < 4, and an input block of
    exactly fcInputSize floats, the lane loop of [linear] runs c full
    steps and then loads four floats where r are left: an out-of-bounds
    read, in the first output row already. *)
Theorem linear_ragged_faults h (b : nat) w bs (X : list F)
    (W : list (list F)) (w0 : list F) (c r m : nat) :
  h !! b = Some (Some (VFloat <$> X)) ->
  is_mat h w W -> W !! 0%nat = Some w0 ->
  length X = (4 * c + r)%nat -> (4 * c <= length w0)%nat ->
  (0 < r)%nat -> (r < 4)%nat -> (0 < m)%nat ->
  linear (Ptr b 0) w bs (Z.of_nat (4 * c + r)) (Z.of_nat m) h
  = Fault OutOfBounds.
Proof.
  intros Hb HW Hw0 HlX Hlw0 Hr0 Hr4 Hm. unfold linear.
  apply fault_after, wp_malloc; [lia|].
  set (h1 := h ++ [Some (replicate (Z.to_nat (Z.of_nat m)) VUndef)]).
  assert (h1 !! b = Some (Some (VFloat <$> X))) as Hb1.
  { by apply lookup_app_l_Some. }
  assert (is_vec h1 (Ptr b 0) X) as HX1 by by apply is_vec_block.
  assert (is_mat h1 w W) as HW1 by by apply is_mat_app.
  apply fault_bind, fault_for_first; [ltb_true|lia|].
  apply fault_bind.
  apply (fault_for (fun _ _ h' => h' = h1) c); [lia| |done| |].
  - intros j Hj. ltb_true.
  - intros j acc h' Hj ->.
    apply wp_bind.
    eapply (wp_loadu_ps_vec _ _ X j); [done|lia|lia|].
    apply wp_bind.
    eapply (wp_load_row _ _ W 0); [done|done|done|].
    intros q Hq. apply wp_bind.
    eapply (wp_loadu_ps_vec _ _ w0 j); [done|lia|lia|].
    by apply wp_ret.
  - intros acc h' ->. apply fault_bind.
    apply (loadu_ps_oob _ _ X); cbn [blk off padd]; [done|lia|lia].
Qed.

(** With size = 4 * c + r, 0 < r < 4, and an input block of exactly size
    floats, [gelu] writes c full groups of four and then loads four
    floats where r are left: an out-of-bounds read, at which the run of
    the embedding ends. *)
Theorem gelu_ragged_faults h (b : nat) (X : list F) (c r : nat) :
  h !! b = Some (Some (VFloat <$> X)) ->
  length X = (4 * c + r)%nat -> (0 < r)%nat -> (r < 4)%nat ->
  gelu (Ptr b 0) (Z.of_nat (4 * c + r)) h = Fault OutOfBounds.
Proof.
  intros Hb HlX Hr0 Hr4. unfold gelu.
  set (Y := VFloat <$> gelu_spec X : list val).
  assert (length Y = (4 * c + r)%nat) as HlY.
  { unfold Y, gelu_spec. by rewrite !length_fmap. }
  assert (forall i, (i < 4 * c + r)%nat ->
            Y !! i = Some (VFloat (f_mul (at_ X i) f_half))) as HY.
  { intros i Hi. unfold Y, gelu_spec.
    rewrite !list_lookup_fmap, lookup_at by lia. done. }
  apply fault_after, wp_malloc; [lia|]. rewrite Nat2Z.id.
  apply fault_bind.
  apply (fault_for (fun k _ h' => h' = h ++ [Some (partial Y (4 * k))]) c);
    [lia| |by rewrite partial_O, HlY| |].
  - intros j Hj. ltb_true.
  - intros k [] h' Hk ->.
    apply wp_bind.
    eapply (wp_loadu_ps_vec _ _ X k);
      [by apply is_vec_app, is_vec_block|lia|lia|].
    eapply wp_storeu_ps_partial; [lia| | | | |lia|done|done];
      simpl; apply HY; lia.
  - intros [] h' ->. apply fault_bind.
    apply (loadu_ps_oob _ _ X); cbn [blk off padd];
      [by apply lookup_app_l_Some|lia|lia].
Qed.

(** With numCol = 4 * c + r, 0 < r < 4, and a first row of x of exactly
    numCol floats, the vector loop of [matrix_add] adds c full groups of
    four and then loads four floats of x[0] where r are left: an
    out-of-bounds read, at which the run of the embedding ends. *)
Theorem matrix_add_ragged_faults h x y (b0 : nat) (x0 y0 : list F)
    (Y : list (list F)) (n c r : nat) :
  ptr_slot h x 0 (Ptr b0 0) ->
  h !! b0 = Some (Some (VFloat <$> x0)) ->
  is_mat h y Y -> Y !! 0%nat = Some y0 ->
  length x0 = (4 * c + r)%nat -> (4 * c <= length y0)%nat ->
  (0 < r)%nat -> (r < 4)%nat -> (0 < n)%nat ->
  matrix_add x y (Z.of_nat n) (Z.of_nat (4 * c + r)) h = Fault OutOfBounds.
Proof.
  intros Hx Hb0 HY Hy0 Hlx0 Hly0 Hr0 Hr4 Hn. unfold matrix_add.
  set (out := (fun i => VFloat (f_add (at_ x0 i) (at_ y0 i)))
                <$> seq 0 (4 * c + r) : list val).
  assert (length out = (4 * c + r)%nat) as Hlout.
  { unfold out. by rewrite length_fmap, length_seq. }
  assert (forall i, (i < 4 * c + r)%nat ->
            out !! i = Some (VFloat (f_add (at_ x0 i) (at_ y0 i)))) as Hout.
  { intros i Hi. unfold out. by rewrite list_lookup_fmap, lookup_seq_lt. }
  apply fault_after, wp_malloc; [lia|]. rewrite !Nat2Z.id.
  apply fault_bind, fault_for_first; [ltb_true|lia|].
  apply fault_after, wp_malloc; [lia|]. rewrite !Nat2Z.id.
  apply fault_after.
  eapply wp_store; cbn [blk off padd].
  { rewrite <- app_assoc. apply lookup_heap_middle. }
  { lia. }
  { rewrite length_replicate. lia. }
  rewrite <- app_assoc. cbn [app]. rewrite insert_heap_middle.
  set (spine := <[Z.to_nat (0 + 0) := VPtr (Ptr (length (h ++ [Some (replicate n VUndef)])) 0)]>
                  (replicate n VUndef) : list val).
  set (hpre := h ++ [Some spine]).
  assert (length hpre = length (h ++ [Some (replicate n VUndef)])) as Hlpre.
  { unfold hpre. by rewrite !length_app. }
  assert (forall j, h ++ [Some spine; Some (partial out (4 * j))]
                    = hpre ++ [Some (partial out (4 * j))]) as Hshape.
  { intros j. unfold hpre. by rewrite <- app_assoc. }
  assert (forall l, ptr_slot (hpre ++ l) x 0 (Ptr b0 0)) as Hx'.
  { intros l. unfold hpre. rewrite <- app_assoc. by apply ptr_slot_app. }
  assert (forall l, (hpre ++ l) !! b0 = Some (Some (VFloat <$> x0))) as Hb0'.
  { intros l. unfold hpre. rewrite <- app_assoc. by apply lookup_app_l_Some. }
  assert (forall l, is_mat (hpre ++ l) y Y) as HY'.
  { intros l. unfold hpre. rewrite <- app_assoc. by apply is_mat_app. }
  apply fault_bind.
  apply (fault_for (fun j _ h' => h' = hpre ++ [Some (partial out (4 * j))]) c);
    [lia| | | |].
  - intros j Hj. ltb_true.
  - rewrite partial_O, Hlout. unfold hpre. by rewrite <- app_assoc.
  - intros j [] h' Hj ->.
    apply wp_bind. eapply (wp_load_slot _ _ 0); [apply Hx'|done|].
    apply wp_bind.
    eapply (wp_loadu_ps_vec _ _ x0 j); [apply is_vec_block, Hb0'|lia|lia|].
    apply wp_bind. eapply (wp_load_row _ _ Y 0); [apply HY'|done|done|].
    intros q' Hq'. apply wp_bind.
    eapply (wp_loadu_ps_vec _ _ y0 j); [done|lia|lia|].
    apply wp_bind.
    eapply wp_load_ptr; cbn [blk off padd].
    { unfold hpre. rewrite <- app_assoc. apply lookup_heap_middle. }
    { lia. }
    { unfold spine. apply list_lookup_insert_eq. rewrite length_replicate. lia. }
    rewrite <- Hlpre.
    eapply wp_storeu_ps_partial; [lia| | | | |lia|done|done];
      simpl; apply Hout; lia.
  - intros [] h' ->.
    apply fault_after. eapply (wp_load_slot _ _ 0); [apply Hx'|done|].
    apply fault_bind.
    apply (loadu_ps_oob _ _ x0); cbn [blk off padd]; [apply Hb0'|lia|lia].
Qed.

(** ** matrix_add and positions_for on their own *)

(** For numRow rows of numCol = 4 * c4 floats, [matrix_add] returns a
    fresh matrix whose entry (i, j) is x[i][j] + y[i][j], and leaves the
    heap it was given, x and y included, as it was. *)
Theorem matrix_add_correct h x y (X Y : list (list F)) (n c4 : nat) :
  is_mat h x X -> is_mat h y Y -> length X = n -> length Y = n ->
  Forall (fun r => length r = (4 * c4)%nat) X ->
  Forall (fun r => length r = (4 * c4)%nat) Y ->
  matrix_add x y (Z.of_nat n) (Z.of_nat (4 * c4)) h
    = Ok (Ptr (length h) 0, h ++ mat_blocks (length h) (matrix_add_spec X Y)) /\
  is_mat (h ++ mat_blocks (length h) (matrix_add_spec X Y)) (Ptr (length h) 0)
         (matrix_add_spec X Y) /\
  length (matrix_add_spec X Y) = n /\
  Forall (fun r => length r = (4 * c4)%nat) (matrix_add_spec X Y) /\
  (forall i j xr yr a b, X !! i = Some xr -> Y !! i = Some yr ->
     xr !! j = Some a -> yr !! j = Some b ->
     row_at (matrix_add_spec X Y) i !! j = Some (f_add a b)).
Proof.
  intros Hx Hy HlX HlY HrX HrY. split; [|split; [|split; [|split]]].
  - pose proof (matrix_add_wp h x y X Y n c4
                  (fun out h' => out = Ptr (length h) 0 /\
                     h' = h ++ mat_blocks (length h) (matrix_add_spec X Y))
                  Hx Hy HlX HlY HrX HrY (conj eq_refl eq_refl)) as Hwp.
    apply wp_run in Hwp as (out & h' & Hrun & -> & ->). exact Hrun.
  - eapply mat_at_is_mat. apply mat_at_mat_blocks.
  - rewrite length_matrix_add_spec; lia.
  - by apply Forall_matrix_add_spec.
  - intros i j xr yr a b Hxr Hyr Ha Hb. unfold row_at, matrix_add_spec.
    rewrite lookup_zip_with, Hxr. simpl. rewrite Hyr. simpl.
    by rewrite lookup_zip_with, Ha; simpl; rewrite Hb.
Qed.

(** For ints [seqLength] >= 0 and [past_length], [positions_for] returns
    a fresh array of seqLength ints with positions[i] = past_length + i
    in 32-bit arithmetic: the sum itself where it fits an int, the sum
    wrapped around where it does not.  The [tokens] argument is never
    read, and the heap that was there stays as it was. *)
Theorem positions_for_correct h tokens (n : nat) past_length :
  -2147483648 <= past_length < 2147483648 -> Z.of_nat n < 2147483648 ->
  positions_for tokens (Z.of_nat n) past_length h
    = Ok (Ptr (length h) 0, h ++ [Some (VInt <$> positions_spec n past_length)]) /\
  length (positions_spec n past_length) = n /\
  (forall i, (i < n)%nat ->
     positions_spec n past_length !! i
     = Some (if past_length + Z.of_nat i <? 2147483648
             then past_length + Z.of_nat i
             else past_length + Z.of_nat i - 4294967296)) /\
  (forall tokens', positions_for tokens' (Z.of_nat n) past_length h
                 = positions_for tokens (Z.of_nat n) past_length h).
Proof.
  intros Hp Hn. split; [|split; [|split]].
  - pose proof (positions_for_wp h tokens n past_length
                  (fun out h' => out = Ptr (length h) 0 /\
                     h' = h ++ [Some (VInt <$> positions_spec n past_length)])
                  (conj eq_refl eq_refl)) as Hwp.
    apply wp_run in Hwp as (out & h' & Hrun & -> & ->). exact Hrun.
  - unfold positions_spec. by rewrite length_fmap, length_seq.
  - intros i Hi. rewrite lookup_positions_spec by done. f_equal.
    destruct (past_length + Z.of_nat i <? 2147483648) eqn:Hlt.
    + apply Z.ltb_lt in Hlt. apply wrap32_small. lia.
    + apply Z.ltb_ge in Hlt. unfold wrap32.
      replace (past_length + Z.of_nat i + 2147483648)
        with (past_length + Z.of_nat i - 2147483648 + 1 * 4294967296) by lia.
      rewrite Z.mod_add by lia. rewrite Z.mod_small; lia.
  - done.
Qed.

(** ** model at the edges of its domain *)

Lemma load_oob h p c :
  h !! blk p = Some (Some c) ->
  (off p < 0 \/ (length c <= Z.to_nat (off p))%nat) ->
  load p h = Fault OutOfBounds.
Proof.
  intros Hb Ho. unfold load. rewrite Hb.
  destruct (Z.ltb_spec (off p) 0); [done|].
  destruct Ho as [?|Ho]; [lia|]. by rewrite lookup_ge_None_2.
Qed.

Lemma load_ptr_oob h p c :
  h !! blk p = Some (Some c) ->
  (off p < 0 \/ (length c <= Z.to_nat (off p))%nat) ->
  load_ptr p h = Fault OutOfBounds.
Proof. intros Hb Ho. unfold load_ptr. apply fault_bind. by eapply load_oob. Qed.

(** The rows of [R] are built, the next one faults. *)
Lemma fault_build_matrix h (R : list (list F)) (i n cols fuel : nat)
    (fill : Z -> M unit) e :
  length R = i -> (i < n)%nat -> (n <= fuel)%nat ->
  (forall k r hpre, R !! k = Some r -> h `prefix_of` hpre ->
     (exists c, hpre !! length h = Some (Some c) /\
                c !! k = Some (VPtr (Ptr (length hpre) 0))) ->
     wp (fill (Z.of_nat k)) (hpre ++ [Some (replicate cols VUndef)])
        (fun _ h'' => h'' = hpre ++ [Some (VFloat <$> r)])) ->
  (forall hpre, h `prefix_of` hpre ->
     (exists c, hpre !! length h = Some (Some c) /\
                c !! i = Some (VPtr (Ptr (length hpre) 0))) ->
     fill (Z.of_nat i) (hpre ++ [Some (replicate cols VUndef)]) = Fault e) ->
  for_loop fuel (fun i => i <? Z.of_nat n) 1
    (fun i _ => row ← malloc (Z.of_nat cols);
                store (Ptr (length h) 0 +ₚ i) (VPtr row);; fill i) 0 tt
    (h ++ [Some (replicate n VUndef)]) = Fault e.
Proof.
  intros HlR Hi Hfuel Hfill Hfault.
  set (spine := VPtr <$> row_ptrs (S (length h)) n : list val).
  assert (length spine = n) as Hls.
  { unfold spine. by rewrite length_fmap, length_row_ptrs. }
  apply (fault_for (fun k _ h' =>
           h' = h ++ Some (partial spine k)
                  :: ((fun r : list F => Some (VFloat <$> r)) <$> take k R)) i);
    [lia| |by rewrite partial_O, Hls| |].
  - intros j Hj. ltb_true.
  - intros k [] h' Hk ->.
    replace (0 + 1 * Z.of_nat k) with (Z.of_nat k) by lia.
    destruct (lookup_lt_is_Some_2 R k ltac:(lia)) as [r Hr].
    set (rows := (fun r : list F => Some (VFloat <$> r)) <$> take k R).
    assert (length rows = k) as Hlrows.
    { unfold rows. rewrite length_fmap, length_take. lia. }
    apply wp_bind, wp_malloc; [lia|]. rewrite Nat2Z.id.
    apply wp_bind.
    eapply wp_store; simpl.
    { rewrite <- app_assoc. simpl. apply lookup_heap_middle. }
    { lia. }
    { rewrite length_partial; lia. }
    rewrite to_nat_0_add.
    rewrite <- app_assoc. simpl. rewrite insert_heap_middle.
    rewrite partial_step
      with (v := VPtr (Ptr (length (h ++ Some (partial spine k) :: rows)) 0)).
    2:{ unfold spine. rewrite list_lookup_fmap, lookup_row_ptrs by lia.
        simpl. rewrite length_app. simpl. do 3 f_equal. lia. }
    eapply wp_mono.
    { replace (h ++ Some (partial spine (S k)) :: rows ++ [Some (replicate cols VUndef)])
        with ((h ++ Some (partial spine (S k)) :: rows) ++ [Some (replicate cols VUndef)])
        by (by rewrite <- app_assoc).
      apply (Hfill k r); [done|by eexists|].
      eexists. split; [apply lookup_heap_middle|].
      rewrite lookup_partial_lt by lia. unfold spine.
      rewrite list_lookup_fmap, lookup_row_ptrs by lia. simpl.
      rewrite length_app. simpl. do 3 f_equal. lia. }
    intros [] h'' ->. simpl.
    rewrite <- app_assoc. simpl. do 2 f_equal.
    rewrite (take_S_r _ _ _ Hr), fmap_app. done.
  - intros [] h' ->.
    replace (0 + 1 * Z.of_nat i) with (Z.of_nat i) by lia.
    set (rows := (fun r : list F => Some (VFloat <$> r)) <$> take i R).
    assert (length rows = i) as Hlrows.
    { unfold rows. rewrite length_fmap, length_take. lia. }
    apply fault_after, wp_malloc; [lia|]. rewrite Nat2Z.id.
    apply fault_after.
    eapply wp_store; simpl.
    { rewrite <- app_assoc. simpl. apply lookup_heap_middle. }
    { lia. }
    { rewrite length_partial; lia. }
    rewrite to_nat_0_add.
    rewrite <- app_assoc. simpl. rewrite insert_heap_middle.
    rewrite partial_step
      with (v := VPtr (Ptr (length (h ++ Some (partial spine i) :: rows)) 0)).
    2:{ unfold spine. rewrite list_lookup_fmap, lookup_row_ptrs by lia.
        simpl. rewrite length_app. simpl. do 3 f_equal. lia. }
    replace (h ++ Some (partial spine (S i)) :: rows ++ [Some (replicate cols VUndef)])
      with ((h ++ Some (partial spine (S i)) :: rows) ++ [Some (replicate cols VUndef)])
      by (by rewrite <- app_assoc).
    apply Hfault; [by eexists|].
    eexists. split; [apply lookup_heap_middle|].
    rewrite lookup_partial_lt by lia. unfold spine.
    rewrite list_lookup_fmap, lookup_row_ptrs by lia. simpl.
    rewrite length_app. simpl. do 3 f_equal. lia.
Qed.

(** One row of the embedding (lines 393-396). *)
Lemma model_embed_row_wp h hpre tokens positions (toks : list Z) (n i : nat) W
    (mp : model_params) (t : Z) hrow :
  is_ints h tokens toks -> length toks = n ->
  is_ints h positions (positions_spec n 0) ->
  is_mat h (wte W) (WTE mp) -> is_mat h (wpe W) (WPE mp) ->
  Forall (fun r => length r = emb) (WTE mp) ->
  Forall (fun r => length r = emb) (WPE mp) ->
  toks !! i = Some t -> 0 <= t < Z.of_nat (length (WTE mp)) ->
  (i < length (WPE mp))%nat -> Z.of_nat i < 2147483648 ->
  h `prefix_of` hpre ->
  (exists c, hpre !! hrow = Some (Some c) /\
             c !! i = Some (VPtr (Ptr (length hpre) 0))) ->
  wp (for_loop (Z.to_nat (Z.of_nat emb)) (fun j => j <? Z.of_nat emb) 1
        (fun j _ =>
           tok ← load_int (tokens +ₚ Z.of_nat i);
           te ← load_ptr (wte W +ₚ tok);
           a ← load_float (te +ₚ j);
           pos ← load_int (positions +ₚ Z.of_nat i);
           pe ← load_ptr (wpe W +ₚ pos);
           b ← load_float (pe +ₚ j);
           hi ← load_ptr (Ptr hrow 0 +ₚ Z.of_nat i);
           store (hi +ₚ j) (VFloat (f_add a b))) 0 tt)
     (hpre ++ [Some (replicate emb VUndef)])
     (fun _ h'' =>
        h'' = hpre ++ [Some (VFloat <$> zip_with f_add (row_at (WTE mp) (Z.to_nat t))
                                                       (row_at (WPE mp) i))]).
Proof.
  intros Htok Hltok Hpos Hwte Hwpe Hrte Hrpe Ht Htr Hipe Hint Hpre (spine & Hspine & Hsi).
  pose proof (lookup_lt_Some _ _ _ Ht) as Hi.
  destruct (lookup_lt_is_Some_2 (WTE mp) (Z.to_nat t) ltac:(lia)) as [te Hte].
  destruct (lookup_lt_is_Some_2 (WPE mp) i ltac:(lia)) as [pe Hpe].
  pose proof (Forall_lookup_1 _ _ _ _ Hrte Hte) as Hlte. simpl in Hlte.
  pose proof (Forall_lookup_1 _ _ _ _ Hrpe Hpe) as Hlpe. simpl in Hlpe.
  unfold row_at. rewrite Hte, Hpe. simpl.
  set (out := VFloat <$> zip_with f_add te pe : list val).
  assert (length out = emb) as Hlout.
  { unfold out. rewrite length_fmap, length_zip_with. lia. }
  apply (wp_for_range (fun j _ h' => h' = hpre ++ [Some (partial out j)]) emb);
    [lia|done|by rewrite partial_O, Hlout| |].
  2:{ intros [] h' ->. by rewrite <- Hlout, partial_all. }
  intros j [] h' Hj ->.
  destruct (lookup_lt_is_Some_2 te j ltac:(lia)) as [a Ha].
  destruct (lookup_lt_is_Some_2 pe j ltac:(lia)) as [b Hb].
  assert (h `prefix_of` hpre ++ [Some (partial out j)]) as Hpre'
    by (by apply prefix_app_r).
  apply wp_bind. eapply (wp_load_int_vec _ _ toks i);
    [by eapply is_ints_prefix|done|done|].
  apply wp_bind. eapply (wp_load_row _ _ (WTE mp) (Z.to_nat t));
    [by eapply is_mat_prefix|done|lia|].
  intros q Hq. apply wp_bind.
  eapply (wp_load_float_vec _ _ te j); [done|done|done|].
  apply wp_bind. eapply (wp_load_int_vec _ _ (positions_spec n 0) i);
    [by eapply is_ints_prefix|apply lookup_positions_spec_0; lia|done|].
  apply wp_bind. eapply (wp_load_row _ _ (WPE mp) i);
    [by eapply is_mat_prefix|done|lia|].
  intros q' Hq'. apply wp_bind.
  eapply (wp_load_float_vec _ _ pe j); [done|done|done|].
  apply wp_bind. eapply wp_load_ptr; cbn [blk off padd];
    [apply lookup_app_l_Some, Hspine|lia| |].
  { rewrite to_nat_0_add. exact Hsi. }
  eapply wp_store; cbn [blk off padd]; [apply lookup_heap_snoc|lia| |].
  { rewrite length_partial; lia. }
  rewrite to_nat_0_add, insert_heap_snoc. do 3 f_equal.
  apply partial_step. unfold out.
  by rewrite list_lookup_fmap, lookup_zip_with, Ha; simpl; rewrite Hb.
Qed.

Lemma vocab_size_nat : VOCAB_SIZE = Z.of_nat vocab.
Proof. done. Qed.

(** [model] on an empty sequence: the embedding and the twelve blocks
    run on zero rows, then the last row is looked up at index
    seqLength - 1 = -1, in front of the row-pointer array. *)
Theorem model_empty_faults h tokens (g4 : nat) W (mp : model_params) ws :
  is_ints h tokens [] -> model_ok h W mp g4 ws ->
  model tokens 0 W h = Fault OutOfBounds.
Proof.
  intros Htok Hok. change 0 with (Z.of_nat 0). unfold model.
  eapply (model_start h tokens [] 0 g4 W mp ws _ (fun o => o = Fault OutOfBounds));
    [done|done|done|constructor|lia|].
  intros s hc Hpre Hs HM. apply fault_after.
  eapply (model_blocks_wp h hc s 0 g4 W mp ws []);
    [done|done|done|done|done|constructor|by left|].
  intros s' h' Hpre' Hs' [Hsp _] Hl' Hr'. apply fault_bind.
  eapply load_ptr_oob; cbn [blk off padd]; [exact Hsp|left; lia].
Qed.

(** A token id outside [0, VOCAB_SIZE) is not checked: with a token
    table of exactly VOCAB_SIZE rows, [model] embeds the positions before
    the first such token and then reads wte[token] outside the table. *)
Theorem model_bad_token_faults h tokens (toks : list Z) (i n g4 : nat) (t : Z)
    (bt : nat) (ct : list val) W (mp : model_params) ws :
  is_ints h tokens toks -> length toks = n ->
  model_ok h W mp g4 ws ->
  wte W = Ptr bt 0 -> h !! bt = Some (Some ct) -> length ct = vocab ->
  toks !! i = Some t -> (t < 0 \/ VOCAB_SIZE <= t) ->
  Forall (fun t => 0 <= t < VOCAB_SIZE) (take i toks) ->
  (i <= max_pos)%nat ->
  model tokens (Z.of_nat n) W h = Fault OutOfBounds.
Proof.
  intros Htok Hltok Hok Hwte Hbt Hlct Ht Hbad Hgood Hi. unfold model.
  pose proof (lookup_lt_Some _ _ _ Ht) as Hin. destruct Hok.
  apply fault_after, positions_for_wp.
  set (hp := h ++ [Some (VInt <$> positions_spec n 0)]).
  assert (h `prefix_of` hp) as Hpp by by apply prefix_app_r.
  apply fault_bind. unfold model_embed. rewrite EMBEDDING_SIZE_nat.
  apply fault_after, wp_malloc; [lia|]. rewrite !Nat2Z.id.
  apply fault_bind.
  eapply (fault_build_matrix hp (take i (embed_spec mp toks)) i n emb);
    [rewrite length_take, length_embed_spec; lia|lia|done| |].
  - intros k r hpre Hr Hpre Hsp.
    apply lookup_take_Some in Hr as [Hr Hk].
    unfold embed_spec in Hr. rewrite list_lookup_imap in Hr.
    destruct (toks !! k) as [tk|] eqn:Htk; [|done]. simpl in Hr.
    injection Hr as <-.
    assert (0 <= tk < VOCAB_SIZE) as Htkr.
    { apply (Forall_lookup_1 _ _ k tk Hgood). by rewrite lookup_take_lt. }
    eapply (model_embed_row_wp hp hpre tokens _ toks n k W mp tk);
      [by apply is_ints_app|done|apply is_ints_block, lookup_heap_snoc
      |by apply is_mat_app|by apply is_mat_app|done|done|done
      |rewrite ok_wte_len0, <- vocab_size_nat; lia|lia
      |pose proof max_pos_val; lia|done|done].
  - intros hpre Hpre Hsp.
    apply fault_for_first; [rewrite emb_val; ltb_true|rewrite emb_val; lia|].
    apply fault_after.
    eapply (wp_load_int_vec _ _ toks i);
      [eapply is_ints_prefix; [exact Htok|]|done|done|].
    { etrans; [exact Hpp|]. etrans; [exact Hpre|]. by apply prefix_app_r. }
    apply fault_bind. rewrite Hwte.
    eapply (load_ptr_oob _ _ ct); cbn [blk off padd].
    + apply lookup_app_l_Some. eapply prefix_lookup_Some; [|exact Hpre].
      by apply lookup_app_l_Some.
    + rewrite vocab_size_nat in Hbad. destruct Hbad; [left|right]; lia.
Qed.

(** A sequence longer than MAX_POSITION_EMBEDDINGS is not checked: with
    a position table of exactly that many rows, [model] embeds the first
    MAX_POSITION_EMBEDDINGS positions and then reads
    wpe[MAX_POSITION_EMBEDDINGS] outside the table. *)
Theorem model_too_long_faults h tokens (toks : list Z) (n g4 : nat)
    (bp : nat) (cp : list val) W (mp : model_params) ws :
  is_ints h tokens toks -> length toks = n ->
  model_ok h W mp g4 ws ->
  wpe W = Ptr bp 0 -> h !! bp = Some (Some cp) -> length cp = max_pos ->
  Forall (fun t => 0 <= t < VOCAB_SIZE) (take (S max_pos) toks) ->
  (max_pos < n)%nat ->
  model tokens (Z.of_nat n) W h = Fault OutOfBounds.
Proof.
  intros Htok Hltok Hok Hwpe Hbp Hlcp Hgood Hn. unfold model.
  destruct Hok.
  destruct (lookup_lt_is_Some_2 toks max_pos ltac:(lia)) as [t Ht].
  assert (0 <= t < VOCAB_SIZE) as Htr.
  { apply (Forall_lookup_1 _ _ max_pos t Hgood). by rewrite lookup_take_lt by lia. }
  apply fault_after, positions_for_wp.
  set (hp := h ++ [Some (VInt <$> positions_spec n 0)]).
  assert (h `prefix_of` hp) as Hpp by by apply prefix_app_r.
  apply fault_bind. unfold model_embed. rewrite EMBEDDING_SIZE_nat.
  apply fault_after, wp_malloc; [lia|]. rewrite !Nat2Z.id.
  apply fault_bind.
  eapply (fault_build_matrix hp (take max_pos (embed_spec mp toks)) max_pos n emb);
    [rewrite length_take, length_embed_spec; lia|lia|done| |].
  - intros k r hpre Hr Hpre Hsp.
    apply lookup_take_Some in Hr as [Hr Hk].
    unfold embed_spec in Hr. rewrite list_lookup_imap in Hr.
    destruct (toks !! k) as [tk|] eqn:Htk; [|done]. simpl in Hr.
    injection Hr as <-.
    assert (0 <= tk < VOCAB_SIZE) as Htkr.
    { apply (Forall_lookup_1 _ _ k tk Hgood). by rewrite lookup_take_lt by lia. }
    eapply (model_embed_row_wp hp hpre tokens _ toks n k W mp tk);
      [by apply is_ints_app|done|apply is_ints_block, lookup_heap_snoc
      |by apply is_mat_app|by apply is_mat_app|done|done|done
      |rewrite ok_wte_len0, <- vocab_size_nat; lia|lia
      |pose proof max_pos_val; lia|done|done].
  - intros hpre Hpre Hsp.
    assert (hp `prefix_of` hpre ++ [Some (replicate emb VUndef)]) as Hpre'
      by (etrans; [exact Hpre|]; by apply prefix_app_r).
    destruct (lookup_lt_is_Some_2 (WTE mp) (Z.to_nat t)
                ltac:(rewrite ok_wte_len0; rewrite vocab_size_nat in Htr; lia))
      as [te Hte].
    pose proof (Forall_lookup_1 _ _ _ _ ok_wte_rows0 Hte) as Hlte. simpl in Hlte.
    destruct (lookup_lt_is_Some_2 te 0 ltac:(rewrite Hlte, emb_val; lia))
      as [a Ha].
    apply fault_for_first; [rewrite emb_val; ltb_true|rewrite emb_val; lia|].
    apply fault_after.
    eapply (wp_load_int_vec _ _ toks max_pos);
      [eapply is_ints_prefix; [exact Htok|by etrans]|done|done|].
    apply fault_after.
    eapply (wp_load_row _ _ (WTE mp) (Z.to_nat t));
      [eapply is_mat_prefix; [exact ok_wte0|by etrans]|done|lia|].
    intros q Hq. apply fault_after.
    eapply (wp_load_float_vec _ _ te 0); [done|done|done|].
    apply fault_after.
    eapply (wp_load_int_vec _ _ (positions_spec n 0) max_pos);
      [eapply is_ints_prefix; [apply is_ints_block, lookup_heap_snoc|done]
      |apply lookup_positions_spec_0; [done|pose proof max_pos_val; lia]|done|].
    apply fault_bind. rewrite Hwpe.
    eapply (load_ptr_oob _ _ cp); cbn [blk off padd].
    + eapply prefix_lookup_Some; [|exact Hpre']. by apply lookup_app_l_Some.
    + right. lia.
Qed.

(* ===================================================================== *)
(** * Part 5c: initialisation, teardown and main                          *)
(* ===================================================================== *)

Context {IO : InitOps F D} {LC : LibC}.

Lemma length_rand_row k n : length (rand_row k n) = n.
Proof. unfold rand_row. by rewrite length_fmap, length_seq. Qed.

Lemma lookup_rand_row k n j :
  (j < n)%nat -> rand_row k n !! j = Some (rand_weight (k + j)).
Proof. intros Hj. unfold rand_row. by rewrite list_lookup_fmap, lookup_seq_lt. Qed.

Lemma length_rand_rows k m n : length (rand_rows k m n) = m.
Proof. unfold rand_rows. by rewrite length_fmap, length_seq. Qed.

Lemma lookup_rand_rows k m n i :
  (i < m)%nat -> rand_rows k m n !! i = Some (rand_row (k + n * i) n).
Proof. intros Hi. unfold rand_rows. by rewrite list_lookup_fmap, lookup_seq_lt. Qed.

Lemma Forall_rand_rows k m n : Forall (fun r => length r = n) (rand_rows k m n).
Proof.
  unfold rand_rows. apply Forall_fmap, Forall_forall. intros i _. simpl.
  apply length_rand_row.
Qed.

(** The inner loop of lines 441-444, 458-461 and 469-472: one row of
    fresh weights. *)
Lemma rand_fill_wp hpre (s i n k0 fuel : nat) :
  (n <= fuel)%nat ->
  (exists c, hpre !! s = Some (Some c) /\
             c !! i = Some (VPtr (Ptr (length hpre) 0))) ->
  wp (for_loop fuel (fun j => j <? Z.of_nat n) 1 (fun j k =>
        wi ← load_ptr (Ptr s 0 +ₚ Z.of_nat i);
        store (wi +ₚ j) (VFloat (rand_weight k));;
        mret (S k)) 0 k0)
     (hpre ++ [Some (replicate n VUndef)])
     (fun k' h'' => k' = (k0 + n)%nat /\
                    h'' = hpre ++ [Some (VFloat <$> rand_row k0 n)]).
Proof.
  intros Hfuel (c & Hc & Hci).
  set (out := VFloat <$> rand_row k0 n : list val).
  assert (length out = n) as Hlout.
  { unfold out. by rewrite length_fmap, length_rand_row. }
  apply (wp_for_range (fun j k h' => k = (k0 + j)%nat /\
                         h' = hpre ++ [Some (partial out j)]) n);
    [done|done| | |].
  - split; [lia|]. by rewrite partial_O, Hlout.
  - intros j k h' Hj [-> ->].
    apply wp_bind. eapply wp_load_ptr; cbn [blk off padd];
      [apply lookup_app_l_Some, Hc|lia| |].
    { rewrite to_nat_0_add. exact Hci. }
    apply wp_bind.
    eapply wp_store; cbn [blk off padd]; [apply lookup_heap_snoc|lia| |].
    { rewrite length_partial; lia. }
    apply wp_ret. split; [lia|].
    rewrite to_nat_0_add, insert_heap_snoc. do 3 f_equal.
    apply partial_step. unfold out.
    by rewrite list_lookup_fmap, lookup_rand_row.
  - intros k h' [-> ->]. split; [done|]. by rewrite <- Hlout, partial_all.
Qed.

(** ** initialize_table *)

Lemma initialize_table_wp h (m k : nat) (Q : ptr * nat -> heap -> Prop) :
  Q (Ptr (length h) 0, (k + emb * m)%nat)
    (h ++ mat_blocks (length h) (rand_rows k m emb)) ->
  wp (initialize_table (Z.of_nat m) k) h Q.
Proof.
  intros HQ. unfold initialize_table. rewrite EMBEDDING_SIZE_nat.
  set (R := rand_rows k m emb).
  set (spine := VPtr <$> row_ptrs (S (length h)) m : list val).
  assert (length spine = m) as Hls.
  { unfold spine. by rewrite length_fmap, length_row_ptrs. }
  apply wp_bind, wp_malloc; [lia|]. rewrite !Nat2Z.id.
  apply wp_bind.
  apply (wp_for_range (fun i k' h' =>
           k' = (k + emb * i)%nat /\
           h' = h ++ Some (partial spine i)
                  :: ((fun r : list F => Some (VFloat <$> r)) <$> take i R)) m);
    [done|done| | |].
  - split; [lia|]. by rewrite partial_O, Hls.
  - intros i k' h' Hi [-> ->].
    set (rows := (fun r : list F => Some (VFloat <$> r)) <$> take i R).
    assert (length rows = i) as Hlrows.
    { unfold rows, R. rewrite length_fmap, length_take, length_rand_rows. lia. }
    apply wp_bind, wp_malloc; [lia|]. rewrite Nat2Z.id.
    apply wp_bind.
    eapply wp_store; cbn [blk off padd].
    { rewrite <- app_assoc. cbn [app]. apply lookup_heap_middle. }
    { lia. }
    { rewrite length_partial; lia. }
    rewrite to_nat_0_add.
    rewrite <- app_assoc. cbn [app]. rewrite insert_heap_middle.
    rewrite partial_step
      with (v := VPtr (Ptr (length (h ++ Some (partial spine i) :: rows)) 0)).
    2:{ unfold spine. rewrite list_lookup_fmap, lookup_row_ptrs by lia.
        simpl. rewrite length_app. simpl. do 3 f_equal. lia. }
    replace (h ++ Some (partial spine (S i)) :: rows ++ [Some (replicate emb VUndef)])
      with ((h ++ Some (partial spine (S i)) :: rows) ++ [Some (replicate emb VUndef)])
      by (by rewrite <- app_assoc).
    eapply wp_mono.
    { apply (rand_fill_wp _ (length h) i emb (k + emb * i)); [lia|].
      eexists. split; [apply lookup_heap_middle|].
      rewrite lookup_partial_lt by lia. unfold spine.
      rewrite list_lookup_fmap, lookup_row_ptrs by lia. simpl.
      rewrite length_app. simpl. do 3 f_equal. lia. }
    intros k' h'' [-> ->]. split; [lia|].
    rewrite <- app_assoc. cbn [app]. do 2 f_equal.
    unfold rows. rewrite (take_S_r _ _ (rand_row (k + emb * i) emb)), fmap_app.
    + done.
    + unfold R. by apply lookup_rand_rows.
  - intros k' h' [-> ->]. apply wp_ret.
    replace (partial spine m) with spine by (by rewrite <- Hls, partial_all).
    rewrite take_ge by (unfold R; rewrite length_rand_rows; lia).
    unfold mat_blocks in HQ. fold R in HQ. unfold R at 1 in HQ.
    rewrite length_rand_rows in HQ. exact HQ.
Qed.

(** ** initialize_linear_layer *)

Lemma initialize_linear_layer_wp h (n m k : nat)
    (Q : LinearLayer * nat -> heap -> Prop) :
  Q (layer_rec (length h) (Z.of_nat n) (Z.of_nat m), (k + n * m)%nat)
    (h ++ layer_blocks (length h) (rand_rows k m n)) ->
  wp (initialize_linear_layer (Z.of_nat n) (Z.of_nat m) k) h Q.
Proof.
  intros HQ. unfold initialize_linear_layer.
  set (R := rand_rows k m n).
  set (spine := VPtr <$> row_ptrs (length h + 2) m : list val).
  set (zs := VFloat <$> zeros m : list val).
  assert (length spine = m) as Hls.
  { unfold spine. by rewrite length_fmap, length_row_ptrs. }
  assert (length zs = m) as Hlz.
  { unfold zs, zeros. by rewrite length_fmap, length_replicate. }
  apply wp_bind, wp_malloc; [lia|]. rewrite !Nat2Z.id.
  apply wp_bind, wp_malloc; [lia|]. rewrite !Nat2Z.id.
  rewrite length_app. cbn [length].
  apply wp_bind.
  apply (wp_for_range (fun i k' h' =>
           k' = (k + n * i)%nat /\
           h' = h ++ Some (partial spine i) :: Some (partial zs i)
                  :: ((fun r : list F => Some (VFloat <$> r)) <$> take i R)) m);
    [done|done| | |].
  - split; [lia|]. rewrite !partial_O, Hls, Hlz. by rewrite <- app_assoc.
  - intros i k' h' Hi [-> ->].
    set (rows := (fun r : list F => Some (VFloat <$> r)) <$> take i R).
    assert (length rows = i) as Hlrows.
    { unfold rows, R. rewrite length_fmap, length_take, length_rand_rows. lia. }
    apply wp_bind, wp_malloc; [lia|]. rewrite Nat2Z.id.
    apply wp_bind.
    eapply wp_store; cbn [blk off padd].
    { rewrite <- app_assoc. cbn [app]. apply lookup_heap_middle. }
    { lia. }
    { rewrite length_partial; lia. }
    rewrite to_nat_0_add.
    rewrite <- app_assoc. cbn [app]. rewrite insert_heap_middle.
    rewrite partial_step
      with (v := VPtr (Ptr (length (h ++ Some (partial spine i)
                                      :: Some (partial zs i) :: rows)) 0)).
    2:{ unfold spine. rewrite list_lookup_fmap, lookup_row_ptrs by lia.
        simpl. rewrite length_app. simpl. do 3 f_equal. lia. }
    apply wp_bind.
    eapply wp_store; cbn [blk off padd].
    { apply lookup_heap_middle1. lia. }
    { lia. }
    { rewrite length_partial; lia. }
    rewrite to_nat_0_add. rewrite insert_heap_middle1 by lia.
    rewrite (partial_step zs i (VFloat f_zero)).
    2:{ unfold zs, zeros. by rewrite list_lookup_fmap, lookup_replicate_2. }
    replace (h ++ Some (partial spine (S i)) :: Some (partial zs (S i))
               :: rows ++ [Some (replicate n VUndef)])
      with ((h ++ Some (partial spine (S i)) :: Some (partial zs (S i)) :: rows)
              ++ [Some (replicate n VUndef)])
      by (by rewrite <- app_assoc).
    eapply wp_mono.
    { apply (rand_fill_wp _ (length h) i n (k + n * i)); [lia|].
      eexists. split; [apply lookup_heap_middle|].
      rewrite lookup_partial_lt by lia. unfold spine.
      rewrite list_lookup_fmap, lookup_row_ptrs by lia. simpl.
      rewrite length_app. simpl. do 3 f_equal. lia. }
    intros k' h'' [-> ->]. split; [lia|].
    rewrite <- app_assoc. cbn [app]. do 3 f_equal.
    unfold rows. rewrite (take_S_r _ _ (rand_row (k + n * i) n)), fmap_app.
    + done.
    + unfold R. by apply lookup_rand_rows.
  - intros k' h' [-> ->]. apply wp_ret.
    replace (partial spine m) with spine by (by rewrite <- Hls, partial_all).
    replace (partial zs m) with zs by (by rewrite <- Hlz, partial_all).
    rewrite take_ge by (unfold R; rewrite length_rand_rows; lia).
    unfold layer_blocks, layer_rec in HQ. fold R in HQ. unfold R at 1 2 in HQ.
    rewrite !length_rand_rows in HQ.
    replace (S (length h)) with (length h + 1)%nat by lia. exact HQ.
Qed.

(** ** Where an initialised layer is *)

Lemma length_layer_blocks L (W : list (list F)) :
  length (layer_blocks L W) = (2 + length W)%nat.
Proof. unfold layer_blocks. cbn [length]. by rewrite length_fmap. Qed.

Lemma layer_at_blocks h (W : list (list F)) :
  layer_at (h ++ layer_blocks (length h) W) (length h) W.
Proof.
  unfold layer_at, layer_blocks. split; [split|].
  - rewrite lookup_heap_middle. by rewrite row_ptrs_strided.
  - intros i r Hr. pose proof (lookup_lt_Some _ _ _ Hr) as Hi.
    rewrite lookup_app_r by lia.
    replace (length h + 2 + 1 * i - length h)%nat with (S (S i)) by lia.
    rewrite !lookup_cons_S1. by rewrite list_lookup_fmap, Hr.
  - by apply lookup_heap_middle1; lia.
Qed.

Lemma layer_at_prefix h h' L (W : list (list F)) :
  layer_at h L W -> h `prefix_of` h' -> layer_at h' L W.
Proof.
  intros [HM Hb] Hpre. split; [by eapply mat_at_prefix|].
  by eapply prefix_lookup_Some.
Qed.

Lemma layer_at_insert_other h L (W : list (list F)) (b : nat) x :
  layer_at h L W -> (b < L)%nat -> layer_at (<[b := x]> h) L W.
Proof.
  intros [HM Hb] Hlt. split; [apply mat_at_insert_other; [done|lia|lia]|].
  by rewrite list_lookup_insert_ne by lia.
Qed.

Lemma layer_at_ok h L (W : list (list F)) (n4 m : nat) :
  layer_at h L W -> length W = m ->
  Forall (fun r => length r = (4 * n4)%nat) W ->
  layer_ok h (layer_rec L (Z.of_nat (4 * n4)) (Z.of_nat m)) n4 m W (zeros m).
Proof.
  intros [HM Hb] Hl Hr. rewrite Hl in Hb. split; cbn [weights biases layer_rec
    fcInputSize fcOutputSize]; [by eapply mat_at_is_mat|by apply is_vec_block
    |done|done|done|apply length_replicate|done].
Qed.

(** [initialize_linear_layer] by what it leaves behind. *)
Lemma initialize_linear_layer_at h (n m k : nat)
    (Q : LinearLayer * nat -> heap -> Prop) :
  (forall h', h `prefix_of` h' -> length h' = (length h + (2 + m))%nat ->
     layer_at h' (length h) (rand_rows k m n) ->
     Q (layer_rec (length h) (Z.of_nat n) (Z.of_nat m), (k + n * m)%nat) h') ->
  wp (initialize_linear_layer (Z.of_nat n) (Z.of_nat m) k) h Q.
Proof.
  intros HQ. apply initialize_linear_layer_wp. apply HQ.
  - by apply prefix_app_r.
  - by rewrite length_app, length_layer_blocks, length_rand_rows.
  - apply layer_at_blocks.
Qed.

Lemma block_at_prefix h h' P (cn : nat) :
  block_at h P cn -> h `prefix_of` h' -> block_at h' P cn.
Proof.
  intros (H1 & H2 & H3 & H4 & H5) Hpre.
  split; [exact (layer_at_prefix _ _ _ _ H1 Hpre)|].
  split; [exact (layer_at_prefix _ _ _ _ H2 Hpre)|].
  split; [exact (layer_at_prefix _ _ _ _ H3 Hpre)|].
  split; [exact (layer_at_prefix _ _ _ _ H4 Hpre)|].
  exact (layer_at_prefix _ _ _ _ H5 Hpre).
Qed.

Lemma block_at_insert_other h P (cn : nat) (b : nat) x :
  block_at h P cn -> (b < P)%nat -> block_at (<[b := x]> h) P cn.
Proof.
  intros (H1 & H2 & H3 & H4 & H5) Hlt.
  split; [apply layer_at_insert_other; [exact H1|lia]|].
  split; [apply layer_at_insert_other; [exact H2|lia]|].
  split; [apply layer_at_insert_other; [exact H3|lia]|].
  split; [apply layer_at_insert_other; [exact H4|lia]|].
  apply layer_at_insert_other; [exact H5|lia].
Qed.

Lemma max_pos_nat : MAX_POSITION_EMBEDDINGS = Z.of_nat max_pos.
Proof. done. Qed.

Lemma initialize_table_at h (m k : nat) (Q : ptr * nat -> heap -> Prop) :
  (forall h', h `prefix_of` h' -> length h' = (length h + (1 + m))%nat ->
     mat_at h' (length h) (S (length h)) 1 (rand_rows k m emb) ->
     Q (Ptr (length h) 0, (k + emb * m)%nat) h') ->
  wp (initialize_table (Z.of_nat m) k) h Q.
Proof.
  intros HQ. apply initialize_table_wp. apply HQ.
  - by apply prefix_app_r.
  - by rewrite length_app, length_mat_blocks, length_rand_rows.
  - apply mat_at_mat_blocks.
Qed.

(** ** initialize_weights *)

Lemma initialize_weights_wp h (k : nat) (out : list (event D))
    (Q : GPT2Weights * nat * list (event D) -> heap -> Prop) :
  (forall h', h `prefix_of` h' -> weights_at h' (length h) k ->
     Q (init_rec (length h), init_rands k, out ++ [EvInitDone]) h') ->
  wp (initialize_weights k out) h Q.
Proof.
  intros HQ. unfold initialize_weights.
  rewrite vocab_size_nat, max_pos_nat, NUM_BLOCKS_nat, EMBEDDING_SIZE_nat.
  set (L := length h) in *.
  (* the token table *)
  apply wp_bind, initialize_table_at. intros h1 Hp1 Hl1 Mte.
  fold L in Hl1, Mte. fold (wpe_rands k).
  assert (length h1 = wpe_at L) as Hl1' by (unfold wpe_at; lia).
  (* the position table *)
  apply wp_bind, initialize_table_at. intros h2 Hp2 Hl2 Mpe.
  rewrite Hl1' in Hl2, Mpe. fold (blocks_rands k).
  assert (length h2 = blocks_at L) as Hl2' by (unfold blocks_at; lia).
  (* the array of blocks *)
  apply wp_bind, wp_malloc; [lia|]. rewrite !Nat2Z.id. rewrite Hl2'.
  set (arr := VBlock <$> init_blocks L : list val).
  assert (length arr = num_blocks) as Hlarr.
  { unfold arr, init_blocks. by rewrite !length_fmap, length_seq. }
  fold (blocks_rands k).
  apply wp_bind.
  apply (wp_for_range (fun b k' h' =>
           k' = group_rands_at k b /\ h2 `prefix_of` h' /\
           length h' = group_at L b /\
           h' !! blocks_at L = Some (Some (partial arr b)) /\
           forall b', (b' < b)%nat ->
             block_at h' (group_at L b') (group_rands_at k b')) num_blocks);
    [done|done| | |].
  - split; [unfold group_rands_at; lia|]. split; [by apply prefix_app_r|].
    split; [rewrite length_app, Hl2'; cbn [length]; unfold group_at; lia|].
    split; [|intros; lia].
    rewrite <- Hl2', lookup_heap_snoc, partial_O, Hlarr. done.
  - intros b k' hb Hb (-> & Hpb & Hlb & Harr & Hgroups).
    set (cb := group_rands_at k b). set (P := group_at L b) in *.
    replace (Z.of_nat emb * 4) with (Z.of_nat (4 * emb)) by lia.
    apply wp_bind, initialize_linear_layer_at. intros ha Hpa Hla Hat_q.
    apply wp_bind, initialize_linear_layer_at. intros hk Hpk Hlk Hat_k.
    apply wp_bind, initialize_linear_layer_at. intros hv Hpv Hlv Hat_v.
    apply wp_bind, initialize_linear_layer_at. intros h4 Hp4 Hl4 Hat_1.
    apply wp_bind, initialize_linear_layer_at. intros h5 Hp5 Hl5 Hat_2.
    rewrite Hlb in *. rewrite Hla in *. rewrite Hlk in *. rewrite Hlv in *.
    rewrite Hl4 in *.
    assert (hb `prefix_of` h5) as Hpb5 by (by repeat (etrans; [eassumption|])).
    apply wp_bind.
    eapply wp_store; cbn [blk off padd];
      [by eapply prefix_lookup_Some|lia|rewrite length_partial; lia|].
    apply wp_ret. rewrite to_nat_0_add.
    split; [unfold cb, group_rands_at, group_rands; lia|].
    split; [apply prefix_insert_ge; [by etrans|lia]|].
    split; [rewrite length_insert, Hl5; unfold P, group_at, group_size; lia|].
    split.
    { rewrite list_lookup_insert_eq by (rewrite Hl5; unfold P, group_at; lia).
      do 2 f_equal. apply partial_step. unfold arr, init_blocks.
      rewrite !list_lookup_fmap, lookup_seq_lt by done. cbn [fmap option_fmap option_map].
      rewrite Nat.add_0_l. fold P. unfold block_rec. rewrite EMBEDDING_SIZE_nat.
      do 2 f_equal; f_equal; unfold layer_rec; f_equal; try f_equal; lia. }
    intros b' Hb'. apply block_at_insert_other; [|unfold group_at; lia].
    destruct (decide (b' = b)) as [->|Hne].
    + fold P cb. unfold block_at, block_par. cbn [Wq Wk Wv W1 W2].
      assert (h4 `prefix_of` h5) as H45 by done.
      assert (hv `prefix_of` h5) as Hv5 by (by etrans).
      assert (hk `prefix_of` h5) as Hk5 by (by etrans).
      assert (ha `prefix_of` h5) as Ha5 by (by etrans).
      split; [exact (layer_at_prefix _ _ _ _ Hat_q Ha5)|].
      split; [exact (layer_at_prefix _ _ _ _ Hat_k Hk5)|].
      split.
      { apply (layer_at_prefix hv); [|done].
        replace (P + 2 * (2 + emb))%nat with (P + (2 + emb) + (2 + emb))%nat by lia.
        replace (cb + 2 * (emb * emb))%nat
          with (cb + emb * emb + emb * emb)%nat by lia.
        exact Hat_v. }
      split.
      { apply (layer_at_prefix h4); [|done].
        replace (P + 3 * (2 + emb))%nat
          with (P + (2 + emb) + (2 + emb) + (2 + emb))%nat by lia.
        replace (cb + 3 * (emb * emb))%nat
          with (cb + emb * emb + emb * emb + emb * emb)%nat by lia.
        exact Hat_1. }
      replace (P + 3 * (2 + emb) + (2 + 4 * emb))%nat
        with (P + (2 + emb) + (2 + emb) + (2 + emb) + (2 + 4 * emb))%nat by lia.
      replace (cb + 3 * (emb * emb) + emb * (4 * emb))%nat
        with (cb + emb * emb + emb * emb + emb * emb + emb * (4 * emb))%nat by lia.
      exact Hat_2.
    + eapply block_at_prefix; [apply Hgroups; lia|done].
  - intros k' h3 (-> & Hp3 & Hl3 & Harr & Hgroups).
    fold (logits_rands k). fold (logits_at L) in Hl3.
    apply wp_bind, initialize_linear_layer_at. intros h' Hp' Hl' Hat_l.
    rewrite Hl3 in *. apply wp_ret.
    replace (logits_rands k + emb * vocab)%nat with (init_rands k) by done.
    rewrite <- ?EMBEDDING_SIZE_nat, <- ?vocab_size_nat. rewrite Hl1'.
    assert (h2 `prefix_of` h') as Hp2' by by etrans.
    apply HQ; [by repeat (etrans; [eassumption|])|].
    split; cbn [WTE WPE BPS WL BL init_params].
    + eapply mat_at_prefix; [exact Mte|by etrans].
    + eapply mat_at_prefix; [exact Mpe|done].
    + eapply prefix_lookup_Some; [|exact Hp'].
      rewrite Harr. by rewrite <- Hlarr, partial_all.
    + intros b Hb. eapply block_at_prefix; [by apply Hgroups|done].
    + exact Hat_l.
    + rewrite Hl'. unfold logits_at, group_at, blocks_at, wpe_at, init_size. lia.
Qed.

(** ** The initialised weights have the shapes [model] needs *)

Lemma layer_at_ok' h L (W : list (list F)) (n4 m : nat) zi zo :
  layer_at h L W -> length W = m ->
  Forall (fun r => length r = (4 * n4)%nat) W ->
  zi = Z.of_nat (4 * n4) -> zo = Z.of_nat m ->
  layer_ok h (layer_rec L zi zo) n4 m W (zeros m).
Proof. intros HL Hl Hr -> ->. by apply layer_at_ok. Qed.

Lemma emb4_nat : EMBEDDING_SIZE * 4 = Z.of_nat (4 * emb).
Proof. done. Qed.

Lemma block_at_ok h P (cn : nat) :
  block_at h P cn -> block_ok h (block_rec P) (block_par cn) emb.
Proof.
  intros (H1 & H2 & H3 & H4 & H5).
  pose proof emb_quarters as Hq.
  split; cbn [q_mlp k_mlp v_mlp first_block_MLP second_block_MLP block_rec
              Wq Bq Wk Bk Wv Bv W1 B1 W2 B2 block_par].
  - apply layer_at_ok'; [exact H1|apply length_rand_rows| |done|done].
    rewrite <- Hq. apply Forall_rand_rows.
  - apply layer_at_ok'; [exact H2|apply length_rand_rows| |done|done].
    rewrite <- Hq. apply Forall_rand_rows.
  - apply layer_at_ok'; [exact H3|apply length_rand_rows| |done|done].
    rewrite <- Hq. apply Forall_rand_rows.
  - apply layer_at_ok'; [exact H4|apply length_rand_rows| |done|apply emb4_nat].
    rewrite <- Hq. apply Forall_rand_rows.
  - apply layer_at_ok'; [exact H5|apply length_rand_rows| |apply emb4_nat|done].
    apply Forall_rand_rows.
Qed.

Lemma is_blocks_block h (b : nat) (ws : list BlockWeights) :
  h !! b = Some (Some (VBlock <$> ws)) -> is_blocks h (Ptr b 0) ws.
Proof.
  intros Hb. split; [done|]. exists (VBlock <$> ws). split; [done|].
  intros j w Hj. cbn [off]. change (Z.to_nat 0) with 0%nat.
  by rewrite Nat.add_0_l, list_lookup_fmap, Hj.
Qed.

Lemma weights_at_ok h L k :
  weights_at h L k ->
  model_ok h (init_rec L) (init_params k) emb (init_blocks L).
Proof.
  intros [Hte Hpe Hbl Hgr Hlg Hlen].
  pose proof emb_quarters as Hq.
  split; cbn [wte wpe blocks logits_mlp init_rec WTE WPE BPS WL BL init_params] in *.
  - by eapply mat_at_is_mat.
  - by eapply mat_at_is_mat.
  - apply length_rand_rows.
  - apply length_rand_rows.
  - apply Forall_rand_rows.
  - apply Forall_rand_rows.
  - by apply is_blocks_block.
  - unfold init_blocks. by rewrite length_fmap, length_seq.
  - unfold init_blocks. apply Forall2_fmap, Forall_Forall2_diag, Forall_forall.
    intros b Hb. apply elem_of_seq in Hb. apply block_at_ok, Hgr. lia.
  - apply layer_at_ok'; [exact Hlg|apply length_rand_rows| |done|apply vocab_size_nat].
    rewrite <- Hq. apply Forall_rand_rows.
Qed.

Lemma row_at_rand_rows k m n i :
  (i < m)%nat -> row_at (rand_rows k m n) i = rand_row (k + n * i) n.
Proof. intros Hi. unfold row_at. by rewrite lookup_rand_rows. Qed.

(** [initialize_linear_layer] returns, for non-negative sizes, a layer
    of outputSize rows of inputSize weights with both sizes recorded, in
    blocks none of which existed before: the biases are all 0, weight
    (i, j) is drawn by call number k + inputSize * i + j of [rand], and
    inputSize * outputSize calls are made.  So the layer has the shape
    [linear] needs whenever inputSize is a multiple of 4. *)
Theorem initialize_linear_layer_correct h (n m k : nat) :
  let W := rand_rows k m n in
  let l := layer_rec (length h) (Z.of_nat n) (Z.of_nat m) in
  initialize_linear_layer (Z.of_nat n) (Z.of_nat m) k h
    = Ok ((l, (k + n * m)%nat), h ++ layer_blocks (length h) W) /\
  layer_at (h ++ layer_blocks (length h) W) (length h) W /\
  length W = m /\ Forall (fun r => length r = n) W /\
  (forall i j, (i < m)%nat -> (j < n)%nat ->
     row_at W i !! j = Some (rand_weight (k + n * i + j))) /\
  (forall n4, n = (4 * n4)%nat ->
     layer_ok (h ++ layer_blocks (length h) W) l n4 m W (zeros m)).
Proof.
  intros W l. split; [|split; [|split; [|split; [|split]]]].
  - pose proof (initialize_linear_layer_wp h n m k
                  (fun r h' => r = (l, (k + n * m)%nat) /\
                     h' = h ++ layer_blocks (length h) W)
                  (conj eq_refl eq_refl)) as Hwp.
    apply wp_run in Hwp as (r & h' & Hrun & -> & ->). exact Hrun.
  - apply layer_at_blocks.
  - apply length_rand_rows.
  - apply Forall_rand_rows.
  - intros i j Hi Hj. unfold W. rewrite row_at_rand_rows by done.
    by rewrite lookup_rand_row.
  - intros n4 ->. apply layer_at_ok; [apply layer_at_blocks
      |apply length_rand_rows|apply Forall_rand_rows].
Qed.

(** The run of [initialize_weights] and the layout it leaves. *)
Lemma initialize_weights_at h (k : nat) (out : list (event D)) :
  exists h',
    initialize_weights k out h
      = Ok ((init_rec (length h), init_rands k, out ++ [EvInitDone]), h') /\
    h `prefix_of` h' /\ weights_at h' (length h) k.
Proof.
  pose proof (initialize_weights_wp h k out
                (fun r h' => r = (init_rec (length h), init_rands k,
                                  out ++ [EvInitDone]) /\
                   h `prefix_of` h' /\ weights_at h' (length h) k)) as Hwp.
  apply wp_run in Hwp as (r & h' & Hrun & -> & Hp & Hat); [|by intros].
  exists h'. split; [exact Hrun|]. split; [exact Hp|exact Hat].
Qed.

(** [initialize_weights] always succeeds; it leaves the heap it was
    given untouched and returns weights with exactly the shapes that the
    theorems about [model] assume: token and position tables of exactly
    VOCAB_SIZE and MAX_POSITION_EMBEDDINGS rows of EMBEDDING_SIZE floats,
    NUM_BLOCKS blocks whose feed-forward layers go through a hidden width
    of 4 * EMBEDDING_SIZE, and an output layer of VOCAB_SIZE rows; it
    prints its one message and has then called [rand] [init_rands k - k]
    times. *)
Theorem initialize_weights_ok h (k : nat) (out : list (event D)) :
  exists h',
    initialize_weights k out h
      = Ok ((init_rec (length h), init_rands k, out ++ [EvInitDone]), h') /\
    h `prefix_of` h' /\
    length h' = (length h + init_size)%nat /\
    model_ok h' (init_rec (length h)) (init_params k) emb (init_blocks (length h)) /\
    h' !! length h
      = Some (Some (VPtr <$> strided_ptrs (S (length h)) 1 vocab)) /\
    h' !! wpe_at (length h)
      = Some (Some (VPtr <$> strided_ptrs (S (wpe_at (length h))) 1 max_pos)).
Proof.
  pose proof (initialize_weights_wp h k out
                (fun r h' => r = (init_rec (length h), init_rands k,
                                  out ++ [EvInitDone]) /\
                   h `prefix_of` h' /\ weights_at h' (length h) k)) as Hwp.
  apply wp_run in Hwp as (r & h' & Hrun & -> & Hp & Hat); [|by intros].
  exists h'. split; [exact Hrun|]. split; [done|].
  pose proof (weights_at_ok _ _ _ Hat) as Hok.
  destruct Hat as [[Hte _] [Hpe _] _ _ _ Hlen].
  cbn [WTE WPE init_params] in Hte, Hpe. rewrite length_rand_rows in Hte, Hpe.
  done.
Qed.

(** ** free_linear_layer and free_weights *)

Lemma wp_free_kill_to h P P1 (b : nat) c (Q : unit -> heap -> Prop) :
  h !! b = Some (Some c) -> P b = false ->
  (forall b', P1 b' = P b' || bool_decide (b' = b)) ->
  Q tt (kill P1 h) ->
  wp (free (Ptr b 0)) (kill P h) Q.
Proof.
  intros Hb HP HP1 HQ. eapply wp_free_kill; [done|done|].
  replace (kill _ h) with (kill P1 h); [done|].
  apply kill_ext. intros b' _ _. apply HP1.
Qed.

(** [for (i...) free(p[i]);] over the rows of a live matrix. *)
Lemma free_rows_kill h P0 P1 (s base n fuel : nat) (Q : unit -> heap -> Prop) :
  live_mat h s base 1 n -> (n <= fuel)%nat -> P0 s = false -> (s < base)%nat ->
  (forall b, (base <= b < base + n)%nat -> P0 b = false) ->
  (forall b, P1 b = P0 b || bool_decide (base <= b < base + n)%nat) ->
  Q tt (kill P1 h) ->
  wp (for_loop fuel (fun i => i <? Z.of_nat n) 1
        (fun i _ => free_at (Ptr s 0) i) 0 tt) (kill P0 h) Q.
Proof.
  intros Hlive Hfuel HPs Hsb HPr HP1 HQ.
  set (P := fun i b => P0 b || bool_decide (base <= b < base + i)%nat).
  apply (wp_for_range (fun i _ h' => h' = kill (P i) h) n); [done|done| | |].
  - apply kill_ext. intros b c _. unfold P.
    rewrite (bool_decide_false (base <= b < base + 0)%nat) by lia.
    by rewrite orb_false_r.
  - intros i [] h' Hi ->.
    eapply wp_free_at_kill; [exact Hlive|done|done| | |].
    + unfold P. rewrite HPs. apply bool_decide_eq_false_2. lia.
    + unfold P. rewrite HPr by lia. apply bool_decide_eq_false_2. lia.
    + apply kill_ext. intros b c _. unfold P.
      rewrite <- orb_assoc, <- bool_decide_or. f_equal.
      apply bool_decide_ext. lia.
  - intros [] h' ->.
    replace (kill (P n) h) with (kill P1 h); [done|].
    apply kill_ext. intros b c _. unfold P. apply HP1.
Qed.

Lemma free_linear_layer_kill h P0 P1 (s m : nat) zi (Q : unit -> heap -> Prop) :
  live_mat h s (s + 2) 1 m ->
  (exists c, h !! (s + 1)%nat = Some (Some c)) ->
  (forall b, (s <= b < s + 2 + m)%nat -> P0 b = false) ->
  (forall b, P1 b = P0 b || bool_decide (s <= b < s + 2 + m)%nat) ->
  Q tt (kill P1 h) ->
  wp (free_linear_layer (layer_rec s zi (Z.of_nat m))) (kill P0 h) Q.
Proof.
  intros Hlive [cb Hcb] HP0 HP1 HQ. unfold free_linear_layer.
  cbn [weights biases fcInputSize fcOutputSize layer_rec]. rewrite Nat2Z.id.
  pose proof Hlive as [Hs _].
  apply wp_bind.
  eapply (free_rows_kill h P0
            (fun b => P0 b || bool_decide (s + 2 <= b < s + 2 + m)%nat));
    [exact Hlive|done|apply HP0; lia|lia|intros b Hb; apply HP0; lia|done|].
  apply wp_bind.
  eapply (wp_free_kill_to h _
            (fun b => P0 b || bool_decide (s + 2 <= b < s + 2 + m \/ b = s)%nat));
    [exact Hs| | |].
  { rewrite HP0 by lia. apply bool_decide_eq_false_2. lia. }
  { intros b. rewrite <- orb_assoc, <- bool_decide_or. done. }
  eapply (wp_free_kill_to h _ P1); [exact Hcb| | |done].
  { rewrite HP0 by lia. apply bool_decide_eq_false_2. lia. }
  intros b. rewrite HP1, <- orb_assoc, <- bool_decide_or. f_equal.
  apply bool_decide_ext. lia.
Qed.

Lemma layer_at_live h L (W : list (list F)) :
  layer_at h L W ->
  live_mat h L (L + 2) 1 (length W) /\
  exists c, h !! (L + 1)%nat = Some (Some c).
Proof. intros [HM Hb]. split; [by apply mat_at_live|by eexists]. Qed.

Lemma freed_but_step (lo s sz a b : nat) :
  (a < s)%nat -> (lo <= s)%nat ->
  freed_but lo (s + sz) a b
  = freed_but lo s a b || bool_decide (s <= b < s + sz)%nat.
Proof.
  intros Ha Hlo. unfold freed_but. rewrite <- bool_decide_or.
  apply bool_decide_ext. lia.
Qed.

Lemma free_weights_wp h (L k : nat) (Q : unit -> heap -> Prop) :
  weights_at h L k ->
  Q tt (kill (freed_range L (L + init_size)) h) ->
  wp (free_weights (init_rec L)) h Q.
Proof.
  intros [Hte Hpe Hbl Hgr Hlg Hlen] HQ. unfold free_weights.
  cbn [wte wpe blocks logits_mlp init_rec].
  rewrite vocab_size_nat, max_pos_nat, NUM_BLOCKS_nat, !Nat2Z.id.
  set (A := blocks_at L).
  assert (wpe_at L = L + 1 + vocab)%nat as HwA by done.
  assert (A = wpe_at L + 1 + max_pos)%nat as HA by done.
  assert (forall b, group_at L b = A + 1 + group_size * b)%nat as HG by done.
  apply mat_at_live in Hte as Lte. apply mat_at_live in Hpe as Lpe.
  cbn [WTE WPE init_params] in Lte, Lpe. rewrite length_rand_rows in Lte, Lpe.
  rewrite <- (kill_none h) at 1.
  (* the token table *)
  apply wp_bind.
  eapply (free_rows_kill h _ (fun b => bool_decide (S L <= b < S L + vocab)%nat));
    [exact Lte|done|done|lia|done|done|].
  apply wp_bind.
  eapply (wp_free_kill_to h _ (freed_but L (wpe_at L) A));
    [apply Lte|apply bool_decide_eq_false_2; lia| |].
  { intros b. unfold freed_but. rewrite <- bool_decide_or.
    apply bool_decide_ext. lia. }
  (* the position table *)
  apply wp_bind.
  eapply (free_rows_kill h _
            (fun b => freed_but L (wpe_at L) A b
                      || bool_decide (S (wpe_at L) <= b < S (wpe_at L) + max_pos)%nat));
    [exact Lpe|done|apply bool_decide_eq_false_2; lia|lia
    |intros b Hb; apply bool_decide_eq_false_2; lia|done|].
  apply wp_bind.
  eapply (wp_free_kill_to h _ (freed_but L (group_at L 0) A));
    [apply Lpe| | |].
  { apply orb_false_intro; apply bool_decide_eq_false_2; lia. }
  { intros b. unfold freed_but. rewrite <- !bool_decide_or.
    apply bool_decide_ext. rewrite HG. lia. }
  (* the blocks *)
  assert (forall P, P A = false ->
            kill P h !! A = Some (Some (VBlock <$> init_blocks L))) as Harr.
  { intros P HP. by rewrite lookup_kill_false. }
  assert (forall b, (b < num_blocks)%nat ->
            (VBlock <$> init_blocks L : list val) !! b
            = Some (VBlock (block_rec (group_at L b)))) as Hcell.
  { intros b Hb. unfold init_blocks.
    by rewrite !list_lookup_fmap, lookup_seq_lt. }
  apply wp_bind.
  apply (wp_for_range (fun b _ h' =>
           h' = kill (freed_but L (group_at L b) A) h) num_blocks);
    [done|done|done| |].
  - intros b [] h' Hb ->.
    destruct (Hgr b Hb) as (H1 & H2 & H3 & H4 & H5).
    apply layer_at_live in H1 as [L1 B1]. apply layer_at_live in H2 as [L2 B2].
    apply layer_at_live in H3 as [L3 B3]. apply layer_at_live in H4 as [L4 B4].
    apply layer_at_live in H5 as [L5 B5].
    cbn [Wq Wk Wv W1 W2 block_par] in *. rewrite !length_rand_rows in *.
    set (P := group_at L b) in *.
    assert (P = A + 1 + group_size * b)%nat as HP by apply HG.
    assert (A < P)%nat as HAP by lia. assert (L <= P)%nat as HLP by lia.
    (* q *)
    apply wp_bind. eapply wp_load_block; cbn [blk off padd];
      [apply Harr; apply bool_decide_eq_false_2; lia|lia
      |rewrite to_nat_0_add; by apply Hcell|].
    cbn [q_mlp k_mlp v_mlp first_block_MLP second_block_MLP block_rec].
    rewrite ?emb4_nat, ?EMBEDDING_SIZE_nat.
    apply wp_bind.
    eapply (free_linear_layer_kill h _ (freed_but L (P + (2 + emb)) A));
      [exact L1|exact B1|intros b' Hb'; apply bool_decide_eq_false_2; lia| |].
    { intros b'. rewrite freed_but_step by lia. f_equal.
      apply bool_decide_ext. lia. }
    (* k *)
    apply wp_bind. eapply wp_load_block; cbn [blk off padd];
      [apply Harr; apply bool_decide_eq_false_2; lia|lia
      |rewrite to_nat_0_add; by apply Hcell|].
    cbn [q_mlp k_mlp v_mlp first_block_MLP second_block_MLP block_rec].
    rewrite ?emb4_nat, ?EMBEDDING_SIZE_nat.
    apply wp_bind.
    eapply (free_linear_layer_kill h _ (freed_but L (P + (2 + emb) + (2 + emb)) A));
      [exact L2|exact B2|intros b' Hb'; apply bool_decide_eq_false_2; lia| |].
    { intros b'. rewrite freed_but_step by lia. f_equal.
      apply bool_decide_ext. lia. }
    (* v *)
    apply wp_bind. eapply wp_load_block; cbn [blk off padd];
      [apply Harr; apply bool_decide_eq_false_2; lia|lia
      |rewrite to_nat_0_add; by apply Hcell|].
    cbn [q_mlp k_mlp v_mlp first_block_MLP second_block_MLP block_rec].
    rewrite ?emb4_nat, ?EMBEDDING_SIZE_nat.
    apply wp_bind.
    eapply (free_linear_layer_kill h _
              (freed_but L (P + 2 * (2 + emb) + (2 + emb)) A));
      [exact L3|exact B3|intros b' Hb'; apply bool_decide_eq_false_2; lia| |].
    { intros b'. rewrite freed_but_step by lia. f_equal.
      - unfold freed_but. apply bool_decide_ext. lia.
      - apply bool_decide_ext. lia. }
    (* first_block_MLP *)
    apply wp_bind. eapply wp_load_block; cbn [blk off padd];
      [apply Harr; apply bool_decide_eq_false_2; lia|lia
      |rewrite to_nat_0_add; by apply Hcell|].
    cbn [q_mlp k_mlp v_mlp first_block_MLP second_block_MLP block_rec].
    rewrite ?emb4_nat, ?EMBEDDING_SIZE_nat.
    apply wp_bind.
    eapply (free_linear_layer_kill h _
              (freed_but L (P + 3 * (2 + emb) + (2 + 4 * emb)) A));
      [exact L4|exact B4|intros b' Hb'; apply bool_decide_eq_false_2; lia| |].
    { intros b'. rewrite freed_but_step by lia. f_equal.
      - unfold freed_but. apply bool_decide_ext. lia.
      - apply bool_decide_ext. lia. }
    (* second_block_MLP *)
    apply wp_bind. eapply wp_load_block; cbn [blk off padd];
      [apply Harr; apply bool_decide_eq_false_2; lia|lia
      |rewrite to_nat_0_add; by apply Hcell|].
    cbn [q_mlp k_mlp v_mlp first_block_MLP second_block_MLP block_rec].
    rewrite ?emb4_nat, ?EMBEDDING_SIZE_nat.
    eapply (free_linear_layer_kill h _ (freed_but L (group_at L (S b)) A));
      [exact L5|exact B5|intros b' Hb'; apply bool_decide_eq_false_2; lia| |done].
    intros b'.
    replace (group_at L (S b))
      with (P + 3 * (2 + emb) + (2 + 4 * emb) + (2 + emb))%nat
      by (rewrite HG, HP; unfold group_size; lia).
    rewrite freed_but_step by lia. f_equal. apply bool_decide_ext. lia.
  - intros [] h' ->.
    apply wp_bind.
    eapply (wp_free_kill_to h _ (freed_range L (logits_at L)));
      [exact Hbl|apply bool_decide_eq_false_2; lia| |].
    { intros b. unfold freed_range, freed_but, logits_at.
      rewrite <- bool_decide_or. apply bool_decide_ext.
      rewrite !HG. lia. }
    apply layer_at_live in Hlg as [Ll Bl].
    cbn [WL init_params] in Ll, Bl. rewrite length_rand_rows in Ll.
    eapply (free_linear_layer_kill h _ (freed_range L (L + init_size)));
      [exact Ll|exact Bl| | |done].
    + intros b Hb. apply bool_decide_eq_false_2. lia.
    + intros b. unfold freed_range. rewrite <- bool_decide_or.
      apply bool_decide_ext. unfold logits_at, init_size. rewrite !HG. lia.
Qed.

(** ** Allocation and release together *)

Lemma kill_range_tail h h' (N : nat) :
  h `prefix_of` h' -> length h' = (length h + N)%nat ->
  kill (freed_range (length h) (length h + N)) h' = h ++ replicate N None.
Proof.
  intros Hpre Hlen. apply list_eq. intros b. rewrite lookup_kill.
  destruct (decide (b < length h)%nat) as [Hb|Hb].
  - rewrite <- (prefix_lookup_lt _ _ _ Hb Hpre), lookup_app_l by done.
    unfold freed_range. rewrite bool_decide_false by lia.
    by destruct (h !! b).
  - rewrite lookup_app_r by lia.
    destruct (decide (b < length h + N)%nat) as [Hb'|Hb'].
    + destruct (lookup_lt_is_Some_2 h' b ltac:(lia)) as [x ->].
      rewrite lookup_replicate_2 by lia.
      unfold freed_range. by rewrite bool_decide_true by lia.
    + rewrite lookup_ge_None_2 by lia.
      by rewrite lookup_ge_None_2 by (rewrite length_replicate; lia).
Qed.

(** [free_linear_layer] frees exactly what [initialize_linear_layer]
    allocated: after the two, the heap is the old one followed by
    2 + outputSize freed blocks. *)
Theorem linear_layer_round_trip h (n m k : nat) :
  exists l k' h',
    initialize_linear_layer (Z.of_nat n) (Z.of_nat m) k h = Ok ((l, k'), h') /\
    free_linear_layer l h' = Ok (tt, h ++ replicate (2 + m) None).
Proof.
  pose proof (initialize_linear_layer_at h n m k
                (fun r h' => r = (layer_rec (length h) (Z.of_nat n) (Z.of_nat m),
                                  (k + n * m)%nat) /\
                   h `prefix_of` h' /\ length h' = (length h + (2 + m))%nat /\
                   layer_at h' (length h) (rand_rows k m n))) as Hwp.
  apply wp_run in Hwp as (r & h' & Hrun & -> & Hp & Hl & Hat); [|by intros].
  eexists _, _, h'. split; [exact Hrun|].
  apply layer_at_live in Hat as [Hlive Hb]. rewrite length_rand_rows in Hlive.
  pose proof (free_linear_layer_kill h' (fun _ => false)
                (freed_range (length h) (length h + (2 + m))) (length h) m
                (Z.of_nat n)
                (fun _ h'' => h'' = h ++ replicate (2 + m) None)
                Hlive Hb) as Hfree.
  rewrite kill_none in Hfree.
  apply wp_run in Hfree as ([] & h'' & Hrun' & ->); [done|done| |].
  - intros b. unfold freed_range. cbn [orb]. apply bool_decide_ext. lia.
  - by apply kill_range_tail.
Qed.

(** [free_weights] frees exactly what [initialize_weights] allocated:
    after the two, the heap is the old one followed by [init_size] freed
    blocks; nothing of the old heap is touched, nothing is freed twice
    and nothing is left. *)
Theorem weights_round_trip h (k : nat) (out : list (event D)) :
  exists W k' out' h',
    initialize_weights k out h = Ok ((W, k', out'), h') /\
    free_weights W h' = Ok (tt, h ++ replicate init_size None).
Proof.
  pose proof (initialize_weights_wp h k out
                (fun r h' => r = (init_rec (length h), init_rands k,
                                  out ++ [EvInitDone]) /\
                   h `prefix_of` h' /\ weights_at h' (length h) k)) as Hwp.
  apply wp_run in Hwp as (r & h' & Hrun & -> & Hp & Hat); [|by intros].
  eexists _, _, _, h'. split; [exact Hrun|].
  pose proof (free_weights_wp h' (length h) k
                (fun _ h'' => h'' = h ++ replicate init_size None) Hat) as Hfree.
  apply wp_run in Hfree as ([] & h'' & Hrun' & ->); [done|].
  apply kill_range_tail; [done|]. by destruct Hat.
Qed.

(** ** main *)

(** The sixteen tokens of lines 553-556. *)
Lemma main_tokens_wp h (Q : nat -> heap -> Prop) :
  Q 16%nat (h ++ [Some (VInt <$> ((fun i => Z.rem (rand_at i) 10000) <$> seq 0 16))]) ->
  wp (for_loop 16 (fun i => i <? 16) 1 (fun i k =>
        store (Ptr (length h) 0 +ₚ i) (VInt (Z.rem (rand_at k) 10000));;
        mret (S k)) 0 0%nat)
     (h ++ [Some (replicate 16 VUndef)]) Q.
Proof.
  intros HQ.
  set (toks := VInt <$> ((fun i => Z.rem (rand_at i) 10000) <$> seq 0 16) : list val).
  assert (length toks = 16%nat) as Hlt.
  { unfold toks. by rewrite !length_fmap, length_seq. }
  apply (wp_for_range (fun i k h' => k = i /\ h' = h ++ [Some (partial toks i)]) 16);
    [done|done| | |].
  - split; [done|]. by rewrite partial_O, Hlt.
  - intros i k h' Hi [-> ->].
    apply wp_bind. eapply wp_store; cbn [blk off padd];
      [apply lookup_heap_snoc|lia|rewrite length_partial; lia|].
    apply wp_ret. split; [done|].
    rewrite to_nat_0_add, insert_heap_snoc. do 3 f_equal.
    apply partial_step. unfold toks.
    by rewrite !list_lookup_fmap, lookup_seq_lt.
  - intros k h' [-> ->]. by rewrite <- Hlt, partial_all.
Qed.

(** Every run of [main] reads out of bounds: whatever [rand] returns,
    the sixteen tokens are in range and the weights are built, and then
    [model] reads out of bounds in the head recombination of the first
    block, its sequence length 16 being below HEAD_DIM.  The run of the
    embedding ends at that read; C leaves what follows it undefined. *)
Theorem main_faults h : main h = Fault OutOfBounds.
Proof.
  unfold main.
  apply fault_after, wp_malloc; [lia|].
  change (Z.to_nat 16) with 16%nat.
  apply fault_after, main_tokens_wp.
  set (toks := (fun i => Z.rem (rand_at i) 10000) <$> seq 0 16).
  set (ht := h ++ [Some (VInt <$> toks)]).
  apply fault_after, initialize_weights_wp. intros h' Hp Hat.
  apply fault_bind. change 16 with (Z.of_nat 16).
  eapply (model_oob h' _ toks 16 emb _ (init_params 16) (init_blocks (length ht)));
    [|done|by apply weights_at_ok| |lia|rewrite head_dim_val; lia].
  - eapply is_ints_prefix; [|exact Hp]. apply is_ints_block, lookup_heap_snoc.
  - unfold toks. apply Forall_fmap, Forall_forall. intros i _. cbn [compose].
    pose proof (rand_range i) as Hr.
    assert (0 <= Z.rem (rand_at i) 10000 < 10000) as Hrem
      by (apply Z.rem_bound_pos; lia).
    unfold VOCAB_SIZE. lia.
Qed.

(** ** main_argmax *)

Lemma main_argmax_wp h logits (xs : list F) (Q : Z -> heap -> Prop) :
  is_vec h logits xs -> length xs = vocab ->
  Q (Z.of_nat (argmax_spec xs)) h ->
  wp (main_argmax logits) h Q.
Proof.
  intros Hv Hl HQ. unfold main_argmax. rewrite vocab_size_nat, Nat2Z.id.
  assert (Z.of_nat vocab = 50257) as Hv0 by (by rewrite <- vocab_size_nat).
  destruct xs as [|x0 xs']; [cbn [length] in Hl; lia|].
  cbn [length] in Hl.
  apply wp_bind.
  eapply (wp_load_float_vec _ _ _ 0 x0); [done|done|done|].
  apply wp_bind.
  apply (wp_for (fun j (s : Z * F) h' =>
           h' = h /\ 0 <= s.1 /\
           argmax_from (drop j xs') (S j) (Z.to_nat s.1) s.2
           = argmax_spec (x0 :: xs')) (vocab - 1)); [lia| | | | |].
  - intros j Hj. ltb_true.
  - ltb_false.
  - rewrite drop_0. split; [reflexivity|]. split; [cbn [fst]; lia|reflexivity].
  - intros j [mi mv] h' Hj (-> & Hmi & Hrec). cbn [fst snd] in *.
    replace (1 + 1 * Z.of_nat j) with (Z.of_nat (S j)) by lia.
    destruct (lookup_lt_is_Some_2 xs' j ltac:(lia)) as [x Hx].
    rewrite (drop_S _ _ _ Hx) in Hrec. cbn [argmax_from] in Hrec.
    apply wp_bind.
    eapply (wp_load_float_vec _ _ _ (S j) x); [done|done|done|].
    destruct (f_gt x mv) eqn:Hgt.
    + apply wp_bind.
      eapply (wp_load_float_vec _ _ _ (S j) x); [done|done|done|].
      apply wp_ret. cbn [fst snd]. split; [reflexivity|]. split; [lia|].
      rewrite Nat2Z.id. exact Hrec.
    + apply wp_ret. cbn [fst snd].
      split; [reflexivity|]. split; [exact Hmi|exact Hrec].
  - intros [mi mv] h' (-> & Hmi & Hrec). cbn [fst snd] in *.
    rewrite drop_ge in Hrec by lia. cbn [argmax_from] in Hrec.
    apply wp_ret. rewrite <- Hrec, Z2Nat.id in HQ by done. exact HQ.
Qed.

(** What [argmax_from] returns when [f_gt] orders the elements. *)
Lemma argmax_from_first (whole : list F) :
  (forall u v : F, u ∈ whole -> v ∈ whole -> f_gt u v = true -> f_gt v u = false) ->
  (forall u v w : F, u ∈ whole -> v ∈ whole -> w ∈ whole ->
     f_gt u v = true -> f_gt w v = false -> f_gt u w = true) ->
  forall (rest pre : list F) (best : nat) (bv : F),
    whole = pre ++ rest -> pre !! best = Some bv ->
    (forall y : F, y ∈ pre -> f_gt y bv = false) ->
    (forall (j : nat) (y : F), (j < best)%nat -> pre !! j = Some y -> f_gt bv y = true) ->
    exists v, whole !! argmax_from rest (length pre) best bv = Some v /\
      (forall y : F, y ∈ whole -> f_gt y v = false) /\
      (forall (j : nat) (y : F), (j < argmax_from rest (length pre) best bv)%nat ->
         whole !! j = Some y -> f_gt v y = true).
Proof.
  intros Hasym Hco. induction rest as [|x rest IH]; intros pre best bv Hw Hb HA HB.
  - rewrite app_nil_r in Hw. subst whole. cbn [argmax_from]. exists bv.
    split; [done|]. split; [done|]. done.
  - assert (x ∈ whole) as Hxin.
    { rewrite Hw. apply elem_of_app. right. by left. }
    assert (bv ∈ whole) as Hbin.
    { rewrite Hw. apply elem_of_app. left. by eapply list_elem_of_lookup_2. }
    assert (forall y : F, y ∈ pre -> y ∈ whole) as Hpin.
    { intros y Hy. rewrite Hw. apply elem_of_app. by left. }
    cbn [argmax_from]. destruct (f_gt x bv) eqn:Hgt.
    + replace (S (length pre)) with (length (pre ++ [x]))
        by (rewrite length_app; simpl; lia).
      apply IH.
      * by rewrite <- app_assoc.
      * by rewrite lookup_app_r, Nat.sub_diag by lia.
      * intros y Hy. apply elem_of_app in Hy as [Hy|Hy].
        -- apply Hasym; [done|by apply Hpin|].
           apply (Hco x bv y); [done|done|by apply Hpin|done|by apply HA].
        -- apply list_elem_of_singleton in Hy as ->.
           destruct (f_gt x x) eqn:Hxx; [|done].
           by rewrite (Hasym x x Hxin Hxin Hxx) in Hxx.
      * intros j y Hj Hy. rewrite lookup_app_l in Hy by done.
        apply (Hco x bv y); [done|done| |done|].
        -- apply Hpin. by eapply list_elem_of_lookup_2.
        -- apply HA. by eapply list_elem_of_lookup_2.
    + replace (S (length pre)) with (length (pre ++ [x]))
        by (rewrite length_app; simpl; lia).
      apply IH.
      * by rewrite <- app_assoc.
      * apply lookup_app_l_Some. done.
      * intros y Hy. apply elem_of_app in Hy as [Hy|Hy]; [by apply HA|].
        by apply list_elem_of_singleton in Hy as ->.
      * intros j y Hj Hy. apply (HB j y Hj).
        apply lookup_lt_Some in Hb.
        by rewrite lookup_app_l in Hy by lia.
Qed.

(** Lines 564-574 of [main]: on a vector of VOCAB_SIZE logits that
    [>] orders (it is asymmetric, and a > b with not c > b gives a > c,
    as for floats none of which is a NaN), the loop returns the first
    index of a largest logit, and changes nothing. *)
Theorem main_argmax_first_max h logits (xs : list F) :
  is_vec h logits xs -> length xs = vocab ->
  (forall u v : F, u ∈ xs -> v ∈ xs -> f_gt u v = true -> f_gt v u = false) ->
  (forall u v w : F, u ∈ xs -> v ∈ xs -> w ∈ xs ->
     f_gt u v = true -> f_gt w v = false -> f_gt u w = true) ->
  exists (m : nat) (v : F),
    main_argmax logits h = Ok (Z.of_nat m, h) /\
    xs !! m = Some v /\
    (forall y : F, y ∈ xs -> f_gt y v = false) /\
    (forall (j : nat) (y : F), (j < m)%nat -> xs !! j = Some y -> f_gt v y = true).
Proof.
  intros Hv Hl Hasym Hco.
  pose proof (main_argmax_wp h logits xs
                (fun r h' => r = Z.of_nat (argmax_spec xs) /\ h' = h)
                Hv Hl (conj eq_refl eq_refl)) as Hwp.
  apply wp_run in Hwp as (r & h' & Hrun & -> & ->).
  destruct xs as [|x0 xs'].
  { exfalso. cbn [length] in Hl.
    assert (Z.of_nat vocab = 50257) by (by rewrite <- vocab_size_nat). lia. }
  destruct (argmax_from_first (x0 :: xs') Hasym Hco xs' [x0] 0 x0)
    as (v & Hm & Hmax & Hfirst); [done|done| |intros; lia|].
  { intros y Hy. apply list_elem_of_singleton in Hy as ->.
    destruct (f_gt x0 x0) eqn:Hxx; [|done].
    assert (x0 ∈ x0 :: xs') as Hin by by left.
    by rewrite (Hasym x0 x0 Hin Hin Hxx) in Hxx. }
  exists (argmax_spec (x0 :: xs')), v. split; [exact Hrun|].
  split; [exact Hm|]. split; [exact Hmax|exact Hfirst].
Qed.

(** ** What [block] leaves allocated *)

(** [block] frees every intermediate but one: when it returns (seqLength
    0 or at least HEAD_DIM), the blocks it allocated are its result (a
    spine and seqLength rows, the last blocks of the heap), the
    recombined attention matrix [a] (a spine and seqLength rows, still
    holding the attention output, with no free in the source), and
    blocks that have all been freed. *)
Theorem block_memory_account h x (X : list (list F)) (n g4 : nat) W
    (bp : block_params) :
  is_mat h x X -> length X = n ->
  Forall (fun r => length r = emb) X ->
  block_ok h W bp g4 ->
  (n = 0 \/ head_dim <= n)%nat ->
  exists (s a : nat) h',
    block x (Z.of_nat n) (Z.of_nat emb) W h = Ok (Ptr s 0, h') /\
    h `prefix_of` h' /\
    (length h <= a)%nat /\ (a + 1 + n <= s)%nat /\
    length h' = (s + 1 + n)%nat /\
    mat_at h' s (S s) 1 (block_spec bp X) /\
    mat_at h' a (S a) 1 (attention_spec bp X) /\
    length (attention_spec bp X) = n /\
    (forall b, (length h <= b < s)%nat -> ~ (a <= b < a + 1 + n)%nat ->
       h' !! b = Some None).
Proof.
  intros Hx HlX HrX Hok Hn.
  pose proof (block_wp_strong h x X n g4 W bp
    (fun out h' => exists s a : nat, out = Ptr s 0 /\
       h `prefix_of` h' /\
       (length h <= a)%nat /\ (a + 1 + n <= s)%nat /\
       length h' = (s + 1 + n)%nat /\
       mat_at h' s (S s) 1 (block_spec bp X) /\
       mat_at h' a (S a) 1 (attention_spec bp X) /\
       (forall b, (length h <= b < s)%nat -> ~ (a <= b < a + 1 + n)%nat ->
          h' !! b = Some None))
    Hx HlX HrX Hok Hn) as Hwp.
  apply wp_run in Hwp as (out & h' & Hrun & s & a & -> & Hp & Ha & Has & Hl & Hs & HA & Hfr).
  - exists s, a, h'. split; [exact Hrun|]. split; [exact Hp|].
    split; [exact Ha|]. split; [exact Has|]. split; [exact Hl|].
    split; [exact Hs|]. split; [exact HA|]. split; [|exact Hfr].
    unfold attention_spec. rewrite HlX. apply length_concat_spec.
  - intros s a h' Hp Ha Has Hl Hs HA Hfr _ _. exists s, a.
    split; [reflexivity|]. split; [exact Hp|]. split; [exact Ha|].
    split; [exact Has|]. split; [exact Hl|]. split; [exact Hs|].
    split; [exact HA|exact Hfr].
Qed.
End Proofs.

(* ===================================================================== *)
(** * Part 6: the properties on the sample heap                           *)
(* ===================================================================== *)

Module SampleFacts.
Import IEEE Sample.

#[local] Opaque emb vocab max_pos num_blocks num_heads head_dim.

Lemma vocab_Z : Z.of_nat vocab = 50257.
Proof. by rewrite vocab_val. Qed.

(** The laws of exact arithmetic hold in the integers. *)
Lemma int_exact : @exact_laws Z Z Exact.int_ops.
Proof. split; simpl; intros; lia. Qed.

(** Block 0 is any vector of ones. *)
Lemma world_vec n (xs : list spec_float) :
  (length xs <= vocab)%nat -> Forall (eq f_one) xs ->
  is_vec (world n) (Ptr 0 0) xs.
Proof.
  intros Hl Hxs. split; [done|]. eexists. split; [reflexivity|].
  intros j x Hj. pose proof (lookup_lt_Some _ _ _ Hj) as Hlt.
  rewrite <- (Forall_lookup_1 _ _ _ _ Hxs Hj). cbn [off Z.to_nat Nat.add].
  unfold ones. rewrite list_lookup_fmap, lookup_replicate_2 by lia. done.
Qed.

(** Block 1 is any matrix of ones. *)
Lemma world_mat n (R : list (list spec_float)) :
  (length R <= vocab)%nat ->
  Forall (fun r => (length r <= vocab)%nat /\ Forall (eq f_one) r) R ->
  is_mat (world n) (Ptr 1 0) R.
Proof.
  intros Hl HR. split; [done|]. eexists. split; [reflexivity|].
  intros i r Hi. pose proof (lookup_lt_Some _ _ _ Hi) as Hlt.
  exists (Ptr 0 0). cbn [off Z.to_nat Nat.add].
  rewrite lookup_replicate_2 by lia. split; [done|].
  destruct (Forall_lookup_1 _ _ _ _ HR Hi) as [Hlr Hr]. by apply world_vec.
Qed.

Lemma ones_ok k : Forall (eq f_one) (ones k).
Proof. apply Forall_replicate_eq. Qed.

Lemma length_ones k : length (ones k) = k.
Proof. apply length_replicate. Qed.

Lemma length_rows m k : length (rows m k) = m.
Proof. apply length_replicate. Qed.

Lemma rows_ok m k :
  (k <= vocab)%nat ->
  Forall (fun r => (length r <= vocab)%nat /\ Forall (eq f_one) r) (rows m k).
Proof.
  intros Hk. apply Forall_replicate. rewrite length_ones. split; [done|].
  apply ones_ok.
Qed.

Lemma rows_cols m k : Forall (fun r => length r = k) (rows m k).
Proof. apply Forall_replicate, length_ones. Qed.

Lemma world_rows n m k :
  (m <= vocab)%nat -> (k <= vocab)%nat -> is_mat (world n) (Ptr 1 0) (rows m k).
Proof.
  intros Hm Hk. apply world_mat; [by rewrite length_rows|by apply rows_ok].
Qed.

Lemma world_layer n n4 m :
  (m <= vocab)%nat -> (4 * n4 <= vocab)%nat ->
  layer_ok (world n) (layer n4 m) n4 m (rows m (4 * n4)) (ones m).
Proof.
  intros Hm Hk. split.
  - by apply world_rows.
  - apply world_vec; [by rewrite length_ones|apply ones_ok].
  - done.
  - done.
  - apply length_rows.
  - apply length_ones.
  - apply rows_cols.
Qed.

Lemma world_block n : block_ok (world n) bw bparams emb.
Proof.
  pose proof vocab_Z as Hv. pose proof emb_val as He.
  pose proof emb_quarters as Hq.
  split; cbn [q_mlp k_mlp v_mlp first_block_MLP second_block_MLP bw
              Wq Bq Wk Bk Wv Bv W1 B1 W2 B2 bparams].
  - rewrite Hq at 5. apply world_layer; lia.
  - rewrite Hq at 5. apply world_layer; lia.
  - rewrite Hq at 5. apply world_layer; lia.
  - rewrite Hq at 5. apply world_layer; lia.
  - apply world_layer; lia.
Qed.

Lemma world_model n : model_ok (world n) gw mparams emb (replicate num_blocks bw).
Proof.
  pose proof vocab_Z as Hv. pose proof emb_val as He.
  pose proof emb_quarters as Hq. pose proof max_pos_val as Hp.
  split; cbn [wte wpe blocks logits_mlp gw WTE WPE BPS WL BL mparams].
  - apply world_rows; lia.
  - apply world_rows; lia.
  - apply length_replicate.
  - apply length_replicate.
  - apply rows_cols.
  - apply rows_cols.
  - split; [done|]. eexists. split; [reflexivity|].
    intros j w Hj. apply lookup_replicate in Hj as [-> Hj].
    cbn [off Z.to_nat Nat.add]. by rewrite lookup_replicate_2.
  - apply length_replicate.
  - apply Forall2_replicate. apply world_block.
  - rewrite Hq at 3. apply world_layer; lia.
Qed.

Lemma world_tokens n : is_ints (world n) (Ptr 3 0) (tokens n).
Proof.
  split; [done|]. eexists. split; [reflexivity|].
  intros j z Hj. apply lookup_replicate in Hj as [-> Hj].
  cbn [off Z.to_nat Nat.add]. by rewrite lookup_replicate_2.
Qed.

Lemma tokens_ok n : Forall (fun t => 0 <= t < VOCAB_SIZE) (tokens n).
Proof. apply Forall_replicate. done. Qed.

(** Every pointer of block 1 points to the start of block 0. *)
Lemma world_aligned n m : rows_aligned (world n) (Ptr 1 0) m.
Proof.
  eexists. split; [reflexivity|]. intros i q _ Hq.
  apply lookup_replicate in Hq as [Hq _]. by injection Hq as ->.
Qed.

Lemma world_heads n (R : list (list spec_float)) hd :
  (hd < num_heads)%nat -> is_mat (world n) (Ptr 1 0) R ->
  exists q, ptr_slot (world n) (Ptr 4 0) hd q /\ is_mat (world n) q R.
Proof.
  intros Hhd HR. exists (Ptr 1 0). split; [|done].
  split; [done|]. eexists. split; [reflexivity|].
  cbn [off Z.to_nat Nat.add]. by rewrite lookup_replicate_2.
Qed.

Lemma world_heads_aligned n (R : list (list spec_float)) hd m :
  (hd < num_heads)%nat -> is_mat (world n) (Ptr 1 0) R ->
  exists q, ptr_slot (world n) (Ptr 4 0) hd q /\ is_mat (world n) q R /\
            rows_aligned (world n) q m.
Proof.
  intros Hhd HR. exists (Ptr 1 0). split; [|split; [done|apply world_aligned]].
  split; [done|]. eexists. split; [reflexivity|].
  cbn [off Z.to_nat Nat.add]. by rewrite lookup_replicate_2.
Qed.

Lemma world_slices n m hd :
  (m <= vocab)%nat -> is_mat (world n) (Ptr 1 0) (hslice hd <$> rows m emb).
Proof.
  intros Hm. pose proof vocab_Z as Hv. pose proof emb_val as He.
  apply world_mat; [by rewrite length_fmap, length_rows|].
  apply Forall_fmap, Forall_replicate. simpl. unfold hslice. split.
  - rewrite length_take, length_drop, length_ones. lia.
  - apply Forall_take, Forall_drop, ones_ok.
Qed.

End SampleFacts.

Import IEEE Sample SampleFacts.

(** ** The theorems at work on the sample heap *)

(** [linear] on four ones, a 2 x 4 matrix of ones and two ones. *)
Lemma linear_correct_witness :
  linear (Ptr 0 0) (Ptr 1 0) (Ptr 0 0) (Z.of_nat (4 * 1)) (Z.of_nat 2) (world 0)
  = Ok (Ptr (length (world 0)) 0,
        world 0 ++ [Some (VFloat <$> linear_spec (ones 4) (rows 2 4) (ones 2))]).
Proof.
  pose proof vocab_Z as Hv.
  refine (proj1 (linear_correct (world 0) (Ptr 0 0) (Ptr 1 0) (Ptr 0 0)
                   (ones 4) (rows 2 4) (ones 2) 1 2 _ _ _ _ _ _ _)).
  - apply world_vec; [rewrite length_ones; lia|apply ones_ok].
  - apply world_rows; lia.
  - apply world_vec; [rewrite length_ones; lia|apply ones_ok].
  - reflexivity.
  - apply (rows_cols 2 4).
  - reflexivity.
  - reflexivity.
Defined.

(** [gelu] on four ones. *)
Lemma gelu_halves_witness :
  gelu (Ptr 0 0) (Z.of_nat (4 * 1)) (world 0)
  = Ok (Ptr (length (world 0)) 0,
        world 0 ++ [Some (VFloat <$> gelu_spec (ones 4))]).
Proof.
  pose proof vocab_Z as Hv.
  refine (proj1 (gelu_halves (world 0) (Ptr 0 0) (ones 4) 1 _ _)).
  - apply world_vec; [rewrite length_ones; lia|apply ones_ok].
  - reflexivity.
Defined.

(** [norm] on two rows of four ones. *)
Lemma norm_correct_witness :
  norm (Ptr 1 0) (Z.of_nat 2) (Z.of_nat 4) (world 0)
  = Ok (Ptr (length (world 0)) 0,
        world 0 ++ mat_blocks (length (world 0)) (norm_spec (rows 2 4))).
Proof.
  pose proof vocab_Z as Hv.
  refine (proj1 (norm_correct (world 0) (Ptr 1 0) (rows 2 4) 2 4 _ _ _)).
  - apply world_rows; lia.
  - reflexivity.
  - apply (rows_cols 2 4).
Defined.


(** The recombination after the attention of 64 positions. *)
Lemma recombination_in_bounds_iff_witness :
  exists ho h4,
    block_attention (Ptr 4 0) (Ptr 4 0) (Ptr 4 0) (Z.of_nat 64) (world 64)
      = Ok (ho, h4) /\
    exists a h5, block_concat ho (Z.of_nat 64) (Z.of_nat emb) h4 = Ok (a, h5).
Proof.
  pose proof vocab_Z as Hv.
  destruct (recombination_in_bounds_iff (world 64) (Ptr 4 0) (Ptr 4 0) (Ptr 4 0)
              (rows 64 emb) (rows 64 emb) 64)
    as (ho & h4 & Hrun & _ & Hiff & _).
  - apply length_rows.
  - apply length_rows.
  - apply rows_cols.
  - apply rows_cols.
  - intros hd Hhd. apply world_heads_aligned; [exact Hhd|]. apply world_slices. lia.
  - intros hd Hhd. apply world_heads_aligned; [exact Hhd|]. apply world_slices. lia.
  - intros hd Hhd.
    destruct (world_heads 64 (rows 64 emb) hd Hhd) as (q & Hq & _);
      [apply world_rows; rewrite ?emb_val; lia|].
    exists q. exact Hq.
  - lia.
  - exists ho, h4. split; [exact Hrun|]. apply Hiff. rewrite head_dim_val. lia.
Defined.

(** The multi-head attention of 64 positions. *)
Lemma multi_head_attention_shape_witness :
  exists a h',
    block_heads (Ptr 1 0) (Ptr 1 0) (Ptr 1 0) (Z.of_nat 64) (Z.of_nat emb)
      (world 64) = Ok (a, h') /\
    is_mat h' a (concat_spec (head_scores (rows 64 emb) (rows 64 emb)) 64).
Proof.
  pose proof vocab_Z as Hv. pose proof emb_val as He.
  destruct (multi_head_attention_shape (world 64) (Ptr 1 0) (Ptr 1 0) (Ptr 1 0)
              (rows 64 emb) (rows 64 emb) (rows 64 emb) 64) as [Hgood _].
  - apply world_rows; lia.
  - apply world_rows; lia.
  - apply world_rows; lia.
  - apply length_rows.
  - apply length_rows.
  - apply length_rows.
  - apply rows_cols.
  - apply rows_cols.
  - apply rows_cols.
  - lia.
  - destruct Hgood as (a & h' & Hrun & _ & Hm & _); [rewrite head_dim_val; lia|].
    exists a, h'. split; [exact Hrun|exact Hm].
Defined.

(** [block] on 64 positions. *)
Lemma block_pipeline_witness :
  exists out h',
    block (Ptr 1 0) (Z.of_nat 64) (Z.of_nat emb) bw (world 64) = Ok (out, h') /\
    is_mat h' out (block_spec bparams (rows 64 emb)).
Proof.
  pose proof vocab_Z as Hv. pose proof emb_val as He.
  destruct (block_pipeline (world 64) (Ptr 1 0) (rows 64 emb) 64 emb bw bparams)
    as [Hgood _].
  - apply world_rows; lia.
  - apply length_rows.
  - apply rows_cols.
  - apply world_block.
  - destruct Hgood as (out & h' & Hrun & Hm & _);
      [right; rewrite head_dim_val; lia|].
    exists out, h'. split; [exact Hrun|exact Hm].
Defined.

(** [block] on 64 positions leaves its input alone. *)
Lemma block_preserves_input_witness :
  exists out h',
    block (Ptr 1 0) (Z.of_nat 64) (Z.of_nat emb) bw (world 64) = Ok (out, h') /\
    world 64 `prefix_of` h' /\ is_mat h' (Ptr 1 0) (rows 64 emb).
Proof.
  pose proof vocab_Z as Hv. pose proof emb_val as He.
  refine (proj2 (block_preserves_input (world 64) (Ptr 1 0) (rows 64 emb) 64 emb
                   bw bparams _ _ _ _) _).
  - apply world_rows; lia.
  - apply length_rows.
  - apply rows_cols.
  - apply world_block.
  - right. rewrite head_dim_val. lia.
Defined.

(** [model] on 64 tokens. *)
Lemma model_logits_or_fault_witness :
  exists lg h',
    model (Ptr 3 0) (Z.of_nat 64) gw (world 64) = Ok (Ptr lg 0, h') /\
    h' !! lg = Some (Some (VFloat <$> model_spec mparams (tokens 64))).
Proof.
  destruct (model_logits_or_fault (world 64) (Ptr 3 0) (tokens 64) 64 emb gw
              mparams (replicate num_blocks bw)) as [Hgood _].
  - apply world_tokens.
  - apply length_replicate.
  - apply world_model.
  - apply tokens_ok.
  - lia.
  - rewrite max_pos_val. lia.
  - destruct Hgood as (lg & h' & Hrun & _ & Hlg & _); [rewrite head_dim_val; lia|].
    exists lg, h'. split; [exact Hrun|exact Hlg].
Defined.

(** [model] on the single token 0. *)
Lemma model_single_token_faults_witness :
  model (Ptr 3 0) 1 gw (world 1) = Fault OutOfBounds.
Proof.
  refine (model_single_token_faults (world 1) (Ptr 3 0) 0 emb gw mparams
            (replicate num_blocks bw) _ _ _).
  - apply (world_tokens 1).
  - apply world_model.
  - split; [lia|reflexivity].
Defined.

(** ** The recombination run on small heaps

    Every head output is the same matrix: [n] pointers to one row of [n]
    floats. *)

Lemma block_concat_runs_out_at_1 :
  block_concat (Ptr 0 0) 1 EMBEDDING_SIZE
    [ Some (replicate 12 (VPtr (Ptr 1 0)));
      Some [VPtr (Ptr 2 0)];
      Some [VFloat (b32 1 0)] ]
  = Fault OutOfBounds.
Proof. vm_compute. reflexivity. Qed.

Lemma block_concat_runs_out_at_63 :
  block_concat (Ptr 0 0) 63 EMBEDDING_SIZE
    [ Some (replicate 12 (VPtr (Ptr 1 0)));
      Some (replicate 63 (VPtr (Ptr 2 0)));
      Some (replicate 63 (VFloat (b32 1 0))) ]
  = Fault OutOfBounds.
Proof. vm_compute. reflexivity. Qed.

Lemma block_concat_runs_at_64 :
  match block_concat (Ptr 0 0) 64 EMBEDDING_SIZE
          [ Some (replicate 12 (VPtr (Ptr 1 0)));
            Some (replicate 64 (VPtr (Ptr 2 0)));
            Some (replicate 64 (VFloat (b32 1 0))) ] with
  | Ok (a, h') =>
      a = Ptr 3 0 /\ length h' = 68%nat /\
      h' !! 4%nat = Some (Some (replicate 768 (VFloat (b32 1 0))))
  | Fault _ => False
  end.
Proof. vm_compute. repeat split. Qed.

(** [gelu] and [linear] run in IEEE arithmetic. *)
Lemma gelu_runs :
  gelu (Ptr 0 0) 4 [ Some (VFloat <$> [b32 1 0; b32 2 0; b32 3 0; b32 (-4) 0]) ]
  = Ok (Ptr 1 0,
        [ Some (VFloat <$> [b32 1 0; b32 2 0; b32 3 0; b32 (-4) 0]);
          Some (VFloat <$> [b32 1 (-1); b32 1 0; b32 3 (-1); b32 (-2) 0]) ]).
Proof. vm_compute. reflexivity. Qed.

Lemma linear_runs :
  linear (Ptr 0 0) (Ptr 1 0) (Ptr 3 0) 4 2
    [ Some (VFloat <$> [b32 1 0; b32 2 0; b32 3 0; b32 4 0]);
      Some [VPtr (Ptr 2 0); VPtr (Ptr 0 0)];
      Some (VFloat <$> [b32 1 0; b32 1 0; b32 1 0; b32 1 0]);
      Some (VFloat <$> [b32 1 (-1); b32 1 0]) ]
  = Ok (Ptr 4 0,
        [ Some (VFloat <$> [b32 1 0; b32 2 0; b32 3 0; b32 4 0]);
          Some [VPtr (Ptr 2 0); VPtr (Ptr 0 0)];
          Some (VFloat <$> [b32 1 0; b32 1 0; b32 1 0; b32 1 0]);
          Some (VFloat <$> [b32 1 (-1); b32 1 0]);
          Some (VFloat <$> [b32 21 (-1); b32 31 0]) ]).
Proof. vm_compute. reflexivity. Qed.

(** One position, depth 4: the score is (1 + 4 + 9 + 16) / sqrt 4 = 15,
    and the V pointer is dangling. *)
Lemma sdpa_runs :
  scaled_dot_product_attention (Ptr 0 0) (Ptr 0 0) (Ptr 7 0) 1 4
    [ Some [VPtr (Ptr 1 0)];
      Some (VFloat <$> [b32 1 0; b32 2 0; b32 3 0; b32 4 0]) ]
  = Ok (Ptr 2 0,
        [ Some [VPtr (Ptr 1 0)];
          Some (VFloat <$> [b32 1 0; b32 2 0; b32 3 0; b32 4 0]);
          Some [VPtr (Ptr 3 0)];
          Some (VFloat <$> [b32 15 0]) ]).
Proof. vm_compute. reflexivity. Qed.

(** ** Sixteen positions, the sequence length of [main] *)

Lemma block_heads_runs_out_at_16 :
  block_heads (Ptr 1 0) (Ptr 1 0) (Ptr 1 0) 16 (Z.of_nat emb) (world 16)
  = Fault OutOfBounds.
Proof.
  pose proof vocab_Z as Hv. pose proof emb_val as He.
  apply (block_heads_oob (world 16) (Ptr 1 0) (Ptr 1 0) (Ptr 1 0)
           (rows 16 emb) (rows 16 emb) (rows 16 emb) 16).
  - apply world_rows; lia.
  - apply world_rows; lia.
  - apply world_rows; lia.
  - apply length_rows.
  - apply length_rows.
  - apply length_rows.
  - apply rows_cols.
  - apply rows_cols.
  - apply rows_cols.
  - lia.
  - rewrite head_dim_val. lia.
Qed.

Lemma block_runs_out_at_16 :
  block (Ptr 1 0) 16 (Z.of_nat emb) bw (world 16) = Fault OutOfBounds.
Proof.
  pose proof vocab_Z as Hv. pose proof emb_val as He.
  apply (block_oob (world 16) (Ptr 1 0) (rows 16 emb) 16 emb bw bparams).
  - apply world_rows; lia.
  - apply length_rows.
  - apply rows_cols.
  - apply world_block.
  - lia.
  - rewrite head_dim_val. lia.
Qed.

Lemma model_runs_out_at_16 :
  model (Ptr 3 0) 16 gw (world 16) = Fault OutOfBounds.
Proof.
  apply (model_oob (world 16) (Ptr 3 0) (tokens 16) 16 emb gw mparams
           (replicate num_blocks bw)).
  - apply world_tokens.
  - apply length_replicate.
  - apply world_model.
  - apply tokens_ok.
  - lia.
  - rewrite head_dim_val. lia.
Qed.

(** ** The further properties at work *)

Module PromptFacts.
Import IEEE Sample.

#[local] Opaque emb vocab max_pos num_blocks num_heads head_dim.

(** [initialize_weights] after a prompt of [n] tokens. *)
Lemma prompt_weights n t :
  exists h',
    initialize_weights 0 [] (prompt n t)
      = Ok ((init_rec 1, init_rands 0, [EvInitDone]), h') /\
    prompt n t `prefix_of` h' /\ weights_at h' 1 0.
Proof.
  destruct (initialize_weights_at (prompt n t) 0 []) as (h' & Hrun & Hp & Hat).
  exists h'. split; [exact Hrun|]. split; [exact Hp|exact Hat].
Qed.

Lemma prompt_tokens n t h' :
  prompt n t `prefix_of` h' -> is_ints h' (Ptr 0 0) (replicate n t).
Proof.
  intros Hp. apply (is_ints_prefix (prompt n t)); [|exact Hp].
  apply is_ints_block. unfold prompt. by rewrite fmap_replicate.
Qed.

Lemma ragged_row : is_mat ragged (Ptr 1 0) [ones 5].
Proof.
  split; [done|]. exists [VPtr (Ptr 0 0)]. split; [reflexivity|].
  intros i r Hi. destruct i as [|i]; [|done]. injection Hi as <-.
  exists (Ptr 0 0). split; [reflexivity|]. by apply is_vec_block.
Qed.

End PromptFacts.

Import PromptFacts.

(** [linear] on five ones and a row of five ones. *)
Lemma linear_ragged_faults_witness :
  linear (Ptr 0 0) (Ptr 1 0) (Ptr 0 0) (Z.of_nat (4 * 1 + 1)) (Z.of_nat 1) ragged
  = Fault OutOfBounds.
Proof.
  apply (linear_ragged_faults ragged 0 (Ptr 1 0) (Ptr 0 0) (ones 5) [ones 5]
           (ones 5) 1 1 1).
  - reflexivity.
  - apply ragged_row.
  - reflexivity.
  - reflexivity.
  - simpl. lia.
  - lia.
  - lia.
  - lia.
Defined.

(** [gelu] on five ones. *)
Lemma gelu_ragged_faults_witness :
  gelu (Ptr 0 0) (Z.of_nat (4 * 1 + 1)) ragged = Fault OutOfBounds.
Proof.
  apply (gelu_ragged_faults ragged 0 (ones 5) 1 1).
  - reflexivity.
  - reflexivity.
  - lia.
  - lia.
Defined.

(** [matrix_add] of a row of five ones to itself. *)
Lemma matrix_add_ragged_faults_witness :
  matrix_add (Ptr 1 0) (Ptr 1 0) (Z.of_nat 1) (Z.of_nat (4 * 1 + 1)) ragged
  = Fault OutOfBounds.
Proof.
  apply (matrix_add_ragged_faults ragged (Ptr 1 0) (Ptr 1 0) 0 (ones 5) (ones 5)
           [ones 5] 1 1 1).
  - split; [done|]. exists [VPtr (Ptr 0 0)]. split; reflexivity.
  - reflexivity.
  - apply ragged_row.
  - reflexivity.
  - reflexivity.
  - simpl. lia.
  - lia.
  - lia.
  - lia.
Defined.

(** [matrix_add] of two rows of four ones to themselves. *)
Lemma matrix_add_correct_witness :
  matrix_add (Ptr 1 0) (Ptr 1 0) (Z.of_nat 2) (Z.of_nat (4 * 1)) (world 0)
  = Ok (Ptr (length (world 0)) 0,
        world 0 ++ mat_blocks (length (world 0))
                     (matrix_add_spec (rows 2 4) (rows 2 4))).
Proof.
  pose proof vocab_Z as Hv.
  refine (proj1 (matrix_add_correct (world 0) (Ptr 1 0) (Ptr 1 0)
                   (rows 2 4) (rows 2 4) 2 1 _ _ _ _ _ _)).
  - apply world_rows; lia.
  - apply world_rows; lia.
  - reflexivity.
  - reflexivity.
  - apply (rows_cols 2 4).
  - apply (rows_cols 2 4).
Defined.

(** [positions_for] at the top of the range of int: the third sum wraps. *)
Lemma positions_for_correct_witness :
  positions_for (Ptr 0 0) (Z.of_nat 4) 2147483646 ([] : heap spec_float)
  = Ok (Ptr 0 0,
        [Some (VInt <$> [2147483646; 2147483647; -2147483648; -2147483647])]).
Proof.
  refine (proj1 (positions_for_correct [] (Ptr 0 0) 4 2147483646 _ _)); lia.
Defined.


(** [model] on no token. *)
Lemma model_empty_faults_witness :
  model (Ptr 3 0) 0 gw (world 0) = Fault OutOfBounds.
Proof.
  apply (model_empty_faults (world 0) (Ptr 3 0) emb gw mparams
           (replicate num_blocks bw)).
  - apply (world_tokens 0).
  - apply world_model.
Defined.

(** [model] with the weights of [initialize_weights] on the one token
    VOCAB_SIZE. *)
Lemma model_bad_token_faults_witness :
  exists h',
    initialize_weights 0 [] (prompt 1 50257)
      = Ok ((init_rec 1, init_rands 0, [EvInitDone]), h') /\
    model (Ptr 0 0) (Z.of_nat 1) (init_rec 1) h' = Fault OutOfBounds.
Proof.
  destruct (prompt_weights 1 50257) as (h' & Hrun & Hp & Hat).
  exists h'. split; [exact Hrun|].
  pose proof (weights_at_ok _ _ _ Hat) as Hok.
  destruct Hat as [[Hte _] _ _ _ _ _].
  eapply (model_bad_token_faults h' (Ptr 0 0) (replicate 1 50257) 0 1 emb 50257 1
           _ (init_rec 1) (init_params 0) (init_blocks 1)).
  - by apply prompt_tokens.
  - reflexivity.
  - exact Hok.
  - reflexivity.
  - exact Hte.
  - rewrite length_fmap, length_strided_ptrs. apply length_rand_rows.
  - reflexivity.
  - right. unfold VOCAB_SIZE. lia.
  - constructor.
  - lia.
Defined.

(** [model] with the weights of [initialize_weights] on 1025 tokens. *)
Lemma model_too_long_faults_witness :
  exists h',
    initialize_weights 0 [] (prompt 1025 0)
      = Ok ((init_rec 1, init_rands 0, [EvInitDone]), h') /\
    model (Ptr 0 0) (Z.of_nat 1025) (init_rec 1) h' = Fault OutOfBounds.
Proof.
  destruct (prompt_weights 1025 0) as (h' & Hrun & Hp & Hat).
  exists h'. split; [exact Hrun|].
  pose proof (weights_at_ok _ _ _ Hat) as Hok.
  destruct Hat as [_ [Hpe _] _ _ _ _].
  eapply (model_too_long_faults h' (Ptr 0 0) (replicate 1025 0) 1025 emb
           (wpe_at 1) _ (init_rec 1) (init_params 0) (init_blocks 1)).
  - by apply prompt_tokens.
  - apply length_replicate.
  - exact Hok.
  - reflexivity.
  - exact Hpe.
  - rewrite length_fmap, length_strided_ptrs. apply length_rand_rows.
  - apply Forall_take, Forall_replicate. unfold VOCAB_SIZE. lia.
  - rewrite max_pos_val. lia.
Defined.

(** What [block] on 64 positions leaves behind. *)
Lemma block_memory_account_witness :
  exists (s a : nat) h',
    block (Ptr 1 0) (Z.of_nat 64) (Z.of_nat emb) bw (world 64) = Ok (Ptr s 0, h') /\
    mat_at h' a (S a) 1 (attention_spec bparams (rows 64 emb)) /\
    (forall b, (length (world 64) <= b < s)%nat -> ~ (a <= b < a + 1 + 64)%nat ->
       h' !! b = Some None).
Proof.
  pose proof vocab_Z as Hv. pose proof emb_val as He.
  destruct (block_memory_account (world 64) (Ptr 1 0) (rows 64 emb) 64 emb
              bw bparams) as (s & a & h' & Hrun & _ & _ & _ & _ & _ & HA & _ & Hfr).
  - apply world_rows; lia.
  - apply length_rows.
  - apply rows_cols.
  - apply world_block.
  - right. rewrite head_dim_val. lia.
  - exists s, a, h'. split; [exact Hrun|]. split; [exact HA|exact Hfr].
Defined.

(** The argmax loop of [main] on integer logits 0 1 2 3 4 5 6 0 1 ... *)
Lemma main_argmax_first_max_witness :
  exists (m : nat) (v : Z),
    @main_argmax Z Z Exact.int_init (Ptr 0 0) Logits.shelf
      = Ok (Z.of_nat m, Logits.shelf) /\
    Logits.cycle !! m = Some v /\
    (forall y : Z, y ∈ Logits.cycle -> (y >? v) = false) /\
    (forall (j : nat) (y : Z), (j < m)%nat -> Logits.cycle !! j = Some y ->
       (v >? y) = true).
Proof.
  apply (@main_argmax_first_max Z Z Exact.int_init
           Logits.shelf (Ptr 0 0) Logits.cycle).
  - by apply is_vec_block.
  - unfold Logits.cycle. by rewrite length_fmap, length_seq.
  - intros u v _ _ Hgt. simpl in *. lia.
  - intros u v w _ _ _ Huv Hwv. simpl in *. lia.
Defined.
